(* ===== verification/_CoqProject ===== *)
-Q . S2P
Prelude.v
Datatypes.v
Replay.v
KeyLimit.v
Sha1.v
Md5.v
Hmac.v
Cipher.v
Gf28.v
AesTables.v
Aes.v
AesIcm.v
Stat.v
Prng.v
AesCbc.v
CryptoKernel.v
KernelRandom.v
Rfc3711.v
Srtp.v
SrtpObjects.v
SrtpPacket.v
SrtpSession.v
Srtcp.v
SrtpTemplate.v
SrtpRemove.v
SrtpCreate.v
Rtp.v
SrppMessage.v
Discovery.v
FilterState.v
Srpp.v
Signaling.v
Keep.v
Sip.v
Filter.v
FilterInv.v
FilterMedia.v
Sqrkal.v
