(* ===== verification/Prelude.v ===== *)
(** * Verification of the media-protection code of dionysius

    The repository is SQRKal: a packet filter that takes the RTP streams of a
    telephone call off the host, pads and masks them into SRPP messages and
    sends them on, so that the sizes and times of packets say less about the
    call.  Its parts, under [src/]:

    - [src/libSRPP]: SRPP messages ([include/SRPPMessage.hpp]), padding and dummy
      traffic ([src/Padding_functions.cpp], [src/Padding_Algorithms.cpp]), timers
      ([src/srpp_timer.cpp]), conversions from and to RTP, sending and receiving,
      the session ([src/SRPP_functions.cpp]), the signalling state machine
      ([include/Signaling_functions.hpp]) and its negotiation through SDP
      ([include/sdp_srpp.hpp]);
    - [src/sqrkal_discovery]: the packet filter itself, one loop on the queue of the
      firewall: it follows calls by their SIP messages, diverts their media, calls
      libSRPP and rewrites the IP and UDP headers;
    - [SQRKal.cpp]: the program, a command line with one padding option and the
      packet filter; [src/libSRPP/src/md5.cpp]: an MD5 class that is part of libSRPP;
    - [3rd_party/srtp]: libsrtp, the C library that protects RTP: SRTP and SRTCP
      sessions ([srtp/srtp.c]) on a kernel of ciphers (AES and its modes),
      authentication functions (HMAC-SHA1), replay databases and key limits.

    ** Files

    - [Prelude]: machine words, arrays, loops, byte order; their tactics ([words],
      [bitwise], [run], [loop], [eval_dec]) and hint databases ([words], [bits],
      [lens]).
    - [Datatypes]: [crypto/math/datatypes.c] and [crypto/include/datatypes.h],
      128-bit vectors, hexadecimal and base-64 strings.
    - [Replay]: [crypto/replay/rdbx.c] and [rdb.c], against the history of received
      indices.
    - [KeyLimit]: [crypto/kernel/key.c].
    - [Sha1]: [crypto/hash/sha1.c], with the FIPS 180 digest as specification.
    - [Md5]: [md5.cpp] and [md5.h] of libSRPP, against RFC 1321.
    - [Hmac]: [crypto/hash/auth.c], [hmac.c], [null_auth.c].  The interface
      [auth_type_t] is the class [AuthType]; [AuthSpec] is what its clients rely
      on; HMAC (RFC 2104) and the null function are instances, and the self test
      is verified against the class.
    - [Gf28], [AesTables], [Aes]: [crypto/math/gf2_8.c] and [crypto/cipher/aes.c]:
      the field, the tables of the source, and AES-128 in the two builds of the
      code (CISC little-endian, RISC big-endian, the two that configure.in supports)
      against FIPS 197.
    - [Cipher]: [crypto/cipher/cipher.c] and [null_cipher.c].  The interface
      [cipher_type_t] is the class [CipherType]; [StreamSpec] and the contract of the
      self test are what clients rely on.
    - [AesIcm], [AesCbc]: [crypto/cipher/aes_icm.c] and [aes_cbc.c], counter mode and
      CBC with and without padding, against SP 800-38A.
    - [Stat]: [crypto/math/stat.c], statistical tests after FIPS 140-2, with doubles as
      rounded multiples of powers of two; the module [Fips] is the standard.  [Prng]: [crypto/rng/rand_source.c], [ctr_prng.c] and
      [prng.c], a random device and two generators on it; each is a source the tests
      of [Stat] apply to.
    - [CryptoKernel]: [crypto/kernel/crypto_kernel.c], the registry of types, the
      initialisation with its self tests, and objects of any type.  [KernelRandom]: the
      initialisation on a random device, with [Stat] and [Prng].
    - [Rfc3711]: key derivation and packet formats of RFC 3711, as a reference; no
      code is modelled there.
    - [Srtp]: [srtp/srtp.c] and [include/srtp.h], all operations on sessions, streams
      and packets, as computations on a heap of shared objects.
    - [SrtpObjects]: what SRTP relies on of ciphers and authentication functions, and
      the rules to run computations.  [SrtpPacket], [Srtcp]: protected RTP and RTCP
      packets.  [SrtpSession]: key derivation and the creation of sessions.
      [SrtpTemplate], [SrtpRemove], [SrtpCreate]: sources that become known by their
      packets and share the template's objects, removal and deallocation, sessions of
      several streams and a template.
    - [Rtp]: [test/rtp.c] and [include/rtp.h], the sender and the receiver of the sample
      application, on sessions of [Srtp].
    - [SrppMessage]: the message, its layout on the wire, the mask.
    - [Srpp]: padding, dummy cache, timers, conversions, transmission.
    - [Signaling]: HELLO, HELLOACK, BYE, BYEACK; session start and stop; the
      handler of received datagrams; SDP options.
    - [Discovery]: memory of packets, checksums, fragments, directions and ports in
      the packet filter.  [FilterState]: its globals, and [send_rtp_message], through
      which libSRPP sends.  [Sip]: firewall rules, SIP and SDP parsing ([parse_sip]).
      [Filter]: [process_packet], [receive_rtp_message], through which libSRPP receives,
      the start of a session, the main loop.
    - [Keep]: a logic for what every run of a computation keeps of the filter's
      globals, with the lemmas for libSRPP.  [FilterInv]: the invariant of the filter and
      the end of its recursion.  [FilterMedia]: SIP and media packets from end to end.
    - [Sqrkal]: [main] of [SQRKal.cpp], the setters of the padding options, the object
      that holds the filter, and the whole running program as a relation, with a logic
      like that of [Keep] for what libSRPP keeps of its own globals.

    ** Conventions

    The host is little-endian with 32-bit [int] and 64-bit [long], except where a
    build is named (in [Sip] the width of [size_t] is a parameter).  A w-bit integer is the [Z] it denotes and wraps explicitly
    ([wrap], [swrap]).  Octet strings are lists of [Z].  An access outside of an
    array, or of a cell that was never written, is [None], and [None] propagates;
    a theorem that an operation returns [Some] thus includes memory safety.  A signed
    operation that overflows, which C leaves undefined, is taken in two's complement
    ([sha1_update] from 2^28 octets on), and the sequence counter of libSRPP
    ([lastSequenceNo], an [int] of which only 16 bits are used) is a [Z]; the overrun of
    the two characters of [srpp_ttl_s] is not a fault of the model.
    Error codes of libsrtp are values of [err_status_t].

    libsrtp allocates: [Srtp] has the heap in the record [world], with a finite map for
    each kind of object; pointers are numbers, memory that was given back is absent,
    and an access to it is [None].  [M] is the monad of computations on that heap with
    early returns of a status.  The answers of the allocator and what new memory and
    local variables hold are part of the heap, so that theorems hold for all of them.
    [KernelEnv] is what the kernel finds at run time (memory, test results).

    libSRPP keeps its state in globals: [Srpp] has them in the record [world] and
    writes its operations in a state monad whose runs are [Done], [Wait] (for a
    datagram) or [Fault].  What the program does not determine (the time of day,
    [rand()] after a seed, memory it has not written, the status of a send) is the
    class [Env]; theorems hold for every [Env] that meets [env_ok], which says
    that [rand()] is between 0 and 2^31 - 1 and that memory holds octets, and the
    witnesses use a concrete one.  The filter's globals are the field [host] of that
    record, because libSRPP calls the filter back; the class [Net] is what the filter
    finds (interfaces, names, results of commands and system calls).

    ** Fuel

    [dummy_data_loop] gets as many turns as octets are asked for: it returns
    because no entry of the cache is empty, so that every turn adds an octet
    ([dummy_data_loop_runs]); on an empty entry the code loops forever and the
    model faults.  [receive_message] gets one unit for each datagram it may take;
    the theorems name the number they need.  [receive_rtp_message] gets one unit for
    each call; one more than there are messages in the queue is enough
    ([receive_fuel_enough]), since each call takes one.  The walks along the list of streams get
    the number of streams in the heap: a list that ends visits none twice
    ([chain_nodup], [chain_length]), and on a circular one the code loops forever and
    the model is undefined.  The other loops are structural, or loops over a range of
    indices.

    ** What the theorems show

    - Crypto: AES-128, SHA-1, MD5, HMAC-SHA1 and GF(2^8) compute their standards, for
      every input, within their arrays; decryption inverts encryption; the self
      tests of authentication functions and ciphers decide whether their outputs are
      right; counter mode is AES-CM and CBC is CBC, in any pieces; the kernel comes up
      secure exactly when memory and tests allow.
    - Random numbers: the statistical tests decide FIPS 140-2 up to two differences
      that the theorem names (the bounds of the monobit test, the last run); the test
      of a source is the tests on what it delivers; the generator of the
      kernel is a keystream of AES-CM, survives its own test, and runs dry after
      65535 blocks; the second generator is the recurrence of ANSI X9.17 with the
      time where the standard has the encrypted time.
    - SRTP: sessions made by [srtp_create] are well-formed, for every list of supported
      policies with at most one wildcard, with the keys RFC 3711 derives; protected RTP and RTCP packets are
      those of RFC 3711, and come back through the peer; replayed and forged packets
      are refused without effect; sources under a template get streams of their own;
      streams are removed and sessions, with a template or without, deallocated with all
      they own.  The exceptions
      (the first stream of a list, the last SRTCP index) are theorems too.  A sender and a
      receiver on top of two sessions exchange any number of texts up to 2^47, through
      every wrap of the sequence number.
    - Replay and key limits: after packets that arrive in order, the database decides
      membership in their history within its window; a key reports its limits on the right packet.  Late
      packets, skipped SRTCP indices and rollover are where the code departs
      from that, stated as theorems too.
    - SRPP: a packet that is converted, padded, masked, sent, received, unmasked
      and converted back has its payload and header, when no octet masks to NUL and
      it has padding; padding has the sizes the
      options promise; dummies are recognised and numbered apart from packets;
      the handshake agrees on key and maximum size.  The theorems named in the
      findings state what is lost: octets that mask to NUL, messages without
      padding, contributing sources, BYE, media under in-band signalling.
    - Packet filter: a media packet of an SRTP call passes two filters unchanged,
      masked and padded in between; INVITE, 200 OK and ACK establish a call and its
      firewall rules, all or none; SIP messages of one fragment are sent on with their
      text, unless media is received while one is handled, when it is handled as media
      too ([bye_taken_for_media]); media is
      diverted only after an INVITE and an ACK, whatever arrives; the recursion
      between the filter and libSRPP ends; the IP checksum verifies; fragments carry the
      data but for the octets the checksum routine clears.  Media of plain RTP calls
      is lost to an overrun ([forward_rtp_overruns]); other losses are theorems too.
    - Program: the option of the command line is in force in every state the program
      reaches, in which every packet is converted and padded as the option says
      ([program_pads]), except that [--min-prob-bin] means small perturbation; when the program ends, the rules for SIP are gone
      ([main_exit]), those for media are not ([stop_keeps_media_rules]).

    ** Not modelled

    - What sockets, the packet queue and firewall commands do outside of the program
      (what it hands to them is modelled), console output (the printers of messages,
      [crypto/kernel/err.c], [srtp_event_reporter], the list commands of the kernel), the
      pacing of the timer signal ([setitimer]).
    - [SQRKal_functions.cpp]: [main] returns before its functions are called.
    - [srtp_to_srpp] and the form of [srpp_to_srtp] on structures: they read a structure
      as a C string or follow a pointer that was never set, so that the code does not
      determine what they do; nothing calls them.
    - The 32-bit and the big-endian build of [srtp/srtp.c], the builds of the random
      source without a device; [crypto/math/math.c] and [crypto/ae_xfm/xfm.c], which
      are not linked into the library; [crypto/replay/ut_sim.c] and the test programs of
      libsrtp, other than [rtp.c].
    - libzrtp, zfone and ccRTP under [3rd_party]: separate programs and libraries the
      sources above do not call.

    AES-CBC can be named in an SRTP policy and is part of the model, but the theorems on
    packets are for counter mode and the null cipher, the ones whose keys SRTP derives
    correctly. *)

From Stdlib Require Export ZArith Lia Bool Btauto.
From stdpp Require Export base tactics numbers list option.

#[global] Open Scope Z_scope.

(** ** Machine words

    A w-bit unsigned integer is the [Z] it denotes; [wrap w] is the reduction
    C performs when a value is converted to (or an operation overflows in)
    such a type, and [swrap w] is the conversion to a signed type of width [w]
    on a two's-complement machine. *)

Definition wrap (w z : Z) : Z := z mod 2 ^ w.

Definition swrap (w z : Z) : Z := (z + 2 ^ (w - 1)) mod 2 ^ w - 2 ^ (w - 1).

Abbreviation u8 := (wrap 8).
Abbreviation u16 := (wrap 16).
Abbreviation u32 := (wrap 32).
Abbreviation u64 := (wrap 64).
Abbreviation s32 := (swrap 32).

(** [is_word w x]: [x] is a value of an unsigned w-bit type. *)
Definition is_word (w x : Z) : Prop := 0 <= x < 2 ^ w.

#[global] Instance is_word_dec w x : Decision (is_word w x).
Proof. unfold is_word. apply _. Defined.

Declare Scope word_scope.
Delimit Scope word_scope with W.
Infix "&" := Z.land (at level 40, left associativity) : word_scope.
Infix "|||" := Z.lor (at level 50, left associativity) : word_scope.
Infix "^^" := Z.lxor (at level 45, left associativity) : word_scope.
Infix ">>" := Z.shiftr (at level 34, left associativity) : word_scope.
(** left shift of a 32-bit word: the bits that leave the word are lost *)
Notation "x <<32 n" := (wrap 32 (Z.shiftl x n))
  (at level 34, left associativity) : word_scope.
#[global] Open Scope word_scope.

(** ** Arrays

    A C array is the list of its elements.  An access outside of the array is
    undefined in C: it is [None] here, and [None] propagates. *)

Definition aget {A} (l : list A) (i : Z) : option A :=
  if 0 <=? i then l !! Z.to_nat i else None.

Definition aset {A} (l : list A) (i : Z) (x : A) : option (list A) :=
  if (0 <=? i) && (i <? Z.of_nat (length l))
  then Some (<[Z.to_nat i := x]> l) else None.

(** ** Loops

    [for_up n i f s] is the loop [for (k = i; k < i + n; k++)] with body [f k]
    on the state [s]; [for_down n i f s] counts [k] down from [i].  Both stop
    at the first undefined access of the body. *)

Fixpoint for_up {St} (n : nat) (i : Z) (f : Z → St → option St) (s : St) : option St :=
  match n with
  | O => Some s
  | S n => s' ← f i s; for_up n (i + 1) f s'
  end.

Fixpoint for_down {St} (n : nat) (i : Z) (f : Z → St → option St) (s : St) : option St :=
  match n with
  | O => Some s
  | S n => s' ← f i s; for_down n (i - 1) f s'
  end.

(** [for_range lo hi f s]: [for (i = lo; i < hi; i++)]. *)
Definition for_range {St} (lo hi : Z) (f : Z → St → option St) (s : St) : option St :=
  for_up (Z.to_nat (hi - lo)) lo f s.

(** [for_range_down hi lo f s]: [for (i = hi; i > lo; i--)]. *)
Definition for_range_down {St} (hi lo : Z) (f : Z → St → option St) (s : St) : option St :=
  for_down (Z.to_nat (hi - lo)) hi f s.

(** Local arrays start uninitialised: their cells are [option]s, and reading a
    cell that was never written is undefined too. *)
Definition uninit {A} (n : nat) : list (option A) := replicate n None.

Definition vget {A} (l : list (option A)) (i : Z) : option A := x ← aget l i; x.

Definition vset {A} (l : list (option A)) (i : Z) (x : A) : option (list (option A)) :=
  aset l i (Some x).

(** ** Bytes and byte order *)

(** big-endian value of a byte string, as [ntohl] and the like see it *)
Fixpoint be_val (l : list Z) : Z :=
  match l with
  | [] => 0
  | b :: l => b * 2 ^ (8 * Z.of_nat (length l)) + be_val l
  end.

(** the [n] low-order bytes of [x], most significant byte first *)
Fixpoint be_bytes (n : nat) (x : Z) : list Z :=
  match n with
  | O => []
  | S n => u8 (x >> (8 * Z.of_nat n)) :: be_bytes n x
  end.

(** little-endian value and bytes: the layout of integers in memory on the
    hosts the model describes *)
Definition le_val (l : list Z) : Z := be_val (rev l).
Definition le_bytes (n : nat) (x : Z) : list Z := rev (be_bytes n x).

(** byte swap of a 32-bit word: [htonl], [ntohl], [be32_to_cpu] on a
    little-endian host; [bswap16] is [htons] *)
Definition bswap32 (x : Z) : Z := be_val (le_bytes 4 x).
Definition bswap16 (x : Z) : Z := be_val (le_bytes 2 x).

Definition is_bytes (l : list Z) : Prop := Forall (is_word 8) l.
Definition is_words (l : list Z) : Prop := Forall (is_word 32) l.

#[global] Instance is_bytes_dec l : Decision (is_bytes l).
Proof. unfold is_bytes. apply _. Defined.
#[global] Instance is_words_dec l : Decision (is_words l).
Proof. unfold is_words. apply _. Defined.

(** byte-wise exclusive or of two strings (the shorter one ends it) *)
Definition xor_bytes (a b : list Z) : list Z := zip_with Z.lxor a b.

(** ** Automation for words *)

Create HintDb words.
Create Rewrite HintDb lens.
Create Rewrite HintDb bits.

Lemma wrap_range w z : 0 <= w → is_word w (wrap w z).
Proof. intros Hw. apply Z.mod_pos_bound. lia. Qed.

Lemma wrap_small w z : is_word w z → wrap w z = z.
Proof. apply Z.mod_small. Qed.

(** a signed integer that is small enough *)
Lemma s32_small z : 0 <= z < 2 ^ 31 → s32 z = z.
Proof. intros. unfold swrap. change (32 - 1) with 31. rewrite Z.mod_small by lia. lia. Qed.

Lemma wrap_wrap w z : wrap w (wrap w z) = wrap w z.
Proof. apply Zmod_mod. Qed.

Lemma wrap_testbit w z n : 0 <= w → Z.testbit (wrap w z) n = (n <? w) && Z.testbit z n.
Proof.
  intros Hw. unfold wrap. destruct (Z.ltb_spec n w); simpl.
  - destruct (Z.ltb_spec n 0); [by rewrite !Z.testbit_neg_r by lia|].
    by rewrite Z.mod_pow2_bits_low by lia.
  - by rewrite Z.mod_pow2_bits_high by lia.
Qed.

Lemma word_testbit_high w x n : is_word w x → 0 <= w <= n → Z.testbit x n = false.
Proof.
  intros Hx Hn. rewrite <-(wrap_small w x Hx), wrap_testbit by lia.
  destruct (Z.ltb_spec n w); [lia|done].
Qed.

Lemma word_of_bits w x :
  0 <= w → 0 <= x → (∀ n, w <= n → Z.testbit x n = false) → is_word w x.
Proof.
  intros Hw Hx Hb. split; [done|].
  enough (wrap w x = x) as <- by (apply wrap_range; lia).
  apply Z.bits_inj'. intros n Hn. rewrite wrap_testbit by lia.
  destruct (Z.ltb_spec n w); simpl; [done|]. by rewrite Hb.
Qed.

Lemma word_lxor w x y : 0 <= w → is_word w x → is_word w y → is_word w (Z.lxor x y).
Proof.
  intros Hw Hx Hy. apply word_of_bits; [done| |].
  - apply Z.lxor_nonneg. unfold is_word in *. lia.
  - intros n Hn. by rewrite Z.lxor_spec, !(word_testbit_high w).
Qed.

Lemma word_lor w x y : 0 <= w → is_word w x → is_word w y → is_word w (Z.lor x y).
Proof.
  intros Hw Hx Hy. apply word_of_bits; [done| |].
  - apply Z.lor_nonneg. unfold is_word in *. lia.
  - intros n Hn. by rewrite Z.lor_spec, !(word_testbit_high w).
Qed.

Lemma word_land w x y : 0 <= w → is_word w x → 0 <= y → is_word w (Z.land x y).
Proof.
  intros Hw Hx Hy. apply word_of_bits; [done| |].
  - apply Z.land_nonneg. lia.
  - intros n Hn. by rewrite Z.land_spec, (word_testbit_high w x).
Qed.

Lemma word_shiftr w x n : 0 <= w → 0 <= n → is_word w x → is_word w (Z.shiftr x n).
Proof.
  intros Hw Hn Hx. apply word_of_bits; [done| |].
  - apply Z.shiftr_nonneg. unfold is_word in *. lia.
  - intros m Hm. rewrite Z.shiftr_spec by lia. by rewrite (word_testbit_high w) by (done || lia).
Qed.

Lemma word_mono w v x : 0 <= w <= v → is_word w x → is_word v x.
Proof.
  intros Hw Hx. unfold is_word in *.
  pose proof (Z.pow_le_mono_r 2 w v). lia.
Qed.

Lemma word_0 w : 0 <= w → is_word w 0.
Proof. intros. unfold is_word. lia. Qed.

#[export] Hint Resolve word_0 wrap_range word_lxor word_lor word_land word_shiftr : words.
#[export] Hint Extern 1 (0 <= _) => lia : words.
#[export] Hint Extern 1 (_ <= _ <= _) => lia : words.

(** [words]: closes "this expression is a w-bit word". *)
Ltac words := auto 12 with words.

Lemma testbit_shiftl a n m :
  0 <= n → Z.testbit (Z.shiftl a n) m = (n <=? m) && Z.testbit a (m - n).
Proof.
  intros Hn. destruct (Z.leb_spec n m); simpl.
  - by rewrite Z.shiftl_spec by lia.
  - destruct (Z.ltb_spec m 0); [by rewrite Z.testbit_neg_r by lia|].
    by rewrite Z.shiftl_spec_low by lia.
Qed.

Lemma testbit_shiftr a n m :
  0 <= n → Z.testbit (Z.shiftr a n) m = (0 <=? m) && Z.testbit a (m + n).
Proof.
  intros Hn. destruct (Z.leb_spec 0 m); simpl.
  - by rewrite Z.shiftr_spec by lia.
  - by rewrite Z.testbit_neg_r by lia.
Qed.

Lemma testbit_lnot a m : Z.testbit (Z.lnot a) m = (0 <=? m) && negb (Z.testbit a m).
Proof.
  destruct (Z.leb_spec 0 m); simpl.
  - by rewrite Z.lnot_spec by lia.
  - by rewrite Z.testbit_neg_r by lia.
Qed.

Lemma testbit_one m : Z.testbit 1 m = (m =? 0).
Proof. destruct (Z.eqb_spec m 0) as [->|]; [done|]. by destruct m as [|[]|]. Qed.

Lemma testbit_ones n m : 0 <= n → Z.testbit (Z.ones n) m = (0 <=? m) && (m <? n).
Proof.
  intros Hn. destruct (Z.leb_spec 0 m), (Z.ltb_spec m n); simpl;
    rewrite ?Z.testbit_neg_r, ?Z.ones_spec_low, ?Z.ones_spec_high by lia; done.
Qed.

#[export] Hint Rewrite Z.lxor_spec Z.land_spec Z.lor_spec Z.ldiff_spec Z.testbit_0_l
  testbit_lnot testbit_one : bits.
#[export] Hint Rewrite testbit_shiftl testbit_shiftr wrap_testbit testbit_ones
  using lia : bits.

(** [bitwise]: equality of two word expressions, one bit at a time: the
    expressions are pushed to bits of the variables, every comparison of bit
    positions is decided or split, and bits above a word are zero. *)
Ltac bit_high :=
  repeat match goal with
  | H : is_word ?w ?x |- context [Z.testbit ?x ?n] =>
      rewrite (word_testbit_high w x n H) by lia
  | |- context [Z.testbit ?x ?n] => rewrite (Z.testbit_neg_r x n) by lia
  end.

Ltac bit_cases :=
  repeat (match goal with
  | |- context [?a <? ?b] => destruct (Z.ltb_spec a b)
  | |- context [?a <=? ?b] => destruct (Z.leb_spec a b)
  | |- context [?a =? ?b] => destruct (Z.eqb_spec a b)
  end; try lia; simpl).

Ltac bit_align :=
  repeat match goal with
  | |- context [Z.testbit ?x ?n] =>
      match goal with
      | |- context [Z.testbit x ?m] =>
          lazymatch n with m => fail | _ => replace m with n by lia end
      end
  end.

Ltac bitwise_core :=
  autorewrite with bits; bit_cases; bit_high; bit_align;
  try reflexivity; try btauto.

Ltac bitwise := apply Z.bits_inj'; intros ?n ?Hn; bitwise_core.

(** concatenation of a high part and an [n]-bit low part *)
Lemma lor_shiftl_add n a b :
  0 <= n → is_word n b → Z.lor (Z.shiftl a n) b = a * 2 ^ n + b.
Proof.
  intros Hn Hb. rewrite <-Z.shiftl_mul_pow2 by lia.
  assert (Z.land (Z.shiftl a n) b = 0) as H0.
  { apply Z.bits_inj'. intros m Hm. bitwise_core. }
  rewrite <-Z.lxor_lor by done. symmetry. by apply Z.add_nocarry_lxor.
Qed.

(** ** Lemmas on byte strings *)

Lemma length_be_bytes n x : length (be_bytes n x) = n.
Proof. induction n; simpl; congruence. Qed.

Lemma length_le_bytes n x : length (le_bytes n x) = n.
Proof. unfold le_bytes. by rewrite length_rev, length_be_bytes. Qed.

Lemma length_xor_bytes a b : length (xor_bytes a b) = Nat.min (length a) (length b).
Proof. apply length_zip_with. Qed.

#[export] Hint Rewrite length_be_bytes length_le_bytes length_xor_bytes : lens.

Lemma be_bytes_range n x : is_bytes (be_bytes n x).
Proof. induction n; constructor; [apply wrap_range; lia|done]. Qed.

Lemma be_val_range l : is_bytes l → is_word (8 * Z.of_nat (length l)) (be_val l).
Proof.
  unfold is_word. induction 1 as [|b l Hb _ IH]; simpl length; simpl be_val; [lia|].
  unfold is_word in Hb. rewrite Nat2Z.inj_succ.
  replace (8 * Z.succ (Z.of_nat (length l))) with (8 + 8 * Z.of_nat (length l)) by lia.
  rewrite Z.pow_add_r by lia. nia.
Qed.

(** printing then reading [n] bytes keeps the low [8 n] bits *)
Lemma be_val_be_bytes n x : be_val (be_bytes n x) = wrap (8 * Z.of_nat n) x.
Proof.
  induction n as [|n IH]; simpl be_bytes; simpl be_val.
  - unfold wrap. simpl. by rewrite Z.mod_1_r.
  - rewrite length_be_bytes, IH, Nat2Z.inj_succ. unfold wrap.
    rewrite Z.shiftr_div_pow2 by lia.
    replace (8 * Z.succ (Z.of_nat n)) with (8 * Z.of_nat n + 8) by lia.
    rewrite Z.pow_add_r, Z.rem_mul_r by lia. lia.
Qed.

Lemma be_bytes_be_val l : is_bytes l → be_bytes (length l) (be_val l) = l.
Proof.
  intros Hl. induction Hl as [|b l Hb Hl IH]; simpl; [done|].
  pose proof (be_val_range l Hl) as Hr. unfold is_word in *.
  set (k := 8 * Z.of_nat (length l)) in *.
  assert (0 <= k) by lia.
  f_equal.
  - rewrite Z.shiftr_div_pow2, Z.div_add_l by lia.
    rewrite Z.div_small by lia. rewrite Z.add_0_r. by apply wrap_small.
  - transitivity (be_bytes (length l) (be_val l)); [|done]. clear IH Hl.
    enough (∀ n y, 8 * Z.of_nat n <= k → be_bytes n (b * 2 ^ k + y) = be_bytes n y) as Hgen
      by (apply Hgen; lia).
    induction n as [|n IHn]; intros y Hn; simpl; [done|].
    rewrite IHn by lia. f_equal.
    rewrite !Z.shiftr_div_pow2 by lia.
    replace k with (8 + (k - 8 - 8 * Z.of_nat n) + 8 * Z.of_nat n) at 1 by lia.
    rewrite !Z.pow_add_r by lia. rewrite Z.mul_assoc, Z.div_add_l by lia.
    unfold wrap.
    replace (b * (2 ^ 8 * 2 ^ (k - 8 - 8 * Z.of_nat n)))
      with (b * 2 ^ (k - 8 - 8 * Z.of_nat n) * 2 ^ 8) by lia.
    rewrite Z.add_comm, Z.mod_add by lia. done.
Qed.

Lemma be_bytes_app n m x :
  be_bytes (n + m) x = be_bytes n (x >> (8 * Z.of_nat m)) ++ be_bytes m x.
Proof.
  induction n as [|n IH]; [done|]. simpl. rewrite IH. f_equal. rewrite Z.shiftr_shiftr by lia.
  do 2 f_equal. lia.
Qed.

(** the octets of a word do not depend on what is above them *)
Lemma be_bytes_wrap n w x : 8 * Z.of_nat n <= w → be_bytes n (wrap w x) = be_bytes n x.
Proof.
  induction n as [|n IH]; intros Hw; [done|]. cbn [be_bytes]. rewrite IH by lia. f_equal. bitwise.
Qed.

Lemma be_val_app a b :
  be_val (a ++ b) = be_val a * 2 ^ (8 * Z.of_nat (length b)) + be_val b.
Proof.
  induction a as [|x a IH]; simpl; [lia|].
  rewrite IH, length_app, Nat2Z.inj_add, Z.mul_add_distr_l, Z.pow_add_r by lia. lia.
Qed.

Lemma le_val_le_bytes n x : le_val (le_bytes n x) = wrap (8 * Z.of_nat n) x.
Proof. unfold le_val, le_bytes. by rewrite rev_involutive, be_val_be_bytes. Qed.

Lemma is_bytes_rev l : is_bytes l → is_bytes (rev l).
Proof.
  unfold is_bytes. rewrite !List.Forall_forall.
  intros H x Hx. apply H. by apply in_rev.
Qed.

Lemma le_bytes_le_val l : is_bytes l → le_bytes (length l) (le_val l) = l.
Proof.
  intros Hl. unfold le_bytes, le_val.
  rewrite <-(length_rev l), be_bytes_be_val by by apply is_bytes_rev.
  apply rev_involutive.
Qed.

Lemma bswap32_involutive x : is_word 32 x → bswap32 (bswap32 x) = x.
Proof.
  intros Hx. unfold bswap32, le_bytes.
  replace (be_bytes 4 (be_val (rev (be_bytes 4 x)))) with (rev (be_bytes 4 x)).
  - rewrite rev_involutive, be_val_be_bytes. by apply wrap_small.
  - rewrite <-(be_bytes_be_val (rev (be_bytes 4 x))) at 1
      by apply is_bytes_rev, be_bytes_range.
    by rewrite length_rev, length_be_bytes.
Qed.

Lemma is_bytes_app a b : is_bytes (a ++ b) ↔ is_bytes a ∧ is_bytes b.
Proof. apply Forall_app. Qed.

Lemma is_bytes_take n l : is_bytes l → is_bytes (take n l).
Proof. apply Forall_take. Qed.

Lemma is_bytes_drop n l : is_bytes l → is_bytes (drop n l).
Proof. apply Forall_drop. Qed.

Lemma is_bytes_replicate n x : is_word 8 x → is_bytes (replicate n x).
Proof. intros Hx. by apply Forall_replicate. Qed.

Lemma is_bytes_xor a b : is_bytes a → is_bytes b → is_bytes (xor_bytes a b).
Proof.
  intros Ha. revert b. induction Ha as [|x a Hx _ IH]; intros b Hb; [constructor|].
  destruct Hb as [|y b Hy Hb]; [constructor|]. constructor; [by words|by apply IH].
Qed.

#[export] Hint Resolve is_bytes_take is_bytes_drop is_bytes_replicate is_bytes_xor
  is_bytes_rev be_bytes_range : words.

(** [eval_dec]: a decidable proposition on closed terms, by evaluation *)
Ltac eval_dec := refine (bool_decide_unpack _ _); vm_compute; exact I.

(** the first step of a computation is done; as a rewriting rule, for terms that
    must not be evaluated any further *)
Lemma Some_bind {A B} (f : A → option B) (x : A) : (Some x ≫= f) = f x.
Proof. done. Qed.

(** a decidable property of small words, by enumeration *)
Lemma word_forall (w : Z) (P : Z → bool) :
  forallb P (map Z.of_nat (seq 0 (Z.to_nat (2 ^ w)))) = true → ∀ x, is_word w x → P x = true.
Proof.
  rewrite forallb_forall. intros HP x [Hx0 Hx]. apply HP. apply in_map_iff.
  exists (Z.to_nat x). split; [lia|]. apply in_seq. lia.
Qed.

(** ** Lemmas on arrays *)

Lemma aget_lookup {A} (l : list A) i : 0 <= i → aget l i = l !! Z.to_nat i.
Proof. intros. unfold aget. by destruct (Z.leb_spec 0 i); [|lia]. Qed.

Lemma aget_is_Some {A} (l : list A) i :
  is_Some (aget l i) ↔ 0 <= i < Z.of_nat (length l).
Proof.
  unfold aget. destruct (Z.leb_spec 0 i).
  - rewrite lookup_lt_is_Some. lia.
  - split; [intros [? [=]]|lia].
Qed.

Lemma aset_Some {A} (l : list A) i x :
  0 <= i < Z.of_nat (length l) → aset l i x = Some (<[Z.to_nat i := x]> l).
Proof.
  intros. unfold aset.
  by destruct (Z.leb_spec 0 i), (Z.ltb_spec i (Z.of_nat (length l))); try lia.
Qed.

Lemma aset_inv {A} (l l' : list A) i x :
  aset l i x = Some l' → 0 <= i < Z.of_nat (length l) ∧ l' = <[Z.to_nat i := x]> l.
Proof.
  unfold aset. destruct (Z.leb_spec 0 i), (Z.ltb_spec i (Z.of_nat (length l)));
    simpl; intros [= <-]; split; (done || lia).
Qed.

(** ** Evaluation of loops and accesses at concrete indices *)

(** [run]: symbolic execution of array code whose indices are numerals; the
    word operations are left alone. *)
Ltac run_to_nat :=
  repeat match goal with
  | |- context [Z.to_nat ?z] =>
      let n := eval vm_compute in (Z.to_nat z) in
      lazymatch n with O => idtac | S _ => idtac end;
      change (Z.to_nat z) with n
  end.

Ltac run :=
  unfold for_range, for_range_down in *;
  repeat first
    [ progress run_to_nat
    | progress (cbn -[Z.shiftl Z.shiftr Z.land Z.lor Z.lxor wrap Z.lnot Z.testbit Z.pow
                      is_word]) ].

(** ** Loop invariants *)

Lemma for_up_inv {St} (P : Z → St → Prop) (f : Z → St → option St) n i s :
  P i s →
  (∀ k s, i <= k < i + Z.of_nat n → P k s → ∃ s', f k s = Some s' ∧ P (k + 1) s') →
  ∃ s', for_up n i f s = Some s' ∧ P (i + Z.of_nat n) s'.
Proof.
  revert i s. induction n as [|n IH]; intros i s Hi Hstep; simpl.
  - exists s. split; [done|]. by rewrite Z.add_0_r.
  - destruct (Hstep i s) as (s1 & -> & H1); [lia|done|]. simpl.
    destruct (IH (i + 1) s1 H1) as (s2 & -> & H2).
    { intros k s' Hk. apply Hstep. lia. }
    exists s2. split; [done|]. by replace (i + Z.of_nat (S n)) with (i + 1 + Z.of_nat n) by lia.
Qed.

(** the rule for [for (i = lo; i < hi; i++)] *)
Lemma for_range_inv {St} (P : Z → St → Prop) (f : Z → St → option St) lo hi s :
  lo <= hi → P lo s →
  (∀ k s, lo <= k < hi → P k s → ∃ s', f k s = Some s' ∧ P (k + 1) s') →
  ∃ s', for_range lo hi f s = Some s' ∧ P hi s'.
Proof.
  intros Hle Hlo Hstep. unfold for_range.
  destruct (for_up_inv P f (Z.to_nat (hi - lo)) lo s Hlo) as (s' & -> & Hs').
  - intros k s' Hk. apply Hstep. lia.
  - exists s'. split; [done|]. by replace (lo + Z.of_nat (Z.to_nat (hi - lo))) with hi in Hs' by lia.
Qed.

(** [loop P as pat]: the first loop of the goal runs to its end, with the
    invariant [P]; the goals are the bounds, [P] at the start, the body, and
    the rest of the goal *)
Tactic Notation "loop" constr(P) "as" simple_intropattern(pat) :=
  match goal with
  | |- context [for_range ?lo ?hi ?f ?s] => destruct (for_range_inv P f lo hi s) as pat
  end.

Lemma for_range_empty {St} (f : Z → St → option St) lo hi s :
  hi <= lo → for_range lo hi f s = Some s.
Proof. intros. unfold for_range. by replace (Z.to_nat (hi - lo)) with 0%nat by lia. Qed.

(** the last iteration of a loop *)
Lemma for_range_last {St} (f : Z → St → option St) lo hi s :
  lo <= hi → for_range lo (hi + 1) f s = for_range lo hi f s ≫= f hi.
Proof.
  intros Hle. unfold for_range. replace (Z.to_nat (hi + 1 - lo)) with (S (Z.to_nat (hi - lo))) by lia.
  remember (Z.to_nat (hi - lo)) as n eqn:Hn. revert lo s Hle Hn.
  induction n as [|n IH]; intros lo s Hle Hn.
  - replace hi with lo by lia. simpl. by destruct (f lo s).
  - change (for_up (S (S n)) lo f s) with (s' ← f lo s; for_up (S n) (lo + 1) f s').
    cbn [for_up]. destruct (f lo s) as [s'|]; [|done]. rewrite !Some_bind. apply IH; lia.
Qed.

(** a loop that writes [g i] at each index [i] *)
Lemma for_range_fill {A} (g : Z → A) lo hi (l : list A) f :
  0 <= lo → lo <= hi <= Z.of_nat (length l) →
  (∀ k l', lo <= k < hi → length l' = length l → f k l' = aset l' k (g k)) →
  ∃ l', for_range lo hi f l = Some l' ∧ length l' = length l ∧
    (∀ j, lo <= Z.of_nat j < hi → l' !! j = Some (g (Z.of_nat j))) ∧
    (∀ j, ~ (lo <= Z.of_nat j < hi) → l' !! j = l !! j).
Proof.
  intros Hlo Hhi Hf.
  apply (for_range_inv (λ k l', length l' = length l ∧
    (∀ j, lo <= Z.of_nat j < k → l' !! j = Some (g (Z.of_nat j))) ∧
    (∀ j, ~ (lo <= Z.of_nat j < k) → l' !! j = l !! j))); [lia| |].
  - split_and!; [done|lia|done].
  - intros k l' Hk (Hlen & Hin & Hout). rewrite (Hf k l') by (done || lia).
    rewrite aset_Some by lia. eexists. split; [done|].
    rewrite length_insert. split_and!; [done| |].
    + intros j Hj. destruct (decide (j = Z.to_nat k)) as [->|Hne].
      * rewrite list_lookup_insert_eq by lia. by rewrite Z2Nat.id by lia.
      * rewrite list_lookup_insert_ne by done. apply Hin. lia.
    + intros j Hj. rewrite list_lookup_insert_ne by lia. apply Hout. lia.
Qed.

Lemma vget_Some {A} (l : list (option A)) i x :
  0 <= i → l !! Z.to_nat i = Some (Some x) → vget l i = Some x.
Proof. intros Hi Hl. unfold vget. by rewrite aget_lookup, Hl by done. Qed.

Lemma vset_Some {A} (l : list (option A)) i x :
  0 <= i < Z.of_nat (length l) → vset l i x = Some (<[Z.to_nat i := Some x]> l).
Proof. apply aset_Some. Qed.

(** accesses to the second part of an array *)
Lemma aget_app_r {A} (pre l : list A) i :
  0 <= i → aget (pre ++ l) (Z.of_nat (length pre) + i) = aget l i.
Proof.
  intros Hi. rewrite !aget_lookup by lia. rewrite lookup_app_r by lia. f_equal. lia.
Qed.

Lemma aset_app_r {A} (pre l : list A) i x :
  0 <= i → aset (pre ++ l) (Z.of_nat (length pre) + i) x = l ← aset l i x; Some (pre ++ l).
Proof.
  intros Hi. unfold aset. rewrite length_app.
  destruct (Z.leb_spec 0 i), (Z.leb_spec 0 (Z.of_nat (length pre) + i)),
    (Z.ltb_spec i (Z.of_nat (length l))),
    (Z.ltb_spec (Z.of_nat (length pre) + i) (Z.of_nat (length pre + length l))); try lia; simpl; [|done].
  rewrite insert_app_r_alt by lia. do 3 f_equal. lia.
Qed.

(** ** Loops that do the same *)

Lemma for_range_ext {St} (f g : Z → St → option St) lo hi s :
  (∀ i s, lo <= i < hi → f i s = g i s) → for_range lo hi f s = for_range lo hi g s.
Proof.
  unfold for_range. intros H. assert (lo + Z.of_nat (Z.to_nat (hi - lo)) <= Z.max lo hi) as Hn by lia.
  generalize dependent (Z.to_nat (hi - lo)). intros n Hn. revert lo s H Hn.
  induction n as [|n IH]; intros lo s H Hn; simpl; [done|].
  rewrite H by lia. destruct (g lo s); simpl; [|done]. apply IH; [|lia]. intros. apply H. lia.
Qed.

(** a loop on a part [s] of the state [h s] *)
Lemma for_range_sim {St T} (h : St → T) (P : St → Prop) (f : Z → T → option T)
    (g : Z → St → option St) lo hi s :
  P s →
  (∀ i s, lo <= i < hi → P s →
     f i (h s) = (s' ← g i s; Some (h s')) ∧ ∀ s', g i s = Some s' → P s') →
  for_range lo hi f (h s) = (s' ← for_range lo hi g s; Some (h s')).
Proof.
  unfold for_range. intros Hs H.
  assert (lo + Z.of_nat (Z.to_nat (hi - lo)) <= Z.max lo hi) as Hn by lia.
  generalize dependent (Z.to_nat (hi - lo)). intros n Hn. revert lo s Hs H Hn.
  induction n as [|n IH]; intros lo s Hs H Hn; simpl; [done|].
  destruct (H lo s) as [-> HP]; [lia|done|].
  destruct (g lo s) as [s'|]; simpl; [|done]. apply IH; [by apply HP| |lia]. intros. apply H; [lia|done].
Qed.

(** a loop that combines the cells of two arrays *)
Lemma zip_loop {A B} (g : A → B → A) (l : list A) (m : list B) :
  length l = length m →
  for_range 0 (Z.of_nat (length l)) (λ i l, o ← aget l i; x ← aget m i; aset l i (g o x)) l =
    Some (zip_with g l m).
Proof.
  intros Hl.
  loop (λ k l', l' = zip_with g (take (Z.to_nat k) l) (take (Z.to_nat k) m) ++ drop (Z.to_nat k) l)
    as (l' & -> & ->); [lia|done| |].
  - intros k l' Hk ->.
    destruct (lookup_lt_is_Some_2 l (Z.to_nat k)) as [x Hx]; [lia|].
    destruct (lookup_lt_is_Some_2 m (Z.to_nat k)) as [y Hy]; [lia|].
    set (d := zip_with g _ _). assert (length d = Z.to_nat k) as Hd
      by (unfold d; rewrite length_zip_with, !length_take; lia).
    rewrite (drop_S _ _ _ Hx), !aget_lookup, Hy, <-Hd, (list_lookup_middle d) by (done || lia).
    cbn [mbind option_bind]. rewrite aset_Some by (rewrite length_app; simpl; lia).
    rewrite insert_app_r_alt, Hd, Nat.sub_diag by lia. eexists. split; [done|].
    replace (Z.to_nat (k + 1)) with (S (Z.to_nat k)) by lia.
    rewrite (take_S_r _ _ _ Hx), (take_S_r _ _ _ Hy), zip_with_app, <-app_assoc
      by (rewrite !length_take; lia). done.
  - rewrite Nat2Z.id. by rewrite Hl at 2; rewrite !firstn_all, drop_all, app_nil_r.
Qed.
