(* ===== verification/Datatypes.v ===== *)
(** * Basic data types of libsrtp

    Models [crypto/include/err.h], [crypto/include/datatypes.h] and
    [crypto/math/datatypes.c]: the status codes, the 128-bit vector [v128_t]
    with its bit and shift operations, the printing and parsing of octet
    strings, and the octet-string helpers.  A [v128_t] is the list of its four
    32-bit words ([v32]); [v128_octets] is the [v8] view of the same union on a
    little-endian host. *)

From S2P Require Import Prelude.

(** ** Status codes *)

Inductive err_status_t : Type :=
  | err_status_ok
  | err_status_fail
  | err_status_bad_param
  | err_status_alloc_fail
  | err_status_dealloc_fail
  | err_status_init_fail
  | err_status_terminus
  | err_status_auth_fail
  | err_status_cipher_fail
  | err_status_replay_fail
  | err_status_replay_old
  | err_status_algo_fail
  | err_status_no_such_op
  | err_status_no_ctx
  | err_status_cant_check
  | err_status_key_expired
  | err_status_socket_err
  | err_status_signal_err
  | err_status_nonce_bad
  | err_status_read_fail
  | err_status_write_fail
  | err_status_parse_err
  | err_status_encode_err
  | err_status_semaphore_err
  | err_status_pfkey_err.

#[global] Instance err_status_eq_dec : EqDecision err_status_t.
Proof. solve_decision. Defined.

(** ** The 128-bit vector *)

Abbreviation v128_t := (list Z) (only parsing).

Definition v128_wf (x : v128_t) : Prop := length x = 4%nat ∧ is_words x.

Definition v128_octets (x : v128_t) : list Z := concat (map (le_bytes 4) x).

Definition v128_set_to_zero (x : v128_t) : v128_t := [0; 0; 0; 0].

Definition v128_copy (x y : v128_t) : v128_t := y.

Definition v128_xor (x y : v128_t) : v128_t := zip_with Z.lxor x y.

Definition v128_and (x y : v128_t) : v128_t := zip_with Z.land x y.

Definition v128_or (x y : v128_t) : v128_t := zip_with Z.lor x y.

Definition v128_complement (x : v128_t) : v128_t := map (λ w, u32 (Z.lnot w)) x.

Definition v128_is_eq (x y : v128_t) : bool := bool_decide (x = y).

Definition v128_get_bit (x : v128_t) (bit : Z) : option Z :=
  w ← aget x (bit >> 5); Some ((w >> (bit & 31)) & 1).

Definition v128_set_bit (x : v128_t) (bit : Z) : option v128_t :=
  w ← aget x (bit >> 5); aset x (bit >> 5) (w ||| (1 <<32 (bit & 31))).

Definition v128_clear_bit (x : v128_t) (bit : Z) : option v128_t :=
  w ← aget x (bit >> 5); aset x (bit >> 5) (w & u32 (Z.lnot (1 <<32 (bit & 31)))).

Definition v128_set_bit_to (x : v128_t) (bit value : Z) : option v128_t :=
  if decide (value = 0) then v128_clear_bit x bit else v128_set_bit x bit.

Definition v128_right_shift (x : v128_t) (index : Z) : option v128_t :=
  let base_index := index >> 5 in
  let bit_index := index & 31 in
  if decide (index > 127) then Some (v128_set_to_zero x) else
  x ← (if decide (bit_index = 0) then
         w ← aget x (4 - 1 - base_index);
         x ← aset x (4 - 1) w;
         for_range_down (4 - 1) base_index (λ i x,
           w ← aget x (i - 1 - base_index); aset x (i - 1) w) x
       else
         for_range_down 4 base_index (λ i x,
           let from := i - 1 - base_index in
           w ← aget x from;
           let b := w <<32 bit_index in
           b ← (if decide (from > 0) then
                  w' ← aget x (from - 1); Some (b ||| (w' >> (32 - bit_index)))
                else Some b);
           aset x (i - 1) b) x);
  for_range 0 base_index (λ i x, aset x i 0) x.

Definition v128_left_shift (x : v128_t) (index : Z) : option v128_t :=
  let base_index := index >> 5 in
  let bit_index := index & 31 in
  if decide (index > 127) then Some (v128_set_to_zero x) else
  x ← (if decide (bit_index = 0) then
         for_range 0 (4 - base_index) (λ i x,
           w ← aget x (i + base_index); aset x i w) x
       else
         x ← for_range 0 (4 - base_index - 1) (λ i x,
           w ← aget x (i + base_index);
           w' ← aget x (i + base_index + 1);
           aset x i ((w >> bit_index) ^^ (w' <<32 (32 - bit_index)))) x;
         w ← aget x (4 - 1);
         aset x (4 - base_index - 1) (w >> bit_index));
  for_range (4 - base_index) 4 (λ i x, aset x i 0) x.

Definition v128_copy_octet_string (s : list Z) : option v128_t :=
  s ← (if decide (16 <= length s)%nat then Some (take 16 s) else None);
  Some [le_val (take 4 s); le_val (take 4 (drop 4 s));
        le_val (take 4 (drop 8 s)); le_val (take 4 (drop 12 s))].

(** ** Octets and hexadecimal strings *)

Definition octet_weight : list Z := [
  0; 1; 1; 2; 1; 2; 2; 3;  1; 2; 2; 3; 2; 3; 3; 4;
  1; 2; 2; 3; 2; 3; 3; 4;  2; 3; 3; 4; 3; 4; 4; 5;
  1; 2; 2; 3; 2; 3; 3; 4;  2; 3; 3; 4; 3; 4; 4; 5;
  2; 3; 3; 4; 3; 4; 4; 5;  3; 4; 4; 5; 4; 5; 5; 6;
  1; 2; 2; 3; 2; 3; 3; 4;  2; 3; 3; 4; 3; 4; 4; 5;
  2; 3; 3; 4; 3; 4; 4; 5;  3; 4; 4; 5; 4; 5; 5; 6;
  2; 3; 3; 4; 3; 4; 4; 5;  3; 4; 4; 5; 4; 5; 5; 6;
  3; 4; 4; 5; 4; 5; 5; 6;  4; 5; 5; 6; 5; 6; 6; 7;
  1; 2; 2; 3; 2; 3; 3; 4;  2; 3; 3; 4; 3; 4; 4; 5;
  2; 3; 3; 4; 3; 4; 4; 5;  3; 4; 4; 5; 4; 5; 5; 6;
  2; 3; 3; 4; 3; 4; 4; 5;  3; 4; 4; 5; 4; 5; 5; 6;
  3; 4; 4; 5; 4; 5; 5; 6;  4; 5; 5; 6; 5; 6; 6; 7;
  2; 3; 3; 4; 3; 4; 4; 5;  3; 4; 4; 5; 4; 5; 5; 6;
  3; 4; 4; 5; 4; 5; 5; 6;  4; 5; 5; 6; 5; 6; 6; 7;
  3; 4; 4; 5; 4; 5; 5; 6;  4; 5; 5; 6; 5; 6; 6; 7;
  4; 5; 5; 6; 5; 6; 6; 7;  5; 6; 6; 7; 6; 7; 7; 8].

Definition octet_get_weight (octet : Z) : option Z := aget octet_weight octet.

Definition nibble_to_hex_char (nibble : Z) : option Z :=
  aget [48; 49; 50; 51; 52; 53; 54; 55; 56; 57; 97; 98; 99; 100; 101; 102]
    (nibble & 15).

Definition MAX_PRINT_STRING_LEN : Z := 1024.

(** [bit_string] is the static output buffer: its contents are threaded. *)
Definition octet_string_hex_string (bit_string s : list Z) (length : Z) : option (list Z) :=
  let length := length * 2 in
  let length := if decide (length > MAX_PRINT_STRING_LEN)
                then MAX_PRINT_STRING_LEN - 1 else length in
  let n := (length + 1) / 2 in
  b ← for_range 0 n (λ k b,
    c ← aget s k;
    h ← nibble_to_hex_char (c >> 4);
    b ← aset b (2 * k) h;
    l ← nibble_to_hex_char (c & 15);
    aset b (2 * k + 1) l) bit_string;
  aset b (2 * Z.max 0 n) 0.

Definition hex_char_to_nibble (c : Z) : Z :=
  match c with
  | 48 => 0x0 | 49 => 0x1 | 50 => 0x2 | 51 => 0x3 | 52 => 0x4
  | 53 => 0x5 | 54 => 0x6 | 55 => 0x7 | 56 => 0x8 | 57 => 0x9
  | 97 => 0xa | 65 => 0xa | 98 => 0xb | 66 => 0xb | 99 => 0xc | 67 => 0xc
  | 100 => 0xd | 68 => 0xd | 101 => 0xe | 69 => 0xe | 102 => 0xf | 70 => 0xf
  | _ => -1
  end.

(** the string must be NUL-terminated: running off its end is undefined *)
Fixpoint is_hex_string (s : list Z) : option Z :=
  match s with
  | [] => None
  | c :: s =>
      if decide (c = 0) then Some 1
      else if decide (hex_char_to_nibble c = -1) then Some 0
      else is_hex_string s
  end.

(** [hex_string_to_octet_string raw hex len]: the loop of the C function, with
    the octets written so far in [raw] order; [fuel] bounds the iterations. *)
Fixpoint hex_to_octets_loop (fuel : nat) (hex raw : list Z) (hex_len len : Z)
  : option (Z * list Z) :=
  match fuel with
  | O => None
  | S fuel =>
      if decide (hex_len < len) then
        c0 ← aget hex 0;
        let tmp := hex_char_to_nibble c0 in
        if decide (tmp = -1) then Some (hex_len, raw) else
        let x := u8 (Z.shiftl tmp 4) in
        c1 ← aget hex 1;
        let tmp := hex_char_to_nibble c1 in
        if decide (tmp = -1) then Some (hex_len + 1, raw) else
        let x := u8 (x ||| (tmp & 255)) in
        hex_to_octets_loop fuel (drop 2 hex) (raw ++ [x]) (hex_len + 1 + 1) len
      else Some (hex_len, raw)
  end.

Definition hex_string_to_octet_string (hex : list Z) (len : Z) : option (Z * list Z) :=
  hex_to_octets_loop (S (Z.to_nat len)) hex [] 0 len.

Definition v128_hex_string (bit_string : list Z) (x : v128_t) : option (list Z) :=
  b ← for_range 0 16 (λ i b,
    c ← aget (v128_octets x) i;
    h ← nibble_to_hex_char (c >> 4);
    b ← aset b (2 * i) h;
    l ← nibble_to_hex_char (c & 15);
    aset b (2 * i + 1) l) bit_string;
  aset b 32 0.

(** the mask of the inner loop runs through 0x80000000, ..., 2, 1 *)
Definition v128_bit_string (bit_string : list Z) (x : v128_t) : option (list Z) :=
  b ← for_range 0 4 (λ j b,
    w ← aget x j;
    for_range 0 32 (λ k b,
      let mask := 0x80000000 >> k in
      aset b (32 * j + k) (if decide (w & mask = 0) then 48 else 49)) b) bit_string;
  aset b 128 0.

(** ** Octet strings *)

(** 1 when the first [len] octets differ, 0 when they agree *)
Fixpoint octet_string_is_eq_loop (n : nat) (a b : list Z) : option Z :=
  match n with
  | O => Some 0
  | S n =>
      match a, b with
      | x :: a, y :: b => if decide (x = y) then octet_string_is_eq_loop n a b else Some 1
      | _, _ => None
      end
  end.

Definition octet_string_is_eq (a b : list Z) (len : Z) : option Z :=
  octet_string_is_eq_loop (Z.to_nat len) a b.

(** a [do ... while] loop: the first octet is written whatever [len] is *)
Definition octet_string_set_to_zero (s : list Z) (len : Z) : option (list Z) :=
  for_range 0 (Z.max 1 len) (λ i s, aset s i 0) s.

(** ** Base 64 *)

Definition base64_char_to_sextet (c : Z) : Z :=
  match c with
  | 65 => 0 | 66 => 1 | 67 => 2 | 68 => 3 | 69 => 4 | 70 => 5
  | 71 => 6 | 72 => 7 | 73 => 8 | 74 => 9 | 75 => 10 | 76 => 11
  | 77 => 12 | 78 => 13 | 79 => 14 | 80 => 15 | 81 => 16 | 82 => 17
  | 83 => 18 | 84 => 19 | 85 => 20 | 86 => 21 | 87 => 22 | 88 => 23
  | 89 => 24 | 90 => 25 | 97 => 26 | 98 => 27 | 99 => 28 | 100 => 29
  | 101 => 30 | 102 => 31 | 103 => 32 | 104 => 33 | 105 => 34 | 106 => 35
  | 107 => 36 | 108 => 37 | 109 => 38 | 110 => 39 | 111 => 40 | 112 => 41
  | 113 => 42 | 114 => 43 | 115 => 44 | 116 => 45 | 117 => 46 | 118 => 47
  | 119 => 48 | 120 => 49 | 121 => 50 | 122 => 51 | 48 => 52 | 49 => 53
  | 50 => 54 | 51 => 55 | 52 => 56 | 53 => 57 | 54 => 58 | 55 => 59
  | 56 => 60  | 57 => 61  | 43 => 62  | 47 => 63  | 61 => 64
  | _ => -1
  end.

Fixpoint base64_to_octets_loop (fuel : nat) (base64 raw : list Z) (base64_len len : Z)
  : option (Z * list Z) :=
  match fuel with
  | O => None
  | S fuel =>
      if decide (base64_len < len) then
        c0 ← aget base64 0;
        let tmp := base64_char_to_sextet c0 in
        if decide (tmp = -1) then Some (base64_len, raw) else
        let x := u8 (Z.shiftl tmp 6) in
        c1 ← aget base64 1;
        let tmp := base64_char_to_sextet c1 in
        if decide (tmp = -1) then Some (base64_len + 1, raw) else
        let x := u8 (x ||| (tmp & 0xffff)) in
        base64_to_octets_loop fuel (drop 2 base64) (raw ++ [x]) (base64_len + 1 + 1) len
      else Some (base64_len, raw)
  end.

Definition base64_string_to_octet_string (base64 : list Z) (len : Z) : option (Z * list Z) :=
  base64_to_octets_loop (S (Z.to_nat len)) base64 [] 0 len.

(** ** Loops over octet strings *)

(** the comparison loops of the self tests *)
Lemma compare_loop n (a b : list Z) :
  0 <= n <= Z.of_nat (length a) → n <= Z.of_nat (length b) →
  for_range 0 n (λ i status,
      x ← aget a i; y ← aget b i;
      Some (if decide (x ≠ y) then err_status_algo_fail else status)) err_status_ok =
    Some (if bool_decide (take (Z.to_nat n) a = take (Z.to_nat n) b)
          then err_status_ok else err_status_algo_fail).
Proof.
  intros Ha Hb. loop (λ k s, s = if bool_decide (take (Z.to_nat k) a = take (Z.to_nat k) b)
    then err_status_ok else err_status_algo_fail) as (s & -> & ->); [lia|done| |done].
  intros k s Hk ->.
  destruct (lookup_lt_is_Some_2 a (Z.to_nat k)) as [x Hx]; [lia|].
  destruct (lookup_lt_is_Some_2 b (Z.to_nat k)) as [y Hy]; [lia|].
  rewrite !aget_lookup, Hx, Hy by lia. simpl. eexists. split; [done|].
  replace (Z.to_nat (k + 1)) with (S (Z.to_nat k)) by lia.
  rewrite (take_S_r _ _ _ Hx), (take_S_r _ _ _ Hy).
  destruct (decide (x ≠ y)) as [Hne|He].
  - rewrite bool_decide_false; [done|]. intros E. apply app_inj_2 in E as [_ E]; [|done].
    by simplify_eq.
  - apply dec_stable in He as ->. erewrite bool_decide_ext; [done|].
    split; [by intros ->|by intros [-> _]%app_inj_2].
Qed.

(** the loops that copy octets *)
Lemma copy_out src n res :
  0 <= n <= Z.of_nat (length src) → n <= Z.of_nat (length res) →
  for_range 0 n (λ i (res : list Z), b ← aget src i; aset res i b) res =
    Some (take (Z.to_nat n) src ++ drop (Z.to_nat n) res).
Proof.
  intros Hn Hr. loop (λ k l, l = take (Z.to_nat k) src ++ drop (Z.to_nat k) res)
    as (l & -> & ->); [lia|done| |done].
  intros k l Hk ->. destruct (lookup_lt_is_Some_2 src (Z.to_nat k)) as [x Hx]; [lia|].
  rewrite aget_lookup, Hx by lia. cbn [mbind option_bind].
  rewrite aset_Some by (rewrite length_app, length_take, length_drop; lia).
  eexists. split; [done|]. replace (Z.to_nat (k + 1)) with (S (Z.to_nat k)) by lia.
  rewrite (take_S_r _ _ _ Hx), <-app_assoc. rewrite insert_app_r_alt by (rewrite length_take; lia).
  f_equal. rewrite length_take. replace (Z.to_nat k - Nat.min _ _)%nat with 0%nat by lia.
  destruct (lookup_lt_is_Some_2 res (Z.to_nat k)) as [y Hy]; [lia|].
  by rewrite (drop_S _ _ _ Hy).
Qed.

(** the first [n] octets of a string are cleared, the others stay *)
Lemma zero_loop n (s : list Z) :
  0 <= n <= Z.of_nat (length s) →
  for_range 0 n (λ i s, aset s i 0) s =
    Some (replicate (Z.to_nat n) 0 ++ drop (Z.to_nat n) s).
Proof.
  intros Hn. loop (λ k l, l = replicate (Z.to_nat k) 0 ++ drop (Z.to_nat k) s)
    as (l & -> & ->); [lia|done| |done].
  intros k l Hk ->. rewrite aset_Some by (rewrite length_app, length_replicate, length_drop; lia).
  eexists. split; [done|]. replace (Z.to_nat (k + 1)) with (S (Z.to_nat k)) by lia.
  rewrite replicate_S_end, <-app_assoc.
  rewrite insert_app_r_alt by (rewrite length_replicate; lia). f_equal.
  rewrite length_replicate, Nat.sub_diag.
  destruct (lookup_lt_is_Some_2 s (Z.to_nat k)) as [y Hy]; [lia|].
  by rewrite (drop_S _ _ _ Hy).
Qed.

Lemma zeroed n (s : list Z) :
  n <= Z.of_nat (length s) → s ≠ [] →
  octet_string_set_to_zero s n =
    Some (replicate (Z.to_nat (Z.max 1 n)) 0 ++ drop (Z.to_nat (Z.max 1 n)) s).
Proof.
  intros Hn Hs. apply zero_loop. destruct s; [done|simpl in *; lia].
Qed.

(** ** The vector as a 128-bit integer *)

Fixpoint v128_val (x : v128_t) : Z :=
  match x with
  | [] => 0
  | w :: x => w ||| Z.shiftl (v128_val x) 32
  end.

Lemma v128_wf_inv x :
  v128_wf x → ∃ a b c d, x = [a; b; c; d] ∧
    is_word 32 a ∧ is_word 32 b ∧ is_word 32 c ∧ is_word 32 d.
Proof.
  intros [Hl Hw]. destruct x as [|a [|b [|c [|d [|]]]]]; try discriminate Hl.
  unfold is_words in Hw. rewrite !Forall_cons_iff in Hw. destruct Hw as (?&?&?&?&_). by exists a, b, c, d.
Qed.

Lemma v128_wf_intro a b c d :
  is_word 32 a → is_word 32 b → is_word 32 c → is_word 32 d → v128_wf [a; b; c; d].
Proof. intros. split; [done|]. unfold is_words. rewrite !Forall_cons_iff. auto. Qed.

Lemma v128_val_nonneg x : is_words x → 0 <= v128_val x.
Proof.
  induction 1 as [|w x Hw _ IH]; simpl; [done|].
  apply Z.lor_nonneg. rewrite Z.shiftl_nonneg. unfold is_word in Hw. lia.
Qed.

Lemma v128_val_range x : v128_wf x → is_word 128 (v128_val x).
Proof.
  intros Hx. pose proof (v128_val_nonneg x (proj2 Hx)).
  destruct (v128_wf_inv x Hx) as (a & b & c & d & -> & Ha & Hb & Hc & Hd).
  apply word_of_bits; [done..|].
  intros n Hn. simpl. by bitwise_core.
Qed.

Lemma land31_range i : 0 <= i & 31 < 32.
Proof. change 31 with (Z.ones 5). rewrite Z.land_ones by lia. apply Z.mod_pos_bound. lia. Qed.

Lemma split_bit_index i : i = 32 * (i >> 5) + (i & 31).
Proof.
  change 31 with (Z.ones 5). rewrite Z.land_ones, Z.shiftr_div_pow2 by lia.
  apply Z.div_mod. lia.
Qed.

(** [bit_index i]: replace the word and bit positions of [0 <= i < 128] by a
    concrete word number and a variable in [0, 32). *)
Ltac bit_index i :=
  let b := fresh "base" in let k := fresh "k" in
  pose proof (split_bit_index i); pose proof (land31_range i);
  generalize dependent (i & 31); intros k;
  generalize dependent (i >> 5); intros b; intros;
  assert (b = 0 ∨ b = 1 ∨ b = 2 ∨ b = 3) as [-> | [-> | [-> | ->]]] by lia.

Lemma v128_get_bit_val x i :
  v128_wf x → 0 <= i < 128 →
  v128_get_bit x i = Some (Z.b2z (Z.testbit (v128_val x) i)).
Proof.
  intros (a & b & c & d & -> & Ha & Hb & Hc & Hd)%v128_wf_inv Hi.
  unfold v128_get_bit. bit_index i; run; f_equal;
  change 1 with (Z.ones 1); rewrite Z.land_ones, <-Z.bit0_mod by lia;
  f_equal; subst i; bitwise_core.
Qed.

Lemma v128_set_bit_val x i :
  v128_wf x → 0 <= i < 128 →
  ∃ x', v128_set_bit x i = Some x' ∧ v128_wf x' ∧
    v128_val x' = Z.lor (v128_val x) (Z.shiftl 1 i).
Proof.
  intros (a & b & c & d & -> & Ha & Hb & Hc & Hd)%v128_wf_inv Hi.
  unfold v128_set_bit. bit_index i; run;
    (eexists; split; [reflexivity|split; [apply v128_wf_intro; words|]]);
    simpl; subst i; bitwise.
Qed.

Lemma v128_left_shift_val x i :
  v128_wf x → 0 <= i →
  ∃ x', v128_left_shift x i = Some x' ∧ v128_wf x' ∧
    v128_val x' = Z.shiftr (v128_val x) i.
Proof.
  intros (a & b & c & d & -> & Ha & Hb & Hc & Hd)%v128_wf_inv Hi.
  unfold v128_left_shift. case_decide.
  - eexists. split; [reflexivity|split; [by apply v128_wf_intro|]].
    symmetry. apply Z.bits_inj'. intros n Hn. simpl. bitwise_core.
  - bit_index i; case_decide; run; 
    (eexists; split; [reflexivity|split; [apply v128_wf_intro; words|]]);
    simpl; subst i; bitwise.
Qed.

Lemma v128_right_shift_val x i :
  v128_wf x → 0 <= i →
  ∃ x', v128_right_shift x i = Some x' ∧ v128_wf x' ∧
    v128_val x' = wrap 128 (Z.shiftl (v128_val x) i).
Proof.
  intros (a & b & c & d & -> & Ha & Hb & Hc & Hd)%v128_wf_inv Hi.
  unfold v128_right_shift. case_decide.
  - eexists. split; [reflexivity|split; [by apply v128_wf_intro|]].
    simpl; bitwise.
  - bit_index i; case_decide; run;
    (eexists; split; [reflexivity|split; [apply v128_wf_intro; words|]]);
    simpl; subst i; bitwise.
Qed.

(** the vector shifts are the shifts of the 128-bit integer the four words
    hold ([left] moves bits towards bit 0, as the replay code expects), they
    stay inside of the array, and from 128 positions on they clear it. *)
Theorem v128_shifts_spec x i :
  v128_wf x → 0 <= i →
  (∃ l, v128_left_shift x i = Some l ∧ v128_wf l ∧ v128_val l = Z.shiftr (v128_val x) i) ∧
  (∃ r, v128_right_shift x i = Some r ∧ v128_wf r ∧
     v128_val r = wrap 128 (Z.shiftl (v128_val x) i)).
Proof.
  intros Hx Hi. split; [by apply v128_left_shift_val|by apply v128_right_shift_val].
Qed.

Lemma v128_shifts_spec_witness :
  (∃ l, v128_left_shift [5; 0; 0; 1] 33 = Some l ∧ v128_wf l ∧
     v128_val l = Z.shiftr (v128_val [5; 0; 0; 1]) 33) ∧
  (∃ r, v128_right_shift [5; 0; 0; 1] 33 = Some r ∧ v128_wf r ∧
     v128_val r = wrap 128 (Z.shiftl (v128_val [5; 0; 0; 1]) 33)).
Proof.
  apply (v128_shifts_spec [5; 0; 0; 1] 33); [|lia].
  apply v128_wf_intro; unfold is_word; lia.
Defined.

(** ** Properties of octet strings *)

Definition popcount8 (x : Z) : Z :=
  foldr (λ i a, Z.b2z (Z.testbit x (Z.of_nat i)) + a) 0 (seq 0 8).

(** a fact about every octet, checked by running through them *)
Lemma octet_forall (P : Z → bool) :
  forallb P (map Z.of_nat (seq 0 256)) = true → ∀ x, is_word 8 x → P x = true.
Proof.
  rewrite forallb_forall. intros H x [Hx0 Hx]. apply H. apply in_map_iff.
  exists (Z.to_nat x). split; [lia|]. apply in_seq. lia.
Qed.

(** The table [octet_weight] holds the Hamming weight of every octet. *)
Theorem octet_get_weight_spec x :
  is_word 8 x → octet_get_weight x = Some (popcount8 x).
Proof.
  intros Hx.
  pose proof (octet_forall (λ x, bool_decide (octet_get_weight x = Some (popcount8 x)))
    ltac:(by vm_compute) x Hx) as Hb.
  by apply bool_decide_eq_true in Hb.
Qed.

Lemma octet_get_weight_spec_witness : octet_get_weight 0xb7 = Some 6.
Proof. apply (octet_get_weight_spec 0xb7). unfold is_word. lia. Defined.

(** the two digits of an octet *)
Definition hex_digits (c : Z) : list Z :=
  match nibble_to_hex_char (c >> 4), nibble_to_hex_char (c & 15) with
  | Some h, Some l => [h; l]
  | _, _ => []
  end.

Lemma hex_digits_spec c :
  is_word 8 c → ∃ h l,
    nibble_to_hex_char (c >> 4) = Some h ∧ nibble_to_hex_char (c & 15) = Some l ∧
    hex_char_to_nibble h ≠ -1 ∧ hex_char_to_nibble l ≠ -1 ∧
    u8 (u8 (Z.shiftl (hex_char_to_nibble h) 4) ||| (hex_char_to_nibble l & 255)) = c.
Proof.
  intros Hc.
  pose proof (octet_forall (λ c,
    match nibble_to_hex_char (c >> 4), nibble_to_hex_char (c & 15) with
    | Some h, Some l =>
        negb (hex_char_to_nibble h =? -1) && negb (hex_char_to_nibble l =? -1) &&
        (u8 (u8 (Z.shiftl (hex_char_to_nibble h) 4) ||| (hex_char_to_nibble l & 255)) =? c)
    | _, _ => false
    end) ltac:(by vm_compute) c Hc) as Hb. simpl in Hb.
  destruct (nibble_to_hex_char (c >> 4)) as [h|]; [|done].
  destruct (nibble_to_hex_char (c & 15)) as [l|]; [|done].
  rewrite !andb_true_iff, !negb_true_iff, !Z.eqb_neq, Z.eqb_eq in Hb.
  exists h, l. by destruct Hb as [[??]?].
Qed.

Definition hex_string (s : list Z) : list Z := concat (map hex_digits s).

Lemma length_hex_string s : is_bytes s → length (hex_string s) = (2 * length s)%nat.
Proof.
  induction 1 as [|c s Hc _ IH]; [done|].
  unfold hex_string in *. simpl. rewrite length_app, IH. unfold hex_digits.
  destruct (hex_digits_spec c Hc) as (h & l & -> & -> & _). simpl. lia.
Qed.

(** replacing two consecutive cells *)
Lemma aset_pair (p r : list Z) k a b :
  length p = (2 * k)%nat → (2 <= length r)%nat →
  (x ← aset (p ++ r) (2 * Z.of_nat k) a; aset x (2 * Z.of_nat k + 1) b)
  = Some ((p ++ [a; b]) ++ drop 2 r).
Proof.
  intros Hp Hr. destruct r as [|r0 [|r1 r]]; simpl in Hr; [lia..|].
  rewrite aset_Some by (rewrite length_app; simpl; lia). simpl.
  rewrite aset_Some by (rewrite length_insert, length_app; simpl; lia).
  replace (Z.to_nat (2 * Z.of_nat k)) with (length p + 0)%nat by lia.
  replace (Z.to_nat (2 * Z.of_nat k + 1)) with (length p + 1)%nat by lia.
  rewrite !insert_app_r. simpl. by rewrite <-app_assoc.
Qed.

Lemma hex_write_loop (l s p r : list Z) k :
  is_bytes l → drop k s = l → length p = (2 * k)%nat → (2 * length l <= length r)%nat →
  for_up (length l) (Z.of_nat k) (λ k b,
    c ← aget s k;
    h ← nibble_to_hex_char (c >> 4);
    b ← aset b (2 * k) h;
    l ← nibble_to_hex_char (c & 15);
    aset b (2 * k + 1) l) (p ++ r)
  = Some (p ++ hex_string l ++ drop (2 * length l) r).
Proof.
  intros Hl. revert k p r. induction Hl as [|c l Hc Hl IH]; intros k p r Hs Hp Hr.
  - simpl. by rewrite drop_0.
  - simpl for_up. rewrite aget_lookup, Nat2Z.id by lia.
    assert (s !! k = Some c) as Hk.
    { rewrite <-(Nat.add_0_r k), <-lookup_drop, Hs. done. }
    rewrite Hk. simpl. destruct (hex_digits_spec c Hc) as (h & lo & Eh & El & _).
    rewrite Eh, El. simpl in Hr |- *.
    pose proof (aset_pair p r k h lo Hp ltac:(lia)) as Hset.
    destruct (aset (p ++ r) (2 * Z.of_nat k) h) as [x|] eqn:Ex; [|done]. simpl in *.
    rewrite Hset. simpl.
    replace (Z.of_nat k + 1) with (Z.of_nat (S k)) by lia.
    rewrite IH.
    + f_equal. unfold hex_string, hex_digits. simpl. rewrite Eh, El.
      rewrite drop_drop, <-!app_assoc. simpl. repeat f_equal; lia.
    + rewrite <-(Nat.add_1_r k), <-drop_drop, Hs. done.
    + rewrite length_app, Hp. simpl. lia.
    + rewrite length_drop. lia.
Qed.

Lemma hex_print s buf :
  is_bytes s → (2 * length s < 1024)%nat → length buf = 1024%nat →
  octet_string_hex_string buf s (Z.of_nat (length s)) =
    Some (hex_string s ++ 0 :: drop (2 * length s + 1) buf).
Proof.
  intros Hs Hn Hb. unfold octet_string_hex_string, MAX_PRINT_STRING_LEN.
  rewrite decide_False by lia.
  assert ((Z.of_nat (length s) * 2 + 1) / 2 = Z.of_nat (length s)) as ->
    by (symmetry; apply Z.div_unique with 1; lia).
  unfold for_range. rewrite Z.sub_0_r, Nat2Z.id.
  pose proof (hex_write_loop s s [] buf 0 Hs eq_refl eq_refl ltac:(lia)) as Hloop.
  change (Z.of_nat 0) with 0 in Hloop. rewrite !app_nil_l in Hloop.
  rewrite Hloop. cbn [mbind option_bind]. rewrite Z.max_r by lia.
  rewrite aset_Some by (rewrite length_app, length_hex_string, length_drop by done; lia).
  f_equal. replace (Z.to_nat _) with (length (hex_string s) + 0)%nat
    by (rewrite length_hex_string by done; lia).
  rewrite insert_app_r. f_equal. rewrite <-drop_drop.
  destruct (drop (2 * length s) buf) as [|z buf'] eqn:E; [|done].
  apply (f_equal length) in E. rewrite length_drop in E. simpl in E. lia.
Qed.

Lemma hex_parse_loop s raw n fuel rest :
  is_bytes s → (length s < fuel)%nat →
  hex_to_octets_loop fuel (hex_string s ++ rest) raw n (n + 2 * Z.of_nat (length s))
  = Some (n + 2 * Z.of_nat (length s), raw ++ s).
Proof.
  intros Hs. revert raw n fuel. induction Hs as [|c s Hc Hs IH]; intros raw n [|fuel] Hf;
    simpl in Hf; try lia; simpl length.
  - simpl. rewrite decide_False by lia. rewrite app_nil_r. f_equal. f_equal. lia.
  - destruct (hex_digits_spec c Hc) as (h & l & Eh & El & Hh & Hlo & Hx).
    assert (hex_string (c :: s) = h :: l :: hex_string s) as ->.
    { unfold hex_string, hex_digits. simpl. by rewrite Eh, El. }
    simpl hex_to_octets_loop. rewrite decide_True by lia. simpl.
    rewrite !decide_False by done. rewrite Hx.
    replace (n + 2 * Z.of_nat (S (length s))) with (n + 1 + 1 + 2 * Z.of_nat (length s)) by lia.
    rewrite drop_0, IH by lia. by rewrite <-app_assoc.
Qed.

(** printing an octet string in hexadecimal and parsing the digits back
    gives the octets, for every string the static buffer can hold; the output
    is NUL-terminated. *)
Theorem hex_roundtrip s buf :
  is_bytes s → (2 * length s < 1024)%nat → length buf = 1024%nat →
  ∃ out, octet_string_hex_string buf s (Z.of_nat (length s)) = Some out ∧
    length out = 1024%nat ∧ out !! (2 * length s)%nat = Some 0 ∧
    hex_string_to_octet_string out (2 * Z.of_nat (length s)) =
      Some (2 * Z.of_nat (length s), s).
Proof.
  intros Hs Hn Hb. eexists. split; [by apply hex_print|].
  pose proof (length_hex_string s Hs) as Hlen. split_and!.
  - rewrite length_app, Hlen. simpl. rewrite length_drop. lia.
  - rewrite lookup_app_r by lia. by rewrite Hlen, Nat.sub_diag.
  - unfold hex_string_to_octet_string.
    apply (hex_parse_loop s [] 0); [done|lia].
Qed.

Lemma hex_roundtrip_witness :
  ∃ out, octet_string_hex_string (replicate 1024 7) [0x0a; 0xff; 0x30] 3 = Some out ∧
    length out = 1024%nat ∧ out !! 6%nat = Some 0 ∧
    hex_string_to_octet_string out 6 = Some (6, [0x0a; 0xff; 0x30]).
Proof.
  apply (hex_roundtrip [0x0a; 0xff; 0x30] (replicate 1024 7)).
  - repeat (constructor; [unfold is_word; lia|]). constructor.
  - simpl. lia.
  - by rewrite length_replicate.
Defined.

Lemma for_up_length (f : Z → list Z → option (list Z)) n i b b' :
  (∀ i b b', f i b = Some b' → length b' = length b) →
  for_up n i f b = Some b' → length b' = length b.
Proof.
  intros Hf. revert i b. induction n as [|n IH]; intros i b; simpl; [by intros [= <-]|].
  destruct (f i b) as [b1|] eqn:E; simpl; [|done].
  intros H. rewrite (IH _ _ H). by eapply Hf.
Qed.

(** From 512 octets on, the hexadecimal printer writes its terminating NUL
    one past the end of the 1024-character buffer: the truncation keeps 1023
    characters, but the loop advances by two and stops at 1024. *)
Theorem hex_print_overruns s buf len :
  length buf = 1024%nat → 512 <= len → octet_string_hex_string buf s len = None.
Proof.
  intros Hb Hlen. unfold octet_string_hex_string, MAX_PRINT_STRING_LEN.
  set (L := if decide (len * 2 > 1024) then 1024 - 1 else len * 2).
  assert ((L + 1) / 2 = 512) as ->.
  { unfold L. case_decide; [done|]. by replace (len * 2) with 1024 by lia. }
  destruct (for_range 0 512 _ buf) as [b|] eqn:E; simpl; [|done].
  unfold for_range in E. apply for_up_length in E.
  - unfold aset. rewrite E, Hb. done.
  - intros i b1 b2 (c & _ & (h & _ & (b3 & E1 & (l & _ & E2)%bind_Some)%bind_Some)%bind_Some)%bind_Some.
    apply aset_inv in E1 as [_ ->]. apply aset_inv in E2 as [_ ->].
    by rewrite !length_insert.
Qed.

Lemma hex_print_overruns_witness :
  octet_string_hex_string (replicate 1024 0) (replicate 512 0xab) 512 = None.
Proof. apply hex_print_overruns; [by rewrite length_replicate|lia]. Defined.

(** [octet_string_is_eq] compares exactly the first [len] octets: 0 when
    they agree, 1 when they do not (the sense is that of [memcmp]). *)
Theorem octet_string_is_eq_spec a b len :
  0 <= len <= Z.of_nat (length a) → len <= Z.of_nat (length b) →
  octet_string_is_eq a b len =
    Some (if decide (take (Z.to_nat len) a = take (Z.to_nat len) b) then 0 else 1).
Proof.
  intros Ha Hb. unfold octet_string_is_eq.
  assert (Z.to_nat len <= length a)%nat as Ha' by lia.
  assert (Z.to_nat len <= length b)%nat as Hb' by lia. clear Ha Hb.
  revert a b Ha' Hb'. induction (Z.to_nat len) as [|n IH]; intros a b Ha Hb;
    [by rewrite decide_True|].
  destruct a as [|x a], b as [|y b]; simpl in Ha, Hb; try lia.
  simpl. case_decide as Hxy.
  - subst y. rewrite IH by lia. f_equal.
    repeat case_decide; try done; congruence.
  - rewrite decide_False by congruence. done.
Qed.

Lemma octet_string_is_eq_spec_witness : octet_string_is_eq [1; 2; 3] [1; 2; 9] 2 = Some 0.
Proof. apply (octet_string_is_eq_spec [1; 2; 3] [1; 2; 9] 2); simpl; lia. Defined.

(** the base-64 decoder packs each pair of characters into one octet and
    keeps two of the six bits of the first one: distinct texts decode alike. *)
Theorem base64_pair_loses_bits c0 c1 a b :
  base64_char_to_sextet c0 = a → base64_char_to_sextet c1 = b →
  0 <= a < 64 → 0 <= b < 64 →
  base64_string_to_octet_string [c0; c1] 2 = Some (2, [Z.lor (64 * (a mod 4)) b]).
Proof.
  intros Ha Hb Hra Hrb. unfold base64_string_to_octet_string. simpl. rewrite Ha, Hb.
  rewrite !decide_False by lia. simpl. f_equal. f_equal. f_equal.
  assert (u8 (Z.shiftl a 6) = 64 * (a mod 4)) as ->.
  { unfold wrap. rewrite Z.shiftl_mul_pow2 by lia.
    change (2 ^ 8) with (4 * 2 ^ 6). rewrite Zmult_mod_distr_r. lia. }
  pose proof (Z.mod_pos_bound a 4 ltac:(lia)).
  change 0xffff with (Z.ones 16).
  rewrite Z.land_ones, (Z.mod_small b) by lia.
  apply wrap_small. apply word_lor; unfold is_word; lia.
Qed.

Lemma base64_pair_loses_bits_witness :
  base64_string_to_octet_string [65; 66] 2 = Some (2, [1]) ∧
  base64_string_to_octet_string [69; 66] 2 = Some (2, [1]).
Proof.
  split; [apply (base64_pair_loses_bits 65 66 0 1)|apply (base64_pair_loses_bits 69 66 4 1)];
    done.
Defined.
