(* ===== verification/Replay.v ===== *)
(** * Replay databases of libsrtp

    Models [crypto/replay/rdb.c] (the 32-bit index database SRTCP uses) and
    [crypto/replay/rdbx.c] (extended sequence numbers and the database SRTP
    uses).  The state of each database is a [Record]; each operation is the C
    function on it.  [None] is an access outside of the bitmask.  [size_t] is
    64 bits wide ([rdb_bits_in_bitmask] has that type), [int] is 32. *)

From S2P Require Import Prelude Datatypes.

(** ** rdb: the database of SRTCP indices *)

Module Rdb.

Record rdb_t := mk_rdb { window_start : Z; bitmask : v128_t }.

Definition rdb_bits_in_bitmask : Z := 8 * 16.

Definition rdb_init : err_status_t * rdb_t :=
  (err_status_ok, mk_rdb 0 (v128_set_to_zero [])).

Definition rdb_check (rdb : rdb_t) (index : Z) : option err_status_t :=
  if decide (index >= u64 (window_start rdb + rdb_bits_in_bitmask))
  then Some err_status_ok
  else if decide (index < window_start rdb) then Some err_status_replay_old
  else
    b ← v128_get_bit (bitmask rdb) (u32 (index - window_start rdb));
    if decide (b = 1) then Some err_status_replay_fail else Some err_status_ok.

Definition rdb_add_index (rdb : rdb_t) (index : Z) : option (err_status_t * rdb_t) :=
  let delta := s32 (u32 (index - window_start rdb)) in
  if decide (u64 delta < rdb_bits_in_bitmask) then
    m ← v128_set_bit (bitmask rdb) delta;
    Some (err_status_ok, mk_rdb (window_start rdb) m)
  else
    let delta := s32 (u64 (delta - (rdb_bits_in_bitmask - 1))) in
    m ← v128_left_shift (bitmask rdb) delta;
    m ← v128_set_bit m (u64 (rdb_bits_in_bitmask - delta));
    Some (err_status_ok, mk_rdb (u32 (window_start rdb + delta)) m).

Definition rdb_increment (rdb : rdb_t) : err_status_t * rdb_t :=
  let old := window_start rdb in
  let rdb := mk_rdb (u32 (old + 1)) (bitmask rdb) in
  if decide (old > 0x7fffffff) then (err_status_key_expired, rdb)
  else (err_status_ok, rdb).

Definition rdb_get_value (rdb : rdb_t) : Z := window_start rdb.

(** well-formed databases, and the abstract set of indices one records *)
Definition rdb_wf (rdb : rdb_t) : Prop :=
  is_word 32 (window_start rdb) ∧ v128_wf (bitmask rdb).

Definition rdb_seen (rdb : rdb_t) (index : Z) : bool :=
  Z.testbit (v128_val (bitmask rdb)) (index - window_start rdb).

End Rdb.

(** ** rdbx: extended sequence numbers *)

Module Rdbx.

Definition seq_num_median : Z := Z.shiftl 1 (8 * 2 - 1).
Definition seq_num_max : Z := Z.shiftl 1 (8 * 2).

Definition index_init : Z := 0.

(** the second parameter is a 16-bit [sequence_number_t] *)
Definition index_advance (pi s : Z) : Z := u64 (pi + u16 s).

(** [index_guess local s] is the new value of [*guess] and the result *)
Definition index_guess (local s : Z) : Z * Z :=
  let local_roc := u32 (local >> 16) in
  let local_seq := u16 local in
  let '(guess_roc, difference) :=
    if decide (local_seq < seq_num_median) then
      if decide (s - local_seq > seq_num_median) then
        (u32 (local_roc - 1), seq_num_max - s + local_seq)
      else (local_roc, s - local_seq)
    else
      if decide (local_seq - seq_num_median > s) then
        (u32 (local_roc + 1), seq_num_max - local_seq + s)
      else (local_roc, s - local_seq) in
  let guess_seq := s in
  (u64 (Z.shiftl guess_roc 16) ||| guess_seq, difference).

Record rdbx_t := mk_rdbx { index : Z; bitmask : v128_t }.

Definition rdbx_high_bit_in_bitmask : Z := 127.

Definition rdbx_init : err_status_t * rdbx_t :=
  (err_status_ok, mk_rdbx index_init (v128_set_to_zero [])).

Definition rdbx_check (rdbx : rdbx_t) (delta : Z) : option err_status_t :=
  if decide (delta > 0) then Some err_status_ok
  else if decide (rdbx_high_bit_in_bitmask + delta < 0) then Some err_status_replay_old
  else
    b ← v128_get_bit (bitmask rdbx) (rdbx_high_bit_in_bitmask + delta);
    if decide (b = 1) then Some err_status_replay_fail else Some err_status_ok.

Definition rdbx_add_index (rdbx : rdbx_t) (delta : Z) : option (err_status_t * rdbx_t) :=
  if decide (delta > 0) then
    let i := index_advance (index rdbx) delta in
    m ← v128_left_shift (bitmask rdbx) delta;
    m ← v128_set_bit m 127;
    Some (err_status_ok, mk_rdbx i m)
  else
    m ← v128_set_bit (bitmask rdbx) (- delta);
    Some (err_status_ok, mk_rdbx (index rdbx) m).

(** the new value of [*guess] and the result *)
Definition rdbx_estimate_index (rdbx : rdbx_t) (s : Z) : Z * Z :=
  if decide (index rdbx > seq_num_median) then index_guess (index rdbx) s
  else (s, s - u16 (index rdbx)).

Definition rdbx_wf (rdbx : rdbx_t) : Prop :=
  is_word 64 (index rdbx) ∧ v128_wf (bitmask rdbx).

(** the bit for an extended sequence number in the window is set; which ones are, after
    a run of packets, is what the lemmas on [forward_run] below say of their history *)
Definition rdbx_seen (rdbx : rdbx_t) (i : Z) : Prop :=
  index rdbx - 127 <= i <= index rdbx ∧
  Z.testbit (v128_val (bitmask rdbx)) (127 + (i - index rdbx)) = true.

(** a run of packets each of which is ahead of all earlier ones, with the
    extended sequence numbers it has added *)
Inductive forward_run : rdbx_t → rdbx_t → list Z → Prop :=
  | forward_nil r : forward_run r r []
  | forward_step r r1 r2 delta l :
      0 < delta < seq_num_max →
      index r + delta < 2 ^ 64 →
      rdbx_check r delta = Some err_status_ok →
      rdbx_add_index r delta = Some (err_status_ok, r1) →
      forward_run r1 r2 l →
      forward_run r r2 ((index r + delta) :: l).

End Rdbx.

(** ** Lemmas and properties of rdbx *)

Section rdbx.
Import Rdbx.

Lemma rdbx_init_wf : rdbx_wf (snd rdbx_init).
Proof.
  split; [apply word_0; lia|]. by apply v128_wf_intro.
Qed.

Lemma rdbx_check_cases r d :
  rdbx_wf r →
  ∃ st, rdbx_check r d = Some st ∧
    (st = err_status_replay_old ↔ d < -127) ∧
    (st = err_status_replay_fail ↔ rdbx_seen r (index r + d)) ∧
    (st = err_status_ok ↔ 0 < d ∨ -127 <= d ∧ ¬ rdbx_seen r (index r + d)).
Proof.
  intros [_ Hm]. unfold rdbx_check, rdbx_high_bit_in_bitmask, rdbx_seen.
  replace (127 + (index r + d - index r)) with (127 + d) by lia.
  case_decide; [|case_decide].
  - eexists; split; [done|]. split_and!; (split; [done || lia|intros; done || lia]).
  - eexists; split; [done|]. split_and!; (split; [done || lia|intros; done || lia]).
  - rewrite v128_get_bit_val by (done || lia). simpl.
    destruct (Z.testbit (v128_val (bitmask r)) (127 + d)) eqn:Hb; simpl;
      eexists; (split; [done|]); split_and!; (split; [done || lia|]);
      try (intros; done || lia); intros; naive_solver lia.
Qed.

Lemma rdbx_add_forward r d :
  rdbx_wf r → 0 < d < seq_num_max → index r + d < 2 ^ 64 →
  ∃ r', rdbx_add_index r d = Some (err_status_ok, r') ∧ rdbx_wf r' ∧
    index r' = index r + d ∧
    v128_val (bitmask r') = Z.lor (Z.shiftr (v128_val (bitmask r)) d) (Z.shiftl 1 127).
Proof.
  intros [Hi Hm] Hd Ho. unfold rdbx_add_index. rewrite decide_True by lia.
  destruct (v128_left_shift_val (bitmask r) d Hm) as (m & -> & Hm' & Hv); [lia|]. simpl.
  destruct (v128_set_bit_val m 127 Hm') as (m' & -> & Hm'' & Hv'); [lia|]. simpl.
  assert (index_advance (index r) d = index r + d) as ->.
  { change seq_num_max with 65536 in Hd. unfold index_advance.
    rewrite !wrap_small by (unfold is_word in *; rewrite ?wrap_small; unfold is_word; lia).
    done. }
  eexists; split; [done|]. split_and!; [|done|simpl; by rewrite Hv', Hv].
  split; [simpl; unfold is_word in *; lia|done].
Qed.

(** recording a packet that is ahead moves the window: the new set is the
    old one plus the packet's index, less what falls behind the window. *)
Theorem rdbx_add_forward_seen r d :
  rdbx_wf r → 0 < d < seq_num_max → index r + d < 2 ^ 64 →
  ∃ r', rdbx_add_index r d = Some (err_status_ok, r') ∧ rdbx_wf r' ∧
    index r' = index r + d ∧
    ∀ i, rdbx_seen r' i ↔
      i = index r + d ∨ (index r + d - 127 <= i ∧ rdbx_seen r i).
Proof.
  intros Hr Hd Ho. destruct (rdbx_add_forward r d Hr Hd Ho) as (r' & Ha & Hr' & Hi & Hv).
  exists r'. split_and!; [done..|]. intros i. unfold rdbx_seen. rewrite Hv, Hi.
  pose proof (v128_val_range _ (proj2 Hr)) as Hw.
  destruct (decide (i = index r + d)) as [->|Hne].
  - split; [by left|intros _]. split; [lia|].
    replace (127 + (index r + d - (index r + d))) with 127 by lia.
    rewrite Z.lor_spec. by rewrite orb_true_r.
  - rewrite Z.lor_spec, (testbit_shiftl 1), testbit_one by lia.
    destruct (decide (index r + d - 127 <= i <= index r + d)) as [Hin|Hout].
    + destruct (Z.leb_spec 127 (127 + (i - (index r + d)))); [lia|]. simpl.
      rewrite orb_false_r, testbit_shiftr by lia.
      destruct (Z.leb_spec 0 (127 + (i - (index r + d)))); [|lia]. simpl.
      replace (127 + (i - (index r + d)) + d) with (127 + (i - index r)) by lia.
      split; [intros [_ Hb]|intros [|[_ [_ Hb]]]]; [|done|].
      * right. split_and!; [lia..| |done].
        destruct (decide (i <= index r)); [done|].
        rewrite (word_testbit_high 128) in Hb by (done || lia). done.
      * split; [lia|done].
    + split; [lia|]. intros [|[? [? ?]]]; lia.
Qed.

Lemma forward_run_wf r r' l : forward_run r r' l → rdbx_wf r → rdbx_wf r' ∧ index r <= index r'.
Proof.
  induction 1 as [|r r1 r2 d l Hd Ho _ Ha _ IH]; intros Hr; [split; [done|lia]|].
  destruct (rdbx_add_forward r d Hr Hd Ho) as (r1' & Ha' & Hr1 & Hi & _).
  rewrite Ha in Ha'. injection Ha' as <-. destruct (IH Hr1). split; [done|lia].
Qed.

Lemma forward_run_keeps r r' l i :
  forward_run r r' l → rdbx_wf r → rdbx_seen r i → index r' - 127 <= i → rdbx_seen r' i.
Proof.
  induction 1 as [|r r1 r2 d l Hd Ho _ Ha Hrun IH]; intros Hr Hs Hi; [done|].
  destruct (rdbx_add_forward_seen r d Hr Hd Ho) as (r1' & Ha' & Hr1 & Hi1 & Hs1).
  rewrite Ha in Ha'. injection Ha' as <-.
  pose proof (forward_run_wf _ _ _ Hrun Hr1) as [_ Hle].
  apply IH; [done| |done]. apply Hs1. right. split; [lia|done].
Qed.

(** the window after a run: what it held and what the run added, unless it fell behind *)
Lemma forward_run_seen r r' l i :
  forward_run r r' l → rdbx_wf r →
  rdbx_seen r' i ↔ index r' - 127 <= i ∧ (i ∈ l ∨ rdbx_seen r i).
Proof.
  induction 1 as [r|r r1 r2 d l Hd Ho _ Ha Hrun IH]; intros Hr.
  - split; [|by intros [_ [?%elem_of_nil|]]]. intros Hs. split; [apply Hs|by right].
  - destruct (rdbx_add_forward_seen r d Hr Hd Ho) as (r1' & Ha' & Hr1 & Hi1 & Hs1).
    rewrite Ha in Ha'. injection Ha' as <-.
    pose proof (forward_run_wf _ _ _ Hrun Hr1) as [_ Hle].
    rewrite IH, Hs1, elem_of_cons by done. intuition lia.
Qed.

Lemma rdbx_init_seen i : ¬ rdbx_seen (snd rdbx_init) i.
Proof. intros [_ H]. cbn in H. by rewrite Z.bits_0 in H. Qed.

(** C32: the database decides membership in the history.  After a run of packets from a
    new database, each ahead of the earlier ones, [rdbx_check] accepts an index exactly
    when it is ahead of all of them, or among the last 128 positions and was not
    received; it reports a replay exactly for received indices among those positions,
    and everything before them as too old. *)
Theorem rdbx_decides_history r l i :
  forward_run (snd rdbx_init) r l →
  rdbx_check r (i - index r) = Some
    (if decide (index r < i) then err_status_ok
     else if decide (i < index r - 127) then err_status_replay_old
     else if decide (i ∈ l) then err_status_replay_fail else err_status_ok).
Proof.
  intros Hrun. destruct (forward_run_wf _ _ _ Hrun rdbx_init_wf) as [Hr _].
  pose proof (forward_run_seen _ _ _ i Hrun rdbx_init_wf) as Hs. pose proof (rdbx_init_seen i) as H0.
  destruct (rdbx_check_cases r (i - index r) Hr) as (st & -> & Hold & Hfail & Hok).
  replace (index r + (i - index r)) with i in * by lia. f_equal.
  repeat case_decide.
  - apply Hok. left. lia.
  - apply Hold. lia.
  - apply Hfail, Hs. split; [lia|by left].
  - apply Hok. right. split; [lia|]. by intros [_ [?|?]]%Hs.
Qed.

(** C31: replay protection of an in-order stream.  After any run of packets
    each of which is ahead of the earlier ones, none of their indices is
    accepted again: the last 128 positions are refused as replayed, older ones
    as too old. *)
Theorem forward_run_no_replay r r' l i :
  rdbx_wf r → forward_run r r' l → i ∈ l →
  rdbx_check r' (i - index r') =
    Some (if decide (index r' - i <= 127) then err_status_replay_fail
          else err_status_replay_old).
Proof.
  intros Hr Hrun Hi.
  destruct (rdbx_check_cases r' (i - index r')) as (st & -> & Hold & Hfail & _);
    [by eapply forward_run_wf|].
  replace (index r' + (i - index r')) with i in * by lia. f_equal.
  case_decide; [|apply Hold; lia]. apply Hfail.
  revert Hr Hi. induction Hrun as [|r r1 r2 d l Hd Ho _ Ha Hrun IH]; intros Hr Hi.
  { by apply not_elem_of_nil in Hi. }
  destruct (rdbx_add_forward_seen r d Hr Hd Ho) as (r1' & Ha' & Hr1 & Hi1 & Hs1).
  rewrite Ha in Ha'. injection Ha' as <-.
  apply elem_of_cons in Hi as [->|Hi]; [|by apply IH].
  eapply forward_run_keeps; [done..| |lia]. apply Hs1. by left.
Qed.

(** the database after the packets 5 and 9 *)
Definition rdbx_5_9 : rdbx_t := mk_rdbx 9 [0; 0; 0; 0x88000000].

Lemma forward_run_5_9 : forward_run (snd rdbx_init) rdbx_5_9 [5; 9].
Proof.
  apply (forward_step (snd rdbx_init) (mk_rdbx 5 [0; 0; 0; 0x80000000]) rdbx_5_9 5 [9]);
    [done..|].
  apply (forward_step (mk_rdbx 5 [0; 0; 0; 0x80000000]) rdbx_5_9 rdbx_5_9 4 []);
    [done..|]. constructor.
Qed.

Lemma rdbx_5_9_wf : rdbx_wf rdbx_5_9.
Proof. exact (proj1 (forward_run_wf _ _ _ forward_run_5_9 rdbx_init_wf)). Qed.

Lemma forward_run_no_replay_witness :
  rdbx_check rdbx_5_9 (5 - index rdbx_5_9) = Some err_status_replay_fail.
Proof.
  apply (forward_run_no_replay (snd rdbx_init) rdbx_5_9 [5; 9] 5 rdbx_init_wf forward_run_5_9).
  apply list_elem_of_here.
Defined.

Lemma rdbx_decides_history_witness :
  rdbx_check rdbx_5_9 (5 - index rdbx_5_9) = Some err_status_replay_fail ∧
  rdbx_check rdbx_5_9 (7 - index rdbx_5_9) = Some err_status_ok ∧
  rdbx_check rdbx_5_9 (-200 - index rdbx_5_9) = Some err_status_replay_old.
Proof.
  rewrite !(rdbx_decides_history rdbx_5_9 [5; 9] _ forward_run_5_9). split_and!; reflexivity.
Defined.

Lemma rdbx_add_forward_seen_witness :
  ∃ r', rdbx_add_index rdbx_5_9 3 = Some (err_status_ok, r') ∧ rdbx_wf r' ∧
    index r' = index rdbx_5_9 + 3 ∧
    ∀ i, rdbx_seen r' i ↔
      i = index rdbx_5_9 + 3 ∨ (index rdbx_5_9 + 3 - 127 <= i ∧ rdbx_seen rdbx_5_9 i).
Proof. apply (rdbx_add_forward_seen rdbx_5_9 3 rdbx_5_9_wf); done. Defined.

(** a packet behind the newest one is not recorded at its own position:
    the code sets bit [-delta] of the mask where [rdbx_check] reads bit
    [127 + delta], so the same late packet passes the check again. *)
Theorem rdbx_late_packet_replayable r d :
  rdbx_wf r → -127 <= d <= 0 → rdbx_check r d = Some err_status_ok →
  ∃ r', rdbx_add_index r d = Some (err_status_ok, r') ∧
    rdbx_check r' d = Some err_status_ok.
Proof.
  intros [Hi Hm] Hd. unfold rdbx_check, rdbx_add_index, rdbx_high_bit_in_bitmask.
  rewrite !(decide_False (P := d > 0)), !(decide_False (P := 127 + d < 0)) by lia.
  destruct (v128_set_bit_val (bitmask r) (- d) Hm) as (m & -> & Hm' & Hv); [lia|].
  rewrite v128_get_bit_val by (done || lia). simpl.
  intros Hc. eexists; split; [done|]. simpl.
  rewrite !(decide_False (P := d > 0)), !(decide_False (P := 127 + d < 0)) by lia.
  rewrite v128_get_bit_val by (done || lia). simpl. rewrite Hv, Z.lor_spec.
  rewrite testbit_shiftl, testbit_one by lia.
  replace (127 + d - - d =? 0) with false by (symmetry; apply Z.eqb_neq; lia).
  by rewrite andb_false_r, orb_false_r.
Qed.

Lemma rdbx_late_packet_replayable_witness :
  ∃ r', rdbx_add_index rdbx_5_9 (-2) = Some (err_status_ok, r') ∧
    rdbx_check r' (-2) = Some err_status_ok.
Proof.
  apply (rdbx_late_packet_replayable rdbx_5_9 (-2) rdbx_5_9_wf); [done|reflexivity].
Defined.

(** *** Index estimation *)

(** the rollover counter and sequence number of an index *)
Lemma index_split local :
  is_word 48 local →
  u32 (local >> 16) = local / 65536 ∧ u16 local = local mod 65536 ∧
  0 <= local / 65536 < 2 ^ 32.
Proof.
  intros Hl. unfold is_word in Hl.
  assert (0 <= local / 65536 < 2 ^ 32).
  { split; [apply Z.div_pos; lia|apply Z.div_lt_upper_bound; lia]. }
  split_and!; [|done..|lia|lia].
  rewrite Z.shiftr_div_pow2 by lia. apply wrap_small. done.
Qed.

Lemma index_join roc s :
  is_word 32 roc → is_word 16 s → u64 (Z.shiftl roc 16) ||| s = roc * 65536 + s.
Proof.
  intros Hr Hs. rewrite wrap_small.
  - by apply (lor_shiftl_add 16).
  - rewrite Z.shiftl_mul_pow2 by lia. unfold is_word in *. lia.
Qed.

(** an estimate that is ahead of the database: the distance is right, and the
    database moves there *)
Lemma estimate_ahead r s est delta :
  is_word 16 s → is_word 48 (index r) → rdbx_estimate_index r s = (est, delta) →
  index r < est < 2 ^ 48 → delta = est - index r ∧ 0 < delta < seq_num_max ∧ est mod 2 ^ 16 = s.
Proof.
  intros Hs Hi. unfold rdbx_estimate_index.
  destruct (index_split (index r) Hi) as (E1 & E2 & Hroc).
  change seq_num_median with 32768. change seq_num_max with 65536. change (2 ^ 16) with 65536.
  pose proof (Z.div_mod (index r) 65536 ltac:(lia)) as Hdm.
  pose proof (Z.mod_pos_bound (index r) 65536 ltac:(lia)). unfold is_word in Hs, Hi.
  assert (Hmod : ∀ t, (t * 65536 + s) mod 65536 = s).
  { intros t. rewrite Z.add_comm, Z.mod_add by lia. apply Z.mod_small. apply Hs. }
  case_decide.
  - unfold index_guess. rewrite E1, E2. change seq_num_median with 32768.
    change seq_num_max with 65536. intros Hest Hr.
    assert (Hw : ∀ t, 0 <= t < 2 ^ 32 ∨ t = -1 ∨ t = 2 ^ 32 →
      u64 (Z.shiftl (u32 t) 16) ||| s = u32 t * 65536 + s).
    { intros t Ht. apply index_join; [by apply wrap_range|done]. }
    assert (u32 (-1) = 2 ^ 32 - 1) as Em by done. assert (u32 (2 ^ 32) = 0) as E0 by done.
    repeat case_decide; simplify_eq.
    + rewrite Hw in * by lia. destruct (decide (index r / 65536 = 0)) as [Ez|Hz].
      * rewrite Ez in *. change (u32 (0 - 1)) with (2 ^ 32 - 1) in *. exfalso. lia.
      * rewrite (wrap_small 32) in * by (unfold is_word; lia). exfalso. lia.
    + rewrite index_join in * by (unfold is_word; lia). split_and!; [lia..|apply Hmod].
    + destruct (decide (index r / 65536 = 2 ^ 32 - 1)) as [Ez|Hz].
      * rewrite Ez in *. change (u32 (2 ^ 32 - 1 + 1)) with 0 in *.
        rewrite index_join in * by (unfold is_word; lia). exfalso. lia.
      * rewrite (wrap_small 32) in * by (unfold is_word; lia).
        rewrite index_join in * by (unfold is_word; lia). split_and!; [lia..|apply Hmod].
    + rewrite index_join in * by (unfold is_word; lia). split_and!; [lia..|apply Hmod].
  - rewrite E2. intros [= <- <-] Hr. rewrite !Z.mod_small by lia. lia.
Qed.

Lemma estimate_again r s :
  is_word 48 (index r) → index r mod 2 ^ 16 = s → rdbx_estimate_index r s = (index r, 0).
Proof.
  intros Hi Hs. unfold rdbx_estimate_index.
  destruct (index_split (index r) Hi) as (E1 & E2 & Hroc). change (2 ^ 16) with 65536 in Hs.
  pose proof (Z.div_mod (index r) 65536 ltac:(lia)) as Hdm.
  pose proof (Z.mod_pos_bound (index r) 65536 ltac:(lia)). unfold is_word in Hi.
  change seq_num_median with 32768. case_decide.
  - unfold index_guess. rewrite E1, E2, Hs. change seq_num_median with 32768.
    repeat case_decide; try lia;
      (rewrite index_join by (unfold is_word; lia); f_equal; lia).
  - rewrite E2, Hs. f_equal; [|lia]. rewrite <-Hs. apply Z.mod_small. lia.
Qed.

(** what was accepted as ahead is not accepted again *)
Lemma accepted_not_again r s est delta st r' :
  rdbx_wf r → is_word 48 (index r) → is_word 16 s → rdbx_estimate_index r s = (est, delta) →
  rdbx_add_index r delta = Some (st, r') → index r < est < 2 ^ 48 →
  rdbx_wf r' ∧ index r' = est ∧ rdbx_estimate_index r' s = (est, 0) ∧
  rdbx_check r' 0 = Some err_status_replay_fail.
Proof.
  intros Hr Hi Hs He Ha Hlt. destruct (estimate_ahead r s est delta Hs Hi He Hlt) as (Hd & Hd' & Hm).
  destruct (rdbx_add_forward_seen r delta Hr Hd') as (r1 & E & Hr1 & Hi1 & Hseen);
    [unfold is_word in *; lia|]. rewrite Ha in E. injection E as _ <-.
  assert (index r' = est) as Hi2 by lia. split_and!; [done..| |].
  - rewrite <-Hi2. apply estimate_again; [rewrite Hi2; unfold is_word in *; lia|by rewrite Hi2].
  - destruct (rdbx_check_cases r' 0 Hr1) as (st' & -> & _ & Hf & _). f_equal. apply Hf.
    apply Hseen. left. lia.
Qed.

(** the estimate is the index nearest to the last one among those with
    the packet's 16-bit sequence number, and the result has the magnitude of
    the distance. *)
Theorem index_guess_nearest local s :
  is_word 16 s → 2 ^ 15 <= local < 2 ^ 48 - 2 ^ 15 →
  let '(guess, difference) := index_guess local s in
  guess mod 2 ^ 16 = s ∧ is_word 48 guess ∧
  (∀ i, i mod 2 ^ 16 = s → Z.abs (guess - local) <= Z.abs (i - local)) ∧
  Z.abs difference = Z.abs (guess - local).
Proof.
  intros Hs Hl. unfold index_guess.
  destruct (index_split local) as (-> & -> & Hroc); [unfold is_word; lia|].
  change seq_num_median with 32768. change seq_num_max with 65536.
  change (2 ^ 16) with 65536. change (2 ^ 15) with 32768 in Hl.
  pose proof (Z.div_mod local 65536 ltac:(lia)) as Hdm.
  pose proof (Z.mod_pos_bound local 65536 ltac:(lia)).
  assert (Hnear : ∀ g i, Z.abs (g - local) <= 32768 → g mod 65536 = s → i mod 65536 = s →
    Z.abs (g - local) <= Z.abs (i - local)).
  { intros g i Hg Hgs His. pose proof (Z.div_mod g 65536). pose proof (Z.div_mod i 65536). lia. }
  assert (Hmod : ∀ t, (t * 65536 + s) mod 65536 = s).
  { intros t. rewrite Z.add_comm, Z.mod_add by lia. apply Z.mod_small. apply Hs. }
  unfold is_word in Hs. repeat case_decide;
    rewrite ?(wrap_small 32) by (unfold is_word; lia);
    rewrite index_join by (unfold is_word; lia);
    (split_and!; [apply Hmod|unfold is_word; lia| |lia]);
    intros i Hi; (apply Hnear; [lia|apply Hmod|done]).
Qed.

Lemma index_guess_nearest_witness :
  let '(guess, difference) := index_guess 0x1fff0 3 in
  guess mod 2 ^ 16 = 3 ∧ is_word 48 guess ∧
  (∀ i, i mod 2 ^ 16 = 3 → Z.abs (guess - 0x1fff0) <= Z.abs (i - 0x1fff0)) ∧
  Z.abs difference = Z.abs (guess - 0x1fff0).
Proof. apply (index_guess_nearest 0x1fff0 3); unfold is_word; lia. Defined.

(** when the packet belongs to the previous rollover period the result is
    the distance with the wrong sign: a packet older than the newest one is
    reported as ahead of it, and [rdbx_check] accepts it whatever the mask
    holds. *)
Theorem index_guess_old_accepted r s :
  is_word 16 s → seq_num_max <= index r < 2 ^ 48 - 2 ^ 15 →
  index r mod seq_num_max < seq_num_median →
  s - index r mod seq_num_max > seq_num_median →
  let '(guess, delta) := rdbx_estimate_index r s in
  guess < index r ∧ delta = index r - guess ∧ rdbx_check r delta = Some err_status_ok.
Proof.
  change seq_num_median with 32768. change seq_num_max with 65536.
  intros Hs Hl Hlow Hfar. unfold rdbx_estimate_index.
  rewrite decide_True by (change seq_num_median with 32768; lia).
  unfold index_guess.
  destruct (index_split (index r)) as (-> & -> & Hroc); [unfold is_word; lia|].
  change seq_num_median with 32768. change seq_num_max with 65536.
  pose proof (Z.div_mod (index r) 65536 ltac:(lia)) as Hdm.
  pose proof (Z.mod_pos_bound (index r) 65536 ltac:(lia)).
  unfold is_word in Hs. rewrite !decide_True by lia.
  rewrite (wrap_small 32) by (unfold is_word; lia).
  rewrite index_join by (unfold is_word; lia).
  unfold rdbx_check. rewrite decide_True by lia. split_and!; [lia..|done].
Qed.

Lemma index_guess_old_accepted_witness :
  let '(guess, delta) := rdbx_estimate_index (mk_rdbx 0x10005 [0; 0; 0; 0]) 0xfffe in
  guess < 0x10005 ∧ delta = 0x10005 - guess ∧
  rdbx_check (mk_rdbx 0x10005 [0; 0; 0; 0]) delta = Some err_status_ok.
Proof.
  apply (index_guess_old_accepted (mk_rdbx 0x10005 [0; 0; 0; 0]) 0xfffe);
    [unfold is_word; lia|done|done|done].
Defined.

End rdbx.

(** ** Lemmas and properties of rdb *)

Section rdb.
Import Rdb.

Lemma rdb_check_window r i :
  rdb_wf r → window_start r <= i < window_start r + 128 →
  rdb_check r i = Some (if rdb_seen r i then err_status_replay_fail else err_status_ok).
Proof.
  intros [Hw Hm] Hi. unfold rdb_check, rdb_seen, rdb_bits_in_bitmask. unfold is_word in Hw.
  rewrite (wrap_small 64) by (unfold is_word; lia).
  rewrite !decide_False by lia.
  rewrite (wrap_small 32) by (unfold is_word; lia).
  rewrite v128_get_bit_val by (done || lia). simpl. by destruct (Z.testbit _ _).
Qed.

Lemma rdb_delta r i :
  rdb_wf r → is_word 32 i → window_start r <= i → i - window_start r < 2 ^ 31 →
  s32 (u32 (i - window_start r)) = i - window_start r ∧
  u64 (i - window_start r) = i - window_start r.
Proof.
  intros [Hw _] Hi Hle Hd. unfold is_word in *.
  rewrite !wrap_small by (unfold is_word; lia). split; [|done].
  unfold swrap. rewrite Z.mod_small by lia. lia.
Qed.

(** inside the window (and one past its end, where the window slides by
    one) the SRTCP database is exact: the added index is recorded, every other
    index of the window keeps its status, so a second copy is refused. *)
Theorem rdb_add_index_window r i :
  rdb_wf r → is_word 32 i → is_word 32 (window_start r + 1) →
  window_start r <= i <= window_start r + 128 →
  ∃ r', rdb_add_index r i = Some (err_status_ok, r') ∧ rdb_wf r' ∧
    window_start r' = window_start r + (if decide (i = window_start r + 128) then 1 else 0) ∧
    rdb_check r' i = Some err_status_replay_fail ∧
    ∀ j, window_start r' <= j < window_start r' + 128 → j ≠ i →
      rdb_seen r' j = rdb_seen r j.
Proof.
  intros Hr Hi Hs Hin. pose proof Hr as [Hw Hm].
  destruct (rdb_delta r i) as [Hd1 Hd2]; [done..|lia|lia|].
  unfold rdb_add_index, rdb_bits_in_bitmask. rewrite Hd1, Hd2.
  destruct (decide (i = window_start r + 128)) as [->|Hne].
  - rewrite decide_False by lia.
    replace (window_start r + 128 - window_start r - (8 * 16 - 1)) with 1 by lia.
    change (s32 (u64 1)) with 1. change (u64 (8 * 16 - 1)) with 127.
    destruct (v128_left_shift_val (bitmask r) 1 Hm) as (m & -> & Hm' & Hv); [lia|]. simpl.
    destruct (v128_set_bit_val m 127 Hm') as (m' & -> & Hm'' & Hv'); [lia|]. simpl.
    rewrite (wrap_small 32) by done.
    eexists. split; [done|]. split; [split; done|]. split; [done|].
    pose proof (v128_val_range _ Hm) as Hr128. split.
    + rewrite rdb_check_window by (split; done) || (simpl; lia).
      unfold rdb_seen. simpl. rewrite Hv', Z.lor_spec.
      replace (window_start r + 128 - (window_start r + 1)) with 127 by lia.
      by rewrite orb_true_r.
    + intros j Hj Hji. simpl in Hj. unfold rdb_seen. simpl. rewrite Hv', Hv, Z.lor_spec.
      rewrite testbit_shiftr, testbit_shiftl, testbit_one by lia.
      destruct (Z.leb_spec 127 (j - (window_start r + 1))); [lia|]. simpl.
      rewrite orb_false_r. destruct (Z.leb_spec 0 (j - (window_start r + 1))); [|lia]. simpl.
      f_equal. lia.
  - rewrite decide_True by lia.
    destruct (v128_set_bit_val (bitmask r) (i - window_start r) Hm) as (m & -> & Hm' & Hv);
      [lia|]. simpl.
    eexists. split; [done|]. split; [split; done|]. split; [simpl; lia|]. split.
    + rewrite rdb_check_window by (split; done) || (simpl; lia).
      unfold rdb_seen. simpl. rewrite Hv, Z.lor_spec, testbit_shiftl, testbit_one by lia.
      rewrite Z.sub_diag, Z.eqb_refl, Z.leb_refl. simpl. by rewrite orb_true_r.
    + intros j Hj Hji. simpl in Hj. unfold rdb_seen. simpl.
      rewrite Hv, Z.lor_spec, testbit_shiftl, testbit_one by lia.
      destruct (Z.eqb_spec (j - window_start r - (i - window_start r)) 0); [lia|].
      by rewrite andb_false_r, orb_false_r.
Qed.

(** when the index is two to 128 positions past the window, the bit set is
    not the one of the index, and a second copy of the packet is accepted. *)
Theorem rdb_skip_replayable r d :
  rdb_wf r → 2 <= d <= 128 → window_start r + 127 + d < 2 ^ 32 →
  ∃ r', rdb_add_index r (window_start r + 127 + d) = Some (err_status_ok, r') ∧
    rdb_check r' (window_start r + 127 + d) = Some err_status_ok.
Proof.
  intros Hr Hd Ho. pose proof Hr as [Hw Hm]. unfold is_word in Hw.
  destruct (rdb_delta r (window_start r + 127 + d)) as [Hd1 Hd2];
    [done|unfold is_word; lia|lia|lia|].
  unfold rdb_add_index, rdb_bits_in_bitmask. rewrite Hd1, Hd2.
  rewrite decide_False by lia.
  replace (window_start r + 127 + d - window_start r - (8 * 16 - 1)) with d by lia.
  assert (s32 (u64 d) = d) as ->.
  { rewrite wrap_small by (unfold is_word; lia). unfold swrap. rewrite Z.mod_small; lia. }
  rewrite (wrap_small 64) by (unfold is_word; lia).
  destruct (v128_left_shift_val (bitmask r) d Hm) as (m & -> & Hm' & Hv); [lia|]. simpl.
  destruct (v128_set_bit_val m (128 - d) Hm') as (m' & Hset & Hm'' & Hv'); [lia|].
  change (8 * 16) with 128. rewrite Hset. simpl.
  rewrite (wrap_small 32) by (unfold is_word; lia).
  eexists. split; [done|].
  rewrite rdb_check_window by (split; [unfold is_word; simpl; lia|done]) || (simpl; lia).
  unfold rdb_seen. simpl. rewrite Hv', Hv, Z.lor_spec.
  pose proof (v128_val_range _ Hm) as Hr128.
  rewrite testbit_shiftr, testbit_shiftl, testbit_one by lia.
  replace (window_start r + 127 + d - (window_start r + d)) with 127 by lia.
  rewrite (word_testbit_high 128) by (done || lia).
  replace (127 - (128 - d) =? 0) with false by (symmetry; apply Z.eqb_neq; lia).
  by rewrite !andb_false_r.
Qed.

(** further ahead (more than 255 past the window start) the bit index is
    negative, and the update writes outside of the bitmask. *)
Theorem rdb_far_index_overruns r i :
  rdb_wf r → is_word 32 i → 255 < i - window_start r < 2 ^ 31 →
  rdb_add_index r i = None.
Proof.
  intros Hr Hi Hd. pose proof Hr as [Hw Hm].
  destruct (rdb_delta r i) as [Hd1 Hd2]; [done..|lia|lia|].
  unfold rdb_add_index, rdb_bits_in_bitmask. rewrite Hd1, Hd2.
  rewrite decide_False by lia. change (8 * 16) with 128.
  set (d := i - window_start r - (128 - 1)).
  assert (s32 (u64 d) = d) as ->.
  { rewrite wrap_small by (unfold is_word; lia). unfold swrap. rewrite Z.mod_small; lia. }
  destruct (v128_left_shift_val (bitmask r) d Hm) as (m & -> & Hm' & Hv); [lia|]. simpl.
  assert (u64 (128 - d) = 2 ^ 64 + (128 - d)) as ->.
  { unfold wrap. symmetry. apply Z.mod_unique with (-1); lia. }
  unfold v128_set_bit.
  assert (aget m ((2 ^ 64 + (128 - d)) >> 5) = None) as ->; [|done].
  apply eq_None_not_Some. rewrite aget_is_Some, (proj1 Hm').
  rewrite Z.shiftr_div_pow2 by lia. intros [_ Hlt].
  pose proof (Z.div_le_lower_bound (2 ^ 64 + (128 - d)) (2 ^ 5) 4). lia.
Qed.

Lemma rdb_init_wf : rdb_wf (snd rdb_init).
Proof. split; [apply word_0; lia|by apply v128_wf_intro]. Qed.

Lemma rdb_add_index_window_witness :
  ∃ r', rdb_add_index (snd rdb_init) 128 = Some (err_status_ok, r') ∧ rdb_wf r' ∧
    window_start r' = 0 + 1 ∧ rdb_check r' 128 = Some err_status_replay_fail ∧
    ∀ j, window_start r' <= j < window_start r' + 128 → j ≠ 128 →
      rdb_seen r' j = rdb_seen (snd rdb_init) j.
Proof.
  apply (rdb_add_index_window (snd rdb_init) 128 rdb_init_wf); unfold is_word; simpl; lia.
Defined.

Lemma rdb_skip_replayable_witness :
  ∃ r', rdb_add_index (snd rdb_init) 133 = Some (err_status_ok, r') ∧
    rdb_check r' 133 = Some err_status_ok.
Proof. apply (rdb_skip_replayable (snd rdb_init) 6 rdb_init_wf); simpl; lia. Defined.

Lemma rdb_far_index_overruns_witness : rdb_add_index (snd rdb_init) 300 = None.
Proof.
  apply (rdb_far_index_overruns (snd rdb_init) 300 rdb_init_wf); unfold is_word; simpl; lia.
Defined.

End rdb.
