(* ===== verification/KeyLimit.v ===== *)
(** * Key usage limits of libsrtp

    Models [crypto/kernel/key.c]: the counter of packets a master key may
    still protect and the state machine normal, past the soft limit, expired. *)

From S2P Require Import Prelude Datatypes.

Inductive key_event_t := key_event_normal | key_event_soft_limit | key_event_hard_limit.

Inductive key_state_t := key_state_normal | key_state_past_soft_limit | key_state_expired.

#[global] Instance key_event_eq_dec : EqDecision key_event_t.
Proof. solve_decision. Defined.
#[global] Instance key_state_eq_dec : EqDecision key_state_t.
Proof. solve_decision. Defined.

Record key_limit_ctx_t := mk_key_limit { num_left : Z; state : key_state_t }.

Definition soft_limit : Z := 0x10000.

Definition key_limit_set (key : key_limit_ctx_t) (s : Z) : err_status_t * key_limit_ctx_t :=
  if decide (s < soft_limit) then (err_status_bad_param, key)
  else (err_status_ok, mk_key_limit s key_state_normal).

(** a [key_limit_t] is a pointer, [None] when it is NULL; the clone is an alias *)
Definition key_limit_clone {P} (original : option P) (new_key : option P)
  : err_status_t * option P :=
  match original with
  | None => (err_status_bad_param, new_key)
  | Some p => (err_status_ok, Some p)
  end.

Definition key_limit_check (key : key_limit_ctx_t) : err_status_t :=
  if decide (state key = key_state_expired) then err_status_key_expired
  else err_status_ok.

Definition key_limit_update (key : key_limit_ctx_t) : key_event_t * key_limit_ctx_t :=
  let n := u64 (num_left key - 1) in
  if decide (n >= soft_limit) then (key_event_normal, mk_key_limit n (state key)) else
  let st := if decide (state key = key_state_normal) then key_state_past_soft_limit
            else state key in
  if decide (n < 1) then (key_event_hard_limit, mk_key_limit n key_state_expired)
  else (key_event_soft_limit, mk_key_limit n st).

(** [n] updates in a row: the events in order, and the final context *)
Fixpoint key_limit_updates (n : nat) (key : key_limit_ctx_t)
  : list key_event_t * key_limit_ctx_t :=
  match n with
  | O => ([], key)
  | S n =>
      let '(e, key) := key_limit_update key in
      let '(es, key) := key_limit_updates n key in
      (e :: es, key)
  end.

(** the contexts a key goes through after a successful [key_limit_set] *)
Inductive key_reachable : key_limit_ctx_t → Prop :=
  | reach_set key key' s :
      is_word 64 s → key_limit_set key s = (err_status_ok, key') → key_reachable key'
  | reach_update key key' e :
      key_reachable key → state key ≠ key_state_expired →
      key_limit_update key = (e, key') → key_reachable key'.

(** what the state says about the counter *)
Definition key_limit_inv (key : key_limit_ctx_t) : Prop :=
  is_word 64 (num_left key) ∧
  match state key with
  | key_state_normal => soft_limit <= num_left key
  | key_state_past_soft_limit => 1 <= num_left key < soft_limit
  | key_state_expired => num_left key = 0
  end.

(** the state and the event that go with a number of remaining packets *)
Definition key_state_of (left : Z) : key_state_t :=
  if decide (left >= soft_limit) then key_state_normal
  else if decide (left < 1) then key_state_expired else key_state_past_soft_limit.

Definition key_event_of (left : Z) : key_event_t :=
  if decide (left >= soft_limit) then key_event_normal
  else if decide (left < 1) then key_event_hard_limit else key_event_soft_limit.

(** ** Lemmas *)

Ltac key_cases :=
  unfold key_limit_inv, key_limit_set, key_limit_update, key_state_of, key_event_of,
    soft_limit, is_word in *; simpl in *;
  repeat case_decide; simpl in *; simplify_eq/=; try lia.

Lemma key_update_live left :
  1 <= left → is_word 64 left →
  key_limit_update (mk_key_limit left (key_state_of left)) =
    (key_event_of (left - 1), mk_key_limit (left - 1) (key_state_of (left - 1))).
Proof.
  intros H1 Hw. unfold key_limit_update. simpl.
  rewrite (wrap_small 64 (left - 1)) by (unfold is_word in *; lia).
  key_cases; done.
Qed.

Lemma key_limit_inv_state key :
  key_limit_inv key → state key = key_state_of (num_left key).
Proof. destruct key as [n []]; intros; key_cases; done. Qed.

Lemma key_limit_set_inv key key' s :
  is_word 64 s → key_limit_set key s = (err_status_ok, key') → key_limit_inv key'.
Proof. intros Hw Hs. key_cases. Qed.

Lemma key_limit_update_inv key key' e :
  key_limit_inv key → state key ≠ key_state_expired →
  key_limit_update key = (e, key') → key_limit_inv key'.
Proof.
  intros Hk Hne Hu. destruct key as [n st].
  pose proof (key_limit_inv_state _ Hk) as Hst. simpl in Hst.
  assert (1 <= n) by (destruct st; key_cases).
  rewrite Hst, key_update_live in Hu by (done || apply Hk).
  injection Hu as <- <-. split; [|key_cases].
  unfold key_limit_inv, is_word in *; simpl in *; lia.
Qed.

(** ** Properties *)

(** in every context reached from a successful [key_limit_set] by updates
    of a live key, the state agrees with the remaining count: normal above the
    soft limit, past it below, expired exactly at zero. *)
Theorem key_limit_reachable_inv key : key_reachable key → key_limit_inv key.
Proof.
  induction 1; eauto using key_limit_set_inv, key_limit_update_inv.
Qed.

Lemma key_limit_reachable_inv_witness :
  key_limit_inv (mk_key_limit 0xffff key_state_past_soft_limit).
Proof.
  apply key_limit_reachable_inv.
  eapply (reach_update (mk_key_limit 0x10000 key_state_normal)); [|done|reflexivity].
  eapply (reach_set (mk_key_limit 0 key_state_normal) _ 0x10000); [|reflexivity].
  unfold is_word. lia.
Defined.

Lemma key_limit_updates_spec n left :
  Z.of_nat n <= left → is_word 64 left →
  key_limit_updates n (mk_key_limit left (key_state_of left)) =
    (map (λ i, key_event_of (left - Z.of_nat i)) (seq 1 n),
     mk_key_limit (left - Z.of_nat n) (key_state_of (left - Z.of_nat n))).
Proof.
  revert left. induction n as [|n IH]; intros left Hn Hw.
  - simpl. by rewrite Z.sub_0_r.
  - simpl key_limit_updates. rewrite key_update_live by (done || lia).
    rewrite IH by (unfold is_word in *; lia). simpl seq. simpl map.
    f_equal; [f_equal|].
    + rewrite <-(seq_shift n 1), map_map. apply map_ext. intros i. f_equal. lia.
    + by replace (left - 1 - Z.of_nat n) with (left - Z.of_nat (S n)) by lia.
Qed.

(** a key set to [s] packets reports, on its [i]-th use, exactly the event
    of the [s - i] packets left: normal down to the soft limit, then soft
    limit, and the hard limit on the [s]-th use and not before. *)
Theorem key_limit_lifetime key s n :
  is_word 64 s → soft_limit <= s → Z.of_nat n <= s →
  ∃ key', key_limit_set key s = (err_status_ok, key') ∧
    key_limit_updates n key' =
      (map (λ i, key_event_of (s - Z.of_nat i)) (seq 1 n),
       mk_key_limit (s - Z.of_nat n) (key_state_of (s - Z.of_nat n))).
Proof.
  intros Hw Hs Hn. exists (mk_key_limit s (key_state_of s)). split.
  - key_cases; done.
  - by apply key_limit_updates_spec.
Qed.

Lemma key_limit_lifetime_witness :
  ∃ key', key_limit_set (mk_key_limit 0 key_state_normal) 0x10001 = (err_status_ok, key') ∧
    key_limit_updates 2 key' =
      ([key_event_normal; key_event_soft_limit],
       mk_key_limit 0xffff key_state_past_soft_limit).
Proof.
  exact (key_limit_lifetime (mk_key_limit 0 key_state_normal) 0x10001 2
           ltac:(unfold is_word; lia) ltac:(unfold soft_limit; lia) ltac:(lia)).
Defined.

(** An expired key does not stay unusable: the counter is unsigned, so
    the update that follows the hard limit wraps to 2^64 - 1 and reports a
    normal event, while [key_limit_check] still says expired. *)
Theorem key_limit_update_after_expiry key :
  key_limit_inv key → state key = key_state_expired →
  key_limit_update key = (key_event_normal, mk_key_limit (2 ^ 64 - 1) key_state_expired) ∧
  key_limit_check (snd (key_limit_update key)) = err_status_key_expired.
Proof.
  destruct key as [n st]; simpl. intros [_ Hn] Hst. simpl in *. subst st. subst n.
  by vm_compute.
Qed.

Lemma key_limit_update_after_expiry_witness :
  key_limit_update (mk_key_limit 0 key_state_expired)
    = (key_event_normal, mk_key_limit (2 ^ 64 - 1) key_state_expired) ∧
  key_limit_check (snd (key_limit_update (mk_key_limit 0 key_state_expired)))
    = err_status_key_expired.
Proof.
  apply key_limit_update_after_expiry; [|reflexivity].
  split; [unfold is_word; simpl; lia | reflexivity].
Defined.
