(* ===== verification/Sha1.v ===== *)
(** * SHA-1

    Models [crypto/hash/sha1.c]: the compression function, the streaming
    context and its final padding, with 32-bit arithmetic.  The message buffer
    [M] of a context is held as its 64 octets; [M_word] is the 32-bit word at
    an index of it, as a little-endian host loads it.

    The reference definition, [Sha1Spec.sha1], is SHA-1 as FIPS 180 states it:
    padding, message schedule, eighty steps per block. *)

From S2P Require Import Prelude.

(** ** Reference definition *)

Module Sha1Spec.

Definition rotl (n x : Z) : Z := wrap 32 (Z.shiftl x n) ||| (x >> (32 - n)).

Definition Ch (x y z : Z) : Z := (x & y) ^^ (u32 (Z.lnot x) & z).
Definition Parity (x y z : Z) : Z := x ^^ y ^^ z.
Definition Maj (x y z : Z) : Z := (x & y) ^^ (x & z) ^^ (y & z).

Definition ft (t : nat) : Z → Z → Z → Z :=
  if decide (t < 20)%nat then Ch else if decide (t < 40)%nat then Parity
  else if decide (t < 60)%nat then Maj else Parity.

Definition Kt (t : nat) : Z :=
  if decide (t < 20)%nat then 0x5a827999 else if decide (t < 40)%nat then 0x6ed9eba1
  else if decide (t < 60)%nat then 0x8f1bbcdc else 0xca62c1d6.

(** the first [t + 16] words of the schedule of a block of sixteen words *)
Fixpoint schedule (block : list Z) (t : nat) : list Z :=
  match t with
  | O => block
  | S t =>
      let W := schedule block t in
      let w k := nth (t + 16 - k) W 0 in
      W ++ [rotl 1 (w 3%nat ^^ w 8%nat ^^ w 14%nat ^^ w 16%nat)]
  end.

Definition step (W : list Z) (t : nat) '(a, b, c, d, e) : Z * Z * Z * Z * Z :=
  (u32 (rotl 5 a + ft t b c d + e + Kt t + nth t W 0), a, rotl 30 b, c, d).

Fixpoint steps (W : list Z) (t : nat) (s : Z * Z * Z * Z * Z) : Z * Z * Z * Z * Z :=
  match t with
  | O => s
  | S t => step W t (steps W t s)
  end.

Definition compress (H block : list Z) : list Z :=
  match H with
  | [h0; h1; h2; h3; h4] =>
      let '(a, b, c, d, e) := steps (schedule block 64) 80 (h0, h1, h2, h3, h4) in
      [u32 (h0 + a); u32 (h1 + b); u32 (h2 + c); u32 (h3 + d); u32 (h4 + e)]
  | _ => H
  end.

Definition H0 : list Z := [0x67452301; 0xefcdab89; 0x98badcfe; 0x10325476; 0xc3d2e1f0].

(** the first [n] big-endian words of a string *)
Fixpoint be_words (n : nat) (l : list Z) : list Z :=
  match n with
  | O => []
  | S n => be_val (take 4 l) :: be_words n (drop 4 l)
  end.

(** the chaining value after the first [n] blocks of 64 octets *)
Fixpoint blocks (n : nat) (H : list Z) (m : list Z) : list Z :=
  match n with
  | O => H
  | S n => blocks n (compress H (be_words 16 m)) (drop 64 m)
  end.

Definition pad (m : list Z) : list Z :=
  m ++ [0x80] ++ replicate (Z.to_nat ((55 - Z.of_nat (length m)) mod 64)) 0 ++
  be_bytes 8 (8 * Z.of_nat (length m)).

(** the digest, as twenty octets *)
Definition sha1 (m : list Z) : list Z :=
  concat (map (be_bytes 4) (blocks (length (pad m) / 64) H0 (pad m))).

End Sha1Spec.

(** ** The code *)

Definition S1 (X : Z) : Z := (X <<32 1) ||| (X >> 31).
Definition S5 (X : Z) : Z := (X <<32 5) ||| (X >> 27).
Definition S30 (X : Z) : Z := (X <<32 30) ||| (X >> 2).

Definition f0 (B C D : Z) : Z := (B & C) ||| (u32 (Z.lnot B) & D).
Definition f1 (B C D : Z) : Z := B ^^ C ^^ D.
Definition f2 (B C D : Z) : Z := (B & C) ||| (B & D) ||| (C & D).
Definition f3 (B C D : Z) : Z := B ^^ C ^^ D.

Definition SHA_K0 : Z := 0x5A827999.
Definition SHA_K1 : Z := 0x6ED9EBA1.
Definition SHA_K2 : Z := 0x8F1BBCDC.
Definition SHA_K3 : Z := 0xCA62C1D6.

Record sha1_ctx_t := mk_sha1 {
  H : list Z;                (* state vector, five words *)
  M : list Z;                (* message buffer, its 64 octets *)
  octets_in_buffer : Z;
  num_bits_in_msg : Z }.

(** [M[i]] as the host loads it *)
Definition M_word (M : list Z) (i : Z) : option Z :=
  b0 ← aget M (4 * i); b1 ← aget M (4 * i + 1);
  b2 ← aget M (4 * i + 2); b3 ← aget M (4 * i + 3);
  Some (le_val [b0; b1; b2; b3]).

Definition be32_to_cpu (x : Z) : Z := bswap32 x.

(** [W[t] = S1(W[t-3] ^ W[t-8] ^ W[t-14] ^ W[t-16])] for [lo <= t < hi] *)
Definition extend_W (lo hi : Z) (W : list (option Z)) : option (list (option Z)) :=
  for_range lo hi (λ t W,
    a ← vget W (t - 3); b ← vget W (t - 8); c ← vget W (t - 14); d ← vget W (t - 16);
    let TEMP := a ^^ b ^^ c ^^ d in
    vset W t (S1 TEMP)) W.

(** one of the four loops of twenty steps *)
Definition sha1_rounds (f : Z → Z → Z → Z) (K lo hi : Z) (W : list (option Z))
    (s : Z * Z * Z * Z * Z) : option (Z * Z * Z * Z * Z) :=
  for_range lo hi (λ t '(A, B, C, D, E),
    w ← vget W t;
    let TEMP := u32 (S5 A + f B C D + E + w + K) in
    Some (TEMP, A, S30 B, C, D)) s.

(** the eighty steps and the addition to the state vector *)
Definition compress_W (W : list (option Z)) (hash_value : list Z) : option (list Z) :=
  H0 ← aget hash_value 0; H1 ← aget hash_value 1; H2 ← aget hash_value 2;
  H3 ← aget hash_value 3; H4 ← aget hash_value 4;
  s ← sha1_rounds f0 SHA_K0 0 20 W (H0, H1, H2, H3, H4);
  s ← sha1_rounds f1 SHA_K1 20 40 W s;
  s ← sha1_rounds f2 SHA_K2 40 60 W s;
  s ← sha1_rounds f3 SHA_K3 60 80 W s;
  let '(A, B, C, D, E) := s in
  Some [u32 (H0 + A); u32 (H1 + B); u32 (H2 + C); u32 (H3 + D); u32 (H4 + E)].

(** [W[16]] to [W[31]] are unrolled in the source *)
Definition sha1_core (M hash_value : list Z) : option (list Z) :=
  W ← for_range 0 16 (λ i W, m ← M_word M i; vset W i (be32_to_cpu m)) (uninit 80);
  W ← extend_W 16 32 W;
  W ← extend_W 32 80 W;
  compress_W W hash_value.

Definition sha1_init (ctx : sha1_ctx_t) : sha1_ctx_t :=
  mk_sha1 [0x67452301; 0xefcdab89; 0x98badcfe; 0x10325476; 0xc3d2e1f0] (M ctx) 0 0.

(** the [while] loop of [sha1_update]; [fuel] bounds its iterations *)
Fixpoint sha1_update_loop (fuel : nat) (ctx : sha1_ctx_t) (msg : list Z)
    (octets_in_msg : Z) : option sha1_ctx_t :=
  match fuel with
  | O => None
  | S fuel =>
    if decide (octets_in_msg > 0) then
      let o := octets_in_buffer ctx in
      if decide (octets_in_msg + o >= 64) then
        buf ← for_range o 64 (λ i buf, c ← aget msg (i - o); aset buf i c) (M ctx);
        h ← sha1_core buf (H ctx);
        sha1_update_loop fuel (mk_sha1 h buf 0 (num_bits_in_msg ctx))
          (drop (Z.to_nat (64 - o)) msg) (octets_in_msg - (64 - o))
      else
        buf ← for_range o (o + octets_in_msg)
                (λ i buf, c ← aget msg (i - o); aset buf i c) (M ctx);
        sha1_update_loop fuel
          (mk_sha1 (H ctx) buf (o + octets_in_msg) (num_bits_in_msg ctx))
          (drop (Z.to_nat octets_in_msg) msg) 0
    else Some ctx
  end.

(** [octets_in_msg * 8] is a product of [int]s, which is converted to [uint32_t] for the
    sum.  From 2^28 octets on it overflows: C leaves that undefined, and it is the two's
    complement product here *)
Definition sha1_update (ctx : sha1_ctx_t) (msg : list Z) (octets_in_msg : Z)
  : option sha1_ctx_t :=
  let ctx := mk_sha1 (H ctx) (M ctx) (octets_in_buffer ctx)
               (u32 (num_bits_in_msg ctx + u32 (s32 (octets_in_msg * 8)))) in
  sha1_update_loop (S (S (Z.to_nat octets_in_msg))) ctx msg octets_in_msg.

(** the [switch] on the octets in the last word: set the high bit of the octet
    that follows the message *)
Definition mark_tail (M : list Z) (tail i : Z) (W : list (option Z))
  : option (list (option Z)) :=
  if decide (tail = 3) then
    m ← M_word M (i - 1);
    W ← vset W (i - 1) ((be32_to_cpu m & 0xffffff00) ||| 0x80); vset W i 0x0
  else if decide (tail = 2) then
    m ← M_word M (i - 1);
    W ← vset W (i - 1) ((be32_to_cpu m & 0xffff0000) ||| 0x8000); vset W i 0x0
  else if decide (tail = 1) then
    m ← M_word M (i - 1);
    W ← vset W (i - 1) ((be32_to_cpu m & 0xff000000) ||| 0x800000); vset W i 0x0
  else vset W i 0x80000000.

(** the sixteen words of the last partial block *)
Definition sha1_final_W (ctx : sha1_ctx_t) : option (list (option Z)) :=
  let o := octets_in_buffer ctx in
  let tail := Z.rem o 4 in
  let i := Z.quot (o + 3) 4 in
  W ← for_range 0 i (λ i W, m ← M_word (M ctx) i; vset W i (be32_to_cpu m)) (uninit 80);
  W ← mark_tail (M ctx) tail i W;
  W ← for_range (i + 1) 15 (λ i W, vset W i 0x0) W;
  if decide (o < 56) then vset W 15 (num_bits_in_msg ctx)
  else if decide (o < 60) then vset W 15 0x0
  else Some W.

(** the five words written to [output] and the context left behind *)
Definition sha1_final (ctx : sha1_ctx_t) : option (list Z * sha1_ctx_t) :=
  W ← sha1_final_W ctx;
  W ← extend_W 16 80 W;
  h ← compress_W W (H ctx);
  h ← (if decide (octets_in_buffer ctx >= 56) then
         W ← for_range 0 15 (λ i W, vset W i 0x0) W;
         W ← vset W 15 (num_bits_in_msg ctx);
         W ← extend_W 16 80 W;
         compress_W W h
       else Some h);
  Some (map be32_to_cpu h, mk_sha1 h (M ctx) 0 (num_bits_in_msg ctx)).

Definition sha1 (stack : sha1_ctx_t) (msg : list Z) (octets_in_msg : Z) : option (list Z) :=
  let ctx := sha1_init stack in
  ctx ← sha1_update ctx msg octets_in_msg;
  '(hash_value, _) ← sha1_final ctx;
  Some hash_value.

(** an array of words as the octets it occupies in memory *)
Definition word_octets (l : list Z) : list Z := concat (map (le_bytes 4) l).

(** ** Words of a byte string *)

Definition byte_at (l : list Z) (k : nat) : Z := nth k l 0.

Definition word_at (l : list Z) (j : nat) : Z :=
  be_val [byte_at l (4 * j); byte_at l (4 * j + 1); byte_at l (4 * j + 2); byte_at l (4 * j + 3)].

Lemma byte_at_drop l n k : byte_at (drop n l) k = byte_at l (n + k).
Proof. unfold byte_at. by rewrite !nth_lookup, lookup_drop. Qed.

Lemma byte_at_range l k : is_bytes l → is_word 8 (byte_at l k).
Proof.
  intros Hl. unfold byte_at. rewrite nth_lookup.
  destruct (l !! k) eqn:E; simpl; [|apply word_0; lia].
  by eapply Forall_lookup_1 in Hl.
Qed.

Lemma nth_be_words n l j :
  (j < n)%nat → (4 * n <= length l)%nat → nth j (Sha1Spec.be_words n l) 0 = word_at l j.
Proof.
  revert l j. induction n as [|n IH]; intros l j Hj Hl; [lia|].
  destruct j as [|j]; simpl.
  - destruct l as [|a [|b [|c [|d l]]]]; simpl in Hl; try lia. done.
  - rewrite IH by (rewrite ?length_drop; lia). unfold word_at.
    rewrite !byte_at_drop. by repeat (f_equal; try lia).
Qed.

Lemma length_be_words n l : length (Sha1Spec.be_words n l) = n.
Proof. revert l. induction n; intros l; simpl; congruence. Qed.

Lemma bswap32_le_val b0 b1 b2 b3 :
  is_bytes [b0; b1; b2; b3] → bswap32 (le_val [b0; b1; b2; b3]) = be_val [b0; b1; b2; b3].
Proof. intros Hb. unfold bswap32. f_equal. by apply (le_bytes_le_val [b0; b1; b2; b3]). Qed.

Lemma aget_byte l k : (k < length l)%nat → aget l (Z.of_nat k) = Some (byte_at l k).
Proof.
  intros Hk. rewrite aget_lookup, Nat2Z.id by lia. unfold byte_at.
  destruct (lookup_lt_is_Some_2 l k Hk) as [x Hx]. by rewrite Hx, (nth_lookup_Some _ _ _ _ Hx).
Qed.

(** a word of the buffer, in the order the message has it *)
Lemma load_word M j :
  is_bytes M → 0 <= j → 4 * j + 4 <= Z.of_nat (length M) →
  ∃ m, M_word M j = Some m ∧ be32_to_cpu m = word_at M (Z.to_nat j).
Proof.
  intros HM Hj Hl. unfold M_word.
  replace (4 * j) with (Z.of_nat (4 * Z.to_nat j)) by lia.
  replace (Z.of_nat (4 * Z.to_nat j) + 1) with (Z.of_nat (4 * Z.to_nat j + 1)) by lia.
  replace (Z.of_nat (4 * Z.to_nat j) + 2) with (Z.of_nat (4 * Z.to_nat j + 2)) by lia.
  replace (Z.of_nat (4 * Z.to_nat j) + 3) with (Z.of_nat (4 * Z.to_nat j + 3)) by lia.
  rewrite !aget_byte by lia. eexists. split; [reflexivity|].
  unfold be32_to_cpu. rewrite bswap32_le_val; [done|].
  unfold is_bytes. rewrite !Forall_cons_iff. split_and!; auto using byte_at_range.
Qed.

(** ** The schedule *)

(** the first [n] cells of [W] hold the words [l] *)
Definition holds (W : list (option Z)) (n : nat) (l : list Z) : Prop :=
  length W = 80%nat ∧ ∀ j, (j < n)%nat → W !! j = Some (Some (nth j l 0)).

Lemma holds_get W n l i :
  holds W n l → 0 <= i < Z.of_nat n → vget W i = Some (nth (Z.to_nat i) l 0).
Proof. intros [_ HW] Hi. apply vget_Some; [lia|]. apply HW. lia. Qed.

Lemma length_schedule b t : length b = 16%nat → length (Sha1Spec.schedule b t) = (16 + t)%nat.
Proof. intros Hb. induction t; simpl; rewrite ?length_app; simpl; lia. Qed.

Lemma S1_rotl x : S1 x = Sha1Spec.rotl 1 x.
Proof. done. Qed.

Lemma extend_W_spec lo hi W b :
  16 <= lo <= hi → hi <= 80 → length b = 16%nat →
  holds W (Z.to_nat lo) (Sha1Spec.schedule b (Z.to_nat lo - 16)) →
  ∃ W', extend_W lo hi W = Some W' ∧
    holds W' (Z.to_nat hi) (Sha1Spec.schedule b (Z.to_nat hi - 16)).
Proof.
  intros Hlo Hhi Hb HW. unfold extend_W.
  apply (for_range_inv (λ k W, holds W (Z.to_nat k) (Sha1Spec.schedule b (Z.to_nat k - 16))));
    [lia|done|].
  intros k W1 Hk HW1. rewrite !(holds_get W1 _ _ _ HW1) by lia. simpl.
  destruct HW1 as [Hlen Hin].
  rewrite vset_Some by lia. eexists. split; [done|].
  split; [by rewrite length_insert|]. intros j Hj.
  replace (Z.to_nat (k + 1) - 16)%nat with (S (Z.to_nat k - 16)) by lia. simpl.
  destruct (decide (j = Z.to_nat k)) as [->|Hne].
  - rewrite list_lookup_insert_eq by lia. rewrite app_nth2; rewrite length_schedule by done; [|lia].
    replace (Z.to_nat k - (16 + (Z.to_nat k - 16)))%nat with 0%nat by lia. simpl nth.
    rewrite S1_rotl. do 2 f_equal. f_equal.
    repeat match goal with |- context [Z.to_nat (k - ?c)] =>
      replace (Z.to_nat (k - c)) with (Z.to_nat k - 16 + 16 - Z.to_nat c)%nat by lia end.
    done.
  - rewrite list_lookup_insert_ne by done. rewrite Hin by lia.
    rewrite app_nth1; [done|]. rewrite length_schedule by done. lia.
Qed.

(** ** The eighty steps *)

Lemma f0_Ch x y z : f0 x y z = Sha1Spec.Ch x y z.
Proof. unfold f0, Sha1Spec.Ch. bitwise. Qed.

Lemma f2_Maj x y z : f2 x y z = Sha1Spec.Maj x y z.
Proof. unfold f2, Sha1Spec.Maj. bitwise. Qed.

Lemma rounds_spec f K lo hi W s0 l :
  0 <= lo <= hi → hi <= 80 → holds W 80 l →
  (∀ t, lo <= Z.of_nat t < hi → Sha1Spec.Kt t = K ∧ ∀ x y z, Sha1Spec.ft t x y z = f x y z) →
  sha1_rounds f K lo hi W (Sha1Spec.steps l (Z.to_nat lo) s0)
    = Some (Sha1Spec.steps l (Z.to_nat hi) s0).
Proof.
  intros Hlo Hhi HW Hf. unfold sha1_rounds.
  destruct (for_range_inv (λ k s, s = Sha1Spec.steps l (Z.to_nat k) s0)
    (λ t '(A, B, C, D, E),
       w ← vget W t;
       let TEMP := u32 (S5 A + f B C D + E + w + K) in
       Some (TEMP, A, S30 B, C, D)) lo hi (Sha1Spec.steps l (Z.to_nat lo) s0))
    as (s' & Hs' & ->); [lia|done| |done].
  intros k s Hk ->.
  replace (Z.to_nat (k + 1)) with (S (Z.to_nat k)) by lia. simpl Sha1Spec.steps.
  destruct (Sha1Spec.steps l (Z.to_nat k) s0) as [[[[a b] c] d] e].
  rewrite (holds_get W _ _ _ HW) by lia.
  destruct (Hf (Z.to_nat k)) as [HK Hft]; [lia|].
  eexists. split; [reflexivity|]. unfold Sha1Spec.step. rewrite HK, Hft.
  change (S5 a) with (Sha1Spec.rotl 5 a). do 5 f_equal. lia.
Qed.

#[local] Strategy opaque [Sha1Spec.schedule Sha1Spec.steps].

Ltac step_fun :=
  intros t Ht; unfold Sha1Spec.ft, Sha1Spec.Kt; repeat (case_decide; try lia);
  split; [reflexivity|intros; symmetry].

Lemma rounds_all W l s0 :
  holds W 80 l → ∃ s1 s2 s3,
    sha1_rounds f0 SHA_K0 0 20 W s0 = Some s1 ∧ sha1_rounds f1 SHA_K1 20 40 W s1 = Some s2 ∧
    sha1_rounds f2 SHA_K2 40 60 W s2 = Some s3 ∧
    sha1_rounds f3 SHA_K3 60 80 W s3 = Some (Sha1Spec.steps l 80 s0).
Proof.
  intros HW.
  exists (Sha1Spec.steps l (Z.to_nat 20) s0), (Sha1Spec.steps l (Z.to_nat 40) s0),
    (Sha1Spec.steps l (Z.to_nat 60) s0).
  split_and!.
  - apply (rounds_spec f0 SHA_K0 0 20 W s0 l); [lia..|done|]. step_fun. apply f0_Ch.
  - apply (rounds_spec f1 SHA_K1 20 40 W s0 l); [lia..|done|]. step_fun. done.
  - apply (rounds_spec f2 SHA_K2 40 60 W s0 l); [lia..|done|]. step_fun. apply f2_Maj.
  - apply (rounds_spec f3 SHA_K3 60 80 W s0 l); [lia..|done|]. step_fun. done.
Qed.

Lemma compress_W_spec W h b :
  length h = 5%nat → length b = 16%nat → holds W 80 (Sha1Spec.schedule b 64) →
  compress_W W h = Some (Sha1Spec.compress h b).
Proof.
  intros Hh Hb HW. destruct h as [|h0 [|h1 [|h2 [|h3 [|h4 [|]]]]]]; try discriminate Hh.
  unfold compress_W, Sha1Spec.compress.
  destruct (rounds_all W _ (h0, h1, h2, h3, h4) HW) as (s1 & s2 & s3 & E1 & E2 & E3 & E4).
  generalize dependent (Sha1Spec.steps (Sha1Spec.schedule b 64) 80 (h0, h1, h2, h3, h4)).
  intros [[[[A B] C] D] E] E4.
  change (aget [h0; h1; h2; h3; h4] 0) with (Some h0).
  change (aget [h0; h1; h2; h3; h4] 1) with (Some h1).
  change (aget [h0; h1; h2; h3; h4] 2) with (Some h2).
  change (aget [h0; h1; h2; h3; h4] 3) with (Some h3).
  change (aget [h0; h1; h2; h3; h4] 4) with (Some h4).
  cbn [mbind option_bind]. rewrite E1. cbn [mbind option_bind]. rewrite E2.
  cbn [mbind option_bind]. rewrite E3. cbn [mbind option_bind]. by rewrite E4.
Qed.

(** ** Whole blocks *)

Lemma holds_be_words W M :
  length W = 80%nat → (64 <= length M)%nat →
  (∀ j, (j < 16)%nat → W !! j = Some (Some (word_at M j))) →
  holds W 16 (Sha1Spec.schedule (Sha1Spec.be_words 16 M) 0).
Proof.
  intros Hl HM HW. split; [done|]. intros j Hj. rewrite HW by done.
  cbn [Sha1Spec.schedule]. by rewrite nth_be_words by lia.
Qed.

Lemma sha1_core_spec M h :
  is_bytes M → length M = 64%nat → length h = 5%nat →
  sha1_core M h = Some (Sha1Spec.compress h (Sha1Spec.be_words 16 M)).
Proof.
  intros HM Hl Hh. unfold sha1_core.
  destruct (for_range_fill (λ i, Some (word_at M (Z.to_nat i))) 0 16 (uninit 80)
    (λ i W, m ← M_word M i; vset W i (be32_to_cpu m))) as (W & -> & HW & Hin & _).
  - lia.
  - unfold uninit. rewrite length_replicate. lia.
  - intros k W' Hk _. destruct (load_word M k HM) as (m & -> & Hm); [lia..|].
    simpl. unfold vset. by rewrite Hm.
  - unfold uninit in HW. rewrite length_replicate in HW. cbn [mbind option_bind].
    destruct (extend_W_spec 16 32 W (Sha1Spec.be_words 16 M)) as (W1 & -> & H1);
      [lia..|apply length_be_words| |].
    { apply holds_be_words; [done|lia|]. intros j Hj. rewrite Hin by lia. by rewrite Nat2Z.id. }
    cbn [mbind option_bind].
    destruct (extend_W_spec 32 80 W1 (Sha1Spec.be_words 16 M)) as (W2 & -> & H2);
      [lia..|apply length_be_words|done|].
    cbn [mbind option_bind]. apply compress_W_spec; [done|apply length_be_words|done].
Qed.

Lemma be_words_app n l x :
  (4 * n <= length l)%nat → Sha1Spec.be_words n (l ++ x) = Sha1Spec.be_words n l.
Proof.
  revert l. induction n as [|n IH]; intros l Hl; [done|].
  cbn [Sha1Spec.be_words]. rewrite take_app_le, drop_app_le by lia.
  f_equal. apply IH. rewrite length_drop. lia.
Qed.

Lemma be_words_take n k l :
  (4 * n <= k)%nat → (k <= length l)%nat →
  Sha1Spec.be_words n (take k l) = Sha1Spec.be_words n l.
Proof.
  intros Hn Hk. rewrite <-(take_drop k l) at 2. rewrite be_words_app; [done|].
  rewrite length_take. lia.
Qed.

Lemma length_compress h b : length h = 5%nat → length (Sha1Spec.compress h b) = 5%nat.
Proof.
  intros Hh. destruct h as [|h0 [|h1 [|h2 [|h3 [|h4 [|]]]]]]; try discriminate Hh.
  unfold Sha1Spec.compress. by destruct (Sha1Spec.steps _ _ _) as [[[[]]]].
Qed.

Lemma compress_words h b : length h = 5%nat → is_words (Sha1Spec.compress h b).
Proof.
  intros Hh. destruct h as [|h0 [|h1 [|h2 [|h3 [|h4 [|]]]]]]; try discriminate Hh.
  unfold Sha1Spec.compress. destruct (Sha1Spec.steps _ _ _) as [[[[]]]].
  unfold is_words. rewrite !Forall_cons_iff. split_and!; try apply wrap_range; done || lia.
Qed.

#[local] Strategy opaque [Sha1Spec.compress Sha1Spec.be_words].

Lemma length_blocks n h m : length h = 5%nat → length (Sha1Spec.blocks n h m) = 5%nat.
Proof.
  revert h m. induction n; intros h m Hh; [done|].
  cbn [Sha1Spec.blocks]. auto using length_compress.
Qed.

Lemma blocks_app n h m x :
  (64 * n <= length m)%nat → Sha1Spec.blocks n h (m ++ x) = Sha1Spec.blocks n h m.
Proof.
  revert h m. induction n as [|n IH]; intros h m Hm; [done|].
  cbn [Sha1Spec.blocks]. rewrite be_words_app, drop_app_le by lia.
  apply IH. rewrite length_drop. lia.
Qed.

Lemma blocks_plus a b h m :
  Sha1Spec.blocks (a + b) h m =
    Sha1Spec.blocks b (Sha1Spec.blocks a h m) (drop (64 * a) m).
Proof.
  revert h m. induction a as [|a IH]; intros h m.
  - by rewrite drop_0.
  - cbn [Nat.add Sha1Spec.blocks]. rewrite IH, drop_drop.
    by replace (64 + 64 * a)%nat with (64 * S a)%nat by lia.
Qed.

(** ** Streaming *)

(** the context stands for the octets [m] absorbed so far *)
Record absorbed (ctx : sha1_ctx_t) (m : list Z) : Prop := {
  ab_bytes : is_bytes m;
  ab_buf_bytes : is_bytes (M ctx);
  ab_buf_len : length (M ctx) = 64%nat;
  ab_state : H ctx = Sha1Spec.blocks (length m / 64) Sha1Spec.H0 m;
  ab_count : octets_in_buffer ctx = Z.of_nat (length m mod 64);
  ab_rest : take (length m mod 64) (M ctx) = drop (64 * (length m / 64)) m }.

Lemma copy_spec o hi buf msg :
  length buf = 64%nat → 0 <= o <= hi → hi <= 64 → hi - o <= Z.of_nat (length msg) →
  is_bytes buf → is_bytes msg →
  ∃ buf', for_range o hi (λ i buf, c ← aget msg (i - o); aset buf i c) buf = Some buf' ∧
    length buf' = 64%nat ∧ is_bytes buf' ∧
    take (Z.to_nat hi) buf' = take (Z.to_nat o) buf ++ take (Z.to_nat (hi - o)) msg.
Proof.
  intros Hl Ho Hhi Hm Hb Hmb.
  destruct (for_range_fill (λ i, byte_at msg (Z.to_nat (i - o))) o hi buf
    (λ i buf, c ← aget msg (i - o); aset buf i c)) as (buf' & -> & Hl' & Hin & Hout).
  - lia.
  - lia.
  - intros k l Hk _. replace (k - o) with (Z.of_nat (Z.to_nat (k - o))) by lia.
    rewrite aget_byte by lia. simpl. by rewrite Nat2Z.id.
  - exists buf'. split_and!; [done|lia| |].
    + apply Forall_lookup_2. intros j x Hx.
      destruct (decide (o <= Z.of_nat j < hi)) as [Hj|Hj].
      * rewrite Hin in Hx by done. injection Hx as <-. by apply byte_at_range.
      * rewrite Hout in Hx by done. by eapply Forall_lookup_1 in Hb.
    + apply list_eq. intros j. destruct (decide (j < Z.to_nat hi)%nat) as [Hj|Hj].
      * rewrite lookup_take_lt by done.
        destruct (decide (j < Z.to_nat o)%nat).
        -- rewrite lookup_app_l by (rewrite length_take; lia).
           rewrite lookup_take_lt by done. apply Hout. lia.
        -- rewrite lookup_app_r by (rewrite length_take; lia).
           rewrite length_take, lookup_take_lt by lia.
           rewrite Hin by lia. unfold byte_at.
           replace (Z.to_nat (Z.of_nat j - o)) with (j - Nat.min (Z.to_nat o) (length buf))%nat
             by lia.
           destruct (lookup_lt_is_Some_2 msg (j - Nat.min (Z.to_nat o) (length buf)))
             as [x Hx]; [lia|]. by rewrite Hx, (nth_lookup_Some _ _ _ _ Hx).
      * rewrite lookup_take_ge by lia. symmetry. apply lookup_ge_None.
        rewrite length_app, !length_take. lia.
Qed.

Lemma absorbed_block ctx m x buf nb :
  absorbed ctx m → is_bytes x → is_bytes buf → length buf = 64%nat →
  (length m mod 64 + length x = 64)%nat →
  buf = take (length m mod 64) (M ctx) ++ x →
  absorbed (mk_sha1 (Sha1Spec.compress (H ctx) (Sha1Spec.be_words 16 buf)) buf 0 nb) (m ++ x).
Proof.
  intros [Hm HM Hl Hh Ho Hr] Hx Hb Hlb Hlen ->.
  pose proof (Nat.div_mod_eq (length m) 64) as Hdm.
  set (q := (length m / 64)%nat) in *. set (o := (length m mod 64)%nat) in *.
  assert (length (m ++ x) = 64 * (q + 1))%nat as Hlen' by (rewrite length_app; lia).
  assert (length (m ++ x) / 64 = q + 1)%nat as Hq.
  { rewrite Hlen', Nat.mul_comm. apply Nat.div_mul. lia. }
  assert (length (m ++ x) mod 64 = 0)%nat as Hz.
  { rewrite Hlen', Nat.mul_comm. apply Nat.Div0.mod_mul. }
  constructor; cbn [H M octets_in_buffer]; rewrite ?Hq, ?Hz; [|done|done| |done|].
  - by apply is_bytes_app.
  - rewrite blocks_plus, blocks_app by lia. rewrite Hh, Hr.
    rewrite drop_app_le by lia. done.
  - rewrite <-Hlen', drop_all. done.
Qed.

Lemma absorbed_tail ctx m x buf nb :
  absorbed ctx m → is_bytes x → is_bytes buf → length buf = 64%nat →
  (length m mod 64 + length x < 64)%nat →
  take (length m mod 64 + length x) buf = take (length m mod 64) (M ctx) ++ x →
  absorbed (mk_sha1 (H ctx) buf (Z.of_nat (length m mod 64 + length x)) nb) (m ++ x).
Proof.
  intros [Hm HM Hl Hh Ho Hr] Hx Hb Hlb Hlen Hbuf.
  pose proof (Nat.div_mod_eq (length m) 64) as Hdm.
  set (q := (length m / 64)%nat) in *. set (o := (length m mod 64)%nat) in *.
  assert (length (m ++ x) = 64 * q + (o + length x))%nat as Hlen' by (rewrite length_app; lia).
  assert (length (m ++ x) / 64 = q)%nat as Hq.
  { symmetry. apply Nat.div_unique with (o + length x)%nat; lia. }
  assert (length (m ++ x) mod 64 = o + length x)%nat as Hz.
  { symmetry. apply Nat.mod_unique with q; lia. }
  constructor; cbn [H M octets_in_buffer]; rewrite ?Hq, ?Hz; [|done|done| |done|].
  - by apply is_bytes_app.
  - rewrite blocks_app by lia. done.
  - rewrite Hbuf, Hr, drop_app_le by lia. done.
Qed.

Lemma absorbed_state_len ctx m : absorbed ctx m → length (H ctx) = 5%nat.
Proof. intros Ha. rewrite (ab_state _ _ Ha). by apply length_blocks. Qed.

Lemma sha1_update_loop_spec fuel ctx m msg n :
  absorbed ctx m → is_bytes msg → (n < fuel)%nat → (n <= length msg)%nat →
  ∃ ctx', sha1_update_loop fuel ctx msg (Z.of_nat n) = Some ctx' ∧
    absorbed ctx' (m ++ take n msg) ∧ num_bits_in_msg ctx' = num_bits_in_msg ctx.
Proof.
  revert ctx m msg n. induction fuel as [|fuel IH]; intros ctx m msg n Ha Hmsg Hf Hn; [lia|].
  cbn [sha1_update_loop]. destruct (decide (Z.of_nat n > 0)) as [Hpos|Hz]; cycle 1.
  { exists ctx. assert (n = 0)%nat as -> by lia. by rewrite take_0, app_nil_r. }
  pose proof (Nat.mod_upper_bound (length m) 64 ltac:(lia)) as Hob.
  rewrite (ab_count _ _ Ha). set (o := (length m mod 64)%nat) in *.
  destruct (decide (Z.of_nat n + Z.of_nat o >= 64)) as [Hfull|Hpart].
  - destruct (copy_spec (Z.of_nat o) 64 (M ctx) msg) as (buf & -> & Hlb & Hbb & Hbuf);
      [apply Ha|lia|lia|lia|apply Ha|done|].
    cbn [mbind option_bind]. rewrite (sha1_core_spec buf) by
      (done || by eapply absorbed_state_len). cbn [mbind option_bind].
    set (k := Z.to_nat (64 - Z.of_nat o)) in *.
    rewrite (take_ge buf), Nat2Z.id in Hbuf by lia.
    replace (Z.of_nat n - (64 - Z.of_nat o)) with (Z.of_nat (n - k)) by lia.
    edestruct (IH (mk_sha1 (Sha1Spec.compress (H ctx) (Sha1Spec.be_words 16 buf)) buf 0
      (num_bits_in_msg ctx)) (m ++ take k msg) (drop k msg) (n - k)%nat)
      as (ctx' & -> & Ha' & Hnb); [|by apply is_bytes_drop|lia|rewrite length_drop; lia|].
    { eapply absorbed_block; [done|by apply is_bytes_take|done|done| |done].
      rewrite length_take. lia. }
    exists ctx'. split_and!; [done| |done].
    rewrite <-app_assoc, take_take_drop in Ha'.
    by replace (k + (n - k))%nat with n in Ha' by lia.
  - destruct (copy_spec (Z.of_nat o) (Z.of_nat o + Z.of_nat n) (M ctx) msg)
      as (buf & -> & Hlb & Hbb & Hbuf); [apply Ha|lia|lia|lia|apply Ha|done|].
    cbn [mbind option_bind].
    replace (Z.to_nat (Z.of_nat o + Z.of_nat n)) with (o + n)%nat in Hbuf by lia.
    replace (Z.to_nat (Z.of_nat o + Z.of_nat n - Z.of_nat o)) with n in Hbuf by lia.
    rewrite Nat2Z.id in Hbuf. replace (Z.of_nat o + Z.of_nat n) with (Z.of_nat (o + n)) by lia.
    change 0 with (Z.of_nat 0) at 1.
    edestruct (IH (mk_sha1 (H ctx) buf (Z.of_nat (o + n)) (num_bits_in_msg ctx))
      (m ++ take n msg) (drop (Z.to_nat (Z.of_nat n)) msg) 0%nat)
      as (ctx' & -> & Ha' & Hnb); [|by apply is_bytes_drop|lia|lia|].
    { assert (length (take n msg) = n) as Hlt by (rewrite length_take; lia).
      rewrite <-Hlt at 1. apply absorbed_tail; [done|by apply is_bytes_take|done..| |];
        rewrite Hlt; [lia|done]. }
    exists ctx'. split_and!; [done| |done]. by rewrite take_0, app_nil_r in Ha'.
Qed.

(** the context after absorbing [m], bit count included *)
Definition sha1_repr (ctx : sha1_ctx_t) (m : list Z) : Prop :=
  absorbed ctx m ∧ num_bits_in_msg ctx = u32 (8 * Z.of_nat (length m)).

Lemma sha1_init_repr ctx :
  is_bytes (M ctx) → length (M ctx) = 64%nat → sha1_repr (sha1_init ctx) [].
Proof. intros Hb Hl. split; [|done]. constructor; done || by constructor. Qed.

(** the sum does not depend on the sign of the product *)
Lemma u32_s32 z : u32 (s32 z) = u32 z.
Proof.
  unfold wrap, swrap. rewrite Zminus_mod_idemp_l. f_equal. lia.
Qed.

Lemma sha1_update_repr ctx m msg n :
  sha1_repr ctx m → is_bytes msg → (n <= length msg)%nat →
  ∃ ctx', sha1_update ctx msg (Z.of_nat n) = Some ctx' ∧ sha1_repr ctx' (m ++ take n msg).
Proof.
  intros [Ha Hb] Hmsg Hn. unfold sha1_update. rewrite u32_s32.
  edestruct (sha1_update_loop_spec (S (S (Z.to_nat (Z.of_nat n))))
    (mk_sha1 (H ctx) (M ctx) (octets_in_buffer ctx)
       (u32 (num_bits_in_msg ctx + u32 (Z.of_nat n * 8)))) m msg n) as (ctx' & -> & Ha' & Hnb);
    [|done|lia|done|].
  { by destruct Ha. }
  exists ctx'. split; [done|]. split; [done|]. rewrite Hnb. cbn [num_bits_in_msg].
  rewrite Hb, length_app, length_take. unfold wrap. rewrite Zplus_mod_idemp_l, Zplus_mod_idemp_r.
  f_equal. lia.
Qed.

(** ** The final padding *)

(** keep the high [32 - k] bits of a word and put [v] below them *)
Lemma mask_high k hi lo v :
  0 <= k <= 32 → is_word (32 - k) hi → is_word k lo → is_word k v →
  ((hi * 2 ^ k + lo) & Z.shiftl (Z.ones (32 - k)) k) ||| v = hi * 2 ^ k + v.
Proof.
  intros Hk Hhi Hlo Hv. rewrite <-lor_shiftl_add by (done || lia).
  rewrite <-(lor_shiftl_add k hi v) by (done || lia). bitwise.
Qed.

Lemma be_val4 a b c d : be_val [a; b; c; d] = be_val [a; b; c] * 2 ^ 8 + d.
Proof. etransitivity; [apply (be_val_app [a; b; c] [d])|]. simpl. lia. Qed.

Lemma be_val4_2 a b c d : be_val [a; b; c; d] = be_val [a; b] * 2 ^ 16 + be_val [c; d].
Proof. apply (be_val_app [a; b] [c; d]). Qed.

Lemma be_val4_1 a b c d : be_val [a; b; c; d] = be_val [a] * 2 ^ 24 + be_val [b; c; d].
Proof. apply (be_val_app [a] [b; c; d]). Qed.

Ltac byte_words := unfold is_bytes; rewrite ?Forall_cons_iff; auto 10.

(** the marker bit after one, two or three message octets *)
Lemma marker_word a b c d :
  is_word 8 a → is_word 8 b → is_word 8 c → is_word 8 d →
  (be_val [a; b; c; d] & 0xffffff00) ||| 0x80 = be_val [a; b; c; 0x80] ∧
  (be_val [a; b; c; d] & 0xffff0000) ||| 0x8000 = be_val [a; b; 0x80; 0] ∧
  (be_val [a; b; c; d] & 0xff000000) ||| 0x800000 = be_val [a; 0x80; 0; 0].
Proof.
  intros Ha Hb Hc Hd. split_and!.
  - rewrite !be_val4. apply (mask_high 8); [lia| |done|unfold is_word; lia].
    apply (be_val_range [a; b; c]). byte_words.
  - rewrite !be_val4_2. apply (mask_high 16); [lia| | |by vm_compute].
    + apply (be_val_range [a; b]). byte_words.
    + apply (be_val_range [c; d]). byte_words.
  - rewrite !be_val4_1. apply (mask_high 24); [lia| | |by vm_compute].
    + apply (be_val_range [a]). byte_words.
    + apply (be_val_range [b; c; d]). byte_words.
Qed.

Lemma nth_zeros n i : nth i (replicate n 0) 0 = 0.
Proof. revert i. induction n; intros [|i]; simpl; auto. Qed.

(** the last block of the message with its marker, before the length *)
Definition marked (o : nat) (buf : list Z) : list Z :=
  take o buf ++ 0x80 :: replicate (63 - o) 0.

Lemma byte_marked o buf k :
  (o < 64)%nat → length buf = 64%nat →
  byte_at (marked o buf) k =
    if decide (k < o)%nat then byte_at buf k else if decide (k = o) then 0x80 else 0.
Proof.
  intros Ho Hb. unfold marked, byte_at.
  assert (length (take o buf) = o) as Hl by (rewrite length_take; lia).
  destruct (decide (k < o)%nat).
  - rewrite app_nth1 by lia. by rewrite !nth_lookup, lookup_take_lt by done.
  - rewrite app_nth2, Hl by lia. destruct (decide (k = o)) as [->|].
    + by rewrite Nat.sub_diag.
    + destruct (k - o)%nat as [|i] eqn:E; [lia|]. simpl. apply nth_zeros.
Qed.

(** one [decide] of [byte_marked] at a time *)
Ltac decided := repeat (first [rewrite decide_True by lia | rewrite decide_False by lia]).

(** the position of the marker: [o = 4 i0 + tail] *)
Lemma tail_split o :
  ∃ i0 tail, o = (4 * i0 + tail)%nat ∧ (tail < 4)%nat ∧
    Z.rem (Z.of_nat o) 4 = Z.of_nat tail ∧
    Z.quot (Z.of_nat o + 3) 4 = Z.of_nat (i0 + (if decide (tail = 0%nat) then 0 else 1)).
Proof.
  exists (o / 4)%nat, (o mod 4)%nat.
  pose proof (Nat.div_mod_eq o 4). pose proof (Nat.mod_upper_bound o 4 ltac:(lia)).
  split_and!; [done|done| |].
  - rewrite Z.rem_mod_nonneg by lia. by rewrite Nat2Z.inj_mod.
  - rewrite Z.quot_div_nonneg by lia.
    symmetry. case_decide.
    + apply Z.div_unique with 3; lia.
    + apply Z.div_unique with (Z.of_nat (o mod 4) - 1); lia.
Qed.

Lemma word_marked_below o buf j :
  (o < 64)%nat → length buf = 64%nat → (4 * j + 4 <= o)%nat →
  word_at (marked o buf) j = word_at buf j.
Proof. intros Ho Hb Hj. unfold word_at. rewrite !byte_marked by done. by decided. Qed.

Lemma word_marked_above o buf j :
  (o < 64)%nat → length buf = 64%nat → (o < 4 * j)%nat → word_at (marked o buf) j = 0.
Proof. intros Ho Hb Hj. unfold word_at. rewrite !byte_marked by done. by decided. Qed.

(** the word with the marker is the one of the marked block *)
Lemma mark_tail_zero buf o i0 W :
  length buf = 64%nat → (o < 64)%nat → o = (4 * i0)%nat →
  mark_tail buf 0 (Z.of_nat i0) W = vset W (Z.of_nat i0) (word_at (marked o buf) i0).
Proof.
  intros Hl Ho ->. unfold mark_tail. decided. f_equal. unfold word_at.
  rewrite !byte_marked by done. by decided.
Qed.

Lemma mark_tail_some buf o i0 tail W :
  is_bytes buf → length buf = 64%nat → (o < 64)%nat → o = (4 * i0 + S tail)%nat →
  (tail < 3)%nat →
  mark_tail buf (Z.of_nat (S tail)) (Z.of_nat (S i0)) W =
    W ← vset W (Z.of_nat i0) (word_at (marked o buf) i0); vset W (Z.of_nat (S i0)) 0.
Proof.
  intros Hb Hl Ho -> Ht.
  destruct (marker_word (byte_at buf (4 * i0)) (byte_at buf (4 * i0 + 1))
    (byte_at buf (4 * i0 + 2)) (byte_at buf (4 * i0 + 3))) as (M3 & M2 & M1);
    [by apply byte_at_range..|].
  destruct (load_word buf (Z.of_nat i0) Hb) as (mw & Hm & Hbe); [lia..|].
  unfold mark_tail. replace (Z.of_nat (S i0) - 1) with (Z.of_nat i0) by lia.
  rewrite Hm. cbn [mbind option_bind]. rewrite Hbe, Nat2Z.id. unfold word_at.
  rewrite !byte_marked, M1, M2, M3 by done.
  destruct tail as [|[|[|]]]; [..|lia]; by decided.
Qed.

Lemma mark_tail_spec buf o i0 tail n W :
  is_bytes buf → length buf = 64%nat → (o < 64)%nat → o = (4 * i0 + tail)%nat →
  (tail < 4)%nat → length W = 80%nat →
  n = (i0 + (if decide (tail = 0%nat) then 0 else 1))%nat →
  (∀ j, (j < n)%nat → W !! j = Some (Some (word_at buf j))) →
  ∃ W', mark_tail buf (Z.of_nat tail) (Z.of_nat n) W = Some W' ∧ length W' = 80%nat ∧
    (∀ j, (j <= n)%nat → W' !! j = Some (Some (word_at (marked o buf) j))).
Proof.
  intros Hb Hl Ho Heq Ht HW Hn Hin.
  assert (Hsame : ∀ j, (4 * j + 4 <= o)%nat →
    word_at (marked o buf) j = word_at buf j) by (intros; by apply word_marked_below).
  destruct tail as [|tail]; simpl in Hn.
  - rewrite (mark_tail_zero buf o) by lia. rewrite vset_Some by lia. eexists. split; [done|].
    rewrite length_insert, Nat2Z.id. split; [done|]. intros j Hj.
    destruct (decide (j = i0)) as [->|Hne].
    + replace n with i0 by lia. by rewrite list_lookup_insert_eq by lia.
    + rewrite list_lookup_insert_ne by lia. rewrite Hin by lia. by rewrite Hsame by lia.
  - replace n with (S i0) in * by lia. rewrite (mark_tail_some buf o) by (done || lia).
    rewrite vset_Some by lia. cbn [mbind option_bind].
    rewrite vset_Some by (rewrite length_insert; lia). rewrite !Nat2Z.id.
    eexists. split; [done|]. rewrite !length_insert. split; [done|]. intros j Hj.
    destruct (decide (j = S i0)) as [->|Hne].
    + rewrite list_lookup_insert_eq by (rewrite length_insert; lia).
      by rewrite word_marked_above by (done || lia).
    + rewrite list_lookup_insert_ne by lia.
      destruct (decide (j = i0)) as [->|Hne'].
      * by rewrite list_lookup_insert_eq by lia.
      * rewrite list_lookup_insert_ne by lia. rewrite Hin by lia. by rewrite Hsame by lia.
Qed.

(** the words of the last block: the marked block, with the bit count in its
    last word when there is room for it *)
Definition final_word (ctx : sha1_ctx_t) (o j : nat) : Z :=
  if decide (o < 56 ∧ j = 15)%nat then num_bits_in_msg ctx
  else word_at (marked o (M ctx)) j.

Lemma sha1_final_W_spec ctx o :
  is_bytes (M ctx) → length (M ctx) = 64%nat → (o < 64)%nat →
  octets_in_buffer ctx = Z.of_nat o →
  ∃ W, sha1_final_W ctx = Some W ∧ length W = 80%nat ∧
    (∀ j, (j < 16)%nat → W !! j = Some (Some (final_word ctx o j))).
Proof.
  intros HM Hl Ho Hc. unfold sha1_final_W. rewrite Hc.
  destruct (tail_split o) as (i0 & tail & Heq & Ht & -> & ->).
  remember (i0 + (if decide (tail = 0%nat) then 0 else 1))%nat as n eqn:Hn.
  assert (n <= 16)%nat by (case_decide; lia).
  destruct (for_range_fill (λ i, Some (word_at (M ctx) (Z.to_nat i))) 0 (Z.of_nat n) (uninit 80)
    (λ i W, m ← M_word (M ctx) i; vset W i (be32_to_cpu m))) as (W1 & -> & HW1 & Hin1 & _).
  { lia. }
  { unfold uninit. rewrite length_replicate. lia. }
  { intros k W' Hk _. destruct (load_word (M ctx) k HM) as (m & -> & Hm); [lia..|].
    simpl. unfold vset. by rewrite Hm. }
  unfold uninit in HW1. rewrite length_replicate in HW1. cbn [mbind option_bind].
  destruct (mark_tail_spec (M ctx) o i0 tail n W1) as (W2 & -> & HW2 & Hin2); try done.
  { intros j Hj. rewrite Hin1 by lia. by rewrite Nat2Z.id. }
  cbn [mbind option_bind].
  assert (∃ W3, for_range (Z.of_nat n + 1) 15 (λ i W, vset W i 0) W2 = Some W3 ∧
    length W3 = 80%nat ∧
    (∀ j, (j < 15 ∨ j <= n)%nat → W3 !! j = Some (Some (word_at (marked o (M ctx)) j))))
    as (W3 & -> & HW3 & Hin3).
  { destruct (decide (Z.of_nat n + 1 <= 15)).
    - destruct (for_range_fill (λ _, Some 0) (Z.of_nat n + 1) 15 W2 (λ i W, vset W i 0))
        as (W3 & -> & HW3 & Hin3 & Hout3); [lia..|done|].
      exists W3. split_and!; [done|lia|]. intros j Hj.
      destruct (decide (j <= n)%nat) as [Hjn|Hjn].
      + rewrite Hout3 by lia. by apply Hin2.
      + rewrite Hin3 by lia. by rewrite word_marked_above by (done || (case_decide; lia)).
    - rewrite for_range_empty by lia. exists W2. split_and!; [done..|].
      intros j Hj. apply Hin2. lia. }
  cbn [mbind option_bind]. unfold final_word.
  destruct (decide (Z.of_nat o < 56)) as [H56|H56]; [|destruct (decide (Z.of_nat o < 60))].
  - rewrite vset_Some by lia. eexists. split; [done|]. rewrite length_insert.
    split; [done|]. intros j Hj. destruct (decide (o < 56 ∧ j = 15)%nat) as [[_ ->]|Hne].
    + by rewrite list_lookup_insert_eq by (change (Z.to_nat 15) with 15%nat; lia).
    + rewrite list_lookup_insert_ne by lia. apply Hin3. lia.
  - rewrite vset_Some by lia. eexists. split; [done|]. rewrite length_insert.
    split; [done|]. intros j Hj. rewrite decide_False by lia.
    destruct (decide (j = 15%nat)) as [->|Hne].
    + rewrite list_lookup_insert_eq by (change (Z.to_nat 15) with 15%nat; lia).
      by rewrite word_marked_above by (done || lia).
    + rewrite list_lookup_insert_ne by lia. apply Hin3. lia.
  - exists W3. split_and!; [done..|]. intros j Hj. rewrite decide_False by lia.
    apply Hin3. case_decide; lia.
Qed.

(** what the padding appends to the octets left in the buffer *)
Definition last_octets (o z : nat) (buf : list Z) (bits : Z) : list Z :=
  take o buf ++ [0x80] ++ replicate z 0 ++ be_bytes 8 bits.

Lemma byte_last_low o z buf bits k :
  (o < 64)%nat → length buf = 64%nat → (k < o + 1 + z)%nat →
  byte_at (last_octets o z buf bits) k = byte_at (marked o buf) k.
Proof.
  intros Ho Hb Hk. rewrite byte_marked by done. unfold last_octets, byte_at.
  assert (length (take o buf) = o) as Hl by (rewrite length_take; lia).
  destruct (decide (k < o)%nat).
  - rewrite app_nth1 by lia. by rewrite !nth_lookup, lookup_take_lt by done.
  - rewrite app_nth2, Hl by lia. destruct (decide (k = o)) as [->|].
    + by rewrite Nat.sub_diag.
    + destruct (k - o)%nat as [|i] eqn:E; [lia|]. simpl.
      rewrite app_nth1 by (rewrite length_replicate; lia). apply nth_zeros.
Qed.

Lemma byte_last_high o z buf bits k :
  (o < 64)%nat → length buf = 64%nat → (o + 1 + z <= k)%nat →
  byte_at (last_octets o z buf bits) k = byte_at (be_bytes 8 bits) (k - (o + 1 + z)).
Proof.
  intros Ho Hb Hk. unfold last_octets, byte_at.
  assert (length (take o buf) = o) as Hl by (rewrite length_take; lia).
  rewrite app_nth2, Hl by lia. rewrite app_nth2 by (simpl; lia). simpl length.
  rewrite app_nth2; rewrite length_replicate; [|lia]. f_equal. lia.
Qed.

(** a 32-bit length in eight octets *)
Lemma be_bytes_8_32 L : is_word 32 L → be_bytes 8 L = [0; 0; 0; 0] ++ be_bytes 4 L.
Proof.
  intros HL. cbn [be_bytes app].
  assert (∀ k, 32 <= k → u8 (L >> k) = 0) as Hz.
  { intros k Hk. bitwise. }
  rewrite !Hz by lia. done.
Qed.

Lemma word_length_field L l j :
  is_word 32 L → (∀ i, (i < 8)%nat → byte_at l (56 + i) = byte_at (be_bytes 8 L) i) →
  (j = 14 ∨ j = 15)%nat → word_at l j = if decide (j = 15)%nat then L else 0.
Proof.
  intros HL Hl Hj. unfold word_at. destruct Hj as [-> | ->].
  - change (4 * 14 + 3)%nat with (56 + 3)%nat. change (4 * 14 + 2)%nat with (56 + 2)%nat.
    change (4 * 14 + 1)%nat with (56 + 1)%nat. change (4 * 14)%nat with (56 + 0)%nat.
    rewrite (Hl 0%nat), (Hl 1%nat), (Hl 2%nat), (Hl 3%nat) by lia.
    by rewrite be_bytes_8_32.
  - change (4 * 15 + 3)%nat with (56 + 7)%nat. change (4 * 15 + 2)%nat with (56 + 6)%nat.
    change (4 * 15 + 1)%nat with (56 + 5)%nat. change (4 * 15)%nat with (56 + 4)%nat.
    rewrite (Hl 4%nat), (Hl 5%nat), (Hl 6%nat), (Hl 7%nat) by lia.
    rewrite be_bytes_8_32 by done.
    change (be_val (be_bytes 4 L) = L). rewrite be_val_be_bytes. by apply wrap_small.
Qed.

Lemma final_word_short ctx o j :
  (o < 56)%nat → length (M ctx) = 64%nat → is_word 32 (num_bits_in_msg ctx) → (j < 16)%nat →
  word_at (last_octets o (55 - o) (M ctx) (num_bits_in_msg ctx)) j = final_word ctx o j.
Proof.
  intros Ho Hl HL Hj. destruct (decide (j < 14)%nat).
  - unfold final_word. rewrite decide_False by lia. unfold word_at.
    by rewrite !byte_last_low by lia.
  - rewrite (word_length_field (num_bits_in_msg ctx)); [|done| |lia].
    + unfold final_word. destruct (decide (j = 15)%nat).
      * by rewrite decide_True by lia.
      * rewrite decide_False by lia. by rewrite word_marked_above by lia.
    + intros i Hi. rewrite byte_last_high by lia. f_equal. lia.
Qed.

Lemma final_word_long ctx o j :
  (56 <= o < 64)%nat → length (M ctx) = 64%nat → is_word 32 (num_bits_in_msg ctx) →
  (j < 16)%nat →
  word_at (last_octets o (119 - o) (M ctx) (num_bits_in_msg ctx)) j = final_word ctx o j ∧
  word_at (drop 64 (last_octets o (119 - o) (M ctx) (num_bits_in_msg ctx))) j =
    if decide (j = 15)%nat then num_bits_in_msg ctx else 0.
Proof.
  intros Ho Hl HL Hj. split.
  - unfold final_word. rewrite decide_False by lia. unfold word_at.
    by rewrite !byte_last_low by lia.
  - destruct (decide (j < 14)%nat).
    + rewrite decide_False by lia. unfold word_at. rewrite !byte_at_drop, !byte_last_low by lia.
      rewrite !byte_marked by lia. by decided.
    + apply word_length_field; [done| |lia].
      intros i Hi. rewrite byte_at_drop, byte_last_high by lia. f_equal. lia.
Qed.

(** compression of a block given by the first sixteen words of [W] *)
Lemma compress_array W l h :
  length W = 80%nat → (64 <= length l)%nat → length h = 5%nat →
  (∀ j, (j < 16)%nat → W !! j = Some (Some (word_at l j))) →
  ∃ W', extend_W 16 80 W = Some W' ∧ length W' = 80%nat ∧
    compress_W W' h = Some (Sha1Spec.compress h (Sha1Spec.be_words 16 l)).
Proof.
  intros HW Hl Hh Hin.
  destruct (extend_W_spec 16 80 W (Sha1Spec.be_words 16 l)) as (W' & -> & H1);
    [lia..|apply length_be_words|by apply holds_be_words|].
  exists W'. split_and!; [done|apply H1|].
  apply compress_W_spec; [done|apply length_be_words|done].
Qed.

Lemma pad_rest m :
  let q := (length m / 64)%nat in let o := (length m mod 64)%nat in
  drop (64 * q) (Sha1Spec.pad m) =
    drop (64 * q) m ++ [0x80] ++ replicate (if decide (o < 56)%nat then 55 - o else 119 - o) 0
      ++ be_bytes 8 (8 * Z.of_nat (length m)) ∧
  (length (Sha1Spec.pad m) / 64 = q + (if decide (o < 56) then 1 else 2))%nat.
Proof.
  intros q o. pose proof (Nat.div_mod_eq (length m) 64) as Hdm. fold q o in Hdm.
  pose proof (Nat.mod_upper_bound (length m) 64 ltac:(lia)) as Hob. fold o in Hob.
  assert (Z.to_nat ((55 - Z.of_nat (length m)) mod 64) =
    if decide (o < 56)%nat then 55 - o else 119 - o)%nat as Hz.
  { case_decide.
    - rewrite <-(Z.mod_unique (55 - Z.of_nat (length m)) 64 (- Z.of_nat q) (55 - Z.of_nat o)); lia.
    - rewrite <-(Z.mod_unique (55 - Z.of_nat (length m)) 64 (- Z.of_nat q - 1)
        (119 - Z.of_nat o)); lia. }
  unfold Sha1Spec.pad. rewrite Hz. split.
  - rewrite drop_app_le by lia. done.
  - rewrite !length_app, length_replicate, length_be_bytes. simpl length.
    symmetry. case_decide; apply Nat.div_unique with 0%nat; lia.
Qed.

Lemma length_last_octets o z buf bits :
  (o <= length buf)%nat → length (last_octets o z buf bits) = (o + z + 9)%nat.
Proof.
  intros Ho. unfold last_octets. rewrite !length_app, length_take, length_replicate,
    length_be_bytes. simpl length. lia.
Qed.

(** the digest words, in the order of [blocks] *)
Lemma sha1_final_spec ctx m :
  sha1_repr ctx m → 8 * Z.of_nat (length m) < 2 ^ 32 →
  ∃ ctx' h, sha1_final ctx = Some (map be32_to_cpu h, ctx') ∧
    h = Sha1Spec.blocks (length (Sha1Spec.pad m) / 64) Sha1Spec.H0 (Sha1Spec.pad m) ∧
    M ctx' = M ctx.
Proof.
  intros [Ha Hb] Hbits. pose proof (absorbed_state_len _ _ Ha) as Hh5.
  destruct Ha as [Hm HM Hl Hh Ho Hr].
  rewrite wrap_small in Hb by (unfold is_word; lia).
  pose proof (Nat.mod_upper_bound (length m) 64 ltac:(lia)) as Hob.
  pose proof (Nat.div_mod_eq (length m) 64) as Hdm.
  destruct (pad_rest m) as [Hrest Hcount].
  set (q := (length m / 64)%nat) in *. set (o := (length m mod 64)%nat) in *.
  rewrite <-Hr, <-Hb in Hrest.
  assert (HL : is_word 32 (num_bits_in_msg ctx)) by (rewrite Hb; unfold is_word; lia).
  assert (Hpre : Sha1Spec.blocks q Sha1Spec.H0 (Sha1Spec.pad m) = H ctx).
  { rewrite Hh. unfold Sha1Spec.pad. apply blocks_app. lia. }
  unfold sha1_final.
  destruct (sha1_final_W_spec ctx o HM Hl Hob Ho) as (W & -> & HW & Hin).
  cbn [mbind option_bind]. rewrite Ho, Hcount, blocks_plus, Hpre, Hrest.
  destruct (decide (o < 56)%nat) as [Hs|Hs].
  - fold (last_octets o (55 - o) (M ctx) (num_bits_in_msg ctx)).
    destruct (compress_array W (last_octets o (55 - o) (M ctx) (num_bits_in_msg ctx)) (H ctx))
      as (W' & -> & HW' & Hc); [done|rewrite length_last_octets; lia|done| |].
    { intros j Hj. rewrite Hin by done. by rewrite final_word_short by (done || lia). }
    cbn [mbind option_bind]. rewrite Hc. cbn [mbind option_bind].
    rewrite decide_False by lia. cbn [mbind option_bind].
    eexists _, _. split; [reflexivity|]. done.
  - fold (last_octets o (119 - o) (M ctx) (num_bits_in_msg ctx)).
    set (B := last_octets o (119 - o) (M ctx) (num_bits_in_msg ctx)).
    assert (length B = 128%nat) as HB by (unfold B; rewrite length_last_octets; lia).
    destruct (compress_array W B (H ctx)) as (W' & -> & HW' & Hc); [done|lia|done| |].
    { intros j Hj. rewrite Hin by done. do 2 f_equal. symmetry.
      by apply final_word_long; [lia|..]. }
    cbn [mbind option_bind]. rewrite Hc. cbn [mbind option_bind].
    rewrite decide_True by lia.
    destruct (for_range_fill (λ _, Some 0) 0 15 W' (λ i W, vset W i 0))
      as (W2 & -> & HW2 & Hin2 & _); [lia..|done|].
    cbn [mbind option_bind]. rewrite vset_Some by lia. cbn [mbind option_bind].
    change (Z.to_nat 15) with 15%nat.
    destruct (compress_array (<[15%nat:=Some (num_bits_in_msg ctx)]> W2) (drop 64 B)
      (Sha1Spec.compress (H ctx) (Sha1Spec.be_words 16 B))) as (W3 & -> & HW3 & Hc3);
      [by rewrite length_insert; lia|rewrite length_drop; lia|by apply length_compress| |].
    { intros j Hj. destruct (final_word_long ctx o j) as [_ Hw]; [lia|done..|].
      fold B in Hw. rewrite Hw. destruct (decide (j = 15)%nat) as [->|].
      - by rewrite list_lookup_insert_eq by lia.
      - rewrite list_lookup_insert_ne by lia. by rewrite Hin2 by lia. }
    cbn [mbind option_bind]. rewrite Hc3. cbn [mbind option_bind].
    eexists _, _. split; [reflexivity|]. done.
Qed.

Lemma blocks_words n h m :
  length h = 5%nat → is_words h → is_words (Sha1Spec.blocks n h m).
Proof.
  revert h m. induction n; intros h m Hh Hw; [done|].
  cbn [Sha1Spec.blocks]. auto using length_compress, compress_words.
Qed.

(** the octets of byte-swapped words *)
Lemma le_bytes_bswap32 w : le_bytes 4 (bswap32 w) = be_bytes 4 w.
Proof.
  pose proof (be_bytes_be_val (rev (be_bytes 4 w)) (is_bytes_rev _ (be_bytes_range 4 w))) as E.
  rewrite length_rev, length_be_bytes in E. unfold bswap32, le_bytes. rewrite E.
  apply rev_involutive.
Qed.

Lemma word_octets_swap h : is_words h → word_octets (map be32_to_cpu h) = concat (map (be_bytes 4) h).
Proof.
  unfold word_octets. induction 1 as [|w h Hw _ IH]; [done|]. cbn [map concat].
  rewrite IH. f_equal. apply le_bytes_bswap32.
Qed.

Lemma sha1_final_digest ctx m :
  sha1_repr ctx m → 8 * Z.of_nat (length m) < 2 ^ 32 →
  ∃ out ctx', sha1_final ctx = Some (out, ctx') ∧ word_octets out = Sha1Spec.sha1 m ∧
    M ctx' = M ctx.
Proof.
  intros Hr Hb. destruct (sha1_final_spec ctx m Hr Hb) as (ctx' & h & -> & -> & HM).
  eexists _, _. split_and!; [done| |done].
  apply word_octets_swap, blocks_words; [done|].
  unfold is_words, Sha1Spec.H0, is_word. rewrite !Forall_cons_iff. split_and!; done || lia.
Qed.

(** C28: the code computes SHA-1: for every message of fewer than 2^29 octets,
    whatever the uninitialised context holds, [sha1] terminates without reading
    an uninitialised word and returns the FIPS 180 digest.  From 2^28 octets on this
    relies on two's complement products of [int], which C does not promise. *)
Theorem sha1_correct stack m :
  is_bytes m → is_bytes (M stack) → length (M stack) = 64%nat →
  8 * Z.of_nat (length m) < 2 ^ 32 →
  ∃ out, sha1 stack m (Z.of_nat (length m)) = Some out ∧
    word_octets out = Sha1Spec.sha1 m.
Proof.
  intros Hm Hb Hl Hbits. unfold sha1.
  destruct (sha1_update_repr (sha1_init stack) [] m (length m)) as (ctx & -> & Hr);
    [by apply sha1_init_repr|done|done|].
  cbn [mbind option_bind]. rewrite firstn_all, app_nil_l in Hr.
  destruct (sha1_final_digest ctx m Hr Hbits) as (out & ctx' & -> & Hd & _).
  by exists out.
Qed.

Lemma sha1_correct_witness :
  ∃ out, sha1 (mk_sha1 [] (replicate 64 0xcc) 17 99) [0x61; 0x62; 0x63] 3 = Some out ∧
    word_octets out = Sha1Spec.sha1 [0x61; 0x62; 0x63].
Proof.
  apply (sha1_correct (mk_sha1 [] (replicate 64 0xcc) 17 99) [0x61; 0x62; 0x63]);
    [eval_dec|eval_dec|done|].
  simpl. lia.
Defined.
