(* ===== verification/Md5.v ===== *)
(** * MD5

    Models [src/libSRPP/src/md5.cpp], the class [MD5] of
    [src/libSRPP/include/md5.h]: the sixty-four steps on a block, the streaming
    [update], [finalize] and [hexdigest].  [uint4] and [size_type] are 32-bit
    words.  The members [buffer] and [digest] of a new object are not
    initialised: their cells are options, and reading a cell that was never
    written is undefined.

    The reference definition, [Md5Spec.md5], is MD5 as RFC 1321 states it. *)

From S2P Require Import Prelude.

(** ** Reference definition *)

Module Md5Spec.

(** [T[i+1]], the integer part of [4294967296 * abs (sin (i + 1))] *)
Definition T : list Z :=
  [0xd76aa478; 0xe8c7b756; 0x242070db; 0xc1bdceee;
   0xf57c0faf; 0x4787c62a; 0xa8304613; 0xfd469501;
   0x698098d8; 0x8b44f7af; 0xffff5bb1; 0x895cd7be;
   0x6b901122; 0xfd987193; 0xa679438e; 0x49b40821;
   0xf61e2562; 0xc040b340; 0x265e5a51; 0xe9b6c7aa;
   0xd62f105d; 0x02441453; 0xd8a1e681; 0xe7d3fbc8;
   0x21e1cde6; 0xc33707d6; 0xf4d50d87; 0x455a14ed;
   0xa9e3e905; 0xfcefa3f8; 0x676f02d9; 0x8d2a4c8a;
   0xfffa3942; 0x8771f681; 0x6d9d6122; 0xfde5380c;
   0xa4beea44; 0x4bdecfa9; 0xf6bb4b60; 0xbebfbc70;
   0x289b7ec6; 0xeaa127fa; 0xd4ef3085; 0x04881d05;
   0xd9d4d039; 0xe6db99e5; 0x1fa27cf8; 0xc4ac5665;
   0xf4292244; 0x432aff97; 0xab9423a7; 0xfc93a039;
   0x655b59c3; 0x8f0ccc92; 0xffeff47d; 0x85845dd1;
   0x6fa87e4f; 0xfe2ce6e0; 0xa3014314; 0x4e0811a1;
   0xf7537e82; 0xbd3af235; 0x2ad7d2bb; 0xeb86d391].

Definition not32 (x : Z) : Z := u32 (Z.lnot x).

(** circular shift to the left of a 32-bit word *)
Definition rotl (s x : Z) : Z := (x * 2 ^ s) mod 2 ^ 32 + x / 2 ^ (32 - s).

(** the auxiliary function, the word of the block and the shift of a step *)
Definition aux (i : nat) (x y z : Z) : Z :=
  match (i / 16)%nat with
  | 0 => (x & y) ||| (not32 x & z)
  | 1 => (x & z) ||| (y & not32 z)
  | 2 => x ^^ y ^^ z
  | _ => y ^^ (x ||| not32 z)
  end%nat.

Definition word (i : nat) : nat :=
  match i / 16 with
  | 0 => i mod 16
  | 1 => (5 * i + 1) mod 16
  | 2 => (3 * i + 5) mod 16
  | _ => (7 * i) mod 16
  end%nat.

Definition shifts : list (list Z) :=
  [[7; 12; 17; 22]; [5; 9; 14; 20]; [4; 11; 16; 23]; [6; 10; 15; 21]].

Definition shift (i : nat) : Z := nth (i mod 4) (nth (i / 16) shifts []) 0.

(** one step: the four registers change places *)
Definition step (X : list Z) '(a, b, c, d) (i : nat) : Z * Z * Z * Z :=
  (d, u32 (b + rotl (shift i) (u32 (a + aux i b c d + nth (word i) X 0 + nth i T 0))), b, c).

(** the little-endian words of a block *)
Definition words (block : list Z) : list Z :=
  map (λ k, le_val (take 4 (drop (4 * k) block))) (seq 0 16).

Definition compress (ABCD block : list Z) : list Z :=
  match ABCD with
  | [A; B; C; D] =>
      let '(a, b, c, d) := foldl (step (words block)) (A, B, C, D) (seq 0 64) in
      [u32 (A + a); u32 (B + b); u32 (C + c); u32 (D + d)]
  | _ => ABCD
  end.

Definition IV : list Z := [0x67452301; 0xefcdab89; 0x98badcfe; 0x10325476].

(** the registers after the first [n] blocks of 64 octets *)
Fixpoint blocks (n : nat) (ABCD m : list Z) : list Z :=
  match n with
  | O => ABCD
  | S n => blocks n (compress ABCD (take 64 m)) (drop 64 m)
  end.

(** padding to 56 octets modulo 64, then the low 64 bits of the bit length *)
Definition pad (m : list Z) : list Z :=
  m ++ [0x80] ++ replicate (Z.to_nat ((55 - Z.of_nat (length m)) mod 64)) 0 ++
  le_bytes 8 (8 * Z.of_nat (length m)).

(** the digest, as sixteen octets *)
Definition md5 (m : list Z) : list Z :=
  concat (map (le_bytes 4) (blocks (length (pad m) / 64) IV (pad m))).

(** a digest in lower-case hexadecimal, as octets of the text *)
Definition hex_digit (d : Z) : Z := if d <? 10 then 0x30 + d else 0x61 + (d - 10).
Definition hex (l : list Z) : list Z := concat (map (λ b, [hex_digit (b / 16); hex_digit (b mod 16)]) l).

End Md5Spec.

(** ** The code *)

Module MD5.

Definition S11 : Z := 7.
Definition S12 : Z := 12.
Definition S13 : Z := 17.
Definition S14 : Z := 22.
Definition S21 : Z := 5.
Definition S22 : Z := 9.
Definition S23 : Z := 14.
Definition S24 : Z := 20.
Definition S31 : Z := 4.
Definition S32 : Z := 11.
Definition S33 : Z := 16.
Definition S34 : Z := 23.
Definition S41 : Z := 6.
Definition S42 : Z := 10.
Definition S43 : Z := 15.
Definition S44 : Z := 21.

Definition F (x y z : Z) : Z := (x & y) ||| (u32 (Z.lnot x) & z).
Definition G (x y z : Z) : Z := (x & z) ||| (y & u32 (Z.lnot z)).
Definition H (x y z : Z) : Z := x ^^ y ^^ z.
Definition I (x y z : Z) : Z := y ^^ (x ||| u32 (Z.lnot z)).

Definition rotate_left (x n : Z) : Z := (x <<32 n) ||| (x >> (32 - n)).

(** the value assigned to [a] *)
Definition FF (a b c d x s ac : Z) : Z := u32 (rotate_left (u32 (a + F b c d + x + ac)) s + b).
Definition GG (a b c d x s ac : Z) : Z := u32 (rotate_left (u32 (a + G b c d + x + ac)) s + b).
Definition HH (a b c d x s ac : Z) : Z := u32 (rotate_left (u32 (a + H b c d + x + ac)) s + b).
Definition II (a b c d x s ac : Z) : Z := u32 (rotate_left (u32 (a + I b c d + x + ac)) s + b).

Record t := mk {
  finalized : bool;
  buffer : list (option Z);     (* octets that did not fill a block, 64 cells *)
  count : list Z;               (* number of bits, low word first *)
  state : list Z;               (* four words *)
  digest : list (option Z) }.   (* sixteen cells *)

Definition set_finalized (b : bool) (o : t) : t :=
  mk b (buffer o) (count o) (state o) (digest o).
Definition set_buffer (b : list (option Z)) (o : t) : t :=
  mk (finalized o) b (count o) (state o) (digest o).
Definition set_count (c : list Z) (o : t) : t :=
  mk (finalized o) (buffer o) c (state o) (digest o).
Definition set_state (s : list Z) (o : t) : t :=
  mk (finalized o) (buffer o) (count o) s (digest o).
Definition set_digest (d : list (option Z)) (o : t) : t :=
  mk (finalized o) (buffer o) (count o) (state o) d.

Definition blocksize : Z := 64.

(** [memcpy(&dst[at], src, n)] *)
Definition memcpy {A} (dst : list A) (at_ : Z) (src : list A) (n : Z) : option (list A) :=
  if decide (0 <= n <= Z.of_nat (length src) ∧ 0 <= at_ ∧ at_ + n <= Z.of_nat (length dst)) then
    Some (take (Z.to_nat at_) dst ++ take (Z.to_nat n) src ++ drop (Z.to_nat (at_ + n)) dst)
  else None.

Definition init (o : t) : t :=
  mk false (buffer o) [0; 0] [0x67452301; 0xefcdab89; 0x98badcfe; 0x10325476] (digest o).

(** [j] is [4 i] at each iteration of the loops of [decode] and [encode] *)
Definition decode (output : list (option Z)) (input : list (option Z)) (len : Z)
  : option (list (option Z)) :=
  for_range 0 ((len + 3) / 4) (λ i output,
    let j := 4 * i in
    b0 ← vget input j; b1 ← vget input (j + 1);
    b2 ← vget input (j + 2); b3 ← vget input (j + 3);
    vset output i (b0 ||| (b1 <<32 8) ||| (b2 <<32 16) ||| (b3 <<32 24))) output.

Definition encode (output : list (option Z)) (input : list Z) (len : Z)
  : option (list (option Z)) :=
  for_range 0 ((len + 3) / 4) (λ i output,
    let j := 4 * i in
    w ← aget input i;
    output ← vset output j (w & 0xff);
    output ← vset output (j + 1) ((w >> 8) & 0xff);
    output ← vset output (j + 2) ((w >> 16) & 0xff);
    vset output (j + 3) ((w >> 24) & 0xff)) output.

(** [f (a, b, c, d, x[k], s, ac)] *)
Definition step (f : Z → Z → Z → Z → Z → Z → Z → Z) (a b c d : Z) (x : list (option Z))
    (k s ac : Z) : option Z :=
  xk ← vget x k; Some (f a b c d xk s ac).

Definition round1 (x : list (option Z)) '(a, b, c, d) : option (Z * Z * Z * Z) :=
  a ← step FF a b c d x  0 S11 0xd76aa478;
  d ← step FF d a b c x  1 S12 0xe8c7b756;
  c ← step FF c d a b x  2 S13 0x242070db;
  b ← step FF b c d a x  3 S14 0xc1bdceee;
  a ← step FF a b c d x  4 S11 0xf57c0faf;
  d ← step FF d a b c x  5 S12 0x4787c62a;
  c ← step FF c d a b x  6 S13 0xa8304613;
  b ← step FF b c d a x  7 S14 0xfd469501;
  a ← step FF a b c d x  8 S11 0x698098d8;
  d ← step FF d a b c x  9 S12 0x8b44f7af;
  c ← step FF c d a b x 10 S13 0xffff5bb1;
  b ← step FF b c d a x 11 S14 0x895cd7be;
  a ← step FF a b c d x 12 S11 0x6b901122;
  d ← step FF d a b c x 13 S12 0xfd987193;
  c ← step FF c d a b x 14 S13 0xa679438e;
  b ← step FF b c d a x 15 S14 0x49b40821;
  Some (a, b, c, d).

Definition round2 (x : list (option Z)) '(a, b, c, d) : option (Z * Z * Z * Z) :=
  a ← step GG a b c d x  1 S21 0xf61e2562;
  d ← step GG d a b c x  6 S22 0xc040b340;
  c ← step GG c d a b x 11 S23 0x265e5a51;
  b ← step GG b c d a x  0 S24 0xe9b6c7aa;
  a ← step GG a b c d x  5 S21 0xd62f105d;
  d ← step GG d a b c x 10 S22 0x2441453;
  c ← step GG c d a b x 15 S23 0xd8a1e681;
  b ← step GG b c d a x  4 S24 0xe7d3fbc8;
  a ← step GG a b c d x  9 S21 0x21e1cde6;
  d ← step GG d a b c x 14 S22 0xc33707d6;
  c ← step GG c d a b x  3 S23 0xf4d50d87;
  b ← step GG b c d a x  8 S24 0x455a14ed;
  a ← step GG a b c d x 13 S21 0xa9e3e905;
  d ← step GG d a b c x  2 S22 0xfcefa3f8;
  c ← step GG c d a b x  7 S23 0x676f02d9;
  b ← step GG b c d a x 12 S24 0x8d2a4c8a;
  Some (a, b, c, d).

Definition round3 (x : list (option Z)) '(a, b, c, d) : option (Z * Z * Z * Z) :=
  a ← step HH a b c d x  5 S31 0xfffa3942;
  d ← step HH d a b c x  8 S32 0x8771f681;
  c ← step HH c d a b x 11 S33 0x6d9d6122;
  b ← step HH b c d a x 14 S34 0xfde5380c;
  a ← step HH a b c d x  1 S31 0xa4beea44;
  d ← step HH d a b c x  4 S32 0x4bdecfa9;
  c ← step HH c d a b x  7 S33 0xf6bb4b60;
  b ← step HH b c d a x 10 S34 0xbebfbc70;
  a ← step HH a b c d x 13 S31 0x289b7ec6;
  d ← step HH d a b c x  0 S32 0xeaa127fa;
  c ← step HH c d a b x  3 S33 0xd4ef3085;
  b ← step HH b c d a x  6 S34 0x4881d05;
  a ← step HH a b c d x  9 S31 0xd9d4d039;
  d ← step HH d a b c x 12 S32 0xe6db99e5;
  c ← step HH c d a b x 15 S33 0x1fa27cf8;
  b ← step HH b c d a x  2 S34 0xc4ac5665;
  Some (a, b, c, d).

Definition round4 (x : list (option Z)) '(a, b, c, d) : option (Z * Z * Z * Z) :=
  a ← step II a b c d x  0 S41 0xf4292244;
  d ← step II d a b c x  7 S42 0x432aff97;
  c ← step II c d a b x 14 S43 0xab9423a7;
  b ← step II b c d a x  5 S44 0xfc93a039;
  a ← step II a b c d x 12 S41 0x655b59c3;
  d ← step II d a b c x  3 S42 0x8f0ccc92;
  c ← step II c d a b x 10 S43 0xffeff47d;
  b ← step II b c d a x  1 S44 0x85845dd1;
  a ← step II a b c d x  8 S41 0x6fa87e4f;
  d ← step II d a b c x 15 S42 0xfe2ce6e0;
  c ← step II c d a b x  6 S43 0xa3014314;
  b ← step II b c d a x 13 S44 0x4e0811a1;
  a ← step II a b c d x  4 S41 0xf7537e82;
  d ← step II d a b c x 11 S42 0xbd3af235;
  c ← step II c d a b x  2 S43 0x2ad7d2bb;
  b ← step II b c d a x  9 S44 0xeb86d391;
  Some (a, b, c, d).

Definition transform (block : list (option Z)) (o : t) : option t :=
  s0 ← aget (state o) 0; s1 ← aget (state o) 1; s2 ← aget (state o) 2; s3 ← aget (state o) 3;
  x ← decode (uninit 16) block blocksize;
  r ← round1 x (s0, s1, s2, s3);
  r ← round2 x r;
  r ← round3 x r;
  '(a, b, c, d) ← round4 x r;
  Some (set_state [u32 (s0 + a); u32 (s1 + b); u32 (s2 + c); u32 (s3 + d)] o).

(** the loop of [update] over whole blocks of the input, from index [i]: the
    object and the index where it stops; [None] also when [fuel] runs out *)
Fixpoint update_loop (fuel : nat) (input : list Z) (length i : Z) (o : t) : option (t * Z) :=
  match fuel with
  | O => None
  | S fuel =>
      if decide (u32 (i + blocksize) <= length) then
        o ← transform (Some <$> drop (Z.to_nat i) input) o;
        update_loop fuel input length (u32 (i + blocksize)) o
      else Some (o, i)
  end.

Definition update (input : list Z) (length : Z) (o : t) : option t :=
  c0 ← aget (count o) 0; c1 ← aget (count o) 1;
  let index := c0 / 8 mod blocksize in
  let lo := u32 (c0 + (length <<32 3)) in
  let hi := if decide (lo < length <<32 3) then u32 (c1 + 1) else c1 in
  let o := set_count [lo; u32 (hi + (length >> 29))] o in
  let firstpart := u32 (64 - index) in
  if decide (length >= firstpart) then
    buf ← memcpy (buffer o) index (Some <$> input) firstpart;
    o ← transform buf (set_buffer buf o);
    '(o, i) ← update_loop (S (Z.to_nat (length / blocksize))) input length firstpart o;
    buf ← memcpy (buffer o) 0 (Some <$> drop (Z.to_nat i) input) (u32 (length - i));
    Some (set_buffer buf o)
  else
    buf ← memcpy (buffer o) index (Some <$> input) length;
    Some (set_buffer buf o).

(** the overload for [char]: the octets behind the pointer, unsigned *)
Definition update_char (input : list Z) (length : Z) (o : t) : option t :=
  update (map u8 input) length o.

Definition padding : list Z := 0x80 :: replicate 63 0.

Definition finalize (o : t) : option t :=
  if finalized o then Some o else
    bits ← encode (uninit 8) (count o) 8;
    c0 ← aget (count o) 0;
    let index := c0 / 8 mod 64 in
    let padLen := if decide (index < 56) then u32 (56 - index) else u32 (120 - index) in
    o ← update padding padLen o;
    bits ← mapM id bits;
    o ← update bits 8 o;
    d ← encode (digest o) (state o) 16;
    Some (mk true (replicate 64 (Some 0)) [0; 0] (state o) d).

(** an object before its constructor runs *)
Definition raw : t := mk false (uninit 64) [] [] (uninit 16).

Definition MD5 : t := init raw.

(** [text.length()] is converted to [size_type] *)
Definition MD5_text (text : list Z) : option t :=
  o ← update_char text (u32 (Z.of_nat (length text))) (init raw);
  finalize o.

(** [sprintf(p, "%02x", v)] for an octet [v]: two digits and a null *)
Definition sprintf_02x (buf : list (option Z)) (p v : Z) : option (list (option Z)) :=
  let digit d := if d <? 10 then 48 + d else 87 + d in
  buf ← vset buf p (digit (v >> 4));
  buf ← vset buf (p + 1) (digit (v & 15));
  vset buf (p + 2) 0.

(** [std::string(buf)]: the characters before the first null *)
Fixpoint string_of (buf : list (option Z)) : option (list Z) :=
  match buf with
  | Some c :: buf => if decide (c = 0) then Some [] else s ← string_of buf; Some (c :: s)
  | _ => None
  end.

Definition hexdigest (o : t) : option (list Z) :=
  if finalized o then
    buf ← for_range 0 16 (λ i buf, v ← vget (digest o) i; sprintf_02x buf (i * 2) v) (uninit 33);
    buf ← vset buf 32 0;
    string_of buf
  else Some [].

Definition md5 (str : list Z) : option (list Z) :=
  md5 ← MD5_text str;
  hexdigest md5.

(** ** The steps *)

Lemma rotate_left_spec x n :
  is_word 32 x → 0 < n < 32 → rotate_left x n = Md5Spec.rotl n x.
Proof.
  intros Hx Hn. unfold rotate_left, Md5Spec.rotl.
  rewrite <-(Z.shiftr_div_pow2 x) by lia.
  assert (is_word n (x >> (32 - n))) as Hr.
  { unfold is_word in *. rewrite Z.shiftr_div_pow2 by lia. split; [apply Z.div_pos; lia|].
    apply Z.div_lt_upper_bound; [lia|]. rewrite <-Z.pow_add_r by lia.
    replace (32 - n + n) with 32 by lia. lia. }
  assert ((x <<32 n) = Z.shiftl (wrap (32 - n) x) n) as -> by bitwise.
  rewrite lor_shiftl_add by (done || lia). f_equal. unfold wrap.
  replace (2 ^ 32) with (2 ^ (32 - n) * 2 ^ n)
    by (rewrite <-Z.pow_add_r by lia; f_equal; lia).
  by rewrite Z.mul_mod_distr_r by lia.
Qed.

(** the words [X] are in the array [x] *)
Definition holds (x : list (option Z)) (X : list Z) : Prop :=
  ∀ k, 0 <= k < 16 → vget x k = Some (nth (Z.to_nat k) X 0).

(** a step of the code whose function, shift and constant are those of step [i]
    is that step of the reference *)
Lemma step_bind {x X} (i : nat) f k s ac a b c d l K :
  holds x X → 0 <= k < 16 → Md5Spec.word i = Z.to_nat k →
  (∀ a b c d w, f a b c d w s ac =
     u32 (b + Md5Spec.rotl (Md5Spec.shift i) (u32 (a + Md5Spec.aux i b c d + w + nth i Md5Spec.T 0)))) →
  (∀ v, K v = Some (foldl (Md5Spec.step X) (d, v, b, c) l)) →
  (step f a b c d x k s ac ≫= K) = Some (foldl (Md5Spec.step X) (a, b, c, d) (i :: l)).
Proof.
  intros Hx Hk Hw Hf HK. unfold step. rewrite Hx by done. cbn [mbind option_bind foldl].
  rewrite HK, Hf. unfold Md5Spec.step at 3. by rewrite Hw.
Qed.

Ltac md5_step :=
  eapply step_bind; [eassumption|lia|reflexivity
    |intros; unfold FF, GG, HH, II; rewrite rotate_left_spec;
       [rewrite Z.add_comm; reflexivity|apply wrap_range; lia|split; reflexivity]
    |intros ?].

Lemma round1_spec x X s :
  holds x X → round1 x s = Some (foldl (Md5Spec.step X) s (seq 0 16)).
Proof. intros Hx. destruct s as [[[a b] c] d]. cbn [seq round1]. do 16 md5_step. done. Qed.

Lemma round2_spec x X s :
  holds x X → round2 x s = Some (foldl (Md5Spec.step X) s (seq 16 16)).
Proof. intros Hx. destruct s as [[[a b] c] d]. cbn [seq round2]. do 16 md5_step. done. Qed.

Lemma round3_spec x X s :
  holds x X → round3 x s = Some (foldl (Md5Spec.step X) s (seq 32 16)).
Proof. intros Hx. destruct s as [[[a b] c] d]. cbn [seq round3]. do 16 md5_step. done. Qed.

Lemma round4_spec x X s :
  holds x X → round4 x s = Some (foldl (Md5Spec.step X) s (seq 48 16)).
Proof. intros Hx. destruct s as [[[a b] c] d]. cbn [seq round4]. do 16 md5_step. done. Qed.

(** ** Words and octets *)

Lemma le_val_4 b0 b1 b2 b3 :
  is_bytes [b0; b1; b2; b3] →
  b0 ||| (b1 <<32 8) ||| (b2 <<32 16) ||| (b3 <<32 24) = le_val [b0; b1; b2; b3].
Proof.
  unfold is_bytes. rewrite !Forall_cons_iff. intros (H0 & H1 & H2 & H3 & _).
  pose proof (lor_shiftl_add 8 b1 b0 ltac:(lia) H0) as E0.
  assert (is_word 16 (b1 * 2 ^ 8 + b0)) as W0 by (unfold is_word in *; lia).
  pose proof (lor_shiftl_add 16 b2 _ ltac:(lia) W0) as E1.
  assert (is_word 24 (b2 * 2 ^ 16 + (b1 * 2 ^ 8 + b0))) as W1 by (unfold is_word in *; lia).
  pose proof (lor_shiftl_add 24 b3 _ ltac:(lia) W1) as E2.
  transitivity (b3 * 2 ^ 24 + (b2 * 2 ^ 16 + (b1 * 2 ^ 8 + b0))).
  - rewrite <-E2, <-E1, <-E0. bitwise.
  - unfold le_val. cbn [rev app be_val length]. lia.
Qed.

Lemma land_ff x : x & 0xff = u8 x.
Proof. change 0xff with (Z.ones 8). by rewrite Z.land_ones. Qed.

Lemma le_bytes_4 w :
  le_bytes 4 w = [w & 0xff; (w >> 8) & 0xff; (w >> 16) & 0xff; (w >> 24) & 0xff].
Proof. by rewrite !land_ff. Qed.

(** [block] starts with the octets [bs] *)
Lemma vget_octets block bs k :
  take 64 block = Some <$> bs → length bs = 64%nat → 0 <= k < 64 →
  vget block k = Some (nth (Z.to_nat k) bs 0).
Proof.
  intros Hb Hl Hk. apply vget_Some; [lia|].
  rewrite <-(lookup_take_lt block 64) by lia. rewrite Hb, list_lookup_fmap.
  destruct (lookup_lt_is_Some_2 bs (Z.to_nat k)) as [v Hv]; [lia|].
  rewrite Hv. simpl. by rewrite (nth_lookup_Some _ _ _ _ Hv).
Qed.

Lemma nth_words bs k :
  length bs = 64%nat → (k < 16)%nat →
  nth k (Md5Spec.words bs) 0 =
    le_val [nth (4 * k) bs 0; nth (4 * k + 1) bs 0; nth (4 * k + 2) bs 0; nth (4 * k + 3) bs 0].
Proof.
  intros Hl Hk. unfold Md5Spec.words.
  rewrite nth_lookup, list_lookup_fmap, lookup_seq_lt by done. cbn [fmap option_fmap option_map Nat.add default from_option id].
  assert (∀ j, nth (4 * k + j) bs 0 = nth j (drop (4 * k) bs) 0) as Hd.
  { intros j. by rewrite !nth_lookup, lookup_drop. }
  rewrite <-(Nat.add_0_r (4 * k)) at 2. rewrite !Hd.
  assert (4 <= length (drop (4 * k) bs))%nat as Hd4 by (rewrite length_drop; lia).
  destruct (drop (4 * k) bs) as [|b0 [|b1 [|b2 [|b3 l]]]]; simpl in Hd4; try lia. done.
Qed.

Lemma nth_byte l k : is_bytes l → is_word 8 (nth k l 0).
Proof.
  intros Hl. rewrite nth_lookup. destruct (l !! k) eqn:E; simpl; [|apply word_0; lia].
  by eapply Forall_lookup_1 in Hl.
Qed.

Lemma decode_spec block bs :
  take 64 block = Some <$> bs → length bs = 64%nat → is_bytes bs →
  ∃ x, decode (uninit 16) block blocksize = Some x ∧ holds x (Md5Spec.words bs).
Proof.
  intros Hb Hl Hbs. unfold decode. change ((blocksize + 3) / 4) with 16.
  match goal with |- context [for_range 0 16 ?f ?s] =>
    destruct (for_range_fill (λ i, Some (nth (Z.to_nat i) (Md5Spec.words bs) 0)) 0 16 s f)
      as (x & -> & Hlen & Hin & _) end.
  - lia.
  - unfold uninit. rewrite length_replicate. lia.
  - intros k l' Hk _. rewrite !(vget_octets block bs) by (done || lia).
    cbn [mbind option_bind]. rewrite le_val_4.
    + rewrite nth_words by (done || lia). unfold vset. do 3 f_equal.
      repeat (f_equal; try lia).
    + unfold is_bytes. rewrite !Forall_cons_iff. split_and!; auto using nth_byte.
  - exists x. split; [done|]. intros k Hk. apply vget_Some; [lia|].
    rewrite Hin by lia. by rewrite Z2Nat.id by lia.
Qed.

(** a block that ends too early is read past its end *)
Lemma decode_short block :
  (length block < 64)%nat → decode (uninit 16) block blocksize = None.
Proof.
  intros Hl. unfold decode. change ((blocksize + 3) / 4) with (15 + 1).
  rewrite for_range_last by lia. destruct (for_range 0 15 _ _) as [x|]; [|done].
  rewrite Some_bind. change (4 * 15 + 3) with 63.
  assert (vget block 63 = None) as E
    by (unfold vget; rewrite aget_lookup, lookup_ge_None_2 by lia; done).
  rewrite E. by destruct (vget block (4 * 15)), (vget block (4 * 15 + 1)),
    (vget block (4 * 15 + 2)).
Qed.

(** the octets of a list of words, written over all the cells of an array *)
Lemma encode_bits a b out :
  length out = 8%nat →
  encode out [a; b] 8 = Some (Some <$> concat (map (le_bytes 4) [a; b])).
Proof.
  intros Hl. do 8 (destruct out as [|? out]; [discriminate|]). destruct out; [|discriminate].
  cbn [map]. by rewrite !le_bytes_4.
Qed.

Lemma encode_digest a b c d out :
  length out = 16%nat →
  encode out [a; b; c; d] 16 = Some (Some <$> concat (map (le_bytes 4) [a; b; c; d])).
Proof.
  intros Hl. do 16 (destruct out as [|? out]; [discriminate|]). destruct out; [|discriminate].
  cbn [map]. by rewrite !le_bytes_4.
Qed.

(** ** Blocks *)

#[local] Strategy opaque [Md5Spec.step Md5Spec.words].

Lemma md5_length_compress h b : length h = 4%nat → length (Md5Spec.compress h b) = 4%nat.
Proof.
  intros Hh. destruct h as [|h0 [|h1 [|h2 [|h3 [|]]]]]; try discriminate Hh.
  unfold Md5Spec.compress. by destruct (foldl _ _ _) as [[[]]].
Qed.

Lemma transform_spec block bs o :
  take 64 block = Some <$> bs → length bs = 64%nat → is_bytes bs → length (state o) = 4%nat →
  transform block o = Some (set_state (Md5Spec.compress (state o) bs) o).
Proof.
  intros Hb Hl Hbs Hs. unfold transform, Md5Spec.compress.
  destruct (state o) as [|s0 [|s1 [|s2 [|s3 [|]]]]]; try discriminate Hs.
  destruct (decode_spec block bs Hb Hl Hbs) as (x & Hx & HX).
  change (aget [s0; s1; s2; s3] 0) with (Some s0). change (aget [s0; s1; s2; s3] 1) with (Some s1).
  change (aget [s0; s1; s2; s3] 2) with (Some s2). change (aget [s0; s1; s2; s3] 3) with (Some s3).
  rewrite !Some_bind, Hx, Some_bind.
  rewrite (round1_spec _ _ _ HX), Some_bind, (round2_spec _ _ _ HX), Some_bind,
    (round3_spec _ _ _ HX), Some_bind, (round4_spec _ _ _ HX), Some_bind.
  rewrite <-!foldl_app. change (seq 0 64) with (((seq 0 16 ++ seq 16 16) ++ seq 32 16) ++ seq 48 16).
  by destruct (foldl _ _ _) as [[[a b] c] d].
Qed.

#[local] Strategy opaque [Md5Spec.compress].

Lemma md5_length_blocks n h m : length h = 4%nat → length (Md5Spec.blocks n h m) = 4%nat.
Proof.
  revert h m. induction n; intros h m Hh; [done|].
  cbn [Md5Spec.blocks]. auto using md5_length_compress.
Qed.

Lemma md5_blocks_app n h m x :
  (64 * n <= length m)%nat → Md5Spec.blocks n h (m ++ x) = Md5Spec.blocks n h m.
Proof.
  revert h m. induction n as [|n IH]; intros h m Hm; [done|].
  cbn [Md5Spec.blocks]. rewrite take_app_le, drop_app_le by lia.
  apply IH. rewrite length_drop. lia.
Qed.

Lemma md5_blocks_plus a b h m :
  Md5Spec.blocks (a + b) h m = Md5Spec.blocks b (Md5Spec.blocks a h m) (drop (64 * a) m).
Proof.
  revert h m. induction a as [|a IH]; intros h m; [by rewrite drop_0|].
  cbn [Nat.add Md5Spec.blocks]. rewrite IH, drop_drop.
  by replace (64 + 64 * a)%nat with (64 * S a)%nat by lia.
Qed.

Lemma blocks_take n h k l :
  (64 * n <= k)%nat → (k <= length l)%nat →
  Md5Spec.blocks n h (take k l) = Md5Spec.blocks n h l.
Proof.
  intros Hn Hk. rewrite <-(take_drop k l) at 2. rewrite md5_blocks_app; [done|].
  rewrite length_take. lia.
Qed.

Lemma blocks_1 h m : Md5Spec.blocks 1 h m = Md5Spec.compress h (take 64 m).
Proof. done. Qed.

(** the loop of [update] takes the whole blocks, and terminates: the index
    never wraps around when the length leaves room for a block *)
Lemma update_loop_spec n fuel input len i o :
  is_bytes input → length (state o) = 4%nat →
  (n < fuel)%nat → 0 <= i → len = i + 64 * Z.of_nat n + (len - i) mod 64 →
  len < 2 ^ 32 - 64 → len <= Z.of_nat (length input) →
  update_loop fuel input len i o =
    Some (set_state (Md5Spec.blocks n (state o) (drop (Z.to_nat i) input)) o,
          i + 64 * Z.of_nat n).
Proof.
  revert fuel i o. induction n as [|n IH]; intros fuel i o Hin Hs Hf Hi Hlen Hmax Hl;
    (destruct fuel as [|fuel]; [lia|]); cbn [update_loop];
    pose proof (Z.mod_pos_bound (len - i) 64 ltac:(lia)) as Hr;
    rewrite (wrap_small 32 (i + blocksize)) by (unfold is_word, blocksize; lia);
    unfold blocksize.
  - rewrite decide_False by lia. rewrite Z.add_0_r. by destruct o.
  - rewrite decide_True by lia.
    rewrite (transform_spec _ (take 64 (drop (Z.to_nat i) input)));
      [|by rewrite fmap_take|rewrite length_take, length_drop; lia
       |by apply is_bytes_take, is_bytes_drop|done].
    cbn [mbind option_bind].
    rewrite IH; [|done|by apply md5_length_compress|lia|lia| |done|done].
    + cbn [state set_state]. cbn [Md5Spec.blocks]. rewrite drop_drop.
      replace (Z.to_nat (i + 64)) with (Z.to_nat i + 64)%nat by lia.
      replace (i + 64 + 64 * Z.of_nat n) with (i + 64 * Z.of_nat (S n)) by lia. done.
    + replace (len - (i + 64)) with (len - i + (-1) * 64) by lia.
      rewrite Z.mod_add by lia. lia.
Qed.

(** ** Streaming *)

(** the object stands for the octets [m] absorbed so far *)
Record absorbed (o : t) (m : list Z) : Prop := {
  ab_open : finalized o = false;
  ab_bytes : is_bytes m;
  ab_buffer : length (buffer o) = 64%nat;
  ab_digest : length (digest o) = 16%nat;
  ab_state : state o = Md5Spec.blocks (length m / 64) Md5Spec.IV m;
  ab_count : count o = [u32 (8 * Z.of_nat (length m)); u32 (8 * Z.of_nat (length m) / 2 ^ 32)];
  ab_rest : take (length m mod 64) (buffer o) = Some <$> drop (64 * (length m / 64)) m }.

Lemma absorbed_new : absorbed MD5 [].
Proof. constructor; done || constructor. Qed.

Lemma md5_absorbed_state_len o m : absorbed o m → length (state o) = 4%nat.
Proof. intros Ha. rewrite (ab_state _ _ Ha). by apply md5_length_blocks. Qed.

(** the low word of the bit count gives the octets in the buffer *)
Lemma count_index L : 0 <= L → u32 (8 * L) / 8 mod 64 = L mod 64.
Proof.
  intros HL. unfold wrap. change (2 ^ 32) with (8 * 2 ^ 29).
  rewrite Z.mul_mod_distr_l, Z.mul_comm, Z.div_mul by lia.
  change (2 ^ 29) with (64 * 2 ^ 23). rewrite Z.rem_mul_r by lia.
  rewrite Z.mul_comm, Z.mod_add by lia. apply Z.mod_mod. lia.
Qed.

(** the two words of the bit count, with the carry between them *)
Lemma count_add L n :
  0 <= L → 0 <= n < 2 ^ 32 →
  let r := n <<32 3 in
  let lo := u32 (u32 (8 * L) + r) in
  let c1 := u32 (8 * L / 2 ^ 32) in
  lo = u32 (8 * (L + n)) ∧
  u32 ((if decide (lo < r) then u32 (c1 + 1) else c1) + (n >> 29)) = u32 (8 * (L + n) / 2 ^ 32).
Proof.
  intros HL Hn. cbv zeta. unfold wrap.
  rewrite Z.shiftl_mul_pow2, Z.shiftr_div_pow2 by lia. change (2 ^ 3) with 8.
  set (B := 2 ^ 32) in *.
  assert (HB : B = 8 * 2 ^ 29) by done.
  pose proof (Z.div_mod (8 * L) B ltac:(lia)) as E1.
  pose proof (Z.mod_pos_bound (8 * L) B ltac:(lia)) as B1.
  assert (n * 8 / B = n / 2 ^ 29) as Eq.
  { rewrite HB, (Z.mul_comm n). by rewrite Z.div_mul_cancel_l by lia. }
  pose proof (Z.div_mod (n * 8) B ltac:(lia)) as E2.
  pose proof (Z.mod_pos_bound (n * 8) B ltac:(lia)) as B2. rewrite Eq in E2.
  set (a := 8 * L / B) in *. set (b := (8 * L) mod B) in *.
  set (q := n / 2 ^ 29) in *. set (s := (n * 8) mod B) in *. clearbody a b q s.
  split.
  { replace (8 * (L + n)) with (b + s + (a + q) * B) by lia. by rewrite Z.mod_add by lia. }
  destruct (decide (b + s < B)) as [Hc|Hc].
  - rewrite (Z.mod_small (b + s)) by lia. rewrite decide_False by lia.
    rewrite Z.add_mod_idemp_l by lia. f_equal. apply Z.div_unique with (b + s); lia.
  - assert ((b + s) mod B = b + s - B) as ->
      by (symmetry; apply Z.mod_unique with 1; lia).
    rewrite decide_True by lia.
    rewrite Z.add_mod_idemp_l by lia.
    replace (a mod B + 1 + q) with (a mod B + (1 + q)) by lia. rewrite Z.add_mod_idemp_l by lia.
    f_equal. apply Z.div_unique with (b + s - B); lia.
Qed.

Lemma memcpy_Some {A} (dst src : list A) p n :
  (n <= length src)%nat → (p + n <= length dst)%nat →
  memcpy dst (Z.of_nat p) src (Z.of_nat n) =
    Some (take p dst ++ take n src ++ drop (p + n) dst).
Proof.
  intros Hn Hp. unfold memcpy. rewrite decide_True by lia. rewrite !Nat2Z.id.
  by replace (Z.to_nat (Z.of_nat p + Z.of_nat n)) with (p + n)%nat by lia.
Qed.

Lemma div_mod_64 L q r : L = (64 * q + r)%nat → (r < 64)%nat → (L / 64 = q ∧ L mod 64 = r)%nat.
Proof.
  intros -> Hr. split; symmetry; [apply Nat.div_unique with r|apply Nat.mod_unique with q]; lia.
Qed.

(** an object whose registers and buffer are those of [m], with the bit count *)
Lemma absorbed_intro o m q r :
  length m = (64 * q + r)%nat → (r < 64)%nat →
  finalized o = false → is_bytes m → length (buffer o) = 64%nat → length (digest o) = 16%nat →
  state o = Md5Spec.blocks q Md5Spec.IV m →
  count o = [u32 (8 * Z.of_nat (length m)); u32 (8 * Z.of_nat (length m) / 2 ^ 32)] →
  take r (buffer o) = Some <$> drop (64 * q) m →
  absorbed o m.
Proof. intros Hm Hr. destruct (div_mod_64 _ _ _ Hm Hr) as [<- <-]. by constructor. Qed.

(** fewer octets than the buffer has room for *)
Lemma absorb_short o m x c :
  absorbed o m → is_bytes x → (length m mod 64 + length x < 64)%nat →
  c = [u32 (8 * Z.of_nat (length (m ++ x))); u32 (8 * Z.of_nat (length (m ++ x)) / 2 ^ 32)] →
  absorbed (set_buffer (take (length m mod 64) (buffer o) ++ (Some <$> x) ++
              drop (length m mod 64 + length x) (buffer o)) (set_count c o)) (m ++ x).
Proof.
  intros [Hf Hm Hb Hd Hs Hc Hr] Hx Hlen ->. pose proof (Nat.div_mod_eq (length m) 64) as Hdm.
  set (q := (length m / 64)%nat) in *. set (p := (length m mod 64)%nat) in *.
  assert (length (take p (buffer o)) = p) as Htp by (rewrite length_take; lia).
  apply absorbed_intro with q (p + length x)%nat; cbn [finalized buffer count state digest
    set_buffer set_count]; try done.
  - rewrite length_app. lia.
  - by apply is_bytes_app.
  - rewrite !length_app, Htp, length_fmap, length_drop. lia.
  - rewrite Hs. symmetry. apply md5_blocks_app. lia.
  - rewrite app_assoc, take_app_length' by (rewrite length_app, length_fmap; lia).
    by rewrite Hr, drop_app_le, fmap_app by lia.
Qed.

(** the first block is completed in the buffer, then come [n] blocks of the
    input and a rest that goes to the buffer *)
Lemma absorb_long o m x n buf :
  absorbed o m → is_bytes x → let p := (64 - length m mod 64)%nat in
  (p + 64 * n <= length x < p + 64 * n + 64)%nat →
  length buf = 64%nat →
  absorbed (set_buffer ((Some <$> drop (p + 64 * n) x) ++ drop (length x - (p + 64 * n)) buf)
    (mk false buf
       [u32 (8 * Z.of_nat (length (m ++ x))); u32 (8 * Z.of_nat (length (m ++ x)) / 2 ^ 32)]
       (Md5Spec.blocks n (Md5Spec.compress (state o)
          (drop (64 * (length m / 64)) m ++ take p x)) (drop p x)) (digest o))) (m ++ x).
Proof.
  intros [Hf Hm Hb Hd Hs Hc Hr] Hx p Hlen Hbuf. pose proof (Nat.div_mod_eq (length m) 64) as Hdm.
  pose proof (Nat.mod_upper_bound (length m) 64 ltac:(lia)) as Hmod.
  set (q := (length m / 64)%nat) in *. fold p.
  set (r := (length x - (p + 64 * n))%nat).
  assert (length (Some <$> drop (p + 64 * n) x) = r) as Hlr by (rewrite length_fmap, length_drop; done).
  apply absorbed_intro with (q + 1 + n)%nat r; cbn [finalized buffer count state digest
    set_buffer]; try done.
  - rewrite length_app. lia.
  - lia.
  - by apply is_bytes_app.
  - rewrite length_app, Hlr, length_drop. lia.
  - rewrite !md5_blocks_plus, blocks_1, Hs, (md5_blocks_app q) by lia.
    rewrite !drop_app_le by lia. f_equal.
    + f_equal. rewrite take_app, (take_ge (drop (64 * q) m)) by (rewrite length_drop; lia).
      rewrite length_drop. repeat (f_equal; try lia).
    + replace (64 * (q + 1))%nat with (length m + p)%nat by lia. by rewrite drop_app_add.
  - rewrite take_app_length' by done.
    by replace (64 * (q + 1 + n))%nat with (length m + (p + 64 * n))%nat by lia;
      rewrite drop_app_add.
Qed.

(** the bit count after [m] *)
Definition count_of (m : list Z) : list Z :=
  [u32 (8 * Z.of_nat (length m)); u32 (8 * Z.of_nat (length m) / 2 ^ 32)].

(** [update] on an object that stands for [m]: the count, the free cells of the
    buffer and the branch, in terms of [m] *)
Lemma update_start o m input n :
  absorbed o m → (n <= length input)%nat → Z.of_nat n < 2 ^ 32 →
  let r := (length m mod 64)%nat in let p := (64 - r)%nat in
  let o1 := set_count (count_of (m ++ take n input)) o in
  update input (Z.of_nat n) o =
    if decide (p <= n)%nat then
      let buf := Some <$> drop (64 * (length m / 64)) m ++ take p input in
      o2 ← transform buf (set_buffer buf o1);
      '(o3, i) ← update_loop (S (n / 64)) input (Z.of_nat n) (Z.of_nat p) o2;
      buf ← memcpy (buffer o3) 0 (Some <$> drop (Z.to_nat i) input) (u32 (Z.of_nat n - i));
      Some (set_buffer buf o3)
    else
      Some (set_buffer (take r (buffer o) ++ (Some <$> take n input) ++ drop (r + n) (buffer o)) o1).
Proof.
  intros Ha Hn Hmax r p o1. unfold update. rewrite (ab_count _ _ Ha).
  change (aget [?a; ?b] 0) with (Some a). change (aget [?a; ?b] 1) with (Some b).
  rewrite !Some_bind. unfold blocksize. rewrite count_index by lia.
  destruct (count_add (Z.of_nat (length m)) (Z.of_nat n)) as [E1 E2]; [lia..|].
  cbv zeta. rewrite E2, E1. clear E1 E2.
  pose proof (Nat.mod_upper_bound (length m) 64 ltac:(lia)) as Hmod. fold r in Hmod.
  replace (Z.of_nat (length m) + Z.of_nat n) with (Z.of_nat (length (m ++ take n input)))
    by (rewrite length_app, length_take; lia).
  fold (count_of (m ++ take n input)). fold o1. change (buffer o1) with (buffer o).
  assert (Z.of_nat (length m) mod 64 = Z.of_nat r) as -> by (unfold r; by rewrite Nat2Z.inj_mod).
  replace (u32 (64 - Z.of_nat r)) with (Z.of_nat p)
    by (unfold p; rewrite wrap_small; unfold is_word; lia).
  pose proof (ab_buffer _ _ Ha) as Hb. pose proof (ab_rest _ _ Ha) as Hrest. fold r in Hrest.
  destruct (decide (Z.of_nat n >= Z.of_nat p)), (decide (p <= n)%nat); try lia;
    rewrite memcpy_Some, <-fmap_take by (rewrite ?length_fmap; lia); rewrite Some_bind; [|done].
  rewrite (drop_ge (buffer o)), app_nil_r, Hrest, <-fmap_app by lia.
  assert (Z.to_nat (Z.of_nat n / 64) = (n / 64)%nat) as ->
    by (change 64 with (Z.of_nat 64); by rewrite <-Nat2Z.inj_div, Nat2Z.id).
  done.
Qed.

(** [update] of the first [n] octets of [input], for any length whose sum with
    the size of a block fits [size_type] *)
Lemma update_absorbs o m input n :
  absorbed o m → is_bytes input → (n <= length input)%nat → Z.of_nat n < 2 ^ 32 - 64 →
  ∃ o', update input (Z.of_nat n) o = Some o' ∧ absorbed o' (m ++ take n input).
Proof.
  intros Ha Hin Hn Hmax. pose proof (md5_absorbed_state_len _ _ Ha) as Hs4.
  rewrite (update_start o m) by (done || lia). cbv zeta.
  pose proof (Nat.mod_upper_bound (length m) 64 ltac:(lia)) as Hmod.
  assert (length (take n input) = n) as Hlx by (rewrite length_take; lia).
  pose proof (is_bytes_take n _ Hin) as Hx.
  destruct (decide (64 - length m mod 64 <= n)%nat) as [Hlong|Hshort]; cycle 1.
  { eexists. split; [done|].
    pose proof (absorb_short o m (take n input) (count_of (m ++ take n input)) Ha Hx) as Hs.
    rewrite Hlx in Hs. apply Hs; [lia|done]. }
  pose proof (λ k, absorb_long o m (take n input) k) as Hl. cbv zeta in Hl.
  set (p := (64 - length m mod 64)%nat) in *.
  set (blk := drop (64 * (length m / 64)) m ++ take p input) in *.
  assert (length blk = 64%nat) as Hblk.
  { unfold blk. rewrite length_app, length_drop, length_take.
    pose proof (Nat.div_mod_eq (length m) 64). lia. }
  rewrite (transform_spec _ blk); [|by rewrite take_ge by (rewrite length_fmap; lia)|done| |done];
    [|apply is_bytes_app; split; [apply is_bytes_drop, Ha|by apply is_bytes_take]].
  rewrite Some_bind. set (k := ((n - p) / 64)%nat).
  pose proof (Nat.div_mod_eq (n - p) 64) as Hk. fold k in Hk.
  pose proof (Nat.mod_upper_bound (n - p) 64 ltac:(lia)) as Hkr.
  pose proof (Nat.Div0.div_le_mono (n - p) n 64 ltac:(lia)) as Hfuel.
  rewrite (update_loop_spec k); [|done|by apply md5_length_compress|lia|lia| |lia|lia];
    [|change 64 with (Z.of_nat 64) at 2; rewrite <-Nat2Z.inj_sub, <-Nat2Z.inj_mod by lia; lia].
  rewrite Some_bind. cbn [buffer set_state set_buffer set_count state].
  replace (Z.of_nat p + 64 * Z.of_nat k) with (Z.of_nat (p + 64 * k)) by lia.
  replace (u32 (Z.of_nat n - Z.of_nat (p + 64 * k))) with (Z.of_nat (n - (p + 64 * k)))
    by (rewrite wrap_small; unfold is_word; lia).
  rewrite Nat2Z.id. change 0 with (Z.of_nat 0).
  rewrite memcpy_Some; [|rewrite length_fmap, length_drop; lia|rewrite length_fmap; lia].
  eexists. split; [done|]. rewrite Nat2Z.id, take_0, Nat.add_0_l. cbn [app].
  specialize (Hl k (Some <$> blk) Ha Hx). rewrite Hlx in Hl.
  specialize (Hl ltac:(lia) ltac:(by rewrite length_fmap)).
  rewrite take_take, Nat.min_l in Hl by lia. fold blk in Hl.
  rewrite !skipn_firstn_comm, fmap_take, blocks_take in Hl by (rewrite ?length_drop; lia).
  unfold set_buffer, set_state, set_count in *. rewrite (ab_open _ _ Ha). exact Hl.
Qed.

(** ** Finalisation *)

Lemma concat_le_bytes l : length (concat (map (le_bytes 4) l)) = (4 * length l)%nat.
Proof. induction l; [done|]. cbn [map concat length]. rewrite length_app, length_le_bytes. lia. Qed.

Lemma le_bytes_is_bytes n x : is_bytes (le_bytes n x).
Proof. apply is_bytes_rev, be_bytes_range. Qed.

(** the two words of the count, in the order of [bits] *)
Lemma count_octets m :
  concat (map (le_bytes 4) (count_of m)) = le_bytes 8 (8 * Z.of_nat (length m)).
Proof.
  unfold count_of, le_bytes. cbn [map concat]. rewrite !be_bytes_wrap, app_nil_r by lia.
  rewrite <-Z.shiftr_div_pow2 by lia. change 8%nat with (4 + 4)%nat.
  by rewrite (be_bytes_app 4 4), rev_app_distr.
Qed.

Lemma count_of_eq o m : absorbed o m → count o = count_of m.
Proof. apply ab_count. Qed.

(** the padding brings the octets to 56 modulo 64 *)
Lemma pad_length (m : list Z) :
  let r := (length m mod 64)%nat in
  let padLen := (if decide (r < 56) then 56 - r else 120 - r)%nat in
  take padLen padding = 0x80 :: replicate (Z.to_nat ((55 - Z.of_nat (length m)) mod 64)) 0 ∧
  (0 < padLen <= 64)%nat.
Proof.
  intros r padLen. pose proof (Nat.div_mod_eq (length m) 64) as Hdm. fold r in Hdm.
  pose proof (Nat.mod_upper_bound (length m) 64 ltac:(lia)) as Hr. fold r in Hr.
  assert (Z.to_nat ((55 - Z.of_nat (length m)) mod 64) = (padLen - 1)%nat) as ->.
  { unfold padLen. case_decide.
    - rewrite <-(Z.mod_unique (55 - Z.of_nat (length m)) 64 (- Z.of_nat (length m / 64))
        (55 - Z.of_nat r)); lia.
    - rewrite <-(Z.mod_unique (55 - Z.of_nat (length m)) 64 (- Z.of_nat (length m / 64) - 1)
        (119 - Z.of_nat r)); lia. }
  assert (0 < padLen <= 64)%nat as Hp by (unfold padLen; case_decide; lia).
  split; [|done]. destruct padLen as [|k]; [lia|]. unfold padding. cbn [firstn].
  rewrite take_replicate. do 2 f_equal. lia.
Qed.

Lemma finalize_spec o m :
  absorbed o m →
  ∃ st, finalize o = Some (mk true (replicate 64 (Some 0)) [0; 0] st (Some <$> Md5Spec.md5 m)).
Proof.
  intros Ha. unfold finalize. rewrite (ab_open _ _ Ha), (count_of_eq _ _ Ha).
  unfold count_of. rewrite encode_bits by done. rewrite Some_bind.
  change (aget [?a; ?b] 0) with (Some a). rewrite Some_bind, count_index by lia.
  fold (count_of m). rewrite count_octets.
  assert (Z.of_nat (length m) mod 64 = Z.of_nat (length m mod 64)) as ->
    by (by rewrite Nat2Z.inj_mod).
  pose proof (Nat.mod_upper_bound (length m) 64 ltac:(lia)) as Hr.
  destruct (pad_length m) as [Hpad Hp]. cbv zeta in Hpad, Hp.
  set (padLen := (if decide (length m mod 64 < 56) then _ else _)%nat) in *.
  replace (if decide _ then u32 _ else u32 _) with (Z.of_nat padLen)
    by (unfold padLen; do 2 case_decide; try lia; rewrite wrap_small; unfold is_word; lia).
  destruct (update_absorbs o m padding padLen Ha) as (o1 & -> & Ha1);
    [eval_dec|change (length padding) with 64%nat; lia|lia|].
  rewrite Some_bind, (mapM_fmap_Some id Some), Some_bind by done.
  set (bits := le_bytes 8 _). assert (length bits = 8%nat) as Hbits by done.
  destruct (update_absorbs o1 (m ++ take padLen padding) bits 8 Ha1) as (o2 & E2 & Ha2);
    [apply le_bytes_is_bytes|lia|lia|].
  change 8 with (Z.of_nat 8) at 1. rewrite E2, Some_bind. clear E2.
  rewrite (take_ge bits), <-app_assoc, Hpad in Ha2 by lia. 
  change (absorbed o2 (Md5Spec.pad m)) in Ha2.
  pose proof (md5_absorbed_state_len _ _ Ha2) as Hs. pose proof (ab_state _ _ Ha2) as Hst.
  unfold Md5Spec.md5. rewrite <-Hst.
  destruct (state o2) as [|a [|b [|c [|d [|]]]]]; try discriminate Hs.
  rewrite encode_digest by apply Ha2. by eexists.
Qed.

(** ** Text *)

Lemma sprintf_app l a b c rest v :
  is_word 8 v →
  sprintf_02x (l ++ a :: b :: c :: rest) (Z.of_nat (length l)) v =
    Some (l ++ (Some <$> Md5Spec.hex [v]) ++ Some 0 :: rest).
Proof.
  intros Hv. unfold sprintf_02x, vset. rewrite <-(Z.add_0_r (Z.of_nat (length l))) at 1.
  rewrite aset_app_r, aset_Some, Some_bind, Some_bind by (simpl; lia).
  rewrite aset_app_r, aset_Some, Some_bind, Some_bind by (simpl; lia).
  rewrite aset_app_r, aset_Some, Some_bind by (simpl; lia).
  cbn -[Z.shiftr Z.land Z.ltb]. rewrite Z.shiftr_div_pow2 by lia.
  change 15 with (Z.ones 4). rewrite Z.land_ones by lia.
  unfold Md5Spec.hex_digit. change (2 ^ 4) with 16.
  replace (97 + (v / 16 - 10)) with (87 + v / 16) by lia.
  by replace (97 + (v mod 16 - 10)) with (87 + v mod 16) by lia.
Qed.

Lemma hex_digit_pos d : 0 <= d < 16 → Md5Spec.hex_digit d ≠ 0.
Proof. intros Hd. unfold Md5Spec.hex_digit. destruct (Z.ltb_spec d 10); lia. Qed.

Lemma string_of_app s rest : Forall (λ c, c ≠ 0) s → string_of ((Some <$> s) ++ Some 0 :: rest) = Some s.
Proof.
  induction 1 as [|c s Hc _ IH]; [done|]. cbn [fmap list_fmap app string_of].
  rewrite decide_False by done. by rewrite IH.
Qed.

Lemma length_hex l : length (Md5Spec.hex l) = (2 * length l)%nat.
Proof. unfold Md5Spec.hex. induction l; [done|]. simpl. lia. Qed.

Lemma hex_app l l' : Md5Spec.hex (l ++ l') = Md5Spec.hex l ++ Md5Spec.hex l'.
Proof. unfold Md5Spec.hex. by rewrite map_app, concat_app. Qed.

Lemma hex_nonzero l : is_bytes l → Forall (λ c, c ≠ 0) (Md5Spec.hex l).
Proof.
  unfold Md5Spec.hex, is_word. induction 1 as [|v l Hv _ IH]; [constructor|].
  unfold is_word in Hv. cbn [map concat app].
  assert (0 <= v / 16 < 16) by (split; [apply Z.div_pos|apply Z.div_lt_upper_bound]; lia).
  pose proof (Z.mod_pos_bound v 16 ltac:(lia)).
  repeat constructor; [by apply hex_digit_pos..|done].
Qed.

Lemma hexdigest_spec o d :
  finalized o = true → digest o = Some <$> d → length d = 16%nat → is_bytes d →
  hexdigest o = Some (Md5Spec.hex d).
Proof.
  intros Hf Hd Hl Hb. unfold hexdigest. rewrite Hf, Hd.
  loop (λ k buf, ∃ rest : list (option Z),
    buf = (Some <$> Md5Spec.hex (take (Z.to_nat k) d)) ++ rest ∧
    (length rest = 33 - 2 * Z.to_nat k)%nat) as (buf & -> & rest & -> & Hrest).
  - lia.
  - by exists (uninit 33).
  - intros k buf Hk (rest & -> & Hr).
    destruct (lookup_lt_is_Some_2 d (Z.to_nat k)) as [v Hv]; [lia|].
    rewrite (vget_Some _ k v) by (rewrite ?list_lookup_fmap, ?Hv; done || lia).
    rewrite Some_bind. destruct rest as [|a [|b [|c rest]]]; simpl in Hr; try lia.
    replace (k * 2) with (Z.of_nat (length (Some <$> Md5Spec.hex (take (Z.to_nat k) d))))
      by (rewrite length_fmap, length_hex, length_take; lia).
    rewrite sprintf_app by (by eapply Forall_lookup_1 in Hb).
    eexists. split; [done|]. exists (Some 0 :: rest). split; [|simpl; lia].
    replace (Z.to_nat (k + 1)) with (S (Z.to_nat k)) by lia.
    by rewrite (take_S_r _ _ v), hex_app, fmap_app, <-app_assoc by done.
  - rewrite Some_bind. change (Z.to_nat 16) with 16%nat in *.
    rewrite take_ge by lia. destruct rest as [|c [|]]; simpl in Hrest; try lia.
    unfold vset. replace 32 with (Z.of_nat (length (Some <$> Md5Spec.hex d)) + 0)
      by (rewrite length_fmap, length_hex; lia).
    rewrite aset_app_r by lia. change (aset [c] 0 (Some 0)) with (Some [Some 0]).
    rewrite !Some_bind. by apply string_of_app, hex_nonzero.
Qed.

Lemma md5_spec_bytes m : length (Md5Spec.md5 m) = 16%nat ∧ is_bytes (Md5Spec.md5 m).
Proof.
  unfold Md5Spec.md5. split.
  - by rewrite concat_le_bytes, md5_length_blocks.
  - unfold is_bytes. apply Forall_concat, List.Forall_map, Forall_true. intros w.
    apply le_bytes_is_bytes.
Qed.

(** absorbed octets, finalised and printed *)
Lemma digest_of_absorbed o m :
  absorbed o m → (finalize o ≫= hexdigest) = Some (Md5Spec.hex (Md5Spec.md5 m)).
Proof.
  intros Ha. destruct (finalize_spec o m Ha) as [st ->]. rewrite Some_bind.
  destruct (md5_spec_bytes m). by apply hexdigest_spec.
Qed.

Lemma chars_bytes text : is_bytes (map u8 text).
Proof. apply List.Forall_map, Forall_true. intros c. apply wrap_range. lia. Qed.

(** C29: [md5] computes MD5: for every text of fewer than 2^32 - 64 characters
    (signed or not) it terminates, reads no octet outside its arrays and none
    that was not written, and returns the RFC 1321 digest of the octets of the
    text, in hexadecimal. *)
Theorem md5_correct text :
  Z.of_nat (length text) < 2 ^ 32 - 64 →
  md5 text = Some (Md5Spec.hex (Md5Spec.md5 (map u8 text))).
Proof.
  intros Hl. unfold md5, MD5_text, update_char.
  rewrite wrap_small by (unfold is_word; lia).
  destruct (update_absorbs MD5 [] (map u8 text) (length text)) as (o & E & Ha);
    [apply absorbed_new|apply chars_bytes|by rewrite length_map|lia|].
  unfold MD5 in E. rewrite E, Some_bind.
  rewrite app_nil_l, take_ge in Ha by (rewrite length_map; lia).
  by apply digest_of_absorbed.
Qed.

(** "message digest" is one of the test vectors of RFC 1321 *)
Lemma md5_correct_witness :
  md5 [0x6d; 0x65; 0x73; 0x73; 0x61; 0x67; 0x65; 0x20; 0x64; 0x69; 0x67; 0x65; 0x73; 0x74] = Some
      [0x66; 0x39; 0x36; 0x62; 0x36; 0x39; 0x37; 0x64; 0x37; 0x63; 0x62;
       0x37; 0x39; 0x33; 0x38; 0x64; 0x35; 0x32; 0x35; 0x61; 0x32; 0x66;
       0x33; 0x31; 0x61; 0x61; 0x66; 0x31; 0x36; 0x31; 0x64; 0x30].
Proof. rewrite md5_correct; [vm_compute; reflexivity|vm_compute; reflexivity]. Defined.

(** calls of [update] one after the other *)
Definition updates (pieces : list (list Z)) (o : t) : option t :=
  foldl (λ o piece, o ← o; update piece (Z.of_nat (length piece)) o) (Some o) pieces.

Lemma updates_absorb pieces o m :
  absorbed o m → Forall is_bytes pieces →
  Forall (λ piece, Z.of_nat (length piece) < 2 ^ 32 - 64) pieces →
  ∃ o', updates pieces o = Some o' ∧ absorbed o' (m ++ concat pieces).
Proof.
  intros Ha Hb. revert o m Ha. induction Hb as [|piece pieces Hp _ IH]; intros o m Ha Hl.
  - exists o. by rewrite app_nil_r.
  - inversion_clear Hl as [|?? Hl1 Hl2].
    destruct (update_absorbs o m piece (length piece) Ha Hp) as (o1 & E & Ha1); [done|done|].
    rewrite firstn_all in Ha1. destruct (IH o1 _ Ha1 Hl2) as (o' & E' & Ha').
    exists o'. rewrite <-app_assoc in Ha'. split; [|done].
    unfold updates in *. cbn [foldl]. by rewrite Some_bind, E.
Qed.

(** C40: the digest does not depend on how the octets come: a new object that is
    given any sequence of pieces, each of fewer than 2^32 - 64 octets, of any
    total length (the 64-bit count of bits carries from its low word to its high
    word and wraps as RFC 1321 says), and then finalised has the MD5 digest of
    the concatenation; finalising it again changes nothing; before it is
    finalised [hexdigest] is empty. *)
Theorem md5_streaming pieces :
  Forall is_bytes pieces →
  Forall (λ piece, Z.of_nat (length piece) < 2 ^ 32 - 64) pieces →
  ∃ o o', updates pieces MD5 = Some o ∧ hexdigest o = Some [] ∧
    finalize o = Some o' ∧ finalize o' = Some o' ∧
    hexdigest o' = Some (Md5Spec.hex (Md5Spec.md5 (concat pieces))).
Proof.
  intros Hb Hl. destruct (updates_absorb pieces MD5 [] absorbed_new Hb Hl) as (o & E & Ha).
  rewrite app_nil_l in Ha. destruct (finalize_spec o _ Ha) as [st Ef].
  pose proof (digest_of_absorbed o _ Ha) as Hd. rewrite Ef, Some_bind in Hd.
  eexists o, _. split_and!; [done| |done|done|done].
  unfold hexdigest. by rewrite (ab_open _ _ Ha).
Qed.

Lemma md5_streaming_witness :
  let pieces := [replicate 70 0x61; []; replicate 58 0x62; [0x63]] in
  ∃ o o', updates pieces MD5 = Some o ∧ hexdigest o = Some [] ∧
    finalize o = Some o' ∧ finalize o' = Some o' ∧
    hexdigest o' = Some (Md5Spec.hex (Md5Spec.md5 (concat pieces))).
Proof.
  apply (md5_streaming [replicate 70 0x61; []; replicate 58 0x62; [0x63]]);
    [eval_dec|repeat constructor; vm_compute; reflexivity].
Defined.

(** ** The longest inputs *)

(** the loop, on an input that is as long as [size_type] allows: it does not
    stop at the last block *)
Lemma update_loop_wraps n fuel input len i o :
  2 ^ 32 - 64 = i + 64 * Z.of_nat n → 0 <= i → 2 ^ 32 - 64 <= len →
  len = Z.of_nat (length input) → len < 2 ^ 32 → is_bytes input → length (state o) = 4%nat →
  update_loop fuel input len i o = None.
Proof.
  revert fuel i o. induction n as [|n IH]; intros fuel i o Hi Hi0 Hlen Hl Hmax Hb Hs;
    (destruct fuel as [|fuel]; [done|]); cbn [update_loop]; unfold blocksize.
  - replace i with (2 ^ 32 - 64) in * by lia. change (u32 (2 ^ 32 - 64 + 64)) with 0.
    rewrite decide_True by lia. unfold transform.
    destruct (state o) as [|s0 [|s1 [|s2 [|s3 [|]]]]]; try discriminate Hs.
    change (aget [s0; s1; s2; s3] 0) with (Some s0). change (aget [s0; s1; s2; s3] 1) with (Some s1).
    change (aget [s0; s1; s2; s3] 2) with (Some s2). change (aget [s0; s1; s2; s3] 3) with (Some s3).
    rewrite !Some_bind, decode_short; [done|]. rewrite length_fmap, length_drop. lia.
  - rewrite wrap_small by (unfold is_word; lia).
    rewrite decide_True by lia.
    rewrite (transform_spec _ (take 64 (drop (Z.to_nat i) input)));
      [|by rewrite fmap_take|rewrite length_take, length_drop; lia
       |by apply is_bytes_take, is_bytes_drop|done].
    rewrite Some_bind. apply IH; try done; [lia|lia|]. by apply md5_length_compress.
Qed.

(** the bound of [md5_correct] is the exact one: an input of 2^32 - 64
    octets or more (the most [size_type] can count) makes the loop's [i +
    blocksize] wrap around to a small number, and [update] reads beyond the
    input. *)
Theorem update_overrun input :
  2 ^ 32 - 64 <= Z.of_nat (length input) < 2 ^ 32 → is_bytes input →
  update input (Z.of_nat (length input)) MD5 = None.
Proof.
  intros Hlen Hb. rewrite (update_start MD5 []) by (apply absorbed_new || done || lia).
  cbv zeta. change (length [] mod 64)%nat with 0%nat. change (64 - 0)%nat with 64%nat.
  rewrite decide_True, drop_nil, app_nil_l by lia.
  rewrite (transform_spec _ (take 64 input));
    [|by rewrite take_ge by (rewrite length_fmap, length_take; lia)
     |rewrite length_take; lia|by apply is_bytes_take|done].
  assert (∃ k, 2 ^ 32 - 64 = Z.of_nat 64 + 64 * Z.of_nat k) as [k Hk]
    by (exists (Z.to_nat (2 ^ 26 - 2)); lia).
  rewrite Some_bind, (update_loop_wraps k); [done|lia..|done|by apply md5_length_compress].
Qed.

Lemma update_overrun_witness :
  update (replicate (Z.to_nat (2 ^ 32 - 64)) 0) (2 ^ 32 - 64) MD5 = None.
Proof.
  pose proof (update_overrun (replicate (Z.to_nat (2 ^ 32 - 64)) 0)) as Ho.
  rewrite length_replicate, Z2Nat.id in Ho by lia.
  apply Ho; [lia|]. apply is_bytes_replicate, word_0. lia.
Defined.

End MD5.
