(* ===== verification/Hmac.v ===== *)
(** * Message authentication

    Models [crypto/include/auth.h] and [crypto/hash/auth.c] (the interface to
    authentication functions and their self test), [crypto/hash/hmac.c]
    (HMAC-SHA1) and [crypto/hash/null_auth.c].

    [AuthType] is the table of functions [auth_type_t]; [AuthSpec] is what the
    rest of libsrtp relies on, and both implementations are instances of it.  A
    function that stores through a pointer returns the new contents, [None]
    when it would touch memory outside of the arrays it was given.
    [crypto_alloc] is an argument: [None] when there is no memory, else the
    previous contents of the block. *)

From S2P Require Import Prelude Datatypes Sha1.

(** ** The interface *)

Record auth_test_case_t := mk_auth_test {
  tc_key_length_octets : Z;
  tc_key : list Z;
  tc_data_length_octets : Z;
  tc_data : list Z;
  tc_tag_length_octets : Z;
  tc_tag : list Z }.

Record auth_t (St : Type) := mk_auth {
  auth_state : St;
  out_len : Z;
  key_len : Z;
  prefix_len : Z }.
Arguments mk_auth {St} _ _ _ _.
Arguments auth_state {St} _.
Arguments out_len {St} _.
Arguments key_len {St} _.
Arguments prefix_len {St} _.

(** the table of functions; [alloc] and [dealloc] also thread the reference
    count of the type *)
Class AuthType (St : Type) := {
  auth_alloc_fn : option St → Z → Z → Z → err_status_t * option (auth_t St) * Z;
  auth_dealloc_fn : auth_t St → Z → err_status_t * auth_t St * Z;
  auth_init_fn : St → list Z → Z → option (err_status_t * St);
  auth_compute_fn : St → list Z → Z → Z → list Z → option (err_status_t * St * list Z);
  auth_update_fn : St → list Z → Z → option (err_status_t * St);
  auth_start_fn : St → err_status_t * St;
  auth_test_data : list auth_test_case_t }.

Section Auth.
Context {St : Type} {AT : AuthType St}.

Definition with_state (a : auth_t St) (s : St) : auth_t St :=
  mk_auth s (out_len a) (key_len a) (prefix_len a).

Definition auth_init (a : auth_t St) (key : list Z) : option (err_status_t * auth_t St) :=
  '(status, s) ← auth_init_fn (auth_state a) key (key_len a);
  Some (status, with_state a s).

Definition auth_compute (a : auth_t St) (buf : list Z) (len : Z) (res : list Z)
  : option (err_status_t * auth_t St * list Z) :=
  '(status, s, res) ← auth_compute_fn (auth_state a) buf len (out_len a) res;
  Some (status, with_state a s, res).

Definition auth_update (a : auth_t St) (buf : list Z) (len : Z)
  : option (err_status_t * auth_t St) :=
  '(status, s) ← auth_update_fn (auth_state a) buf len;
  Some (status, with_state a s).

Definition auth_start (a : auth_t St) : err_status_t * auth_t St :=
  let '(status, s) := auth_start_fn (auth_state a) in (status, with_state a s).

Definition auth_get_key_length (a : auth_t St) : Z := key_len a.
Definition auth_get_tag_length (a : auth_t St) : Z := out_len a.
Definition auth_get_prefix_length (a : auth_t St) : Z := prefix_len a.

Definition SELF_TEST_TAG_BUF_OCTETS : Z := 32.

(** the [while] loop over the test cases; [mem] are the answers of
    [crypto_alloc], [tag] the buffer on the stack, [ref] the reference count *)
Fixpoint auth_self_test_loop (tests : list auth_test_case_t) (mem : list (option St))
    (tag : list Z) (ref : Z) : option (err_status_t * Z) :=
  match tests with
  | [] => Some (err_status_ok, ref)
  | tc :: tests =>
    if decide (tc_tag_length_octets tc > SELF_TEST_TAG_BUF_OCTETS)
    then Some (err_status_bad_param, ref) else
    let '(status, a, ref) :=
      auth_alloc_fn (hd None mem) ref (tc_key_length_octets tc) (tc_tag_length_octets tc) in
    if decide (status ≠ err_status_ok) then Some (status, ref) else
    a ← a;
    '(status, a) ← auth_init a (tc_key tc);
    if decide (status ≠ err_status_ok) then
      let '(_, _, ref) := auth_dealloc_fn a ref in Some (status, ref) else
    tag ← octet_string_set_to_zero tag (tc_tag_length_octets tc);
    '(status, a, tag) ← auth_compute a (tc_data tc) (tc_data_length_octets tc) tag;
    if decide (status ≠ err_status_ok) then
      let '(_, _, ref) := auth_dealloc_fn a ref in Some (status, ref) else
    status ← for_range 0 (tc_tag_length_octets tc) (λ i status,
      x ← aget tag i; y ← aget (tc_tag tc) i;
      Some (if decide (x ≠ y) then err_status_algo_fail else status)) err_status_ok;
    if decide (status ≠ err_status_ok) then
      let '(_, _, ref) := auth_dealloc_fn a ref in Some (err_status_algo_fail, ref) else
    let '(status, _, ref) := auth_dealloc_fn a ref in
    if decide (status ≠ err_status_ok) then Some (status, ref) else
    auth_self_test_loop tests (tl mem) tag ref
  end.

Definition auth_type_self_test (mem : list (option St)) (tag : list Z) (ref : Z)
  : option (err_status_t * Z) :=
  match auth_test_data with
  | [] => Some (err_status_cant_check, ref)
  | tests => auth_self_test_loop tests mem tag ref
  end.

End Auth.

(** ** The contract

    [auth_usable] is memory of the right type, [auth_keyed st k] a state that
    holds the key [k], [auth_absorbed st k m] one that has also consumed the
    message [m]; [auth_mac k m] is the tag the function defines. *)

Class AuthSpec (St : Type) `{AuthType St} := {
  auth_usable : St → Prop;
  auth_keyed : St → list Z → Prop;
  auth_absorbed : St → list Z → list Z → Prop;
  auth_mac : list Z → list Z → list Z;
  auth_max_key : Z;
  auth_max_tag : Z;
  auth_max_msg : Z;
  auth_alloc_law block ref klen tlen :
    klen <= auth_max_key → tlen <= auth_max_tag →
    ∃ p, auth_alloc_fn (Some block) ref klen tlen =
      (err_status_ok, Some (mk_auth block tlen klen p), ref + 1);
  auth_dealloc_law a ref :
    ∃ a', auth_dealloc_fn a ref = (err_status_ok, a', ref - 1);
  auth_init_law st key klen :
    auth_usable st → is_bytes key → 0 <= klen <= Z.of_nat (length key) →
    klen <= auth_max_key →
    ∃ st', auth_init_fn st key klen = Some (err_status_ok, st') ∧
      auth_absorbed st' (take (Z.to_nat klen) key) [];
  auth_absorbed_keyed st k m : auth_absorbed st k m → auth_keyed st k;
  auth_start_law st k :
    auth_keyed st k →
    ∃ st', auth_start_fn st = (err_status_ok, st') ∧ auth_absorbed st' k [];
  auth_update_law st k m msg n :
    auth_absorbed st k m → is_bytes msg → 0 <= n <= Z.of_nat (length msg) →
    ∃ st', auth_update_fn st msg n = Some (err_status_ok, st') ∧
      auth_absorbed st' k (m ++ take (Z.to_nat n) msg);
  auth_compute_law st k m msg n tag_len res :
    auth_absorbed st k m → is_bytes msg → 0 <= n <= Z.of_nat (length msg) →
    Z.of_nat (length m) + n <= auth_max_msg →
    0 <= tag_len <= auth_max_tag → tag_len <= Z.of_nat (length res) →
    ∃ st', auth_compute_fn st msg n tag_len res =
        Some (err_status_ok, st',
              take (Z.to_nat tag_len) (auth_mac k (m ++ take (Z.to_nat n) msg)) ++
              drop (Z.to_nat tag_len) res) ∧
      auth_keyed st' k;
  auth_mac_length k m : Z.of_nat (length (auth_mac k m)) = auth_max_tag;
  auth_mac_bytes k m : is_bytes (auth_mac k m) }.

(** ** Consequences of the contract *)

Section AuthClient.
Context {St : Type} {AT : AuthType St} {AS : AuthSpec St}.

(** [auth_update] on each of several strings *)
Fixpoint auth_updates (st : St) (chunks : list (list Z)) : option St :=
  match chunks with
  | [] => Some st
  | c :: chunks =>
      '(_, st) ← auth_update_fn st c (Z.of_nat (length c)); auth_updates st chunks
  end.

Lemma auth_updates_absorbed st k m chunks :
  auth_absorbed st k m → Forall is_bytes chunks →
  ∃ st', auth_updates st chunks = Some st' ∧ auth_absorbed st' k (m ++ concat chunks).
Proof.
  revert st m. induction chunks as [|c chunks IH]; intros st m Ha Hc.
  - exists st. by rewrite app_nil_r.
  - apply Forall_cons_iff in Hc as [Hc Hcs]. simpl.
    destruct (auth_update_law st k m c (Z.of_nat (length c)) Ha Hc) as (st1 & -> & H1); [lia|].
    rewrite Nat2Z.id, firstn_all in H1. simpl.
    destruct (IH st1 _ H1 Hcs) as (st2 & -> & H2). exists st2. by rewrite <-app_assoc in H2.
Qed.

(** a test case the self test can run, and whether it passes *)
Definition test_wf (tc : auth_test_case_t) : Prop :=
  is_bytes (tc_key tc) ∧ is_bytes (tc_data tc) ∧
  0 <= tc_key_length_octets tc <= Z.of_nat (length (tc_key tc)) ∧
  tc_key_length_octets tc <= auth_max_key ∧
  0 <= tc_data_length_octets tc <= Z.of_nat (length (tc_data tc)) ∧
  tc_data_length_octets tc <= auth_max_msg ∧
  0 <= tc_tag_length_octets tc <= Z.of_nat (length (tc_tag tc)) ∧
  tc_tag_length_octets tc <= auth_max_tag ∧
  tc_tag_length_octets tc <= 32.

Definition test_tag (tc : auth_test_case_t) : list Z :=
  take (Z.to_nat (tc_tag_length_octets tc))
    (auth_mac (take (Z.to_nat (tc_key_length_octets tc)) (tc_key tc))
              (take (Z.to_nat (tc_data_length_octets tc)) (tc_data tc))).

Definition test_passes (tc : auth_test_case_t) : bool :=
  bool_decide (test_tag tc = take (Z.to_nat (tc_tag_length_octets tc)) (tc_tag tc)).

Lemma self_test_loop_spec tests blocks tag ref :
  Forall test_wf tests → Forall auth_usable blocks → length blocks = length tests →
  length tag = 32%nat →
  auth_self_test_loop tests (Some <$> blocks) tag ref =
    Some (if forallb test_passes tests then err_status_ok else err_status_algo_fail, ref).
Proof.
  intros Ht. revert blocks tag ref.
  induction Ht as [|tc tests Hwf _ IH]; intros blocks tag ref Hb Hlen Htag; [done|].
  destruct blocks as [|blk blocks]; [done|]. apply Forall_cons_iff in Hb as [Hblk Hb].
  destruct Hwf as (Hk & Hd & Hkl & Hkm & Hdl & Hdm & Htl & Htm & Ht32). simpl.
  rewrite decide_False by (unfold SELF_TEST_TAG_BUF_OCTETS; lia).
  destruct (auth_alloc_law blk ref _ _ Hkm Htm) as [p ->].
  rewrite decide_False by tauto. unfold auth_init. simpl.
  destruct (auth_init_law blk _ _ Hblk Hk Hkl Hkm) as (st1 & -> & H1). simpl.
  rewrite zeroed by (lia || by intros ->). set (tag1 := _ ++ _).
  assert (length tag1 = length tag) as Hl1.
  { unfold tag1. rewrite length_app, length_replicate, length_drop. lia. }
  simpl. unfold auth_compute. simpl.
  destruct (auth_compute_law st1 _ [] (tc_data tc) (tc_data_length_octets tc)
    (tc_tag_length_octets tc) tag1 H1 Hd Hdl) as (st2 & -> & _); [simpl; lia|lia|lia|].
  cbn [mbind option_bind]. rewrite decide_False by tauto. rewrite app_nil_l.
  set (mac := auth_mac _ _).
  assert (length (take (Z.to_nat (tc_tag_length_octets tc)) mac) =
    Z.to_nat (tc_tag_length_octets tc)) as Hlm.
  { rewrite length_take. pose proof (auth_mac_length (take (Z.to_nat (tc_key_length_octets tc))
      (tc_key tc)) (take (Z.to_nat (tc_data_length_octets tc)) (tc_data tc))) as E.
    fold mac in E. lia. }
  rewrite compare_loop; [|rewrite length_app, length_drop, Hlm; lia|lia].
  rewrite take_app_le, take_take, Nat.min_id by lia.
  change (bool_decide (take (Z.to_nat (tc_tag_length_octets tc)) mac = _)) with (test_passes tc).
  cbn [mbind option_bind].
  destruct (auth_dealloc_law (with_state (mk_auth st1 (tc_tag_length_octets tc)
    (tc_key_length_octets tc) p) st2) (ref + 1)) as [a' Ha'].
  destruct (test_passes tc).
  - rewrite decide_False by tauto. unfold with_state in *. simpl in *. rewrite Ha'.
    rewrite decide_False by tauto. replace (ref + 1 - 1) with ref by lia.
    apply IH; [done|by simplify_eq/=|]. rewrite length_app, length_drop, Hlm. lia.
  - rewrite decide_True by done. unfold with_state in *. simpl in *. rewrite Ha'.
    by replace (ref + 1 - 1) with ref by lia.
Qed.

End AuthClient.

(** ** HMAC-SHA1: the code *)

Module Hmac.

Record hmac_ctx_t := mk_hmac {
  opad : list Z;
  ctx : sha1_ctx_t;
  init_ctx : sha1_ctx_t }.

Definition hmac_alloc (mem : option hmac_ctx_t) (ref_count key_len out_len : Z)
  : err_status_t * option (auth_t hmac_ctx_t) * Z :=
  if decide (key_len > 20) then (err_status_bad_param, None, ref_count) else
  if decide (out_len > 20) then (err_status_bad_param, None, ref_count) else
  match mem with
  | None => (err_status_alloc_fail, None, ref_count)
  | Some block => (err_status_ok, Some (mk_auth block out_len key_len 0), ref_count + 1)
  end.

(** the block is all zero when it is given back *)
Definition hmac_dealloc (a : auth_t hmac_ctx_t) (ref_count : Z)
  : err_status_t * auth_t hmac_ctx_t * Z :=
  let zero := mk_sha1 (replicate 5 0) (replicate 64 0) 0 0 in
  (err_status_ok, mk_auth (mk_hmac (replicate 64 0) zero zero) 0 0 0, ref_count - 1).

Definition hmac_init (state : hmac_ctx_t) (key : list Z) (key_len : Z)
  : option (err_status_t * hmac_ctx_t) :=
  if decide (key_len > 20) then Some (err_status_bad_param, state) else
  '(ipad, opad) ← for_range 0 key_len (λ i '(ipad, opad),
      k ← aget key i;
      ipad ← vset ipad i (k ^^ 0x36);
      opad ← aset opad i (k ^^ 0x5c);
      Some (ipad, opad)) (uninit 64, opad state);
  '(ipad, opad) ← for_range (Z.max 0 key_len) 64 (λ i '(ipad, opad),
      ipad ← vset ipad i 0x36;
      opad ← aset opad i 0x5c;
      Some (ipad, opad)) (ipad, opad);
  ipad ← mapM id ipad;
  init_ctx ← sha1_update (sha1_init (init_ctx state)) ipad 64;
  Some (err_status_ok, mk_hmac opad init_ctx init_ctx).

Definition hmac_start (state : hmac_ctx_t) : err_status_t * hmac_ctx_t :=
  (err_status_ok, mk_hmac (opad state) (init_ctx state) (init_ctx state)).

Definition hmac_update (state : hmac_ctx_t) (message : list Z) (msg_octets : Z)
  : option (err_status_t * hmac_ctx_t) :=
  ctx ← sha1_update (ctx state) message msg_octets;
  Some (err_status_ok, mk_hmac (opad state) ctx (init_ctx state)).

Definition hmac_compute (state : hmac_ctx_t) (message : list Z) (msg_octets tag_len : Z)
    (result : list Z) : option (err_status_t * hmac_ctx_t * list Z) :=
  if decide (tag_len > 20) then Some (err_status_bad_param, state, result) else
  '(_, state) ← hmac_update state message msg_octets;
  '(H, c) ← sha1_final (ctx state);
  let c := sha1_init c in
  c ← sha1_update c (opad state) 64;
  c ← sha1_update c (word_octets H) 20;
  '(hash_value, c) ← sha1_final c;
  result ← for_range 0 tag_len (λ i result,
      b ← aget (word_octets hash_value) i; aset result i b) result;
  Some (err_status_ok, mk_hmac (opad state) c (init_ctx state), result).

Definition hmac_test_case_0 : auth_test_case_t :=
  mk_auth_test 20 (replicate 20 0x0b)
    8 [0x48; 0x69; 0x20; 0x54; 0x68; 0x65; 0x72; 0x65]
    20 [0xb6; 0x17; 0x31; 0x86; 0x55; 0x05; 0x72; 0x64; 0xe2; 0x8b; 0xc0; 0xb6;
        0xfb; 0x37; 0x8c; 0x8e; 0xf1; 0x46; 0xbe; 0x00].

#[global] Instance hmac : AuthType hmac_ctx_t := {
  auth_alloc_fn := hmac_alloc;
  auth_dealloc_fn := hmac_dealloc;
  auth_init_fn := hmac_init;
  auth_compute_fn := hmac_compute;
  auth_update_fn := hmac_update;
  auth_start_fn := hmac_start;
  auth_test_data := [hmac_test_case_0] }.

(** ** HMAC-SHA1: the reference definition (RFC 2104, for keys of at most one
    block) *)

Definition key_pad (k : list Z) (c : Z) : list Z :=
  map (Z.lxor c) (k ++ replicate (64 - length k) 0).

Definition HMAC (k m : list Z) : list Z :=
  Sha1Spec.sha1 (key_pad k 0x5c ++ Sha1Spec.sha1 (key_pad k 0x36 ++ m)).

(** ** The code computes the reference *)

Definition ctx_usable (c : sha1_ctx_t) : Prop := is_bytes (M c) ∧ length (M c) = 64%nat.

Definition hmac_usable (st : hmac_ctx_t) : Prop :=
  length (opad st) = 64%nat ∧ ctx_usable (init_ctx st).

Definition hmac_keyed (st : hmac_ctx_t) (k : list Z) : Prop :=
  is_bytes k ∧ (length k <= 20)%nat ∧ opad st = key_pad k 0x5c ∧
  sha1_repr (init_ctx st) (key_pad k 0x36).

Definition hmac_absorbed (st : hmac_ctx_t) (k m : list Z) : Prop :=
  hmac_keyed st k ∧ sha1_repr (ctx st) (key_pad k 0x36 ++ m).

Lemma length_key_pad k c : (length k <= 64)%nat → length (key_pad k c) = 64%nat.
Proof. intros. unfold key_pad. rewrite length_map, length_app, length_replicate. lia. Qed.

Lemma key_pad_bytes k c : is_bytes k → is_word 8 c → is_bytes (key_pad k c).
Proof.
  intros Hk Hc. unfold key_pad. apply Forall_map, Forall_app. split.
  - apply (List.Forall_impl _ (P := is_word 8)); [|done]. intros x Hx. by words.
  - apply Forall_replicate. simpl. by words.
Qed.

Lemma key_pad_low k c j x : k !! j = Some x → key_pad k c !! j = Some (x ^^ c).
Proof.
  intros Hj. unfold key_pad. rewrite list_lookup_fmap.
  rewrite lookup_app_l by by eapply lookup_lt_Some. rewrite Hj. simpl. by rewrite Z.lxor_comm.
Qed.

Lemma key_pad_high k c j :
  (length k <= j < 64)%nat → key_pad k c !! j = Some c.
Proof.
  intros Hj. unfold key_pad. rewrite list_lookup_fmap, lookup_app_r by lia.
  rewrite lookup_replicate_2 by lia. simpl. by rewrite Z.lxor_0_r.
Qed.

(** the invariant of the two key loops: the first [n] octets are in place *)
Definition pads_upto (k : list Z) (n : Z) (s : list (option Z) * list Z) : Prop :=
  length s.1 = 64%nat ∧ length s.2 = 64%nat ∧
  ∀ j, Z.of_nat j < n →
    s.1 !! j = Some <$> key_pad k 0x36 !! j ∧ s.2 !! j = key_pad k 0x5c !! j.

Lemma pads_upto_step k n ipad opad x y :
  0 <= n < 64 → pads_upto k n (ipad, opad) →
  key_pad k 0x36 !! Z.to_nat n = Some x → key_pad k 0x5c !! Z.to_nat n = Some y →
  ∃ s', (ipad' ← vset ipad n x; opad' ← aset opad n y; Some (ipad', opad')) = Some s' ∧
    pads_upto k (n + 1) s'.
Proof.
  intros Hn (H1 & H2 & Hj) Hx Hy. simpl in *. rewrite vset_Some, aset_Some by lia. simpl.
  eexists. split; [done|]. unfold pads_upto. simpl. rewrite !length_insert.
  split_and!; [done..|]. intros j Hjn. destruct (decide (j = Z.to_nat n)) as [->|Hne].
  - rewrite !list_lookup_insert_eq by lia. by rewrite Hx, Hy.
  - rewrite !list_lookup_insert_ne by done. apply Hj. lia.
Qed.

Lemma pads_full k ipad opad :
  (length k <= 64)%nat → pads_upto k 64 (ipad, opad) →
  mapM id ipad = Some (key_pad k 0x36) ∧ opad = key_pad k 0x5c.
Proof.
  intros Hk (H1 & H2 & Hj). simpl in *. split.
  - apply mapM_Some. apply Forall2_same_length_lookup_2; [by rewrite H1, length_key_pad|].
    intros j x y Hx Hy. destruct (Hj j) as [E _].
    { apply lookup_lt_Some in Hx. lia. }
    rewrite Hx, Hy in E. by simplify_eq/=.
  - apply list_eq. intros j. destruct (decide (j < 64)%nat); [apply Hj; lia|].
    rewrite !lookup_ge_None_2; rewrite ?length_key_pad; lia || done.
Qed.

Lemma hmac_init_absorbed st key klen :
  hmac_usable st → is_bytes key → 0 <= klen <= Z.of_nat (length key) → klen <= 20 →
  ∃ st', hmac_init st key klen = Some (err_status_ok, st') ∧
    hmac_absorbed st' (take (Z.to_nat klen) key) [].
Proof.
  intros (Ho & Hc & Hl) Hk Hkl H20. unfold hmac_init. rewrite decide_False by lia.
  set (k := take (Z.to_nat klen) key).
  assert (length k = Z.to_nat klen) as Hkk by (unfold k; rewrite length_take; lia).
  loop (pads_upto k) as ([ip op] & -> & H1); [lia| |intros n [ip op] Hn Hp|].
  { split_and!; [done..|lia]. }
  { destruct (lookup_lt_is_Some_2 key (Z.to_nat n)) as [x Hx]; [lia|].
    rewrite aget_lookup, Hx by lia. cbn [mbind option_bind].
    assert (k !! Z.to_nat n = Some x) as Hx' by (unfold k; rewrite lookup_take_lt by lia; done).
    apply (pads_upto_step k); [lia|done|by apply key_pad_low..]. }
  cbn [mbind option_bind]. rewrite Z.max_r by lia.
  loop (pads_upto k) as ([ip2 op2] & -> & H2); [lia|exact H1|intros n [ip2 op2] Hn Hp|].
  { apply (pads_upto_step k); [lia|done|apply key_pad_high; lia..]. }
  cbn [mbind option_bind].
  destruct (pads_full k ip2 op2) as [-> ->]; [lia|done|]. cbn [mbind option_bind].
  assert (is_bytes k) as Hkb by by apply is_bytes_take.
  destruct (sha1_update_repr (sha1_init (init_ctx st)) [] (key_pad k 0x36) 64)
    as (c & Hu & Hr); [by apply sha1_init_repr|by apply key_pad_bytes|by rewrite length_key_pad by lia|].
  change (Z.of_nat 64) with 64 in Hu. rewrite Hu. cbn [mbind option_bind].
  rewrite app_nil_l, take_ge in Hr by (rewrite length_key_pad; lia).
  eexists. split; [done|]. unfold hmac_absorbed, hmac_keyed. rewrite app_nil_r.
  split_and!; (done || lia).
Qed.

Lemma hmac_update_absorbed st k m msg n :
  hmac_absorbed st k m → is_bytes msg → 0 <= n <= Z.of_nat (length msg) →
  ∃ st', hmac_update st msg n = Some (err_status_ok, st') ∧
    hmac_absorbed st' k (m ++ take (Z.to_nat n) msg).
Proof.
  intros [Hk Hr] Hm Hn. unfold hmac_update.
  destruct (sha1_update_repr _ _ msg (Z.to_nat n) Hr Hm) as (c & Hu & Hr'); [lia|].
  rewrite Z2Nat.id in Hu by lia. rewrite Hu. cbn [mbind option_bind].
  eexists. split; [done|]. split; [done|]. by rewrite <-app_assoc in Hr'.
Qed.

Lemma sha1_spec_shape m : length (Sha1Spec.sha1 m) = 20%nat ∧ is_bytes (Sha1Spec.sha1 m).
Proof.
  unfold Sha1Spec.sha1.
  pose proof (length_blocks (length (Sha1Spec.pad m) / 64) Sha1Spec.H0 (Sha1Spec.pad m) eq_refl) as Hl.
  destruct (Sha1Spec.blocks _ _ _) as [|a [|b [|c [|d [|e [|]]]]]]; try done. split; [done|].
  unfold is_bytes. cbn [map concat]. rewrite !Forall_app. split_and!; done || apply be_bytes_range.
Qed.


Lemma sha1_final_usable c m :
  sha1_repr c m → 8 * Z.of_nat (length m) < 2 ^ 32 →
  ∃ out c', sha1_final c = Some (out, c') ∧ word_octets out = Sha1Spec.sha1 m ∧
    ctx_usable c'.
Proof.
  intros Hr Hb. destruct (sha1_final_digest c m Hr Hb) as (out & c' & E & Ho & HM).
  exists out, c'. split_and!; [done..|]. destruct Hr as [[] _]. unfold ctx_usable. by rewrite HM.
Qed.

Lemma hmac_compute_mac st k m msg n tag_len res :
  hmac_absorbed st k m → is_bytes msg → 0 <= n <= Z.of_nat (length msg) →
  Z.of_nat (length m) + n <= 2 ^ 29 - 65 →
  0 <= tag_len <= 20 → tag_len <= Z.of_nat (length res) →
  ∃ st', hmac_compute st msg n tag_len res =
      Some (err_status_ok, st',
            take (Z.to_nat tag_len) (HMAC k (m ++ take (Z.to_nat n) msg)) ++
            drop (Z.to_nat tag_len) res) ∧
    hmac_keyed st' k.
Proof.
  intros Ha Hm Hn Hsz Ht Hres. unfold hmac_compute. rewrite decide_False by lia.
  destruct (hmac_update_absorbed _ _ _ _ _ Ha Hm Hn) as (st1 & -> & Hk1 & Hr1).
  cbn [mbind option_bind]. destruct Hk1 as (Hkb & Hk20 & Ho & Hi).
  set (x := m ++ take (Z.to_nat n) msg) in *.
  assert (length x = length m + Z.to_nat n)%nat as Hx
    by (unfold x; rewrite length_app, length_take; lia).
  destruct (sha1_final_usable _ _ Hr1) as (out & c1 & -> & Hout & Hc1 & Hc1l).
  { rewrite length_app, length_key_pad by lia. lia. }
  cbn [mbind option_bind].
  destruct (sha1_spec_shape (key_pad k 0x36 ++ x)) as [Hd1 Hd2]. rewrite <-Hout in Hd1, Hd2.
  destruct (sha1_update_repr (sha1_init c1) [] (opad st1) 64) as (c2 & Hu2 & Hr2);
    [by apply sha1_init_repr|rewrite Ho; by apply key_pad_bytes|
     rewrite Ho, length_key_pad; lia|].
  change (Z.of_nat 64) with 64 in Hu2. rewrite Hu2. cbn [mbind option_bind].
  destruct (sha1_update_repr c2 _ (word_octets out) 20 Hr2) as (c3 & Hu3 & Hr3); [done|lia|].
  change (Z.of_nat 20) with 20 in Hu3. rewrite Hu3. cbn [mbind option_bind].
  rewrite app_nil_l, !take_ge, Ho, Hout in Hr3 by (rewrite ?Ho, ?length_key_pad; lia).
  rewrite Hout in Hd1.
  destruct (sha1_final_usable _ _ Hr3) as (hv & c4 & -> & Hhv & _).
  { rewrite length_app, Hd1, length_key_pad by lia. lia. }
  cbn [mbind option_bind]. rewrite Hhv. fold (HMAC k x).
  rewrite copy_out; [|unfold HMAC; rewrite (proj1 (sha1_spec_shape _)); lia|done].
  cbn [mbind option_bind]. eexists. split; [done|]. split_and!; done.
Qed.

#[global] Instance hmac_spec : AuthSpec hmac_ctx_t.
Proof.
  refine {| auth_usable := hmac_usable; auth_keyed := hmac_keyed;
            auth_absorbed := hmac_absorbed; auth_mac := HMAC;
            auth_max_key := 20; auth_max_tag := 20; auth_max_msg := 2 ^ 29 - 65 |}.
  - intros block ref klen tlen Hk Ht. exists 0. simpl. unfold hmac_alloc.
    by rewrite !decide_False by lia.
  - intros a ref. eexists. done.
  - apply hmac_init_absorbed.
  - by intros st k m [].
  - intros st k Hk. eexists. split; [done|]. destruct Hk as (? & ? & ? & ?).
    split; [done|]. simpl. by rewrite app_nil_r.
  - apply hmac_update_absorbed.
  - apply hmac_compute_mac.
  - intros k m. unfold HMAC. by rewrite (proj1 (sha1_spec_shape _)).
  - intros k m. apply sha1_spec_shape.
Defined.

End Hmac.

(** ** The null authentication function *)

Module NullAuth.

Record null_auth_ctx_t := mk_null_auth { foo : Z }.

Definition null_auth_alloc (mem : option null_auth_ctx_t) (ref_count key_len out_len : Z)
  : err_status_t * option (auth_t null_auth_ctx_t) * Z :=
  match mem with
  | None => (err_status_alloc_fail, None, ref_count)
  | Some block => (err_status_ok, Some (mk_auth block out_len key_len out_len), ref_count + 1)
  end.

Definition null_auth_dealloc (a : auth_t null_auth_ctx_t) (ref_count : Z)
  : err_status_t * auth_t null_auth_ctx_t * Z :=
  (err_status_ok, mk_auth (mk_null_auth 0) 0 0 0, ref_count - 1).

Definition null_auth_init (state : null_auth_ctx_t) (key : list Z) (key_len : Z)
  : option (err_status_t * null_auth_ctx_t) := Some (err_status_ok, state).

Definition null_auth_compute (state : null_auth_ctx_t) (message : list Z)
    (msg_octets tag_len : Z) (result : list Z)
  : option (err_status_t * null_auth_ctx_t * list Z) := Some (err_status_ok, state, result).

Definition null_auth_update (state : null_auth_ctx_t) (message : list Z) (msg_octets : Z)
  : option (err_status_t * null_auth_ctx_t) := Some (err_status_ok, state).

Definition null_auth_start (state : null_auth_ctx_t) : err_status_t * null_auth_ctx_t :=
  (err_status_ok, state).

Definition null_auth_test_case_0 : auth_test_case_t := mk_auth_test 0 [] 0 [] 0 [].

#[global] Instance null_auth : AuthType null_auth_ctx_t := {
  auth_alloc_fn := null_auth_alloc;
  auth_dealloc_fn := null_auth_dealloc;
  auth_init_fn := null_auth_init;
  auth_compute_fn := null_auth_compute;
  auth_update_fn := null_auth_update;
  auth_start_fn := null_auth_start;
  auth_test_data := [null_auth_test_case_0] }.

(** the contract holds with empty tags: [null_auth_compute] writes nothing *)
#[global] Instance null_auth_spec : AuthSpec null_auth_ctx_t.
Proof.
  refine {| auth_usable := λ _, True; auth_keyed := λ _ _, True;
            auth_absorbed := λ _ _ _, True; auth_mac := λ _ _, [];
            auth_max_key := 2 ^ 31 - 1; auth_max_tag := 0; auth_max_msg := 2 ^ 31 - 1 |};
    try done.
  - intros. by eexists.
  - intros. by eexists.
  - intros. by eexists.
  - intros. by eexists.
  - intros. by eexists.
  - intros st k m msg n tag_len res _ _ _ _ Ht _. exists st.
    by replace (Z.to_nat tag_len) with 0%nat by lia.
  - constructor.
Defined.

End NullAuth.

(** ** Properties *)

(** C30: a message authenticated in pieces has the RFC 2104 tag: after
    [hmac_init] with a key of at most 20 octets on any block of memory, and
    again after every tag computed with it, [hmac_start], [hmac_update] on each
    piece and [hmac_compute] on the last one succeed; the first [tag_len] octets
    of the result are those of HMAC-SHA1 of the concatenation, the rest of the
    buffer is untouched, and the state stays keyed for the next message. *)
Theorem hmac_stream_correct block key klen :
  Hmac.hmac_usable block → is_bytes key → 0 <= klen <= Z.of_nat (length key) → klen <= 20 →
  let k := take (Z.to_nat klen) key in
  (∃ st, Hmac.hmac_init block key klen = Some (err_status_ok, st) ∧ Hmac.hmac_keyed st k) ∧
  ∀ st chunks last tag_len res,
    Hmac.hmac_keyed st k → Forall is_bytes chunks → is_bytes last →
    Z.of_nat (length (concat chunks) + length last) <= 2 ^ 29 - 65 →
    0 <= tag_len <= 20 → tag_len <= Z.of_nat (length res) →
    ∃ st1 st2, auth_updates (snd (Hmac.hmac_start st)) chunks = Some st1 ∧
      Hmac.hmac_compute st1 last (Z.of_nat (length last)) tag_len res =
        Some (err_status_ok, st2,
              take (Z.to_nat tag_len) (Hmac.HMAC k (concat chunks ++ last)) ++
              drop (Z.to_nat tag_len) res) ∧
      Hmac.hmac_keyed st2 k.
Proof.
  intros Hb Hk Hkl H20 k. split.
  - destruct (Hmac.hmac_init_absorbed block key klen Hb Hk Hkl H20) as (st & -> & [? _]).
    by exists st.
  - intros st chunks last tag_len res Hst Hc Hl Hsz Ht Hres.
    destruct (auth_start_law (AuthSpec := Hmac.hmac_spec) st k Hst) as (st0 & E & H0). simpl in E. rewrite E. simpl.
    destruct (auth_updates_absorbed (AS := Hmac.hmac_spec) st0 k [] chunks H0 Hc) as (st1 & -> & H1).
    destruct (Hmac.hmac_compute_mac st1 k _ last (Z.of_nat (length last)) tag_len res H1 Hl)
      as (st2 & E2 & H2); [lia|simpl; lia|lia|lia|].
    exists st1, st2. rewrite Nat2Z.id, firstn_all in E2. by rewrite app_nil_l in E2.
Qed.

(** a block of memory as [malloc] may return it *)
Definition junk_block : Hmac.hmac_ctx_t :=
  let c := mk_sha1 [7; 7; 7; 7; 7] (replicate 64 0xaa) 1000 3 in
  Hmac.mk_hmac (replicate 64 0xbb) c c.

Lemma hmac_stream_correct_witness :
  ∃ st, Hmac.hmac_init junk_block (replicate 20 0x0b) 20 = Some (err_status_ok, st) ∧
    Hmac.hmac_keyed st (replicate 20 0x0b) ∧
    ∃ st1 st2, auth_updates (snd (Hmac.hmac_start st)) [[0x48; 0x69]; [0x20]] = Some st1 ∧
      Hmac.hmac_compute st1 [0x54; 0x68; 0x65; 0x72; 0x65] 5 10 (replicate 12 1) =
        Some (err_status_ok, st2,
              [0xb6; 0x17; 0x31; 0x86; 0x55; 0x05; 0x72; 0x64; 0xe2; 0x8b; 1; 1]).
Proof.
  destruct (hmac_stream_correct junk_block (replicate 20 0x0b) 20) as [(st & E & Hk) Hrun];
    [split_and!; (done || eval_dec)|eval_dec|simpl; lia|lia|].
  exists st. split_and!; [done|done|].
  destruct (Hrun st [[0x48; 0x69]; [0x20]] [0x54; 0x68; 0x65; 0x72; 0x65] 10 (replicate 12 1))
    as (st1 & st2 & E1 & E2 & _); [done|eval_dec|eval_dec|simpl; lia|lia|simpl; lia|].
  exists st1, st2. split; [done|]. etransitivity; [exact E2|vm_compute; reflexivity].
Defined.

Lemma auth_self_test_spec {St} {AT : AuthType St} {AS : AuthSpec St} blocks tag ref :
  auth_test_data ≠ [] → Forall test_wf auth_test_data → Forall auth_usable blocks →
  length blocks = length auth_test_data → length tag = 32%nat →
  auth_type_self_test (Some <$> blocks) tag ref =
    Some (if forallb test_passes auth_test_data then err_status_ok
          else err_status_algo_fail, ref).
Proof.
  intros Hne Hwf Hb Hl Ht. unfold auth_type_self_test.
  rewrite <-(self_test_loop_spec auth_test_data blocks tag ref) by done.
  by destruct auth_test_data.
Qed.

(** the self test is exact: for every authentication function that meets
    the contract, on test cases that fit its limits and with memory available,
    [auth_type_self_test] runs without an undefined access, returns ok when
    every expected tag is the one the function defines and
    [err_status_algo_fail] otherwise, and leaves the reference count as it
    found it. *)
Theorem auth_self_test_verdict {St} {AT : AuthType St} {AS : AuthSpec St} blocks tag ref :
  auth_test_data ≠ [] → Forall test_wf auth_test_data → Forall auth_usable blocks →
  length blocks = length auth_test_data → length tag = 32%nat →
  auth_type_self_test (Some <$> blocks) tag ref =
    Some (if forallb test_passes auth_test_data then err_status_ok
          else err_status_algo_fail, ref).
Proof. apply auth_self_test_spec. Qed.

Lemma auth_self_test_verdict_witness :
  auth_type_self_test [Some junk_block] (replicate 32 0x55) 4 = Some (err_status_ok, 4).
Proof.
  etransitivity;
    [apply (auth_self_test_verdict [junk_block] (replicate 32 0x55) 4);
      [done| |repeat constructor; (done || eval_dec)|done|done]|].
  - constructor; [|constructor]. split_and!; try eval_dec; vm_compute; intros [=].
  - vm_compute. reflexivity.
Defined.

(** allocation fixes what later calls may do: [hmac_alloc] refuses exactly
    the key and tag lengths above 20 (bad_param) and an exhausted memory
    (alloc_fail), leaving the reference count alone, and a block it returns is
    accepted by [hmac_init] for any key of the declared length. *)
Theorem hmac_alloc_usable mem ref klen tlen :
  0 <= klen → (∀ block, mem = Some block → Hmac.hmac_usable block) →
  match Hmac.hmac_alloc mem ref klen tlen with
  | (err_status_ok, Some a, ref') =>
      ref' = ref + 1 ∧ klen <= 20 ∧ tlen <= 20 ∧ out_len a = tlen ∧ prefix_len a = 0 ∧
      ∀ key, is_bytes key → klen <= Z.of_nat (length key) →
        ∃ a', auth_init a key = Some (err_status_ok, a') ∧ out_len a' = tlen ∧
          Hmac.hmac_keyed (auth_state a') (take (Z.to_nat klen) key)
  | (err_status_bad_param, None, ref') => ref' = ref ∧ (20 < klen ∨ 20 < tlen)
  | (err_status_alloc_fail, None, ref') => ref' = ref ∧ mem = None
  | _ => False
  end.
Proof.
  intros Hk Hm. unfold Hmac.hmac_alloc.
  destruct (decide (klen > 20)); [split; [done|lia]|].
  destruct (decide (tlen > 20)); [split; [done|lia]|].
  destruct mem as [block|]; [|done]. split_and!; [done|lia|lia|done|done|].
  intros key Hkey Hl. unfold auth_init. simpl.
  destruct (Hmac.hmac_init_absorbed block key klen) as (st & -> & Hst); [auto|done|lia|lia|].
  simpl. eexists. split_and!; [done|done|]. apply Hst.
Qed.

Lemma hmac_alloc_usable_witness :
  ∃ a, Hmac.hmac_alloc (Some junk_block) 0 20 10 = (err_status_ok, Some a, 1) ∧
    ∃ a', auth_init a (replicate 20 5) = Some (err_status_ok, a').
Proof.
  pose proof (hmac_alloc_usable (Some junk_block) 0 20 10) as W.
  eexists. split; [reflexivity|].
  destruct W as (_ & _ & _ & _ & _ & W); [lia|intros ? [= <-]; split_and!; (done || eval_dec)|].
  destruct (W (replicate 20 5)) as (a' & E & _); [eval_dec|simpl; lia|].
  by exists a'.
Defined.
