(* ===== verification/Cipher.v ===== *)
(** * Ciphers

    Models [crypto/include/cipher.h] and [crypto/cipher/cipher.c] (the interface
    to ciphers, keystream output and the self test) and
    [crypto/cipher/null_cipher.c].

    [CipherType] is the table of functions [cipher_type_t].  Two contracts are
    stated on it: [CipherSpec], that decryption inverts encryption, which is all
    the self test relies on, and [StreamSpec], that the cipher adds a keystream
    that depends on key, vector and position only, which is what SRTP relies on.
    A stream cipher meets the first contract ([stream_cipher_spec]).

    A cipher works in place: [encrypt] gets the memory at the buffer pointer and
    the length, and returns the memory and the new length. *)

From S2P Require Import Prelude Datatypes.

(** ** The interface *)

Inductive cipher_direction_t := direction_encrypt | direction_decrypt | direction_any.

Record cipher_test_case_t := mk_cipher_test {
  ct_key_length_octets : Z;
  ct_key : list Z;
  ct_idx : list Z;
  ct_plaintext_length_octets : Z;
  ct_plaintext : list Z;
  ct_ciphertext_length_octets : Z;
  ct_ciphertext : list Z }.

Record cipher_t (St : Type) := mk_cipher {
  cipher_state : St;
  cipher_key_len : Z }.
Arguments mk_cipher {St} _ _.
Arguments cipher_state {St} _.
Arguments cipher_key_len {St} _.

(** the table of functions; [alloc] gets the answer of [crypto_alloc], and
    [alloc] and [dealloc] thread the reference count of the type *)
Class CipherType (St : Type) := {
  cipher_alloc_fn : option St → Z → Z → err_status_t * option (cipher_t St) * Z;
  cipher_dealloc_fn : cipher_t St → Z → err_status_t * cipher_t St * Z;
  cipher_init_fn : St → list Z → cipher_direction_t → option (err_status_t * St);
  cipher_encrypt_fn : St → list Z → Z → option (err_status_t * St * list Z * Z);
  cipher_decrypt_fn : St → list Z → Z → option (err_status_t * St * list Z * Z);
  cipher_set_iv_fn : St → list Z → option (err_status_t * St);
  cipher_test_data : list cipher_test_case_t }.

Section Cipher.
Context {St : Type} {CT : CipherType St}.

Definition with_cipher_state (c : cipher_t St) (s : St) : cipher_t St :=
  mk_cipher s (cipher_key_len c).

Definition cipher_init (c : cipher_t St) (key : list Z) (dir : cipher_direction_t)
  : option (err_status_t * cipher_t St) :=
  '(status, s) ← cipher_init_fn (cipher_state c) key dir;
  Some (status, with_cipher_state c s).

Definition cipher_encrypt (c : cipher_t St) (buf : list Z) (len : Z)
  : option (err_status_t * cipher_t St * list Z * Z) :=
  '(status, s, buf, len) ← cipher_encrypt_fn (cipher_state c) buf len;
  Some (status, with_cipher_state c s, buf, len).

Definition cipher_decrypt (c : cipher_t St) (buf : list Z) (len : Z)
  : option (err_status_t * cipher_t St * list Z * Z) :=
  '(status, s, buf, len) ← cipher_decrypt_fn (cipher_state c) buf len;
  Some (status, with_cipher_state c s, buf, len).

(** the macro tests its pointer for NULL *)
Definition cipher_set_iv (c : option (cipher_t St)) (iv : list Z)
  : option (err_status_t * option (cipher_t St)) :=
  match c with
  | None => Some (err_status_no_such_op, None)
  | Some c =>
      '(status, s) ← cipher_set_iv_fn (cipher_state c) iv;
      Some (status, Some (with_cipher_state c s))
  end.

Definition cipher_output (c : cipher_t St) (buffer : list Z) (num_octets_to_output : Z)
  : option (err_status_t * cipher_t St * list Z) :=
  buffer ← octet_string_set_to_zero buffer num_octets_to_output;
  '(status, c, buffer, _) ← cipher_encrypt c buffer (u32 num_octets_to_output);
  Some (status, c, buffer).

Definition cipher_get_key_length (c : cipher_t St) : Z := cipher_key_len c.

(** ** The self test *)

Definition SELF_TEST_BUF_OCTETS : Z := 128.
Definition NUM_RAND_TESTS : Z := 128.
Definition MAX_KEY_LEN : Z := 64.

(** [cipher_dealloc(c); return status;] *)
Definition dealloc_return {A} (c : cipher_t St) (ref : Z) (status : err_status_t)
  : option (err_status_t * Z + A) :=
  let '(_, _, ref) := cipher_dealloc_fn c ref in Some (inl (status, ref)).

(** [for (i = 0; i < n; i++) dst[i] = src[i];] *)
Definition copy_octets (dst src : list Z) (n : Z) : option (list Z) :=
  for_range 0 n (λ i dst, x ← aget src i; aset dst i x) dst.

(** the comparison of the first [n] octets of two buffers *)
Definition compare_octets (a b : list Z) (n : Z) : option err_status_t :=
  for_range 0 n (λ i status,
    x ← aget a i; y ← aget b i;
    Some (if decide (x ≠ y) then err_status_algo_fail else status)) err_status_ok.

(** the body of the [while] loop: [inl] is an early return, [inr] the buffer and
    the reference count when the test case passed *)
Definition cipher_known_answer (tc : cipher_test_case_t) (mem : option St) (buffer : list Z)
    (ref : Z) : option (err_status_t * Z + list Z * Z) :=
  let '(status, c, ref) := cipher_alloc_fn mem ref (ct_key_length_octets tc) in
  if decide (status ≠ err_status_ok) then Some (inl (status, ref)) else
  c ← c;
  '(status, c) ← cipher_init c (ct_key tc) direction_encrypt;
  if decide (status ≠ err_status_ok) then dealloc_return c ref status else
  if decide (ct_ciphertext_length_octets tc > SELF_TEST_BUF_OCTETS)
  then dealloc_return c ref err_status_bad_param else
  buffer ← copy_octets buffer (ct_plaintext tc) (ct_plaintext_length_octets tc);
  '(status, c) ← cipher_set_iv (Some c) (ct_idx tc);
  c ← c;
  if decide (status ≠ err_status_ok) then dealloc_return c ref status else
  '(status, c, buffer, len) ← cipher_encrypt c buffer (ct_plaintext_length_octets tc);
  if decide (status ≠ err_status_ok) then dealloc_return c ref status else
  if decide (len ≠ ct_ciphertext_length_octets tc)
  then Some (inl (err_status_algo_fail, ref)) else
  status ← compare_octets buffer (ct_ciphertext tc) (ct_ciphertext_length_octets tc);
  if decide (status ≠ err_status_ok) then dealloc_return c ref err_status_algo_fail else
  '(status, c) ← cipher_init c (ct_key tc) direction_decrypt;
  if decide (status ≠ err_status_ok) then dealloc_return c ref status else
  if decide (ct_ciphertext_length_octets tc > SELF_TEST_BUF_OCTETS)
  then dealloc_return c ref err_status_bad_param else
  buffer ← copy_octets buffer (ct_ciphertext tc) (ct_ciphertext_length_octets tc);
  '(status, c) ← cipher_set_iv (Some c) (ct_idx tc);
  c ← c;
  if decide (status ≠ err_status_ok) then dealloc_return c ref status else
  '(status, c, buffer, len) ← cipher_decrypt c buffer (ct_ciphertext_length_octets tc);
  if decide (status ≠ err_status_ok) then dealloc_return c ref status else
  if decide (len ≠ ct_plaintext_length_octets tc)
  then Some (inl (err_status_algo_fail, ref)) else
  status ← compare_octets buffer (ct_plaintext tc) (ct_plaintext_length_octets tc);
  if decide (status ≠ err_status_ok) then dealloc_return c ref err_status_algo_fail else
  let '(status, _, ref) := cipher_dealloc_fn c ref in
  if decide (status ≠ err_status_ok) then Some (inl (status, ref)) else
  Some (inr (buffer, ref)).

Fixpoint cipher_known_answers (tests : list cipher_test_case_t) (mem : list (option St))
    (buffer : list Z) (ref : Z) : option (err_status_t * Z + list Z * Z) :=
  match tests with
  | [] => Some (inr (buffer, ref))
  | tc :: tests =>
      r ← cipher_known_answer tc (hd None mem) buffer ref;
      match r with
      | inl e => Some (inl e)
      | inr (buffer, ref) => cipher_known_answers tests (tl mem) buffer ref
      end
  end.

(** what one random test gets from [rand()] and [rand_source_get_octet_string];
    the source is asked for a number of octets *)
Record rand_trial := mk_trial {
  tr_rand : Z;
  tr_plain : Z → err_status_t * list Z;
  tr_key : Z → err_status_t * list Z;
  tr_iv : Z → err_status_t * list Z }.

(** [rand_source_get_octet_string(dest, len)] *)
Definition rand_octets (src : Z → err_status_t * list Z) (dest : list Z) (len : Z)
  : option (err_status_t * list Z) :=
  let '(status, o) := src len in
  if decide (status ≠ err_status_ok) then Some (status, dest) else
  dest ← copy_octets dest o len; Some (status, dest).

(** the body of the loop of random tests; the buffers and the arrays [key] and
    [iv] are on the stack *)
Definition cipher_random_test (tc : cipher_test_case_t) (tr : rand_trial) (ref : Z)
    (c : cipher_t St) (buffer buffer2 key iv : list Z)
  : option (err_status_t * Z + cipher_t St * list Z * list Z * list Z * list Z) :=
  let length := tr_rand tr mod (SELF_TEST_BUF_OCTETS - 64) in
  '(status, buffer) ← rand_octets (tr_plain tr) buffer length;
  if decide (status ≠ err_status_ok) then Some (inl (status, ref)) else
  buffer2 ← copy_octets buffer2 buffer length;
  if decide (ct_key_length_octets tc > MAX_KEY_LEN)
  then Some (inl (err_status_cant_check, ref)) else
  '(status, key) ← rand_octets (tr_key tr) key (ct_key_length_octets tc);
  if decide (status ≠ err_status_ok) then Some (inl (status, ref)) else
  '(status, iv) ← rand_octets (tr_iv tr) iv MAX_KEY_LEN;
  if decide (status ≠ err_status_ok) then Some (inl (status, ref)) else
  '(status, c) ← cipher_init c key direction_encrypt;
  if decide (status ≠ err_status_ok) then dealloc_return c ref status else
  '(status, c) ← cipher_set_iv (Some c) (ct_idx tc);
  c ← c;
  if decide (status ≠ err_status_ok) then dealloc_return c ref status else
  let plaintext_len := length in
  '(status, c, buffer, length) ← cipher_encrypt c buffer length;
  if decide (status ≠ err_status_ok) then dealloc_return c ref status else
  '(status, c) ← cipher_init c key direction_decrypt;
  if decide (status ≠ err_status_ok) then dealloc_return c ref status else
  '(status, c) ← cipher_set_iv (Some c) (ct_idx tc);
  c ← c;
  if decide (status ≠ err_status_ok) then dealloc_return c ref status else
  '(status, c, buffer, length) ← cipher_decrypt c buffer length;
  if decide (status ≠ err_status_ok) then dealloc_return c ref status else
  if decide (length ≠ plaintext_len) then Some (inl (err_status_algo_fail, ref)) else
  status ← compare_octets buffer buffer2 plaintext_len;
  if decide (status ≠ err_status_ok) then dealloc_return c ref err_status_algo_fail else
  Some (inr (c, buffer, buffer2, key, iv)).

Fixpoint cipher_random_tests (tc : cipher_test_case_t) (trials : list rand_trial) (ref : Z)
    (c : cipher_t St) (buffer buffer2 key iv : list Z) : option (err_status_t * Z) :=
  match trials with
  | [] => Some (err_status_ok, ref)
  | tr :: trials =>
      r ← cipher_random_test tc tr ref c buffer buffer2 key iv;
      match r with
      | inl e => Some e
      | inr (c, buffer, buffer2, key, iv) =>
          cipher_random_tests tc trials ref c buffer buffer2 key iv
      end
  end.

(** [mem] are the answers of [crypto_alloc], one for each test case and one for
    the random tests; [trials] is what the random tests draw *)
Definition cipher_type_self_test (mem : list (option St)) (trials : nat → rand_trial)
    (buffer buffer2 key iv : list Z) (ref : Z) : option (err_status_t * Z) :=
  match cipher_test_data with
  | [] => Some (err_status_cant_check, ref)
  | tc :: _ =>
      r ← cipher_known_answers cipher_test_data mem buffer ref;
      match r with
      | inl e => Some e
      | inr (buffer, ref) =>
          let '(status, c, ref) := cipher_alloc_fn
            (hd None (drop (length cipher_test_data) mem)) ref (ct_key_length_octets tc) in
          if decide (status ≠ err_status_ok) then Some (status, ref) else
          c ← c;
          cipher_random_tests tc (map trials (seq 0 (Z.to_nat NUM_RAND_TESTS))) ref c
            buffer buffer2 key iv
      end
  end.

(** ** The benchmark *)

Definition CLOCKS_PER_SEC : Z := 1000000.

(** [enc_buf] is the answer of [crypto_alloc], [timer] the difference of the two
    readings of the clock *)
Definition cipher_bits_per_second (c : cipher_t St) (octets_in_buffer num_trials : Z)
    (enc_buf : option (list Z)) (timer : Z) : option (Z * cipher_t St) :=
  match enc_buf with
  | None => Some (0, c)
  | Some enc_buf =>
      '(c, _, _) ← for_range 0 num_trials (λ i '(c, enc_buf, len),
          let nonce := [0; 0; 0; i] in
          '(_, c) ← cipher_set_iv (Some c) (v128_octets nonce);
          c ← c;
          '(_, c, enc_buf, len) ← cipher_encrypt c enc_buf len;
          Some (c, enc_buf, len)) (c, enc_buf, u32 octets_in_buffer);
      if decide (timer = 0) then Some (0, c) else
      Some (u64 (CLOCKS_PER_SEC * num_trials * 8 * octets_in_buffer) / u64 timer, c)
  end.

End Cipher.

(** ** The contract of a cipher

    [cipher_usable] is memory of the right type; [cipher_key_mem] and
    [cipher_iv_mem] say what the pointers to key and vector must point to;
    [cipher_ready st dir k iv] is a state with key [k] and vector [iv], about to
    work in direction [dir]; [cipher_enc k iv p] is the ciphertext of [p], which
    may be [cipher_grow] octets longer. *)

Class CipherSpec (St : Type) `{CipherType St} := {
  cipher_usable : St → Prop;
  cipher_key_mem : list Z → Prop;
  cipher_iv_mem : list Z → Prop;
  cipher_keyed : St → cipher_direction_t → list Z → Prop;
  cipher_ready : St → cipher_direction_t → list Z → list Z → Prop;
  cipher_enc : list Z → list Z → list Z → list Z;
  cipher_key_ok : Z → Prop;
  cipher_max : Z;
  cipher_grow : Z;
  cipher_alloc_law block ref klen :
    cipher_key_ok klen →
    cipher_alloc_fn (Some block) ref klen = (err_status_ok, Some (mk_cipher block klen), ref + 1);
  cipher_dealloc_law c ref :
    ∃ c', cipher_dealloc_fn c ref = (err_status_ok, c', ref - 1);
  cipher_key_array key : is_bytes key → length key = Z.to_nat MAX_KEY_LEN → cipher_key_mem key;
  cipher_init_law st key dir :
    cipher_usable st → cipher_key_mem key → dir ≠ direction_any →
    ∃ st', cipher_init_fn st key dir = Some (err_status_ok, st') ∧ cipher_keyed st' dir key;
  cipher_set_iv_law st dir k iv :
    cipher_keyed st dir k → cipher_iv_mem iv →
    ∃ st', cipher_set_iv_fn st iv = Some (err_status_ok, st') ∧ cipher_ready st' dir k iv;
  cipher_grow_nonneg : 0 <= cipher_grow;
  cipher_enc_length k iv p :
    cipher_key_mem k → cipher_iv_mem iv → is_bytes p →
    Z.of_nat (length (cipher_enc k iv p)) <= Z.of_nat (length p) + cipher_grow;
  cipher_enc_bytes k iv p :
    cipher_key_mem k → cipher_iv_mem iv → is_bytes p → is_bytes (cipher_enc k iv p);
  cipher_encrypt_law st k iv p rest :
    cipher_ready st direction_encrypt k iv → is_bytes (p ++ rest) →
    Z.of_nat (length p) <= cipher_max → cipher_grow <= Z.of_nat (length rest) →
    ∃ st' rest', cipher_encrypt_fn st (p ++ rest) (Z.of_nat (length p)) =
        Some (err_status_ok, st', cipher_enc k iv p ++ rest',
              Z.of_nat (length (cipher_enc k iv p))) ∧
      cipher_usable st' ∧ is_bytes rest' ∧
      length (cipher_enc k iv p ++ rest') = length (p ++ rest);
  cipher_decrypt_law st k iv p rest :
    cipher_ready st direction_decrypt k iv → is_bytes (cipher_enc k iv p ++ rest) →
    is_bytes p → Z.of_nat (length p) <= cipher_max →
    ∃ st' rest', cipher_decrypt_fn st (cipher_enc k iv p ++ rest)
          (Z.of_nat (length (cipher_enc k iv p))) =
        Some (err_status_ok, st', p ++ rest', Z.of_nat (length p)) ∧
      cipher_usable st' ∧ is_bytes rest' ∧
      length (p ++ rest') = length (cipher_enc k iv p ++ rest) }.

(** ** The self test decides *)

Section CipherClient.
Context {St : Type} {CT : CipherType St} {CS : CipherSpec St}.

Definition test_plain (tc : cipher_test_case_t) : list Z :=
  take (Z.to_nat (ct_plaintext_length_octets tc)) (ct_plaintext tc).

(** a test case that stays inside of its arrays and of the buffer *)
Definition cipher_test_wf (tc : cipher_test_case_t) : Prop :=
  cipher_key_ok (ct_key_length_octets tc) ∧ 0 <= ct_key_length_octets tc <= MAX_KEY_LEN ∧
  cipher_key_mem (ct_key tc) ∧ cipher_iv_mem (ct_idx tc) ∧
  0 <= ct_plaintext_length_octets tc <= Z.of_nat (length (ct_plaintext tc)) ∧
  0 <= ct_ciphertext_length_octets tc <= Z.of_nat (length (ct_ciphertext tc)) ∧
  is_bytes (ct_plaintext tc) ∧ is_bytes (ct_ciphertext tc) ∧
  ct_plaintext_length_octets tc <= cipher_max ∧
  ct_plaintext_length_octets tc + cipher_grow <= SELF_TEST_BUF_OCTETS ∧
  ct_ciphertext_length_octets tc <= SELF_TEST_BUF_OCTETS.

(** what a test case shows: a ciphertext of another length, another ciphertext,
    or the ciphertext of the test case *)
Definition test_enc (tc : cipher_test_case_t) : list Z :=
  cipher_enc (ct_key tc) (ct_idx tc) (test_plain tc).

Definition length_passes (tc : cipher_test_case_t) : bool :=
  bool_decide (Z.of_nat (length (test_enc tc)) = ct_ciphertext_length_octets tc).

Definition octets_pass (tc : cipher_test_case_t) : bool :=
  bool_decide (test_enc tc =
    take (Z.to_nat (ct_ciphertext_length_octets tc)) (ct_ciphertext tc)).

Lemma status_ok {A} (x y : A) : (if decide (err_status_ok ≠ err_status_ok) then x else y) = y.
Proof. by rewrite decide_False by tauto. Qed.

Lemma status_fail {A} (x y : A) :
  (if decide (err_status_algo_fail ≠ err_status_ok) then x else y) = x.
Proof. by rewrite decide_True. Qed.

Lemma status_cases {A} (b : bool) (x y : A) :
  (if decide ((if b then err_status_ok else err_status_algo_fail) ≠ err_status_ok)
   then x else y) = if b then y else x.
Proof. destruct b; [apply status_ok|apply status_fail]. Qed.

Lemma compare_octets_spec n (a b : list Z) :
  0 <= n <= Z.of_nat (length a) → n <= Z.of_nat (length b) →
  compare_octets a b n =
    Some (if bool_decide (take (Z.to_nat n) a = take (Z.to_nat n) b)
          then err_status_ok else err_status_algo_fail).
Proof. apply compare_loop. Qed.

Lemma copy_octets_spec dst src n :
  0 <= n <= Z.of_nat (length src) → n <= Z.of_nat (length dst) →
  copy_octets dst src n = Some (take (Z.to_nat n) src ++ drop (Z.to_nat n) dst).
Proof. apply copy_out. Qed.

(** initialisation with key and vector, then encryption or decryption *)
Lemma encrypt_run st k iv p rest :
  cipher_usable st → cipher_key_mem k → cipher_iv_mem iv → is_bytes (p ++ rest) →
  Z.of_nat (length p) <= cipher_max → cipher_grow <= Z.of_nat (length rest) →
  ∃ st1 st2 st3 rest', cipher_init_fn st k direction_encrypt = Some (err_status_ok, st1) ∧
    cipher_set_iv_fn st1 iv = Some (err_status_ok, st2) ∧
    cipher_encrypt_fn st2 (p ++ rest) (Z.of_nat (length p)) =
        Some (err_status_ok, st3, cipher_enc k iv p ++ rest',
              Z.of_nat (length (cipher_enc k iv p))) ∧
    cipher_usable st3 ∧ is_bytes rest' ∧
    length (cipher_enc k iv p ++ rest') = length (p ++ rest).
Proof.
  intros Hu Hk Hiv Hb Hp Hr.
  destruct (cipher_init_law st k direction_encrypt Hu Hk ltac:(done)) as (st1 & E1 & H1).
  destruct (cipher_set_iv_law st1 _ k iv H1 Hiv) as (st2 & E2 & H2).
  destruct (cipher_encrypt_law st2 k iv p rest H2 Hb Hp Hr) as (st3 & rest' & E3 & H3).
  by exists st1, st2, st3, rest'.
Qed.

Lemma decrypt_run st k iv p rest :
  cipher_usable st → cipher_key_mem k → cipher_iv_mem iv → is_bytes p → is_bytes rest →
  Z.of_nat (length p) <= cipher_max →
  ∃ st1 st2 st3 rest', cipher_init_fn st k direction_decrypt = Some (err_status_ok, st1) ∧
    cipher_set_iv_fn st1 iv = Some (err_status_ok, st2) ∧
    cipher_decrypt_fn st2 (cipher_enc k iv p ++ rest) (Z.of_nat (length (cipher_enc k iv p))) =
        Some (err_status_ok, st3, p ++ rest', Z.of_nat (length p)) ∧
    cipher_usable st3 ∧ is_bytes rest' ∧
    length (p ++ rest') = length (cipher_enc k iv p ++ rest).
Proof.
  intros Hu Hk Hiv Hp Hb Hl.
  destruct (cipher_init_law st k direction_decrypt Hu Hk ltac:(done)) as (st1 & E1 & H1).
  destruct (cipher_set_iv_law st1 _ k iv H1 Hiv) as (st2 & E2 & H2).
  destruct (cipher_decrypt_law st2 k iv p rest H2) as (st3 & rest' & E3 & H3);
    [apply is_bytes_app; split; [by apply cipher_enc_bytes|done]|done..|].
  by exists st1, st2, st3, rest'.
Qed.

(** [steps]: symbolic execution of one call whose result is known *)
Ltac steps := cbn [mbind option_bind with_cipher_state cipher_state cipher_key_len]; rewrite ?status_ok.

Lemma known_answer_spec tc blk buffer ref :
  cipher_test_wf tc → cipher_usable blk → length buffer = 128%nat → is_bytes buffer →
  ∃ r, cipher_known_answer tc (Some blk) buffer ref = Some r ∧
    if length_passes tc then
      if octets_pass tc then ∃ buffer', r = inr (buffer', ref) ∧
        length buffer' = 128%nat ∧ is_bytes buffer'
      else r = inl (err_status_algo_fail, ref)
    else r = inl (err_status_algo_fail, ref + 1).
Proof.
  intros (Hko & Hkl & Hk & Hiv & Hpl & Hcl & Hpb & Hcb & Hmax & Hroom & Hct) Hblk Hlen Hbuf.
  pose proof cipher_grow_nonneg as Hg. unfold SELF_TEST_BUF_OCTETS in *.
  unfold cipher_known_answer, cipher_init, cipher_set_iv, cipher_encrypt, cipher_decrypt.
  rewrite cipher_alloc_law by done. steps.
  set (p := test_plain tc). set (e := test_enc tc).
  assert (length p = Z.to_nat (ct_plaintext_length_octets tc)) as Hp
    by (unfold p, test_plain; rewrite length_take; lia).
  assert (is_bytes p) as Hpb' by (unfold p, test_plain; by words).
  set (rest := drop (Z.to_nat (ct_plaintext_length_octets tc)) buffer).
  assert (length rest = 128 - length p)%nat as Hrl by (unfold rest; rewrite length_drop; lia).
  destruct (encrypt_run blk (ct_key tc) (ct_idx tc) p rest)
    as (st1 & st2 & st3 & r1 & E1 & E2 & E3 & H3 & Br1 & Lr1); [done|done|done| |lia|lia|].
  { apply is_bytes_app. split; [done|]. unfold rest. by words. }
  rewrite E1. steps. rewrite decide_False by (unfold SELF_TEST_BUF_OCTETS; lia).
  rewrite copy_octets_spec by lia. fold (test_plain tc) p rest. steps.
  rewrite E2. steps. replace (ct_plaintext_length_octets tc) with (Z.of_nat (length p)) by lia.
  change (cipher_enc (ct_key tc) (ct_idx tc) p) with e in E3, Lr1.
  rewrite E3. steps. rewrite !length_app in Lr1.
  pose proof (cipher_enc_length (ct_key tc) (ct_idx tc) p Hk Hiv Hpb') as Hel.
  change (cipher_enc (ct_key tc) (ct_idx tc) p) with e in Hel.
  unfold length_passes. fold e. case_decide as Hd.
  { rewrite bool_decide_false by done. by eexists. }
  rewrite bool_decide_true by done.
  rewrite compare_octets_spec; [|rewrite length_app; lia|lia]. steps.
  rewrite <-Hd, Nat2Z.id, take_app_length. unfold octets_pass. fold e.
  rewrite <-Hd, Nat2Z.id. rewrite status_cases.
  case_bool_decide as Hoct.
  2:{ unfold dealloc_return. edestruct (cipher_dealloc_law (CipherSpec := CS)) as [c' ->].
      eexists. split; [done|]. f_equal. f_equal. lia. }
  assert (is_bytes e) as Heb by (unfold e, test_enc; apply cipher_enc_bytes; done).
  destruct (decrypt_run st3 (ct_key tc) (ct_idx tc) p r1)
    as (st4 & st5 & st6 & rest' & E4 & E5 & E6 & H6 & Hrb & Hrl'); [done..|lia|].
  change (cipher_enc (ct_key tc) (ct_idx tc) p) with e in *.
  rewrite E4. steps.
  rewrite decide_False by (unfold SELF_TEST_BUF_OCTETS; lia).
  rewrite copy_octets_spec by (rewrite ?length_app; lia).
  rewrite Nat2Z.id, <-Hoct. steps. rewrite E5. steps.
  rewrite drop_app_length, E6. steps. rewrite decide_False by tauto.
  rewrite compare_octets_spec by (rewrite ?length_app; lia). steps.
  rewrite status_cases, bool_decide_true
    by (rewrite Nat2Z.id, take_app_length; unfold p at 1, test_plain; by rewrite Hp).
  edestruct (cipher_dealloc_law (CipherSpec := CS)) as [c' ->]. steps.
  eexists. split; [done|]. eexists. replace (ref + 1 - 1) with ref by lia.
  split_and!; [done| |by apply is_bytes_app].
  rewrite Hrl', length_app. lia.
Qed.

Lemma last_split {A} (l : list A) n :
  length l = S n → ∃ l' x, l = l' ++ [x] ∧ length l' = n.
Proof.
  intros Hl. destruct l as [|x l] using rev_ind; [done|]. exists l, x.
  split; [done|]. rewrite length_app in Hl. simpl in Hl. lia.
Qed.

(** a source of random octets that works *)
Definition source_ok (src : Z → err_status_t * list Z) : Prop :=
  ∀ n, 0 <= n → (src n).1 = err_status_ok ∧ is_bytes (src n).2 ∧ length (src n).2 = Z.to_nat n.

Definition trial_ok (tr : rand_trial) : Prop :=
  0 <= tr_rand tr ∧ source_ok (tr_plain tr) ∧ source_ok (tr_key tr) ∧ source_ok (tr_iv tr).

Lemma rand_octets_spec src dest n :
  source_ok src → is_bytes dest → 0 <= n <= Z.of_nat (length dest) →
  ∃ o, rand_octets src dest n = Some (err_status_ok, o ++ drop (Z.to_nat n) dest) ∧
    length o = Z.to_nat n ∧ is_bytes o.
Proof.
  intros Hs Hd Hn. destruct (Hs n) as (H1 & H2 & H3); [lia|].
  unfold rand_octets. destruct (src n) as [status o]. simpl in *. subst status.
  rewrite status_ok, copy_octets_spec by lia. simpl. exists o.
  by rewrite firstn_all2 by lia.
Qed.

(** the arrays on the stack of the random tests *)
Definition stack_ok (c : cipher_t St) (buffer buffer2 key iv : list Z) : Prop :=
  cipher_usable (cipher_state c) ∧
  (length buffer = 128%nat ∧ is_bytes buffer) ∧ (length buffer2 = 128%nat ∧ is_bytes buffer2) ∧
  (length key = 64%nat ∧ is_bytes key) ∧ (length iv = 64%nat ∧ is_bytes iv).

Lemma random_test_spec tc tr ref c buffer buffer2 key iv :
  cipher_test_wf tc → 63 <= cipher_max → cipher_grow <= 64 → trial_ok tr →
  stack_ok c buffer buffer2 key iv →
  ∃ c' buffer' buffer2' key' iv',
    cipher_random_test tc tr ref c buffer buffer2 key iv =
      Some (inr (c', buffer', buffer2', key', iv')) ∧
    stack_ok c' buffer' buffer2' key' iv'.
Proof.
  intros (_ & Hkl & _ & Hiv & _) Hmax Hgrow (Hr & Htp & Htk & Hti)
    (Hc & [Lb Bb] & [Lb2 Bb2] & [Lk Bk] & [Li Bi]).
  unfold cipher_random_test, cipher_init, cipher_set_iv, cipher_encrypt, cipher_decrypt.
  unfold SELF_TEST_BUF_OCTETS, MAX_KEY_LEN in *.
  pose proof (Z.mod_pos_bound (tr_rand tr) (128 - 64)) as Hn.
  set (n := tr_rand tr mod (128 - 64)) in *.
  destruct (rand_octets_spec (tr_plain tr) buffer n) as (p & -> & Hp & Bp); [done|done|lia|]. steps.
  rewrite copy_octets_spec by (rewrite ?length_app; lia). steps. rewrite decide_False by lia.
  destruct (rand_octets_spec (tr_key tr) key (ct_key_length_octets tc))
    as (k & -> & Hk & Bk'); [done|done|lia|]. steps.
  destruct (rand_octets_spec (tr_iv tr) iv 64) as (v & -> & Hv & Bv); [done|done|lia|]. steps.
  set (key' := k ++ _). set (rest := drop (Z.to_nat n) buffer).
  assert (length key' = 64%nat ∧ is_bytes key') as [Lk' Bkey'].
  { unfold key'. split; [rewrite length_app, length_drop; lia|]. apply is_bytes_app. by words. }
  assert (length rest = 128 - length p)%nat as Hrl by (unfold rest; rewrite length_drop; lia).
  assert (is_bytes rest) as Brest by (unfold rest; by words).
  assert (cipher_key_mem key') as Hkm by (by apply cipher_key_array).
  destruct (encrypt_run (cipher_state c) key' (ct_idx tc) p rest)
    as (st1 & st2 & st3 & r1 & E1 & E2 & E3 & H3 & Br1 & Lr1);
    [done..|by apply is_bytes_app|lia|lia|].
  replace (Z.of_nat (length p)) with n in E3 by lia.
  rewrite E1. steps. rewrite E2. steps. rewrite E3. steps.
  pose proof (cipher_enc_length key' (ct_idx tc) p Hkm Hiv Bp) as Hel.
  set (e := cipher_enc key' (ct_idx tc) p) in *. rewrite !length_app in Lr1.
  destruct (decrypt_run st3 key' (ct_idx tc) p r1)
    as (st4 & st5 & st6 & rest' & E4 & E5 & E6 & H6 & Hrb & Hrl'); [done..|lia|].
  fold e in E6, Hrl'.
  rewrite E4. steps. rewrite E5. steps. rewrite E6. steps. rewrite decide_False by lia.
  rewrite compare_octets_spec by (rewrite ?length_app, ?length_take, ?length_drop, ?length_app; lia).
  steps. rewrite <-Hp, !take_app_length, status_cases, bool_decide_true by done.
  do 5 eexists. split; [done|]. unfold stack_ok. rewrite !is_bytes_app.
  rewrite Hrl'. rewrite ?length_app, ?length_drop, ?length_app.
  split_and!; try done; try lia; by words.
Qed.

Lemma random_tests_spec tc trials ref c buffer buffer2 key iv :
  cipher_test_wf tc → 63 <= cipher_max → cipher_grow <= 64 → Forall trial_ok trials →
  stack_ok c buffer buffer2 key iv →
  cipher_random_tests tc trials ref c buffer buffer2 key iv = Some (err_status_ok, ref).
Proof.
  intros Hwf Hmax Hgrow Ht. revert c buffer buffer2 key iv.
  induction Ht as [|tr trials Htr _ IH]; intros c buffer buffer2 key iv Hs; [done|]. simpl.
  edestruct random_test_spec as (c' & b' & b2' & k' & i' & -> & Hs'); [done..|]. by apply IH.
Qed.

Lemma known_answers_spec tests blocks mem buffer ref :
  Forall cipher_test_wf tests → Forall cipher_usable blocks → length blocks = length tests →
  length buffer = 128%nat → is_bytes buffer →
  ∃ r, cipher_known_answers tests ((Some <$> blocks) ++ mem) buffer ref = Some r ∧
    if forallb (λ tc, length_passes tc && octets_pass tc) tests then
      ∃ buffer', r = inr (buffer', ref) ∧ length buffer' = 128%nat ∧ is_bytes buffer'
    else r = inl (err_status_algo_fail, ref) ∨ r = inl (err_status_algo_fail, ref + 1).
Proof.
  intros Ht. revert blocks buffer.
  induction Ht as [|tc tests Hwf _ IH]; intros blocks buffer Hb Hlen Hl Hbuf.
  - destruct blocks; [|done]. eexists. split; [done|]. by exists buffer.
  - destruct blocks as [|blk blocks]; [done|]. apply Forall_cons_iff in Hb as [Hblk Hb].
    destruct (known_answer_spec tc blk buffer ref Hwf Hblk Hl Hbuf) as (r & E & Hr). simpl.
    rewrite E. destruct (length_passes tc); simpl; [|subst; by eauto].
    destruct (octets_pass tc); simpl; [|subst; by eauto].
    destruct Hr as (b' & -> & Hl' & Hb'). apply IH; [done|simpl in Hlen; lia|done..].
Qed.

Lemma self_test_spec (blocks : list St) trials buffer buffer2 key iv ref :
  Forall cipher_test_wf cipher_test_data → cipher_test_data ≠ [] →
  63 <= cipher_max → cipher_grow <= 64 →
  Forall cipher_usable blocks → length blocks = S (length cipher_test_data) →
  (∀ j, trial_ok (trials j)) →
  length buffer = 128%nat → length buffer2 = 128%nat → length key = 64%nat → length iv = 64%nat →
  is_bytes (buffer ++ buffer2 ++ key ++ iv) →
  ∃ ref', cipher_type_self_test (Some <$> blocks) trials buffer buffer2 key iv ref =
    Some (if forallb (λ tc, length_passes tc && octets_pass tc) cipher_test_data
          then err_status_ok else err_status_algo_fail, ref') ∧
    (forallb (λ tc, length_passes tc && octets_pass tc) cipher_test_data = true →
     ref' = ref + 1).
Proof.
  intros Hwf Hne Hmax Hgrow Hbl Hlen Htr Lb Lb2 Lk Li HB.
  rewrite !is_bytes_app in HB. destruct HB as (Bb & Bb2 & Bk & Bi).
  unfold cipher_type_self_test. destruct cipher_test_data as [|tc tests] eqn:Htests; [done|].
  destruct (last_split blocks _ Hlen) as (bs & b & -> & Hbs).
  apply Forall_app in Hbl as [Hbl [Hb _]%Forall_cons_iff]. rewrite fmap_app.
  destruct (known_answers_spec (tc :: tests) bs (Some <$> [b]) buffer ref Hwf Hbl Hbs Lb Bb)
    as (r & -> & Hr). cbn [mbind option_bind].
  destruct (forallb _ (tc :: tests)).
  - destruct Hr as (buf & -> & Lbuf & Bbuf). rewrite drop_app_length' by by rewrite length_fmap.
    apply Forall_cons_iff in Hwf as [Hwf _].
    cbn [hd fmap list_fmap]. rewrite cipher_alloc_law by apply Hwf. rewrite status_ok.
    cbn [mbind option_bind].
    rewrite random_tests_spec; [by exists (ref + 1)|done|done|done| |].
    + apply Forall_map, Forall_true. intros j. apply Htr.
    + by split_and!.
  - destruct Hr as [-> | ->]; by eexists.
Qed.

(** the self test of a cipher decides whether its known answers are right: for
    every cipher that meets the contract, with memory for each allocation and a
    working source of random octets, it never leaves its buffers and returns
    [err_status_ok] exactly when each test case has the ciphertext the cipher
    defines, whatever the 128 random tests draw.  A test that passes leaves the
    reference count of the type one too high: the cipher of the random tests is
    not given back. *)
Theorem cipher_self_test_decides (blocks : list St) trials buffer buffer2 key iv ref :
  Forall cipher_test_wf cipher_test_data → cipher_test_data ≠ [] →
  63 <= cipher_max → cipher_grow <= 64 →
  Forall cipher_usable blocks → length blocks = S (length cipher_test_data) →
  (∀ j, trial_ok (trials j)) →
  length buffer = 128%nat → length buffer2 = 128%nat → length key = 64%nat → length iv = 64%nat →
  is_bytes (buffer ++ buffer2 ++ key ++ iv) →
  ∃ ref', cipher_type_self_test (Some <$> blocks) trials buffer buffer2 key iv ref =
    Some (if forallb (λ tc, length_passes tc && octets_pass tc) cipher_test_data
          then err_status_ok else err_status_algo_fail, ref') ∧
    (forallb (λ tc, length_passes tc && octets_pass tc) cipher_test_data = true →
     ref' = ref + 1).
Proof. apply self_test_spec. Qed.

End CipherClient.

(** ** The contract of a stream cipher

    [stream_at st k iv n]: the cipher has key [k] and vector [iv], and the next
    octet of keystream is number [n]; [stream_octet k iv n] is that octet. *)

Definition xor_stream (f : nat → Z) (n : nat) (buf : list Z) : list Z :=
  imap (λ j b, b ^^ f (n + j)%nat) buf.

Class StreamSpec (St : Type) `{CipherType St} := {
  stream_usable : St → Prop;
  stream_key_mem : list Z → Prop;
  stream_iv_mem : list Z → Prop;
  stream_key_ok : Z → Prop;
  stream_keyed : St → list Z → Prop;
  stream_at : St → list Z → list Z → nat → Prop;
  stream_octet : list Z → list Z → nat → Z;
  stream_max : Z;
  stream_alloc_law block ref klen :
    stream_key_ok klen →
    cipher_alloc_fn (Some block) ref klen = (err_status_ok, Some (mk_cipher block klen), ref + 1);
  stream_dealloc_law c ref :
    ∃ c', cipher_dealloc_fn c ref = (err_status_ok, c', ref - 1);
  stream_key_array key : is_bytes key → length key = Z.to_nat MAX_KEY_LEN → stream_key_mem key;
  stream_keyed_usable st k : stream_keyed st k → stream_usable st;
  stream_at_keyed st k iv n : stream_at st k iv n → stream_keyed st k;
  stream_init_law st key dir :
    stream_usable st → stream_key_mem key →
    ∃ st', cipher_init_fn st key dir = Some (err_status_ok, st') ∧ stream_keyed st' key;
  stream_set_iv_law st k iv :
    stream_keyed st k → stream_iv_mem iv →
    ∃ st', cipher_set_iv_fn st iv = Some (err_status_ok, st') ∧ stream_at st' k iv 0;
  stream_octet_range k iv n :
    stream_key_mem k → stream_iv_mem iv → is_word 8 (stream_octet k iv n);
  stream_encrypt_law st k iv n p rest :
    stream_at st k iv n → is_bytes (p ++ rest) →
    Z.of_nat n + Z.of_nat (length p) <= stream_max →
    ∃ st', cipher_encrypt_fn st (p ++ rest) (Z.of_nat (length p)) =
        Some (err_status_ok, st', xor_stream (stream_octet k iv) n p ++ rest,
              Z.of_nat (length p)) ∧
      stream_at st' k iv (n + length p)%nat;
  stream_decrypt_law st buf len : cipher_decrypt_fn st buf len = cipher_encrypt_fn st buf len }.

Lemma length_xor_stream f n buf : length (xor_stream f n buf) = length buf.
Proof. apply length_imap. Qed.
#[export] Hint Rewrite length_xor_stream : lens.

(** adding the keystream twice gives the octets back *)
Lemma xor_stream_involutive f n buf : xor_stream f n (xor_stream f n buf) = buf.
Proof.
  unfold xor_stream. apply list_eq. intros j.
  rewrite !list_lookup_imap. destruct (buf !! j) as [b|] eqn:E; simpl; [|done]. f_equal.
  by rewrite Z.lxor_assoc, Z.lxor_nilpotent, Z.lxor_0_r.
Qed.

Lemma xor_stream_app f n a b :
  xor_stream f n (a ++ b) = xor_stream f n a ++ xor_stream f (n + length a) b.
Proof.
  unfold xor_stream. rewrite imap_app. f_equal. apply imap_ext. intros j x _. simpl.
  f_equal. f_equal. lia.
Qed.

Lemma xor_stream_bytes f n buf :
  (∀ j, is_word 8 (f j)) → is_bytes buf → is_bytes (xor_stream f n buf).
Proof.
  intros Hf Hb. revert n. induction Hb as [|x buf Hx _ IH]; intros n; [constructor|].
  change (x :: buf) with ([x] ++ buf). rewrite xor_stream_app. constructor; [by words|apply IH].
Qed.

Lemma xor_stream_zero f n m :
  xor_stream f n (replicate m 0) = map f (seq n m).
Proof.
  apply list_eq. intros j. unfold xor_stream. rewrite list_lookup_imap, list_lookup_fmap.
  destruct (decide (j < m)%nat).
  - rewrite lookup_replicate_2, lookup_seq_lt by done. simpl. by rewrite Z.lxor_0_l.
  - rewrite lookup_seq_ge by lia.
    by assert (replicate m 0 !! j = None) as -> by (apply lookup_replicate_None; lia).
Qed.

Section StreamClient.
Context {St : Type} {CT : CipherType St} {SS : StreamSpec St}.

(** a stream cipher is a cipher that does not lengthen its data *)
#[global] Instance stream_cipher_spec : CipherSpec St.
Proof.
  refine {| cipher_usable := stream_usable; cipher_key_mem := stream_key_mem;
            cipher_iv_mem := stream_iv_mem; cipher_keyed st _ k := stream_keyed st k;
            cipher_ready st _ k iv := stream_at st k iv 0;
            cipher_enc k iv p := xor_stream (stream_octet k iv) 0 p;
            cipher_key_ok := stream_key_ok; cipher_max := stream_max; cipher_grow := 0 |}.
  - apply stream_alloc_law.
  - apply stream_dealloc_law.
  - apply stream_key_array.
  - intros. by apply stream_init_law.
  - intros. by apply stream_set_iv_law.
  - done.
  - intros. autorewrite with lens. lia.
  - intros. apply xor_stream_bytes; [|done]. intros. by apply stream_octet_range.
  - intros st k iv p rest Ha Hb Hp _.
    destruct (stream_encrypt_law st k iv 0 p rest Ha Hb) as (st' & -> & H'); [lia|].
    exists st', rest. rewrite !length_app, length_xor_stream. apply is_bytes_app in Hb as [_ Hr].
    split_and!; [done|by eapply stream_keyed_usable, stream_at_keyed|done|done].
  - intros st k iv p rest Ha Hb Hp Hl. rewrite stream_decrypt_law.
    destruct (stream_encrypt_law st k iv 0 (xor_stream (stream_octet k iv) 0 p) rest Ha Hb)
      as (st' & -> & H'); [autorewrite with lens; lia|].
    exists st', rest. rewrite xor_stream_involutive. autorewrite with lens.
    split_and!; [done|by eapply stream_keyed_usable, stream_at_keyed| |].
    + by apply is_bytes_app in Hb as [_ ?].
    + rewrite !length_app. by autorewrite with lens.
Defined.

(** [cipher_output] writes the next octets of the keystream *)
Lemma cipher_output_spec c k iv n len buffer :
  stream_at (cipher_state c) k iv n → is_bytes buffer →
  0 < len <= Z.of_nat (length buffer) → len < 2 ^ 32 → Z.of_nat n + len <= stream_max →
  ∃ c', cipher_output c buffer len =
      Some (err_status_ok, c', map (stream_octet k iv) (seq n (Z.to_nat len)) ++
                               drop (Z.to_nat len) buffer) ∧
    cipher_key_len c' = cipher_key_len c ∧ stream_at (cipher_state c') k iv (n + Z.to_nat len).
Proof.
  intros Ha Hb Hl Hw Hm. unfold cipher_output.
  rewrite zeroed by (lia || (intros ->; simpl in *; lia)). replace (Z.max 1 len) with len by lia.
  cbn [mbind option_bind]. unfold cipher_encrypt. rewrite wrap_small by (unfold is_word; lia).
  destruct (stream_encrypt_law (cipher_state c) k iv n (replicate (Z.to_nat len) 0)
    (drop (Z.to_nat len) buffer) Ha) as (st' & E & H');
    [apply is_bytes_app; by words|rewrite length_replicate; lia|].
  rewrite length_replicate in E, H'. rewrite Z2Nat.id in E by lia. 
  rewrite E. cbn [mbind option_bind].
  eexists. split_and!; [by rewrite xor_stream_zero|done|done].
Qed.

End StreamClient.

(** ** The null cipher *)

Module NullCipher.

(** [null_cipher_ctx_t] holds nothing the code reads *)
Definition null_cipher_ctx_t := unit.

Definition null_cipher_alloc (mem : option null_cipher_ctx_t) (ref_count key_len : Z)
  : err_status_t * option (cipher_t null_cipher_ctx_t) * Z :=
  match mem with
  | None => (err_status_alloc_fail, None, ref_count)
  | Some block => (err_status_ok, Some (mk_cipher block key_len), ref_count + 1)
  end.

Definition null_cipher_dealloc (c : cipher_t null_cipher_ctx_t) (ref_count : Z)
  : err_status_t * cipher_t null_cipher_ctx_t * Z :=
  (err_status_ok, mk_cipher tt 0, ref_count - 1).

Definition null_cipher_init (ctx : null_cipher_ctx_t) (key : list Z)
  : option (err_status_t * null_cipher_ctx_t) := Some (err_status_ok, ctx).

Definition null_cipher_set_iv (c : null_cipher_ctx_t) (iv : list Z)
  : option (err_status_t * null_cipher_ctx_t) := Some (err_status_ok, c).

Definition null_cipher_encrypt (c : null_cipher_ctx_t) (buf : list Z) (bytes_to_encr : Z)
  : option (err_status_t * null_cipher_ctx_t * list Z * Z) :=
  Some (err_status_ok, c, buf, bytes_to_encr).

Definition null_cipher_test_0 : cipher_test_case_t := mk_cipher_test 0 [] [] 0 [] 0 [].

#[global] Instance null_cipher : CipherType null_cipher_ctx_t := {
  cipher_alloc_fn := null_cipher_alloc;
  cipher_dealloc_fn := null_cipher_dealloc;
  cipher_init_fn st key _ := null_cipher_init st key;
  cipher_encrypt_fn := null_cipher_encrypt;
  cipher_decrypt_fn := null_cipher_encrypt;
  cipher_set_iv_fn := null_cipher_set_iv;
  cipher_test_data := [null_cipher_test_0] }.

#[global] Instance null_cipher_stream : StreamSpec null_cipher_ctx_t.
Proof.
  refine {| stream_usable _ := True; stream_key_mem _ := True; stream_iv_mem _ := True;
            stream_key_ok _ := True; stream_keyed _ _ := True; stream_at _ _ _ _ := True;
            stream_octet _ _ _ := 0; stream_max := 2 ^ 32 - 1 |}; try (intros; done).
  - intros c ref. by eexists.
  - intros st key dir _ _. by eexists.
  - intros st k iv _ _. by eexists.
  - intros st k iv n p rest _ _ _. exists st. split; [|done].
    unfold cipher_encrypt_fn. simpl. unfold null_cipher_encrypt. do 4 f_equal.
    unfold xor_stream. apply list_eq. intros j. rewrite list_lookup_imap.
    destruct (p !! j); simpl; [|done]. by rewrite Z.lxor_0_r.
Defined.

End NullCipher.
