(* ===== verification/Gf28.v ===== *)
(** * The field GF(2^8)

    Models [crypto/include/gf2_8.h] and [crypto/math/gf2_8.c]: the arithmetic
    of octets as polynomials over GF(2) modulo x^8 + x^4 + x^3 + x + 1, which
    the AES key schedule and tables are built from.  The reference definition
    multiplies the polynomials and then reduces the product. *)

From S2P Require Import Prelude Datatypes.

(** ** The code *)

Definition gf2_8_field_polynomial : Z := 0x1B.

Definition gf2_8_shift (z : Z) : Z :=
  if (z & 128) =? 0 then u8 (Z.shiftl z 1)
  else u8 (Z.shiftl z 1 ^^ gf2_8_field_polynomial).

(** [if (y & bit) z ^= x;] *)
Definition gf2_8_cond (x y bit z : Z) : Z := if (y & bit) =? 0 then z else z ^^ x.

Definition gf2_8_multiply (x y : Z) : Z :=
  let z := 0 in
  let z := gf2_8_cond x y 1 z in let x := gf2_8_shift x in
  let z := gf2_8_cond x y 2 z in let x := gf2_8_shift x in
  let z := gf2_8_cond x y 4 z in let x := gf2_8_shift x in
  let z := gf2_8_cond x y 8 z in let x := gf2_8_shift x in
  let z := gf2_8_cond x y 16 z in let x := gf2_8_shift x in
  let z := gf2_8_cond x y 32 z in let x := gf2_8_shift x in
  let z := gf2_8_cond x y 64 z in let x := gf2_8_shift x in
  gf2_8_cond x y 128 z.

(** the search of [gf2_8_compute_inverse] from [i] on, [n] candidates left *)
Fixpoint gf2_8_inverse_search (n : nat) (i x : Z) : Z :=
  match n with
  | O => 0
  | S n => if gf2_8_multiply i x =? 1 then i else gf2_8_inverse_search n (i + 1) x
  end.

Definition gf2_8_compute_inverse (x : Z) : Z :=
  if x =? 0 then 0 else gf2_8_inverse_search 256 0 x.

(** ** The reference definition *)

(** product of polynomials: the sum of the shifted copies of [x] *)
Definition poly_mul (x y : Z) : Z :=
  foldr (λ i acc, acc ^^ (if Z.testbit y i then Z.shiftl x i else 0)) 0 [7; 6; 5; 4; 3; 2; 1; 0].

(** remainder modulo x^8 + x^4 + x^3 + x + 1 of a polynomial of degree at most 14 *)
Definition poly_step (i r : Z) : Z :=
  if Z.testbit r i then r ^^ Z.shiftl 0x11b (i - 8) else r.

Definition poly_mod (r : Z) : Z := foldl (λ r i, poly_step i r) r [14; 13; 12; 11; 10; 9; 8].

(** ** Linearity *)

(** a function that is additive for exclusive or *)
Definition additive (f : Z → Z) : Prop :=
  ∀ x y, is_word 8 x → is_word 8 y → f (x ^^ y) = f x ^^ f y.

Lemma additive_0 f : additive f → f 0 = 0.
Proof.
  intros Hf. pose proof (Hf 0 0 ltac:(by words) ltac:(by words)) as E.
  rewrite Z.lxor_nilpotent in E. rewrite E at 1. apply Z.lxor_nilpotent.
Qed.

Lemma octet_bits x :
  is_word 8 x →
  x = (x & 1) ^^ (x & 2) ^^ (x & 4) ^^ (x & 8) ^^ (x & 16) ^^ (x & 32) ^^ (x & 64) ^^ (x & 128).
Proof.
  intros Hx. apply Z.eqb_eq. revert x Hx. apply octet_forall. by vm_compute.
Qed.

Lemma land_pow2 x i : 0 <= i → x & 2 ^ i = if Z.testbit x i then 2 ^ i else 0.
Proof.
  intros Hi. apply Z.bits_inj'. intros n Hn. rewrite Z.land_spec, Z.pow2_bits_eqb by lia.
  destruct (Z.eqb_spec i n) as [<-|Hne]; destruct (Z.testbit x i) eqn:E;
    rewrite ?E, ?andb_false_r, ?Z.testbit_0_l, ?Z.pow2_bits_eqb, ?Z.eqb_refl by lia; try done.
  by destruct (Z.eqb_spec i n).
Qed.

(** additive functions that agree on the powers of two agree *)
Lemma additive_ext f g :
  additive f → additive g →
  forallb (λ i, f (2 ^ i) =? g (2 ^ i)) [0; 1; 2; 3; 4; 5; 6; 7] = true →
  ∀ x, is_word 8 x → f x = g x.
Proof.
  intros Hf Hg Hb x Hx. rewrite forallb_forall in Hb.
  assert (∀ i, In i [0; 1; 2; 3; 4; 5; 6; 7] → f (x & 2 ^ i) = g (x & 2 ^ i)) as Hbit.
  { intros i Hi. rewrite land_pow2.
    - destruct (Z.testbit x i); [by apply Z.eqb_eq, Hb|]. by rewrite !additive_0.
    - simpl in Hi. lia. }
  rewrite (octet_bits x Hx). rewrite !Hf, !Hg by (repeat first [apply word_lxor|apply word_land]; done || lia).
  f_equal; [|exact (Hbit 7 ltac:(simpl; tauto))]. f_equal; [|exact (Hbit 6 ltac:(simpl; tauto))].
  f_equal; [|exact (Hbit 5 ltac:(simpl; tauto))]. f_equal; [|exact (Hbit 4 ltac:(simpl; tauto))].
  f_equal; [|exact (Hbit 3 ltac:(simpl; tauto))]. f_equal; [|exact (Hbit 2 ltac:(simpl; tauto))].
  f_equal; [exact (Hbit 0 ltac:(simpl; tauto))|exact (Hbit 1 ltac:(simpl; tauto))].
Qed.

Lemma gf2_8_shift_range x : is_word 8 (gf2_8_shift x).
Proof. unfold gf2_8_shift. destruct (_ =? _); by words. Qed.

Lemma land128 x : ((x & 128) =? 0) = negb (Z.testbit x 7).
Proof.
  change 128 with (2 ^ 7). rewrite land_pow2 by lia.
  by destruct (Z.testbit x 7).
Qed.

Lemma gf2_8_shift_additive : additive gf2_8_shift.
Proof.
  intros x y Hx Hy. unfold gf2_8_shift. rewrite !land128, Z.lxor_spec.
  destruct (Z.testbit x 7), (Z.testbit y 7); simpl; unfold gf2_8_field_polynomial; bitwise.
Qed.

#[export] Hint Resolve gf2_8_shift_range gf2_8_shift_additive : words.

Lemma additive_compose f g :
  additive f → additive g → (∀ x, is_word 8 x → is_word 8 (g x)) → additive (λ x, f (g x)).
Proof. intros Hf Hg Hr x y Hx Hy. rewrite Hg by done. auto. Qed.

Lemma additive_xor f g : additive f → additive g → additive (λ x, f x ^^ g x).
Proof.
  intros Hf Hg x y Hx Hy. rewrite Hf, Hg by done.
  rewrite !Z.lxor_assoc. f_equal. rewrite <-!Z.lxor_assoc. f_equal. apply Z.lxor_comm.
Qed.

Lemma additive_id : additive (λ x, x).
Proof. done. Qed.

Lemma additive_zero : additive (λ _, 0).
Proof. done. Qed.

Lemma additive_if (b : bool) f g :
  additive f → additive g → additive (λ x, if b then f x else g x).
Proof. by destruct b. Qed.

Lemma additive_iter n : additive (Nat.iter n gf2_8_shift).
Proof.
  induction n as [|n IH]; [done|]. apply (additive_compose gf2_8_shift); [by words|done|].
  intros x Hx. destruct n; [done|]. apply gf2_8_shift_range.
Qed.

(** product with a constant is additive *)
Lemma gf2_8_multiply_additive y : additive (λ x, gf2_8_multiply x y).
Proof.
  unfold gf2_8_multiply, gf2_8_cond.
  repeat first
    [ apply additive_if | apply additive_xor | apply additive_id | apply additive_zero
    | apply (additive_iter 1) | apply (additive_iter 2) | apply (additive_iter 3)
    | apply (additive_iter 4) | apply (additive_iter 5) | apply (additive_iter 6)
    | apply (additive_iter 7) ].
Qed.

Lemma gf2_8_multiply_range x y : is_word 8 x → is_word 8 (gf2_8_multiply x y).
Proof.
  intros Hx. unfold gf2_8_multiply, gf2_8_cond.
  repeat match goal with |- context [if ?b then _ else _] => destruct b end; by words.
Qed.

Lemma poly_step_additive i r s : poly_step i (r ^^ s) = poly_step i r ^^ poly_step i s.
Proof.
  unfold poly_step. rewrite Z.lxor_spec. generalize (Z.shiftl 0x11b (i - 8)). intros m.
  destruct (Z.testbit r i), (Z.testbit s i); simpl; bitwise.
Qed.

Lemma poly_mod_additive r s : poly_mod (r ^^ s) = poly_mod r ^^ poly_mod s.
Proof. unfold poly_mod. cbn [foldl]. by rewrite !poly_step_additive. Qed.

Lemma poly_mul_additive y : additive (λ x, poly_mul x y).
Proof.
  unfold poly_mul. cbn [foldr].
  repeat first [apply additive_xor | apply additive_if | apply additive_zero].
  all: intros a b _ _; apply Z.bits_inj'; intros n Hn; bitwise_core.
Qed.

(** ** Properties *)

Lemma multiply_poly x y :
  is_word 8 x → is_word 8 y → gf2_8_multiply x y = poly_mod (poly_mul x y).
Proof.
  intros Hx Hy. revert x Hx.
  apply (additive_ext (λ x, gf2_8_multiply x y) (λ x, poly_mod (poly_mul x y))).
  - apply gf2_8_multiply_additive.
  - intros a b Ha Hb. by rewrite poly_mul_additive, poly_mod_additive.
  - revert y Hy. apply octet_forall. by vm_compute.
Qed.

(** the inverses, as a table of candidates for the search *)
Definition inverse_candidates : list Z := [
  0; 1; 141; 246; 203; 82; 123; 209; 232; 79; 41; 192; 176; 225; 229; 199;
  116; 180; 170; 75; 153; 43; 96; 95; 88; 63; 253; 204; 255; 64; 238; 178;
  58; 110; 90; 241; 85; 77; 168; 201; 193; 10; 152; 21; 48; 68; 162; 194;
  44; 69; 146; 108; 243; 57; 102; 66; 242; 53; 32; 111; 119; 187; 89; 25;
  29; 254; 55; 103; 45; 49; 245; 105; 167; 100; 171; 19; 84; 37; 233; 9;
  237; 92; 5; 202; 76; 36; 135; 191; 24; 62; 34; 240; 81; 236; 97; 23;
  22; 94; 175; 211; 73; 166; 54; 67; 244; 71; 145; 223; 51; 147; 33; 59;
  121; 183; 151; 133; 16; 181; 186; 60; 182; 112; 208; 6; 161; 250; 129; 130;
  131; 126; 127; 128; 150; 115; 190; 86; 155; 158; 149; 217; 247; 2; 185; 164;
  222; 106; 50; 109; 216; 138; 132; 114; 42; 20; 159; 136; 249; 220; 137; 154;
  251; 124; 46; 195; 143; 184; 101; 72; 38; 200; 18; 74; 206; 231; 210; 98;
  12; 224; 31; 239; 17; 117; 120; 113; 165; 142; 118; 61; 189; 188; 134; 87;
  11; 40; 47; 163; 218; 212; 228; 15; 169; 39; 83; 4; 27; 252; 172; 230;
  122; 7; 174; 99; 197; 219; 226; 234; 148; 139; 196; 213; 157; 248; 144; 107;
  177; 13; 214; 235; 198; 14; 207; 173; 8; 78; 215; 227; 93; 80; 30; 179;
  91; 35; 56; 52; 104; 70; 3; 140; 221; 156; 125; 160; 205; 26; 65; 28].

Lemma inverse_exists x :
  is_word 8 x → x ≠ 0 → ∃ j, 0 <= j < 256 ∧ gf2_8_multiply j x = 1.
Proof.
  intros Hx Hne. exists (nth (Z.to_nat x) inverse_candidates 0).
  pose proof (octet_forall (λ x, (x =? 0) || ((0 <=? nth (Z.to_nat x) inverse_candidates 0) &&
    (nth (Z.to_nat x) inverse_candidates 0 <? 256) &&
    (gf2_8_multiply (nth (Z.to_nat x) inverse_candidates 0) x =? 1)))
    ltac:(by vm_compute) x Hx) as Hb. cbv beta in Hb. lia.
Qed.

Lemma inverse_search_finds n i x j :
  i <= j < i + Z.of_nat n → gf2_8_multiply j x = 1 →
  let r := gf2_8_inverse_search n i x in
  i <= r < i + Z.of_nat n ∧ gf2_8_multiply r x = 1.
Proof.
  revert i. induction n as [|n IH]; intros i Hj Hm; [lia|]. cbn [gf2_8_inverse_search].
  destruct (Z.eqb_spec (gf2_8_multiply i x) 1) as [E|E]; [split; [lia|done]|].
  destruct (decide (i = j)) as [->|]; [done|].
  destruct (IH (i + 1)) as [H1 H2]; [lia|done|]. split; [lia|done].
Qed.

(** the code implements the field: on octets [gf2_8_multiply] is the
    product of polynomials over GF(2) reduced modulo x^8 + x^4 + x^3 + x + 1, and
    [gf2_8_compute_inverse] terminates with a multiplicative inverse of every
    octet but zero, which it maps to zero. *)
Theorem gf2_8_field x y :
  is_word 8 x → is_word 8 y →
  gf2_8_multiply x y = poly_mod (poly_mul x y) ∧
  is_word 8 (gf2_8_compute_inverse x) ∧
  (if decide (x = 0) then gf2_8_compute_inverse x = 0
   else gf2_8_multiply (gf2_8_compute_inverse x) x = 1).
Proof.
  intros Hx Hy. split; [by apply multiply_poly|]. unfold gf2_8_compute_inverse.
  destruct (Z.eqb_spec x 0) as [->|Hne]; [by rewrite decide_True|]. rewrite decide_False by done.
  destruct (inverse_exists x Hx Hne) as (j & Hj & Hm).
  destruct (inverse_search_finds 256 0 x j Hj Hm) as [Hr Hi]. split; [|done].
  unfold is_word. lia.
Qed.

Lemma gf2_8_field_witness :
  gf2_8_multiply 0x57 0x83 = 0xc1 ∧ gf2_8_compute_inverse 0x53 = 0xca.
Proof.
  destruct (gf2_8_field 0x57 0x83) as (E & _ & _); [unfold is_word; lia..|].
  split; [rewrite E|]; by vm_compute.
Defined.
