(* ===== verification/Aes.v ===== *)
(** * AES-128

    Models [crypto/cipher/aes.c] in the two configurations its build selects:
    [CPU_CISC] on little-endian hosts and [CPU_RISC] on big-endian ones (the
    definitions with the suffix [_risc]).  A [v128_t] is the list of its four
    [v32] words; the [v8] view depends on the byte order of the host, so the
    functions that use both take it as the argument [e].

    The reference definition, [AesSpec], is FIPS 197 on blocks of sixteen
    octets, with the S-box built from inversion in GF(2^8). *)

From S2P Require Import Prelude Datatypes Gf28 AesTables.

(** ** Reference definition *)

Module AesSpec.

Definition affine (b : Z) : Z :=
  let rot k := u8 (Z.shiftl b k) ||| (b >> (8 - k)) in
  b ^^ rot 1 ^^ rot 2 ^^ rot 3 ^^ rot 4 ^^ 0x63.

Definition inv_affine (b : Z) : Z :=
  let rot k := u8 (Z.shiftl b k) ||| (b >> (8 - k)) in
  rot 1 ^^ rot 3 ^^ rot 6 ^^ 0x05.

(** product in GF(2^8) *)
Definition gmul (c x : Z) : Z := poly_mod (poly_mul x c).

(** the multiplicative inverse, zero for zero: x^254 *)
Definition inverse (x : Z) : Z :=
  let x2 := gmul x x in let x4 := gmul x2 x2 in let x8 := gmul x4 x4 in
  let x16 := gmul x8 x8 in let x32 := gmul x16 x16 in let x64 := gmul x32 x32 in
  let x128 := gmul x64 x64 in
  gmul x2 (gmul x4 (gmul x8 (gmul x16 (gmul x32 (gmul x64 x128))))).

Definition sbox (x : Z) : Z := affine (inverse x).
Definition inv_sbox (x : Z) : Z := inverse (inv_affine x).

Definition sub_bytes (s : list Z) : list Z := map sbox s.
Definition inv_sub_bytes (s : list Z) : list Z := map inv_sbox s.

(** the octets of a block are its columns, one after the other *)
Definition shift_rows (s : list Z) : list Z :=
  match s with
  | [s0; s1; s2; s3; s4; s5; s6; s7; s8; s9; s10; s11; s12; s13; s14; s15] =>
      [s0; s5; s10; s15; s4; s9; s14; s3; s8; s13; s2; s7; s12; s1; s6; s11]
  | _ => s
  end.

Definition inv_shift_rows (s : list Z) : list Z :=
  match s with
  | [s0; s1; s2; s3; s4; s5; s6; s7; s8; s9; s10; s11; s12; s13; s14; s15] =>
      [s0; s13; s10; s7; s4; s1; s14; s11; s8; s5; s2; s15; s12; s9; s6; s3]
  | _ => s
  end.

Definition mix_column (a b c d : Z) : list Z :=
  [gmul 2 a ^^ gmul 3 b ^^ c ^^ d; a ^^ gmul 2 b ^^ gmul 3 c ^^ d;
   a ^^ b ^^ gmul 2 c ^^ gmul 3 d; gmul 3 a ^^ b ^^ c ^^ gmul 2 d].

Definition inv_mix_column (a b c d : Z) : list Z :=
  [gmul 14 a ^^ gmul 11 b ^^ gmul 13 c ^^ gmul 9 d;
   gmul 9 a ^^ gmul 14 b ^^ gmul 11 c ^^ gmul 13 d;
   gmul 13 a ^^ gmul 9 b ^^ gmul 14 c ^^ gmul 11 d;
   gmul 11 a ^^ gmul 13 b ^^ gmul 9 c ^^ gmul 14 d].

Fixpoint on_columns (f : Z → Z → Z → Z → list Z) (s : list Z) : list Z :=
  match s with
  | a :: b :: c :: d :: s => f a b c d ++ on_columns f s
  | _ => []
  end.

Definition mix_columns : list Z → list Z := on_columns mix_column.
Definition inv_mix_columns : list Z → list Z := on_columns inv_mix_column.

Definition round (s k : list Z) : list Z := xor_bytes (mix_columns (shift_rows (sub_bytes s))) k.
Definition final_round (s k : list Z) : list Z := xor_bytes (shift_rows (sub_bytes s)) k.

(** [cipher ks s]: the round keys [ks], first to last *)
Fixpoint rounds (ks : list (list Z)) (s : list Z) : list Z :=
  match ks with
  | [] => s
  | [k] => final_round s k
  | k :: ks => rounds ks (round s k)
  end.

Definition cipher (ks : list (list Z)) (s : list Z) : list Z :=
  match ks with
  | [] => s
  | k :: ks => rounds ks (xor_bytes s k)
  end.

(** the inverse cipher (FIPS 197, 5.3), as the reversal of each step *)
Definition inv_round (s k : list Z) : list Z :=
  inv_sub_bytes (inv_shift_rows (inv_mix_columns (xor_bytes s k))).
Definition inv_final_round (s k : list Z) : list Z :=
  inv_sub_bytes (inv_shift_rows (xor_bytes s k)).

Fixpoint inv_rounds (ks : list (list Z)) (s : list Z) : list Z :=
  match ks with
  | [] => s
  | [k] => inv_final_round s k
  | k :: ks => inv_round (inv_rounds ks s) k
  end.

Definition inv_cipher (ks : list (list Z)) (s : list Z) : list Z :=
  match ks with
  | [] => s
  | k :: ks => xor_bytes (inv_rounds ks s) k
  end.

(** one round key from the previous one *)
Definition next_key (rcon : Z) (k : list Z) : list Z :=
  match k with
  | [k0; k1; k2; k3; k4; k5; k6; k7; k8; k9; k10; k11; k12; k13; k14; k15] =>
      let w0 := xor_bytes [sbox k13 ^^ rcon; sbox k14; sbox k15; sbox k12] [k0; k1; k2; k3] in
      let w1 := xor_bytes w0 [k4; k5; k6; k7] in
      let w2 := xor_bytes w1 [k8; k9; k10; k11] in
      let w3 := xor_bytes w2 [k12; k13; k14; k15] in
      w0 ++ w1 ++ w2 ++ w3
  | _ => k
  end.

(** the key and the round keys for the constants [rcons] *)
Fixpoint expand (rcons : list Z) (k : list Z) : list (list Z) :=
  match rcons with
  | [] => [k]
  | r :: rcons => k :: expand rcons (next_key r k)
  end.

Definition key_expansion (k : list Z) : list (list Z) :=
  expand [0x01; 0x02; 0x04; 0x08; 0x10; 0x20; 0x40; 0x80; 0x1b; 0x36] k.

End AesSpec.

(** ** Octets and words of a block *)

Inductive endian := little | big.

Definition word_of (e : endian) (l : list Z) : Z :=
  match e with little => le_val l | big => be_val l end.
Definition octets_of (e : endian) (w : Z) : list Z :=
  match e with little => le_bytes 4 w | big => be_bytes 4 w end.

(** the [v8] view of a block, and the block with a given [v8] view *)
Definition v8 (e : endian) (x : v128_t) : list Z := concat (map (octets_of e) x).
Definition of_v8 (e : endian) (o : list Z) : v128_t :=
  [word_of e (take 4 o); word_of e (take 4 (drop 4 o));
   word_of e (take 4 (drop 8 o)); word_of e (take 4 (drop 12 o))].

(** ** The key schedule *)

(** [o[dst] = table[o[src]]] *)
Definition sub_at (table o : list Z) (dst src : Z) : option (list Z) :=
  x ← aget o src; y ← aget table x; aset o dst y.

(** round key [i] from round key [i - 1], with the round constant [rc] *)
Definition aes_next_round_key (e : endian) (prev : v128_t) (rc : Z) : option v128_t :=
  let p := v8 e prev in
  x ← aget p 13; b0 ← aget aes_sbox x;
  x ← aget p 14; b1 ← aget aes_sbox x;
  x ← aget p 15; b2 ← aget aes_sbox x;
  x ← aget p 12; b3 ← aget aes_sbox x;
  p0 ← aget prev 0; p1 ← aget prev 1; p2 ← aget prev 2; p3 ← aget prev 3;
  let w0 := word_of e [b0 ^^ rc; b1; b2; b3] ^^ p0 in
  let w1 := w0 ^^ p1 in
  let w2 := w1 ^^ p2 in
  let w3 := w2 ^^ p3 in
  Some [w0; w1; w2; w3].

(** the loop [for (i=1; i < 11; i++)], [n] iterations left *)
Fixpoint aes_expand_loop (e : endian) (n : nat) (rc : Z) (prev : v128_t)
  : option (list v128_t) :=
  match n with
  | O => Some [prev]
  | S n =>
      next ← aes_next_round_key e prev rc;
      rest ← aes_expand_loop e n (gf2_8_shift rc) next;
      Some (prev :: rest)
  end.

Definition aes_expand_encryption_key (e : endian) (key : v128_t) : option (list v128_t) :=
  aes_expand_loop e 10 1 key.

(** [A[x] ^ B[y] ^ C[z] ^ D[w]] *)
Definition lookup4 (A B C D : list Z) (x y z w : Z) : option Z :=
  a ← aget A x; b ← aget B y; c ← aget C z; d ← aget D w; Some (a ^^ b ^^ c ^^ d).

(** the inverse mixColumn of a word of a round key, through the S-box
    ([CPU_CISC]) *)
Definition inv_mix_word (o : list Z) (i : Z) : option Z :=
  x ← aget o i; y ← aget o (i + 1); z ← aget o (i + 2); w ← aget o (i + 3);
  x ← aget aes_sbox x; y ← aget aes_sbox y; z ← aget aes_sbox z; w ← aget aes_sbox w;
  lookup4 U0 U1 U2 U3 x y z w.

Definition inv_mix_key (k : v128_t) : option v128_t :=
  let o := v8 little k in
  c0 ← inv_mix_word o 0; c1 ← inv_mix_word o 4; c2 ← inv_mix_word o 8; c3 ← inv_mix_word o 12;
  Some [c0; c1; c2; c3].

(** the same with word operations and the table [T4] ([CPU_RISC]) *)
Definition inv_mix_word_risc (tmp : Z) : option Z :=
  x ← aget T4 (tmp >> 24); y ← aget T4 ((tmp >> 16) & 0xff);
  z ← aget T4 ((tmp >> 8) & 0xff); w ← aget T4 (tmp & 0xff);
  lookup4 U0_be U1_be U2_be U3_be (x & 0xff) (y & 0xff) (z & 0xff) (w & 0xff).

Definition inv_mix_key_risc (k : v128_t) : option v128_t := mapM inv_mix_word_risc k.

Definition inv_mix_key_on (e : endian) : v128_t → option v128_t :=
  match e with little => inv_mix_key | big => inv_mix_key_risc end.

(** the round keys in reverse order, the inner ones mixed *)
Definition aes_expand_decryption_key (e : endian) (key : v128_t) : option (list v128_t) :=
  ks ← aes_expand_encryption_key e key;
  ks ← for_range 0 5 (λ i ks,
    tmp ← aget ks (10 - i); ki ← aget ks i;
    ks ← aset ks (10 - i) ki; aset ks i tmp) ks;
  for_range 1 10 (λ i ks,
    k ← aget ks i; k ← inv_mix_key_on e k; aset ks i k) ks.

(** ** The rounds, [CPU_CISC] *)

(** [column ^ round_key->v32[j]] for the octets [i0], [i1], [i2], [i3] of [o] *)
Definition column (A B C D : list Z) (o : list Z) (i0 i1 i2 i3 : Z) : option Z :=
  x ← aget o i0; y ← aget o i1; z ← aget o i2; w ← aget o i3; lookup4 A B C D x y z w.

(** [state->v32[j] = column_j ^ round_key->v32[j]] *)
Definition add_key (columns round_key : v128_t) : option v128_t :=
  c0 ← aget columns 0; c1 ← aget columns 1; c2 ← aget columns 2; c3 ← aget columns 3;
  k0 ← aget round_key 0; k1 ← aget round_key 1; k2 ← aget round_key 2; k3 ← aget round_key 3;
  Some [c0 ^^ k0; c1 ^^ k1; c2 ^^ k2; c3 ^^ k3].

Definition aes_round (state round_key : v128_t) : option v128_t :=
  let o := v8 little state in
  column0 ← column T0 T1 T2 T3 o 0 5 10 15;
  column1 ← column T0 T1 T2 T3 o 4 9 14 3;
  column2 ← column T0 T1 T2 T3 o 8 13 2 7;
  column3 ← column T0 T1 T2 T3 o 12 1 6 11;
  add_key [column0; column1; column2; column3] round_key.

Definition aes_inv_round (state round_key : v128_t) : option v128_t :=
  let o := v8 little state in
  column0 ← column U0 U1 U2 U3 o 0 13 10 7;
  column1 ← column U0 U1 U2 U3 o 4 1 14 11;
  column2 ← column U0 U1 U2 U3 o 8 5 2 15;
  column3 ← column U0 U1 U2 U3 o 12 9 6 3;
  add_key [column0; column1; column2; column3] round_key.

(** [tmp = table[o[src]]] *)
Definition sub_get (table o : list Z) (src : Z) : option Z := x ← aget o src; aget table x.

Definition aes_final_round (state round_key : v128_t) : option v128_t :=
  let o := v8 little state in
  (* first row - no shift *)
  o ← sub_at aes_sbox o 0 0;
  o ← sub_at aes_sbox o 4 4;
  o ← sub_at aes_sbox o 8 8;
  o ← sub_at aes_sbox o 12 12;
  (* second row - shift one left *)
  tmp ← sub_get aes_sbox o 1;
  o ← sub_at aes_sbox o 1 5;
  o ← sub_at aes_sbox o 5 9;
  o ← sub_at aes_sbox o 9 13;
  o ← aset o 13 tmp;
  (* third row - shift two left *)
  tmp ← sub_get aes_sbox o 10;
  o ← sub_at aes_sbox o 10 2;
  o ← aset o 2 tmp;
  tmp ← sub_get aes_sbox o 14;
  o ← sub_at aes_sbox o 14 6;
  o ← aset o 6 tmp;
  (* fourth row - shift three left *)
  tmp ← sub_get aes_sbox o 15;
  o ← sub_at aes_sbox o 15 11;
  o ← sub_at aes_sbox o 11 7;
  o ← sub_at aes_sbox o 7 3;
  o ← aset o 3 tmp;
  Some (v128_xor (of_v8 little o) round_key).

Definition aes_inv_final_round (state round_key : v128_t) : option v128_t :=
  let o := v8 little state in
  (* first row - no shift *)
  o ← sub_at aes_inv_sbox o 0 0;
  o ← sub_at aes_inv_sbox o 4 4;
  o ← sub_at aes_inv_sbox o 8 8;
  o ← sub_at aes_inv_sbox o 12 12;
  (* second row - shift one right *)
  tmp ← sub_get aes_inv_sbox o 13;
  o ← sub_at aes_inv_sbox o 13 9;
  o ← sub_at aes_inv_sbox o 9 5;
  o ← sub_at aes_inv_sbox o 5 1;
  o ← aset o 1 tmp;
  (* third row - shift two right *)
  tmp ← sub_get aes_inv_sbox o 2;
  o ← sub_at aes_inv_sbox o 2 10;
  o ← aset o 10 tmp;
  tmp ← sub_get aes_inv_sbox o 6;
  o ← sub_at aes_inv_sbox o 6 14;
  o ← aset o 14 tmp;
  (* fourth row - shift three right *)
  tmp ← sub_get aes_inv_sbox o 3;
  o ← sub_at aes_inv_sbox o 3 7;
  o ← sub_at aes_inv_sbox o 7 11;
  o ← sub_at aes_inv_sbox o 11 15;
  o ← aset o 15 tmp;
  Some (v128_xor (of_v8 little o) round_key).

(** ** The rounds, [CPU_RISC] with [WORDS_BIGENDIAN] *)

(** [T0[a >> 24] ^ T1[(b >> 16) & 0xff] ^ T2[(c >> 8) & 0xff] ^ T3[d & 0xff]] *)
Definition column_risc (A B C D : list Z) (state : v128_t) (i j k l : Z) : option Z :=
  a ← aget state i; b ← aget state j; c ← aget state k; d ← aget state l;
  lookup4 A B C D (a >> 24) ((b >> 16) & 0xff) ((c >> 8) & 0xff) (d & 0xff).

Definition aes_round_risc (state round_key : v128_t) : option v128_t :=
  column0 ← column_risc T0_be T1_be T2_be T3_be state 0 1 2 3;
  column1 ← column_risc T0_be T1_be T2_be T3_be state 1 2 3 0;
  column2 ← column_risc T0_be T1_be T2_be T3_be state 2 3 0 1;
  column3 ← column_risc T0_be T1_be T2_be T3_be state 3 0 1 2;
  add_key [column0; column1; column2; column3] round_key.

Definition aes_inv_round_risc (state round_key : v128_t) : option v128_t :=
  column0 ← column_risc U0_be U1_be U2_be U3_be state 0 3 2 1;
  column1 ← column_risc U0_be U1_be U2_be U3_be state 1 0 3 2;
  column2 ← column_risc U0_be U1_be U2_be U3_be state 2 1 0 3;
  column3 ← column_risc U0_be U1_be U2_be U3_be state 3 2 1 0;
  add_key [column0; column1; column2; column3] round_key.

(** ... and the other branch of the conditional, which no supported build compiles
    (configure.in: [CPU_RISC] is for big-endian machines) *)
Definition column_risc_little (A B C D : list Z) (state : v128_t) (i j k l : Z) : option Z :=
  a ← aget state i; b ← aget state j; c ← aget state k; d ← aget state l;
  lookup4 A B C D (a & 0xff) ((b >> 8) & 0xff) ((c >> 16) & 0xff) (d >> 24).

Definition aes_inv_round_risc_little (state round_key : v128_t) : option v128_t :=
  column0 ← column_risc_little U0 U1 U2 U3 state 0 1 2 3;
  column1 ← column_risc_little U0 U1 U2 U3 state 1 2 3 0;
  column2 ← column_risc_little U0 U1 U2 U3 state 2 3 0 1;
  column3 ← column_risc_little U0 U1 U2 U3 state 3 0 1 2;
  add_key [column0; column1; column2; column3] round_key.

(** the columns of the last round: the table holds the substitution in each of
    its octets and the masks select one *)
Definition final_column_risc (A : list Z) (state round_key : v128_t) (n i j k l : Z)
  : option Z :=
  a ← aget state i; b ← aget state j; c ← aget state k; d ← aget state l;
  a ← aget A (a >> 24); b ← aget A ((b >> 16) & 0xff);
  c ← aget A ((c >> 8) & 0xff); d ← aget A (d & 0xff);
  rk ← aget round_key n;
  Some ((a & 0xff000000) ^^ (b & 0x00ff0000) ^^ (c & 0x0000ff00) ^^ (d & 0x000000ff) ^^ rk).

Definition aes_final_round_risc (state round_key : v128_t) : option v128_t :=
  tmp0 ← final_column_risc T4 state round_key 0 0 1 2 3;
  tmp1 ← final_column_risc T4 state round_key 1 1 2 3 0;
  tmp2 ← final_column_risc T4 state round_key 2 2 3 0 1;
  tmp3 ← final_column_risc T4 state round_key 3 3 0 1 2;
  Some [tmp0; tmp1; tmp2; tmp3].

Definition aes_inv_final_round_risc (state round_key : v128_t) : option v128_t :=
  tmp0 ← final_column_risc U4 state round_key 0 0 3 2 1;
  tmp1 ← final_column_risc U4 state round_key 1 1 0 3 2;
  tmp2 ← final_column_risc U4 state round_key 2 2 1 0 3;
  tmp3 ← final_column_risc U4 state round_key 3 3 2 1 0;
  Some [tmp0; tmp1; tmp2; tmp3].

(** ** The cipher *)

Definition aes_round_on (e : endian) : v128_t → v128_t → option v128_t :=
  match e with little => aes_round | big => aes_round_risc end.
Definition aes_final_round_on (e : endian) : v128_t → v128_t → option v128_t :=
  match e with little => aes_final_round | big => aes_final_round_risc end.
Definition aes_inv_round_on (e : endian) : v128_t → v128_t → option v128_t :=
  match e with little => aes_inv_round | big => aes_inv_round_risc end.
Definition aes_inv_final_round_on (e : endian) : v128_t → v128_t → option v128_t :=
  match e with little => aes_inv_final_round | big => aes_inv_final_round_risc end.

Definition aes_encrypt (e : endian) (plaintext : v128_t) (exp_key : list v128_t)
  : option v128_t :=
  k ← aget exp_key 0;
  let s := v128_xor plaintext k in
  k ← aget exp_key 1; s ← aes_round_on e s k;
  k ← aget exp_key 2; s ← aes_round_on e s k;
  k ← aget exp_key 3; s ← aes_round_on e s k;
  k ← aget exp_key 4; s ← aes_round_on e s k;
  k ← aget exp_key 5; s ← aes_round_on e s k;
  k ← aget exp_key 6; s ← aes_round_on e s k;
  k ← aget exp_key 7; s ← aes_round_on e s k;
  k ← aget exp_key 8; s ← aes_round_on e s k;
  k ← aget exp_key 9; s ← aes_round_on e s k;
  k ← aget exp_key 10; aes_final_round_on e s k.

Definition aes_decrypt (e : endian) (plaintext : v128_t) (exp_key : list v128_t)
  : option v128_t :=
  k ← aget exp_key 0;
  let s := v128_xor plaintext k in
  k ← aget exp_key 1; s ← aes_inv_round_on e s k;
  k ← aget exp_key 2; s ← aes_inv_round_on e s k;
  k ← aget exp_key 3; s ← aes_inv_round_on e s k;
  k ← aget exp_key 4; s ← aes_inv_round_on e s k;
  k ← aget exp_key 5; s ← aes_inv_round_on e s k;
  k ← aget exp_key 6; s ← aes_inv_round_on e s k;
  k ← aget exp_key 7; s ← aes_inv_round_on e s k;
  k ← aget exp_key 8; s ← aes_inv_round_on e s k;
  k ← aget exp_key 9; s ← aes_inv_round_on e s k;
  k ← aget exp_key 10; aes_inv_final_round_on e s k.

(** ** The tables *)

Definition S_of (x : Z) : Z := nth (Z.to_nat x) aes_sbox 0.
Definition IS_of (x : Z) : Z := nth (Z.to_nat x) aes_inv_sbox 0.

(** [table_check A f]: the entries of [A] are the values of [f] *)
Definition table_check (A : list Z) (f : Z → Z) : bool :=
  forallb (λ x, match aget A x with Some y => y =? f x | None => false end)
    (map Z.of_nat (seq 0 256)).

Lemma table_get A f x : table_check A f = true → is_word 8 x → aget A x = Some (f x).
Proof.
  intros Hc Hx. pose proof (octet_forall _ Hc x Hx) as E. cbv beta in E.
  destruct (aget A x) as [y|]; [|done]. f_equal. lia.
Qed.

Lemma S_of_spec x : is_word 8 x → S_of x = AesSpec.sbox x.
Proof. intros Hx. apply Z.eqb_eq. revert x Hx. apply octet_forall. by vm_compute. Qed.

Lemma IS_of_spec x : is_word 8 x → IS_of x = AesSpec.inv_sbox x.
Proof. intros Hx. apply Z.eqb_eq. revert x Hx. apply octet_forall. by vm_compute. Qed.

Lemma S_of_range x : is_word 8 x → is_word 8 (S_of x).
Proof.
  intros Hx. apply (bool_decide_unpack _). apply Is_true_true. revert x Hx.
  apply (octet_forall (λ x, bool_decide (is_word 8 (S_of x)))). by vm_compute.
Qed.

Lemma IS_of_range x : is_word 8 x → is_word 8 (IS_of x).
Proof.
  intros Hx. apply (bool_decide_unpack _). apply Is_true_true. revert x Hx.
  apply (octet_forall (λ x, bool_decide (is_word 8 (IS_of x)))). by vm_compute.
Qed.

Lemma IS_of_S_of x : is_word 8 x → IS_of (S_of x) = x.
Proof. intros Hx. apply Z.eqb_eq. revert x Hx. apply octet_forall. by vm_compute. Qed.

Lemma sbox_range x : is_word 8 x → is_word 8 (AesSpec.sbox x).
Proof. intros Hx. rewrite <-S_of_spec by done. by apply S_of_range. Qed.

Lemma inv_sbox_range x : is_word 8 x → is_word 8 (AesSpec.inv_sbox x).
Proof. intros Hx. rewrite <-IS_of_spec by done. by apply IS_of_range. Qed.

Lemma inv_sbox_sbox x : is_word 8 x → AesSpec.inv_sbox (AesSpec.sbox x) = x.
Proof.
  intros Hx. rewrite <-(IS_of_spec (AesSpec.sbox x)) by by apply sbox_range.
  rewrite <-S_of_spec by done. by apply IS_of_S_of.
Qed.

Lemma sbox_inv_sbox x : is_word 8 x → AesSpec.sbox (AesSpec.inv_sbox x) = x.
Proof.
  intros Hx. rewrite <-(S_of_spec (AesSpec.inv_sbox x)) by by apply inv_sbox_range.
  rewrite <-IS_of_spec by done. apply Z.eqb_eq. revert x Hx. apply octet_forall. by vm_compute.
Qed.

Lemma aes_sbox_get x : is_word 8 x → aget aes_sbox x = Some (AesSpec.sbox x).
Proof.
  intros Hx. rewrite <-S_of_spec by done. apply table_get; [|done]. by vm_compute.
Qed.

Lemma aes_inv_sbox_get x : is_word 8 x → aget aes_inv_sbox x = Some (AesSpec.inv_sbox x).
Proof.
  intros Hx. rewrite <-IS_of_spec by done. apply table_get; [|done]. by vm_compute.
Qed.

(** the columns an octet contributes to, in each of the four rows *)
Definition mcol (r : Z) (y : Z) : list Z :=
  let g2 := AesSpec.gmul 2 y in let g3 := AesSpec.gmul 3 y in
  if r =? 0 then [g2; y; y; g3] else if r =? 1 then [g3; g2; y; y]
  else if r =? 2 then [y; g3; g2; y] else [y; y; g3; g2].

Definition imcol (r : Z) (y : Z) : list Z :=
  let g9 := AesSpec.gmul 9 y in let g11 := AesSpec.gmul 11 y in
  let g13 := AesSpec.gmul 13 y in let g14 := AesSpec.gmul 14 y in
  if r =? 0 then [g14; g9; g13; g11] else if r =? 1 then [g11; g14; g9; g13]
  else if r =? 2 then [g13; g11; g14; g9] else [g9; g13; g11; g14].

Definition T_on (e : endian) (r : Z) : list Z :=
  match e with
  | little => if r =? 0 then T0 else if r =? 1 then T1 else if r =? 2 then T2 else T3
  | big => if r =? 0 then T0_be else if r =? 1 then T1_be else if r =? 2 then T2_be else T3_be
  end.

Definition U_on (e : endian) (r : Z) : list Z :=
  match e with
  | little => if r =? 0 then U0 else if r =? 1 then U1 else if r =? 2 then U2 else U3
  | big => if r =? 0 then U0_be else if r =? 1 then U1_be else if r =? 2 then U2_be else U3_be
  end.

Lemma T_check :
  forallb (λ r, table_check (T_on little r) (λ x, le_val (mcol r (S_of x))) &&
                table_check (T_on big r) (λ x, be_val (mcol r (S_of x)))) [0; 1; 2; 3] = true.
Proof. by vm_compute. Qed.

Lemma U_check :
  forallb (λ r, table_check (U_on little r) (λ x, le_val (imcol r (IS_of x))) &&
                table_check (U_on big r) (λ x, be_val (imcol r (IS_of x)))) [0; 1; 2; 3] = true.
Proof. by vm_compute. Qed.

Lemma T_get e r x :
  In r [0; 1; 2; 3] → is_word 8 x →
  aget (T_on e r) x = Some (word_of e (mcol r (AesSpec.sbox x))).
Proof.
  intros Hr Hx. pose proof (proj1 (forallb_forall _ _) T_check r Hr) as [E1 E2]%andb_true_iff.
  rewrite <-S_of_spec by done. destruct e.
  - by apply (table_get (T_on little r) (λ x, le_val (mcol r (S_of x)))).
  - by apply (table_get (T_on big r) (λ x, be_val (mcol r (S_of x)))).
Qed.

Lemma U_get e r x :
  In r [0; 1; 2; 3] → is_word 8 x →
  aget (U_on e r) x = Some (word_of e (imcol r (AesSpec.inv_sbox x))).
Proof.
  intros Hr Hx. pose proof (proj1 (forallb_forall _ _) U_check r Hr) as [E1 E2]%andb_true_iff.
  rewrite <-IS_of_spec by done. destruct e.
  - by apply (table_get (U_on little r) (λ x, le_val (imcol r (IS_of x)))).
  - by apply (table_get (U_on big r) (λ x, be_val (imcol r (IS_of x)))).
Qed.

(** ** Words as octets *)

Lemma be_val_xor a b :
  length a = length b → is_bytes a → is_bytes b →
  be_val a ^^ be_val b = be_val (xor_bytes a b).
Proof.
  revert b. induction a as [|x a IH]; intros [|y b] Hl Ha Hb; try done.
  apply Forall_cons_iff in Ha as [Hx Ha]. apply Forall_cons_iff in Hb as [Hy Hb].
  simpl in Hl. injection Hl as Hl. specialize (IH b Hl Ha Hb).
  pose proof (be_val_range a Ha) as Ra. pose proof (be_val_range b Hb) as Rb.
  pose proof (be_val_range (xor_bytes a b) (is_bytes_xor _ _ Ha Hb)) as Rc.
  change (xor_bytes (x :: a) (y :: b)) with ((x ^^ y) :: xor_bytes a b).
  cbn [be_val]. rewrite length_xor_bytes, <-Hl, Nat.min_id in *. rewrite <-IH in *.
  rewrite <-!lor_shiftl_add by (done || lia). bitwise.
Qed.

Lemma word_of_xor e a b c d a' b' c' d' :
  is_bytes [a; b; c; d] → is_bytes [a'; b'; c'; d'] →
  word_of e [a; b; c; d] ^^ word_of e [a'; b'; c'; d'] =
    word_of e [a ^^ a'; b ^^ b'; c ^^ c'; d ^^ d'].
Proof.
  intros H1 H2. destruct e; [|by apply (be_val_xor [a; b; c; d])].
  apply (be_val_xor [d; c; b; a] [d'; c'; b'; a']); [done|by apply (is_bytes_rev [a; b; c; d])|].
  by apply (is_bytes_rev [a'; b'; c'; d']).
Qed.

Lemma octets_of_word_of e l : length l = 4%nat → is_bytes l → octets_of e (word_of e l) = l.
Proof.
  intros Hl Hb. destruct e.
  - pose proof (le_bytes_le_val l Hb) as E. by rewrite Hl in E.
  - pose proof (be_bytes_be_val l Hb) as E. by rewrite Hl in E.
Qed.

Lemma word_of_octets_of e w : is_word 32 w → word_of e (octets_of e w) = w.
Proof.
  intros Hw. destruct e; unfold word_of, octets_of.
  - rewrite le_val_le_bytes. by apply wrap_small.
  - rewrite be_val_be_bytes. by apply wrap_small.
Qed.

(** ** Blocks *)

Definition block (o : list Z) : Prop := length o = 16%nat ∧ is_bytes o.

(** [block_cases o]: name the octets of a block *)
Lemma block_inv o :
  block o → ∃ a b c d, o = a ++ b ++ c ++ d ∧
    (length a = 4 ∧ length b = 4 ∧ length c = 4 ∧ length d = 4)%nat ∧
    is_bytes a ∧ is_bytes b ∧ is_bytes c ∧ is_bytes d.
Proof.
  intros [Hl Hb]. exists (take 4 o), (take 4 (drop 4 o)), (take 4 (drop 8 o)), (drop 12 o).
  split_and!; rewrite ?length_take, ?length_drop; try lia; auto 6 with words.
  rewrite <-(take_drop 4 o) at 1. f_equal. rewrite <-(take_drop 4 (drop 4 o)) at 1. f_equal.
  rewrite drop_drop, <-(take_drop 4 (drop (4 + 4) o)) at 1. rewrite drop_drop. done.
Qed.

Lemma list4_inv (l : list Z) : length l = 4%nat → ∃ a b c d, l = [a; b; c; d].
Proof. destruct l as [|a [|b [|c [|d [|]]]]]; try done. intros _. by exists a, b, c, d. Qed.

Lemma v8_of_v8 e o : block o → v8 e (of_v8 e o) = o.
Proof.
  intros (a & b & c & d & -> & (Ha & Hb & Hc & Hd) & Wa & Wb & Wc & Wd)%block_inv.
  apply list4_inv in Ha as (a0 & a1 & a2 & a3 & ->), Hb as (b0 & b1 & b2 & b3 & ->),
    Hc as (c0 & c1 & c2 & c3 & ->), Hd as (d0 & d1 & d2 & d3 & ->).
  unfold v8, of_v8. cbn [app take drop map concat].
  by rewrite !octets_of_word_of.
Qed.

Lemma of_v8_v8 e x : v128_wf x → of_v8 e (v8 e x) = x.
Proof.
  intros [Hl Hw]. apply list4_inv in Hl as (a & b & c & d & ->).
  apply Forall_cons_iff in Hw as [Wa [Wb [Wc [Wd _]%Forall_cons_iff]%Forall_cons_iff]%Forall_cons_iff].
  assert (∀ w, ∃ p q r s, octets_of e w = [p; q; r; s]) as Ho.
  { intros w. apply list4_inv. destruct e; unfold octets_of; by autorewrite with lens. }
  destruct (Ho a) as (a0 & a1 & a2 & a3 & Ea), (Ho b) as (b0 & b1 & b2 & b3 & Eb),
    (Ho c) as (c0 & c1 & c2 & c3 & Ec), (Ho d) as (d0 & d1 & d2 & d3 & Ed).
  unfold v8, of_v8. cbn [map concat]. rewrite Ea, Eb, Ec, Ed. cbn [app take drop].
  rewrite <-Ea, <-Eb, <-Ec, <-Ed. by rewrite !word_of_octets_of.
Qed.

Lemma v8_block e x : v128_wf x → block (v8 e x).
Proof.
  intros [Hl Hw]. apply list4_inv in Hl as (a & b & c & d & ->). unfold v8. cbn [map concat].
  split.
  - rewrite !length_app. destruct e; unfold octets_of; by autorewrite with lens.
  - unfold is_bytes. rewrite !Forall_app.
    split_and!; try done; (destruct e; [apply is_bytes_rev|]; apply be_bytes_range).
Qed.

Lemma block_xor o k : block o → block k → block (xor_bytes o k).
Proof. intros [Ho Wo] [Hk Wk]. split; [by rewrite length_xor_bytes, Ho, Hk|by words]. Qed.

Lemma of_v8_wf e o : block o → v128_wf (of_v8 e o).
Proof.
  intros (a & b & c & d & -> & (Ha & Hb & Hc & Hd) & Wa & Wb & Wc & Wd)%block_inv.
  apply list4_inv in Ha as (a0 & a1 & a2 & a3 & ->), Hb as (b0 & b1 & b2 & b3 & ->),
    Hc as (c0 & c1 & c2 & c3 & ->), Hd as (d0 & d1 & d2 & d3 & ->).
  assert (∀ p q r s, is_bytes [p; q; r; s] → is_word 32 (word_of e [p; q; r; s])) as Hr.
  { intros p q r s Hb. destruct e; [|by apply (be_val_range [p; q; r; s])].
    by apply (be_val_range [s; r; q; p]), (is_bytes_rev [p; q; r; s]). }
  split; [done|]. unfold of_v8, is_words. cbn [app take drop].
  repeat constructor; by apply Hr.
Qed.

(** ** The rounds compute the reference rounds *)

Lemma gmul_additive c : additive (AesSpec.gmul c).
Proof.
  intros x y Hx Hy. unfold AesSpec.gmul. by rewrite poly_mul_additive, poly_mod_additive.
Qed.

Lemma gmul_range c x : is_word 8 c → is_word 8 x → is_word 8 (AesSpec.gmul c x).
Proof.
  intros Hc Hx. unfold AesSpec.gmul. rewrite <-multiply_poly by done.
  by apply gf2_8_multiply_range.
Qed.

#[local] Hint Resolve sbox_range inv_sbox_range gmul_range : words.
#[local] Hint Extern 2 (is_word 8 ?n) =>
  (lazymatch n with Z0 => idtac | Zpos _ => idtac end; unfold is_word; lia) : words.

Lemma is_bytes4 a b c d :
  is_word 8 a → is_word 8 b → is_word 8 c → is_word 8 d → is_bytes [a; b; c; d].
Proof. intros. unfold is_bytes. rewrite !Forall_cons_iff. by split_and!. Qed.

#[local] Hint Resolve is_bytes4 : words.

(** sum of four columns *)
Definition xor4 (p q r s : list Z) : list Z := xor_bytes (xor_bytes (xor_bytes p q) r) s.

Lemma word_of_xor4 e f x y z w :
  (∀ r x, is_word 8 x → ∃ a b c d, f r x = [a; b; c; d] ∧ is_bytes (f r x)) →
  is_word 8 x → is_word 8 y → is_word 8 z → is_word 8 w →
  word_of e (f 0 x) ^^ word_of e (f 1 y) ^^ word_of e (f 2 z) ^^ word_of e (f 3 w) =
    word_of e (xor4 (f 0 x) (f 1 y) (f 2 z) (f 3 w)).
Proof.
  intros Hf Hx Hy Hz Hw.
  destruct (Hf 0 x Hx) as (x0 & x1 & x2 & x3 & Ex & Bx). rewrite Ex in *.
  destruct (Hf 1 y Hy) as (y0 & y1 & y2 & y3 & Ey & By). rewrite Ey in *.
  destruct (Hf 2 z Hz) as (z0 & z1 & z2 & z3 & Ez & Bz). rewrite Ez in *.
  destruct (Hf 3 w Hw) as (w0 & w1 & w2 & w3 & Ew & Bw). rewrite Ew in *.
  pose proof (is_bytes_xor _ _ Bx By) as Bxy. pose proof (is_bytes_xor _ _ Bxy Bz) as Bxyz.
  by rewrite !word_of_xor.
Qed.

Lemma mcol_shape r y : is_word 8 y → ∃ a b c d, mcol r y = [a; b; c; d] ∧ is_bytes (mcol r y).
Proof.
  intros Hy. unfold mcol. destruct (r =? 0), (r =? 1), (r =? 2);
    do 4 eexists; (split; [reflexivity|by words]).
Qed.

Lemma imcol_shape r y : is_word 8 y → ∃ a b c d, imcol r y = [a; b; c; d] ∧ is_bytes (imcol r y).
Proof.
  intros Hy. unfold imcol. destruct (r =? 0), (r =? 1), (r =? 2);
    do 4 eexists; (split; [reflexivity|by words]).
Qed.

Lemma mix_column_cols a b c d :
  AesSpec.mix_column a b c d = xor4 (mcol 0 a) (mcol 1 b) (mcol 2 c) (mcol 3 d).
Proof. done. Qed.

Lemma inv_mix_column_cols a b c d :
  AesSpec.inv_mix_column a b c d = xor4 (imcol 0 a) (imcol 1 b) (imcol 2 c) (imcol 3 d).
Proof. done. Qed.

(** a lookup in the four tables is a mixed column of substituted octets *)
Lemma lookup4_T e x y z w :
  is_word 8 x → is_word 8 y → is_word 8 z → is_word 8 w →
  lookup4 (T_on e 0) (T_on e 1) (T_on e 2) (T_on e 3) x y z w =
    Some (word_of e (AesSpec.mix_column (AesSpec.sbox x) (AesSpec.sbox y)
                       (AesSpec.sbox z) (AesSpec.sbox w))).
Proof.
  intros Hx Hy Hz Hw. unfold lookup4. rewrite !T_get by (done || (simpl; tauto)).
  cbn [mbind option_bind]. by rewrite mix_column_cols, <-word_of_xor4 by (auto using mcol_shape with words).
Qed.

Lemma lookup4_U e x y z w :
  is_word 8 x → is_word 8 y → is_word 8 z → is_word 8 w →
  lookup4 (U_on e 0) (U_on e 1) (U_on e 2) (U_on e 3) x y z w =
    Some (word_of e (AesSpec.inv_mix_column (AesSpec.inv_sbox x) (AesSpec.inv_sbox y)
                       (AesSpec.inv_sbox z) (AesSpec.inv_sbox w))).
Proof.
  intros Hx Hy Hz Hw. unfold lookup4. rewrite !U_get by (done || (simpl; tauto)).
  cbn [mbind option_bind]. by rewrite inv_mix_column_cols, <-word_of_xor4 by (auto using imcol_shape with words).
Qed.

(** naming the sixteen octets of a block *)
Lemma block16_inv o : block o →
  ∃ s0 s1 s2 s3 s4 s5 s6 s7 s8 s9 s10 s11 s12 s13 s14 s15,
    o = [s0; s1; s2; s3; s4; s5; s6; s7; s8; s9; s10; s11; s12; s13; s14; s15] ∧
    (is_word 8 s0 ∧ is_word 8 s1 ∧ is_word 8 s2 ∧ is_word 8 s3 ∧
     is_word 8 s4 ∧ is_word 8 s5 ∧ is_word 8 s6 ∧ is_word 8 s7 ∧
     is_word 8 s8 ∧ is_word 8 s9 ∧ is_word 8 s10 ∧ is_word 8 s11 ∧
     is_word 8 s12 ∧ is_word 8 s13 ∧ is_word 8 s14 ∧ is_word 8 s15).
Proof.
  intros (a & b & c & d & -> & (Ha & Hb & Hc & Hd) & Wa & Wb & Wc & Wd)%block_inv.
  apply list4_inv in Ha as (a0 & a1 & a2 & a3 & ->), Hb as (b0 & b1 & b2 & b3 & ->),
    Hc as (c0 & c1 & c2 & c3 & ->), Hd as (d0 & d1 & d2 & d3 & ->).
  unfold is_bytes in *. rewrite !Forall_cons_iff in *.
  exists a0, a1, a2, a3, b0, b1, b2, b3, c0, c1, c2, c3, d0, d1, d2, d3. tauto.
Qed.

Ltac block_cases o H :=
  apply (block16_inv o) in H as
    (?s0 & ?s1 & ?s2 & ?s3 & ?s4 & ?s5 & ?s6 & ?s7 & ?s8 & ?s9 & ?s10 & ?s11 & ?s12 & ?s13 & ?s14 & ?s15 & -> &
     ?H0 & ?H1 & ?H2 & ?H3 & ?H4 & ?H5 & ?H6 & ?H7 & ?H8 & ?H9 & ?H10 & ?H11 & ?H12 & ?H13 & ?H14 & ?H15).

(** adding a round key to four columns *)
Lemma add_key_xor e a b c d k :
  length a = 4%nat → length b = 4%nat → length c = 4%nat → length d = 4%nat →
  is_bytes a → is_bytes b → is_bytes c → is_bytes d → block k →
  add_key [word_of e a; word_of e b; word_of e c; word_of e d] (of_v8 e k) =
    Some (of_v8 e (xor_bytes (a ++ b ++ c ++ d) k)).
Proof.
  intros Ha Hb Hc Hd Wa Wb Wc Wd Hk.
  apply list4_inv in Ha as (a0 & a1 & a2 & a3 & ->), Hb as (b0 & b1 & b2 & b3 & ->),
    Hc as (c0 & c1 & c2 & c3 & ->), Hd as (d0 & d1 & d2 & d3 & ->).
  block_cases k Hk. unfold add_key.
  change (Some [word_of e [a0; a1; a2; a3] ^^ word_of e [s0; s1; s2; s3];
                word_of e [b0; b1; b2; b3] ^^ word_of e [s4; s5; s6; s7];
                word_of e [c0; c1; c2; c3] ^^ word_of e [s8; s9; s10; s11];
                word_of e [d0; d1; d2; d3] ^^ word_of e [s12; s13; s14; s15]] =
    Some (of_v8 e (xor_bytes ([a0; a1; a2; a3] ++ [b0; b1; b2; b3] ++ [c0; c1; c2; c3] ++ [d0; d1; d2; d3])
      [s0; s1; s2; s3; s4; s5; s6; s7; s8; s9; s10; s11; s12; s13; s14; s15]))).
  by rewrite !word_of_xor by (done || by apply is_bytes4).
Qed.

Lemma v128_xor_of_v8 e o k :
  block o → block k → v128_xor (of_v8 e o) (of_v8 e k) = of_v8 e (xor_bytes o k).
Proof.
  intros Ho Hk. block_cases o Ho. block_cases k Hk. unfold v128_xor, of_v8, xor_bytes.
  cbn [take drop zip_with]. by rewrite !word_of_xor by by apply is_bytes4.
Qed.

Lemma mix_column_shape a b c d :
  is_word 8 a → is_word 8 b → is_word 8 c → is_word 8 d →
  length (AesSpec.mix_column a b c d) = 4%nat ∧ is_bytes (AesSpec.mix_column a b c d).
Proof. intros. split; [done|]. unfold AesSpec.mix_column. by words. Qed.

Lemma inv_mix_column_shape a b c d :
  is_word 8 a → is_word 8 b → is_word 8 c → is_word 8 d →
  length (AesSpec.inv_mix_column a b c d) = 4%nat ∧ is_bytes (AesSpec.inv_mix_column a b c d).
Proof. intros. split; [done|]. unfold AesSpec.inv_mix_column. by words. Qed.

Lemma column_get A B C D o i j k l x y z w :
  aget o i = Some x → aget o j = Some y → aget o k = Some z → aget o l = Some w →
  column A B C D o i j k l = lookup4 A B C D x y z w.
Proof. intros Ex Ey Ez Ew. unfold column. by rewrite Ex, Ey, Ez, Ew. Qed.

Lemma aes_round_spec o k :
  block o → block k →
  aes_round (of_v8 little o) (of_v8 little k) = Some (of_v8 little (AesSpec.round o k)).
Proof.
  intros Ho Hk. unfold aes_round. rewrite v8_of_v8 by done. block_cases o Ho.
  erewrite !column_get by reflexivity.
  rewrite !(lookup4_T little) by done. cbn [mbind option_bind].
  rewrite add_key_xor by (done || (apply mix_column_shape; by words)).
  done.
Qed.

(** the inverse round of the code: substitution first, then the mixing *)
Definition eq_inv_round (o k : list Z) : list Z :=
  xor_bytes (AesSpec.inv_mix_columns (AesSpec.inv_sub_bytes (AesSpec.inv_shift_rows o))) k.
Definition eq_inv_final_round (o k : list Z) : list Z :=
  xor_bytes (AesSpec.inv_sub_bytes (AesSpec.inv_shift_rows o)) k.

Lemma aes_inv_round_spec o k :
  block o → block k →
  aes_inv_round (of_v8 little o) (of_v8 little k) = Some (of_v8 little (eq_inv_round o k)).
Proof.
  intros Ho Hk. unfold aes_inv_round. rewrite v8_of_v8 by done. block_cases o Ho.
  erewrite !column_get by reflexivity.
  rewrite !(lookup4_U little) by done. cbn [mbind option_bind].
  rewrite add_key_xor by (done || (apply inv_mix_column_shape; by words)).
  done.
Qed.

(** substitutions and moves of octets: [sub_at] and [sub_get] with the table's
    function [f] *)
Lemma sub_at_get table (f : Z → Z) o dst src x o' :
  (∀ x, is_word 8 x → aget table x = Some (f x)) →
  aget o src = Some x → is_word 8 x → aset o dst (f x) = Some o' →
  sub_at table o dst src = Some o'.
Proof. intros Hf Ho Hx Hs. unfold sub_at. rewrite Ho. simpl. rewrite Hf by done. done. Qed.

Lemma sub_get_get table (f : Z → Z) o src x :
  (∀ x, is_word 8 x → aget table x = Some (f x)) →
  aget o src = Some x → is_word 8 x → sub_get table o src = Some (f x).
Proof. intros Hf Ho Hx. unfold sub_get. rewrite Ho. simpl. by apply Hf. Qed.

(** [subst_steps f Hf]: runs a sequence of such moves *)
Ltac subst_steps f Hf :=
  repeat first
    [ erewrite (sub_at_get _ f) by (first [exact Hf | reflexivity | assumption]);
      cbn [mbind option_bind]
    | erewrite (sub_get_get _ f) by (first [exact Hf | reflexivity | assumption]);
      cbn [mbind option_bind]
    | match goal with |- context [aset ?o ?i ?x] =>
        let r := eval cbv [aset Z.leb Z.ltb Z.compare Pos.compare Pos.compare_cont andb
                           length Z.of_nat Pos.of_succ_nat Pos.succ Z.to_nat Pos.to_nat
                           Pos.iter_op Nat.add insert list_insert] in (aset o i x) in
        change (aset o i x) with r; cbn [mbind option_bind]
      end ].

Lemma block_map f o : (∀ x, is_word 8 x → is_word 8 (f x)) → block o → block (map f o).
Proof.
  intros Hf [Hl Hb]. split; [by rewrite length_map|]. apply Forall_map.
  apply (List.Forall_impl _ (P := is_word 8)); [|done]. intros x Hx. by apply Hf.
Qed.

Lemma block_shift_rows o : block o → block (AesSpec.shift_rows o).
Proof.
  intros Ho. block_cases o Ho. split; [done|].
  unfold is_bytes. simpl. rewrite !Forall_cons_iff. by split_and!.
Qed.

Lemma block_inv_shift_rows o : block o → block (AesSpec.inv_shift_rows o).
Proof.
  intros Ho. block_cases o Ho. split; [done|].
  unfold is_bytes. simpl. rewrite !Forall_cons_iff. by split_and!.
Qed.

Lemma block_sub_bytes o : block o → block (AesSpec.sub_bytes o).
Proof. apply block_map. by words. Qed.

Lemma block_inv_sub_bytes o : block o → block (AesSpec.inv_sub_bytes o).
Proof. apply block_map. by words. Qed.

Lemma aes_final_round_spec o k :
  block o → block k →
  aes_final_round (of_v8 little o) (of_v8 little k) = Some (of_v8 little (AesSpec.final_round o k)).
Proof.
  intros Ho Hk. unfold aes_final_round. rewrite v8_of_v8 by done.
  unfold AesSpec.final_round.
  rewrite <-v128_xor_of_v8 by (done || by apply block_shift_rows, block_sub_bytes).
  generalize (of_v8 little k). intros w. unfold AesSpec.sub_bytes. block_cases o Ho.
  generalize aes_sbox_get. generalize AesSpec.sbox, aes_sbox. intros f tb Hf.
  subst_steps f Hf. reflexivity.
Qed.

Lemma aes_inv_final_round_spec o k :
  block o → block k →
  aes_inv_final_round (of_v8 little o) (of_v8 little k) =
    Some (of_v8 little (eq_inv_final_round o k)).
Proof.
  intros Ho Hk. unfold aes_inv_final_round. rewrite v8_of_v8 by done.
  unfold eq_inv_final_round.
  rewrite <-v128_xor_of_v8 by (done || by apply block_inv_sub_bytes, block_inv_shift_rows).
  generalize (of_v8 little k). intros w. unfold AesSpec.inv_sub_bytes. block_cases o Ho.
  generalize aes_inv_sbox_get. generalize AesSpec.inv_sbox, aes_inv_sbox. intros f tb Hf.
  subst_steps f Hf. reflexivity.
Qed.

(** ** The word-oriented rounds *)

(** the octets of a big-endian word, by shifts and masks *)
Lemma be_word_octets a b c d :
  is_bytes [a; b; c; d] →
  be_val [a; b; c; d] >> 24 = a ∧ (be_val [a; b; c; d] >> 16) & 0xff = b ∧
  (be_val [a; b; c; d] >> 8) & 0xff = c ∧ be_val [a; b; c; d] & 0xff = d.
Proof.
  intros Hb. unfold is_bytes in Hb. rewrite !Forall_cons_iff in Hb.
  destruct Hb as (Ha & Hb & Hc & Hd & _). unfold is_word in *.
  assert (be_val [a; b; c; d] = a * 2 ^ 24 + b * 2 ^ 16 + c * 2 ^ 8 + d) as -> by (simpl; lia).
  change 0xff with (Z.ones 8). rewrite !Z.land_ones, !Z.shiftr_div_pow2 by lia.
  split_and!; Z.to_euclidean_division_equations; nia.
Qed.

(** words of a block in the big-endian build *)
Lemma column_risc_get (A : Z → list Z) x0 x1 x2 x3 y0 y1 y2 y3 z0 z1 z2 z3 w0 w1 w2 w3 state i j k l :
  aget state i = Some (be_val [x0; x1; x2; x3]) → aget state j = Some (be_val [y0; y1; y2; y3]) →
  aget state k = Some (be_val [z0; z1; z2; z3]) → aget state l = Some (be_val [w0; w1; w2; w3]) →
  is_bytes [x0; x1; x2; x3] → is_bytes [y0; y1; y2; y3] →
  is_bytes [z0; z1; z2; z3] → is_bytes [w0; w1; w2; w3] →
  column_risc (A 0) (A 1) (A 2) (A 3) state i j k l = lookup4 (A 0) (A 1) (A 2) (A 3) x0 y1 z2 w3.
Proof.
  intros Ex Ey Ez Ew Hx Hy Hz Hw. unfold column_risc. rewrite Ex, Ey, Ez, Ew. cbn [mbind option_bind].
  destruct (be_word_octets _ _ _ _ Hx) as (-> & _), (be_word_octets _ _ _ _ Hy) as (_ & -> & _),
    (be_word_octets _ _ _ _ Hz) as (_ & _ & -> & _), (be_word_octets _ _ _ _ Hw) as (_ & _ & _ & ->).
  done.
Qed.

Lemma aes_round_risc_spec o k :
  block o → block k →
  aes_round_risc (of_v8 big o) (of_v8 big k) = Some (of_v8 big (AesSpec.round o k)).
Proof.
  intros Ho Hk. unfold aes_round_risc. block_cases o Ho.
  erewrite !(column_risc_get (T_on big)) by (reflexivity || by apply is_bytes4).
  rewrite !(lookup4_T big) by done. cbn [mbind option_bind].
  rewrite (add_key_xor big) by (done || (apply mix_column_shape; by words)).
  done.
Qed.

Lemma aes_inv_round_risc_spec o k :
  block o → block k →
  aes_inv_round_risc (of_v8 big o) (of_v8 big k) = Some (of_v8 big (eq_inv_round o k)).
Proof.
  intros Ho Hk. unfold aes_inv_round_risc. block_cases o Ho.
  erewrite !(column_risc_get (U_on big)) by (reflexivity || by apply is_bytes4).
  rewrite !(lookup4_U big) by done. cbn [mbind option_bind].
  rewrite (add_key_xor big) by (done || (apply inv_mix_column_shape; by words)).
  done.
Qed.

(** a table whose entries repeat the substitution in every octet *)
Definition spread (A : list Z) (f : Z → Z) : Prop :=
  ∀ x, is_word 8 x → ∃ y, aget A x = Some y ∧ (y & 0xff) = f x ∧
    (y & 0xff000000) = be_val [f x; 0; 0; 0] ∧ (y & 0x00ff0000) = be_val [0; f x; 0; 0] ∧
    (y & 0x0000ff00) = be_val [0; 0; f x; 0] ∧ (y & 0x000000ff) = be_val [0; 0; 0; f x].

Definition spread_check (A : list Z) (f : Z → Z) : bool :=
  forallb (λ x, match aget A x with
    | Some y => ((y & 0xff) =? f x) &&
      ((y & 0xff000000) =? be_val [f x; 0; 0; 0]) && ((y & 0x00ff0000) =? be_val [0; f x; 0; 0]) &&
      ((y & 0x0000ff00) =? be_val [0; 0; f x; 0]) && ((y & 0x000000ff) =? be_val [0; 0; 0; f x])
    | None => false end) (map Z.of_nat (seq 0 256)).

Lemma spread_of_check A f : spread_check A f = true → spread A f.
Proof.
  intros Hc x Hx. pose proof (octet_forall _ Hc x Hx) as E. cbv beta in E.
  destruct (aget A x) as [y|]; [|done]. exists y.
  rewrite !andb_true_iff, !Z.eqb_eq in E. tauto.
Qed.

Lemma spread_ext A f g : (∀ x, is_word 8 x → f x = g x) → spread A f → spread A g.
Proof. intros Hfg HA x Hx. rewrite <-Hfg by done. by apply HA. Qed.

Lemma T4_spread : spread T4 AesSpec.sbox.
Proof. apply (spread_ext _ S_of), spread_of_check; [apply S_of_spec|]. by vm_compute. Qed.

Lemma U4_spread : spread U4 AesSpec.inv_sbox.
Proof. apply (spread_ext _ IS_of), spread_of_check; [apply IS_of_spec|]. by vm_compute. Qed.

Lemma final_column_get A f rk x0 x1 x2 x3 y0 y1 y2 y3 z0 z1 z2 z3 w0 w1 w2 w3 r0 r1 r2 r3
    state n i j k l :
  spread A f → (∀ x, is_word 8 x → is_word 8 (f x)) →
  aget state i = Some (be_val [x0; x1; x2; x3]) → aget state j = Some (be_val [y0; y1; y2; y3]) →
  aget state k = Some (be_val [z0; z1; z2; z3]) → aget state l = Some (be_val [w0; w1; w2; w3]) →
  aget rk n = Some (be_val [r0; r1; r2; r3]) →
  is_bytes [x0; x1; x2; x3] → is_bytes [y0; y1; y2; y3] →
  is_bytes [z0; z1; z2; z3] → is_bytes [w0; w1; w2; w3] → is_bytes [r0; r1; r2; r3] →
  final_column_risc A state rk n i j k l =
    Some (be_val [f x0 ^^ r0; f y1 ^^ r1; f z2 ^^ r2; f w3 ^^ r3]).
Proof.
  intros HA Hf Ex Ey Ez Ew Er Hx Hy Hz Hw Hr. unfold final_column_risc.
  rewrite Ex, Ey, Ez, Ew, Er. cbn [mbind option_bind].
  destruct (be_word_octets _ _ _ _ Hx) as (-> & _), (be_word_octets _ _ _ _ Hy) as (_ & -> & _),
    (be_word_octets _ _ _ _ Hz) as (_ & _ & -> & _), (be_word_octets _ _ _ _ Hw) as (_ & _ & _ & ->).
  unfold is_bytes in Hx, Hy, Hz, Hw. rewrite !Forall_cons_iff in Hx, Hy, Hz, Hw.
  destruct (HA x0) as (a & -> & _ & Ha & _); [tauto|].
  destruct (HA y1) as (b & -> & _ & _ & Hb & _); [tauto|].
  destruct (HA z2) as (c & -> & _ & _ & _ & Hc & _); [tauto|].
  destruct (HA w3) as (d & -> & _ & _ & _ & _ & Hd); [tauto|].
  cbn [mbind option_bind]. rewrite Ha, Hb, Hc, Hd.
  assert (is_word 8 (f x0)) by (apply Hf; tauto). assert (is_word 8 (f y1)) by (apply Hf; tauto).
  assert (is_word 8 (f z2)) by (apply Hf; tauto). assert (is_word 8 (f w3)) by (apply Hf; tauto).
  rewrite !(word_of_xor big : ∀ a b c d a' b' c' d', _ → _ → be_val _ ^^ be_val _ = be_val _)
    by (done || by words).
  by rewrite !Z.lxor_0_r, !Z.lxor_0_l.
Qed.

Lemma aes_final_round_risc_spec o k :
  block o → block k →
  aes_final_round_risc (of_v8 big o) (of_v8 big k) = Some (of_v8 big (AesSpec.final_round o k)).
Proof.
  intros Ho Hk. unfold aes_final_round_risc. block_cases o Ho. block_cases k Hk.
  unfold AesSpec.final_round, AesSpec.sub_bytes. generalize T4_spread, sbox_range.
  generalize AesSpec.sbox. intros f HA Hf.
  erewrite !(final_column_get T4 f) by (exact HA || exact Hf || reflexivity || by apply is_bytes4).
  reflexivity.
Qed.

Lemma aes_inv_final_round_risc_spec o k :
  block o → block k →
  aes_inv_final_round_risc (of_v8 big o) (of_v8 big k) = Some (of_v8 big (eq_inv_final_round o k)).
Proof.
  intros Ho Hk. unfold aes_inv_final_round_risc. block_cases o Ho. block_cases k Hk.
  unfold eq_inv_final_round, AesSpec.inv_sub_bytes. generalize U4_spread, inv_sbox_range.
  generalize AesSpec.inv_sbox. intros f HA Hf.
  erewrite !(final_column_get U4 f) by (exact HA || exact Hf || reflexivity || by apply is_bytes4).
  reflexivity.
Qed.

(** ** Both builds *)

Lemma round_on_spec e o k :
  block o → block k → aes_round_on e (of_v8 e o) (of_v8 e k) = Some (of_v8 e (AesSpec.round o k)).
Proof. destruct e; [apply aes_round_spec|apply aes_round_risc_spec]. Qed.

Lemma final_round_on_spec e o k :
  block o → block k →
  aes_final_round_on e (of_v8 e o) (of_v8 e k) = Some (of_v8 e (AesSpec.final_round o k)).
Proof. destruct e; [apply aes_final_round_spec|apply aes_final_round_risc_spec]. Qed.

Lemma inv_round_on_spec e o k :
  block o → block k → aes_inv_round_on e (of_v8 e o) (of_v8 e k) = Some (of_v8 e (eq_inv_round o k)).
Proof. destruct e; [apply aes_inv_round_spec|apply aes_inv_round_risc_spec]. Qed.

Lemma inv_final_round_on_spec e o k :
  block o → block k →
  aes_inv_final_round_on e (of_v8 e o) (of_v8 e k) = Some (of_v8 e (eq_inv_final_round o k)).
Proof. destruct e; [apply aes_inv_final_round_spec|apply aes_inv_final_round_risc_spec]. Qed.

(** ** Key expansion *)

(** [agets]: evaluates accesses at numerals of an explicit array *)
Ltac agets :=
  repeat (match goal with |- context [aget (?x :: ?l) ?i] =>
    lazymatch i with Z0 => idtac | Zpos _ => idtac end;
    let r := eval cbv [aget Z.leb Z.compare Z.to_nat Pos.to_nat Pos.iter_op Nat.add
                       lookup list_lookup] in (aget (x :: l) i) in
    change (aget (x :: l) i) with r
  end; cbn [mbind option_bind]).

Lemma next_round_key_spec e k rc :
  block k → is_word 8 rc →
  aes_next_round_key e (of_v8 e k) rc = Some (of_v8 e (AesSpec.next_key rc k)) ∧
  block (AesSpec.next_key rc k).
Proof.
  intros Hk Hrc. unfold aes_next_round_key. rewrite v8_of_v8 by done. block_cases k Hk.
  unfold of_v8 at 1 2 3 4. cbn [take drop]. agets.
  repeat (rewrite aes_sbox_get by done; cbn [mbind option_bind]).
  split.
  - rewrite !word_of_xor by by words. reflexivity.
  - cbn [AesSpec.next_key]. split; [done|]. unfold is_bytes.
    cbn [xor_bytes zip_with app]. rewrite !Forall_cons_iff. split_and!; by words.
Qed.

Lemma expand_loop_spec e n rc k :
  block k → is_word 8 rc →
  let rcons := map (λ i, Nat.iter i gf2_8_shift rc) (seq 0 n) in
  aes_expand_loop e n rc (of_v8 e k) = Some (map (of_v8 e) (AesSpec.expand rcons k)) ∧
  Forall block (AesSpec.expand rcons k).
Proof.
  revert rc k. induction n as [|n IH]; intros rc k Hk Hrc.
  - split; [done|]. constructor; [done|constructor].
  - cbn [aes_expand_loop seq map AesSpec.expand].
    destruct (next_round_key_spec e k rc Hk Hrc) as [E Hn].
    change (Nat.iter 0 gf2_8_shift rc) with rc. rewrite E. cbn [mbind option_bind].
    destruct (IH (gf2_8_shift rc) _ Hn (gf2_8_shift_range rc)) as [E2 Hr].
    assert (map (λ i, Nat.iter i gf2_8_shift (gf2_8_shift rc)) (seq 0 n) =
      map (λ i, Nat.iter i gf2_8_shift rc) (seq 1 n)) as Hs.
    { rewrite <-seq_shift, map_map. apply map_ext. intros i. symmetry. apply Nat.iter_succ_r. }
    rewrite Hs in E2, Hr. rewrite E2. split; [done|]. by constructor.
Qed.

Lemma expand_encryption_spec e k :
  block k →
  aes_expand_encryption_key e (of_v8 e k) = Some (map (of_v8 e) (AesSpec.key_expansion k)) ∧
  Forall block (AesSpec.key_expansion k) ∧ length (AesSpec.key_expansion k) = 11%nat.
Proof.
  intros Hk. destruct (expand_loop_spec e 10 1 k Hk) as [E Hb]; [by words|].
  split_and!; [exact E|exact Hb|done].
Qed.

(** ** Encryption *)

Lemma on_columns_block f o :
  (∀ a b c d, is_word 8 a → is_word 8 b → is_word 8 c → is_word 8 d →
    length (f a b c d) = 4%nat ∧ is_bytes (f a b c d)) →
  block o → block (AesSpec.on_columns f o).
Proof.
  intros Hf Ho. block_cases o Ho. cbn [AesSpec.on_columns]. rewrite app_nil_r.
  destruct (Hf s0 s1 s2 s3), (Hf s4 s5 s6 s7), (Hf s8 s9 s10 s11), (Hf s12 s13 s14 s15); try done.
  split; [rewrite !length_app; lia|]. unfold is_bytes. rewrite !Forall_app. by split_and!.
Qed.

Lemma block_mix_columns o : block o → block (AesSpec.mix_columns o).
Proof. apply on_columns_block, mix_column_shape. Qed.

Lemma block_inv_mix_columns o : block o → block (AesSpec.inv_mix_columns o).
Proof. apply on_columns_block, inv_mix_column_shape. Qed.

Create HintDb blocks.
#[local] Hint Resolve block_xor block_mix_columns block_inv_mix_columns block_sub_bytes
  block_inv_sub_bytes block_shift_rows block_inv_shift_rows : blocks.

Lemma block_round o k : block o → block k → block (AesSpec.round o k).
Proof. unfold AesSpec.round. auto 8 with blocks. Qed.

Lemma block_eq_inv_round o k : block o → block k → block (eq_inv_round o k).
Proof. unfold eq_inv_round. auto 8 with blocks. Qed.

#[local] Hint Resolve block_round block_eq_inv_round : blocks.

Lemma list11_inv {A} (l : list A) :
  length l = 11%nat → ∃ a b c d e f g h i j k, l = [a; b; c; d; e; f; g; h; i; j; k].
Proof.
  intros Hl. do 11 (destruct l as [|? l]; [done|]). destruct l; [|done]. by repeat eexists.
Qed.

Lemma aes_encrypt_spec e o ks :
  block o → Forall block ks → length ks = 11%nat →
  aes_encrypt e (of_v8 e o) (map (of_v8 e) ks) = Some (of_v8 e (AesSpec.cipher ks o)) ∧
  block (AesSpec.cipher ks o).
Proof.
  intros Ho Hks Hl.
  apply list11_inv in Hl as (k0 & k1 & k2 & k3 & k4 & k5 & k6 & k7 & k8 & k9 & k10 & ->).
  rewrite !Forall_cons_iff in Hks.
  destruct Hks as (? & ? & ? & ? & ? & ? & ? & ? & ? & ? & ? & _).
  unfold aes_encrypt. cbn [map AesSpec.cipher AesSpec.rounds].
  agets. rewrite v128_xor_of_v8 by done.
  do 9 (rewrite round_on_spec by auto 12 with blocks; cbn [mbind option_bind]; agets).
  rewrite final_round_on_spec by auto 12 with blocks.
  split; [done|]. unfold AesSpec.final_round. auto 14 with blocks.
Qed.

(** ** The inverse cipher *)

Lemma inv_sub_sub o : block o → AesSpec.inv_sub_bytes (AesSpec.sub_bytes o) = o.
Proof.
  intros [_ Hb]. unfold AesSpec.inv_sub_bytes, AesSpec.sub_bytes. rewrite map_map.
  induction Hb as [|x o Hx _ IH]; [done|]. cbn [map]. by rewrite IH, inv_sbox_sbox.
Qed.

Lemma inv_shift_shift o : block o → AesSpec.inv_shift_rows (AesSpec.shift_rows o) = o.
Proof. intros Ho. by block_cases o Ho. Qed.

Lemma inv_sub_shift_comm o : block o →
  AesSpec.inv_sub_bytes (AesSpec.inv_shift_rows (AesSpec.shift_rows (AesSpec.sub_bytes o))) = o.
Proof.
  intros Ho. rewrite inv_shift_shift by by apply block_sub_bytes. by apply inv_sub_sub.
Qed.

Lemma gmul_gmul_additive c d : is_word 8 d → additive (λ x, AesSpec.gmul c (AesSpec.gmul d x)).
Proof.
  intros Hd. apply (additive_compose (AesSpec.gmul c) (AesSpec.gmul d));
    auto using gmul_additive, gmul_range.
Qed.

(** the identities behind the inverse of the mixing matrix *)
Lemma mix_identities p q r s (b : bool) :
  (let f x := AesSpec.gmul p (AesSpec.gmul 2 x) ^^ AesSpec.gmul q x ^^ AesSpec.gmul r x ^^
     AesSpec.gmul s (AesSpec.gmul 3 x) in
   forallb (λ i, f (2 ^ i) =? (if b then 2 ^ i else 0)) [0; 1; 2; 3; 4; 5; 6; 7] = true) →
  ∀ x, is_word 8 x →
    AesSpec.gmul p (AesSpec.gmul 2 x) ^^ AesSpec.gmul q x ^^ AesSpec.gmul r x ^^
    AesSpec.gmul s (AesSpec.gmul 3 x) = if b then x else 0.
Proof.
  intros Hc. apply (additive_ext (λ x, AesSpec.gmul p (AesSpec.gmul 2 x) ^^ AesSpec.gmul q x ^^
    AesSpec.gmul r x ^^ AesSpec.gmul s (AesSpec.gmul 3 x)) (λ x, if b then x else 0)); [| |exact Hc].
  - repeat apply additive_xor; auto using gmul_additive; apply gmul_gmul_additive; by words.
  - apply additive_if; [apply additive_id|apply additive_zero].
Qed.

(** row [p q r s] of the inverse matrix on a mixed column *)
Lemma inv_mix_row p q r s a b c d :
  is_word 8 a → is_word 8 b → is_word 8 c → is_word 8 d →
  AesSpec.gmul p (AesSpec.gmul 2 a ^^ AesSpec.gmul 3 b ^^ c ^^ d) ^^
  AesSpec.gmul q (a ^^ AesSpec.gmul 2 b ^^ AesSpec.gmul 3 c ^^ d) ^^
  AesSpec.gmul r (a ^^ b ^^ AesSpec.gmul 2 c ^^ AesSpec.gmul 3 d) ^^
  AesSpec.gmul s (AesSpec.gmul 3 a ^^ b ^^ c ^^ AesSpec.gmul 2 d) =
  (AesSpec.gmul p (AesSpec.gmul 2 a) ^^ AesSpec.gmul q a ^^ AesSpec.gmul r a ^^
   AesSpec.gmul s (AesSpec.gmul 3 a)) ^^
  (AesSpec.gmul q (AesSpec.gmul 2 b) ^^ AesSpec.gmul r b ^^ AesSpec.gmul s b ^^
   AesSpec.gmul p (AesSpec.gmul 3 b)) ^^
  (AesSpec.gmul r (AesSpec.gmul 2 c) ^^ AesSpec.gmul s c ^^ AesSpec.gmul p c ^^
   AesSpec.gmul q (AesSpec.gmul 3 c)) ^^
  (AesSpec.gmul s (AesSpec.gmul 2 d) ^^ AesSpec.gmul p d ^^ AesSpec.gmul q d ^^
   AesSpec.gmul r (AesSpec.gmul 3 d)).
Proof.
  intros Ha Hb Hc Hd. rewrite !gmul_additive by by words.
  apply Z.bits_inj'. intros n _. rewrite !Z.lxor_spec.
  repeat match goal with |- context [Z.testbit ?x n] => generalize (Z.testbit x n); intros ? end.
  btauto.
Qed.

Lemma inv_mix_mix_column a b c d :
  is_word 8 a → is_word 8 b → is_word 8 c → is_word 8 d →
  AesSpec.on_columns AesSpec.inv_mix_column (AesSpec.mix_column a b c d) = [a; b; c; d].
Proof.
  intros Ha Hb Hc Hd. unfold AesSpec.mix_column, AesSpec.on_columns, AesSpec.inv_mix_column.
  cbn [app]. rewrite !inv_mix_row by done.
  rewrite !(mix_identities 9 14 11 13 false), !(mix_identities 14 11 13 9 true),
    !(mix_identities 11 13 9 14 false), !(mix_identities 13 9 14 11 false)
    by (done || by vm_compute).
  by rewrite ?Z.lxor_0_r, ?Z.lxor_0_l.
Qed.

Lemma inv_mix_mix o : block o → AesSpec.inv_mix_columns (AesSpec.mix_columns o) = o.
Proof.
  intros Ho. block_cases o Ho. unfold AesSpec.inv_mix_columns, AesSpec.mix_columns.
  assert (∀ f a b c d l, AesSpec.on_columns f ([a; b; c; d] ++ l) = f a b c d ++ AesSpec.on_columns f l)
    as Hc by done.
  assert (∀ f a b c d, AesSpec.on_columns f [a; b; c; d] = f a b c d) as Hone.
  { intros. cbn [AesSpec.on_columns]. apply app_nil_r. }
  cbn [AesSpec.on_columns]. rewrite app_nil_r.
  destruct (mix_column_shape s0 s1 s2 s3) as [L0 _], (mix_column_shape s4 s5 s6 s7) as [L1 _],
    (mix_column_shape s8 s9 s10 s11) as [L2 _]; try done.
  pose proof (inv_mix_mix_column s0 s1 s2 s3) as E0. pose proof (inv_mix_mix_column s4 s5 s6 s7) as E1.
  pose proof (inv_mix_mix_column s8 s9 s10 s11) as E2.
  apply list4_inv in L0 as (a0 & a1 & a2 & a3 & M0), L1 as (b0 & b1 & b2 & b3 & M1),
    L2 as (c0 & c1 & c2 & c3 & M2).
  rewrite M0, M1, M2 in *. rewrite !Hc. rewrite Hone in E0, E1, E2.
  rewrite E0, E1, E2, inv_mix_mix_column by done. done.
Qed.

(** ** Decryption keys *)

Lemma inv_mix_word_get o i x y z w :
  aget o i = Some x → aget o (i + 1) = Some y → aget o (i + 2) = Some z → aget o (i + 3) = Some w →
  is_word 8 x → is_word 8 y → is_word 8 z → is_word 8 w →
  inv_mix_word o i = Some (word_of little (AesSpec.inv_mix_column x y z w)).
Proof.
  intros Ex Ey Ez Ew Hx Hy Hz Hw. unfold inv_mix_word. rewrite Ex, Ey, Ez, Ew.
  cbn [mbind option_bind]. repeat (rewrite aes_sbox_get by done; cbn [mbind option_bind]).
  rewrite (lookup4_U little) by by words. by rewrite !inv_sbox_sbox.
Qed.

Lemma inv_mix_word_risc_get x y z w :
  is_word 8 x → is_word 8 y → is_word 8 z → is_word 8 w →
  inv_mix_word_risc (be_val [x; y; z; w]) = Some (word_of big (AesSpec.inv_mix_column x y z w)).
Proof.
  intros Hx Hy Hz Hw. unfold inv_mix_word_risc.
  destruct (be_word_octets x y z w) as (-> & -> & -> & ->); [by apply is_bytes4|].
  destruct (T4_spread x Hx) as (a & -> & Ha & _), (T4_spread y Hy) as (b & -> & Hb & _),
    (T4_spread z Hz) as (c & -> & Hc & _), (T4_spread w Hw) as (d & -> & Hd & _).
  cbn [mbind option_bind]. rewrite Ha, Hb, Hc, Hd.
  rewrite (lookup4_U big) by by words. by rewrite !inv_sbox_sbox.
Qed.

(** four columns make a block *)
Lemma of_v8_columns e f s0 s1 s2 s3 s4 s5 s6 s7 s8 s9 s10 s11 s12 s13 s14 s15 :
  (∀ a b c d, length (f a b c d) = 4%nat) →
  of_v8 e (AesSpec.on_columns f
    [s0; s1; s2; s3; s4; s5; s6; s7; s8; s9; s10; s11; s12; s13; s14; s15]) =
  [word_of e (f s0 s1 s2 s3); word_of e (f s4 s5 s6 s7);
   word_of e (f s8 s9 s10 s11); word_of e (f s12 s13 s14 s15)].
Proof.
  intros Hf. cbn [AesSpec.on_columns].
  destruct (list4_inv _ (Hf s0 s1 s2 s3)) as (? & ? & ? & ? & ->),
    (list4_inv _ (Hf s4 s5 s6 s7)) as (? & ? & ? & ? & ->),
    (list4_inv _ (Hf s8 s9 s10 s11)) as (? & ? & ? & ? & ->),
    (list4_inv _ (Hf s12 s13 s14 s15)) as (? & ? & ? & ? & ->). done.
Qed.

Lemma inv_mix_key_spec e k :
  block k → inv_mix_key_on e (of_v8 e k) = Some (of_v8 e (AesSpec.inv_mix_columns k)).
Proof.
  intros Hk. destruct e; unfold inv_mix_key_on, AesSpec.inv_mix_columns.
  - unfold inv_mix_key. rewrite v8_of_v8 by done. block_cases k Hk.
    erewrite !inv_mix_word_get by (reflexivity || done). cbn [mbind option_bind].
    by rewrite of_v8_columns.
  - block_cases k Hk. rewrite of_v8_columns by done.
    unfold inv_mix_key_risc, of_v8. cbn [take drop mapM word_of].
    by rewrite !inv_mix_word_risc_get by done.
Qed.

(** the round keys in the order decryption uses them, the inner ones through [g] *)
Definition dec_keys (g : list Z → list Z) (ks : list (list Z)) : list (list Z) :=
  match ks with
  | [k0; k1; k2; k3; k4; k5; k6; k7; k8; k9; k10] =>
      [k10; g k9; g k8; g k7; g k6; g k5; g k4; g k3; g k2; g k1; k0]
  | _ => ks
  end.

(** the two loops, for any operation [h] on a round key *)
Lemma dec_key_loops (h : v128_t → option v128_t) k0 k1 k2 k3 k4 k5 k6 k7 k8 k9 k10
    m1 m2 m3 m4 m5 m6 m7 m8 m9 :
  h k1 = Some m1 → h k2 = Some m2 → h k3 = Some m3 → h k4 = Some m4 → h k5 = Some m5 →
  h k6 = Some m6 → h k7 = Some m7 → h k8 = Some m8 → h k9 = Some m9 →
  (ks ← for_range 0 5 (λ i ks,
     tmp ← aget ks (10 - i); ki ← aget ks i;
     ks ← aset ks (10 - i) ki; aset ks i tmp) [k0; k1; k2; k3; k4; k5; k6; k7; k8; k9; k10];
   for_range 1 10 (λ i ks, k ← aget ks i; k ← h k; aset ks i k) ks) =
  Some [k10; m9; m8; m7; m6; m5; m4; m3; m2; m1; k0].
Proof.
  intros E1 E2 E3 E4 E5 E6 E7 E8 E9.
  transitivity (for_range 1 10 (λ i ks, k ← aget ks i; k ← h k; aset ks i k)
    [k10; k9; k8; k7; k6; k5; k4; k3; k2; k1; k0]); [reflexivity|].
  unfold for_range. change (Z.to_nat (10 - 1)) with 9%nat. cbn [for_up].
  repeat (match goal with |- context [aget ?l ?i] =>
    let r := eval cbv in i in change (aget l i) with (aget l r) end; agets;
    first [rewrite E9|rewrite E8|rewrite E7|rewrite E6|rewrite E5|rewrite E4|rewrite E3
          |rewrite E2|rewrite E1]; cbn [mbind option_bind];
    match goal with |- context [aset ?l ?i ?x] =>
      let r := eval cbv [aset Z.leb Z.ltb Z.compare Pos.compare Pos.compare_cont andb
                         length Z.of_nat Pos.of_succ_nat Pos.succ Z.to_nat Pos.to_nat
                         Pos.iter_op Nat.add insert list_insert Z.add Pos.add] in (aset l i x) in
      change (aset l i x) with r end; cbn [mbind option_bind]).
  reflexivity.
Qed.

Lemma expand_decryption_spec e k :
  block k →
  aes_expand_decryption_key e (of_v8 e k) =
    Some (map (of_v8 e) (dec_keys AesSpec.inv_mix_columns (AesSpec.key_expansion k))).
Proof.
  intros Hk. unfold aes_expand_decryption_key.
  destruct (expand_encryption_spec e k Hk) as (-> & Hb & Hl). rewrite Some_bind.
  revert Hb Hl. generalize (AesSpec.key_expansion k). intros ks Hb Hl.
  apply list11_inv in Hl as (k0 & k1 & k2 & k3 & k4 & k5 & k6 & k7 & k8 & k9 & k10 & ->).
  rewrite !Forall_cons_iff in Hb.
  destruct Hb as (? & ? & ? & ? & ? & ? & ? & ? & ? & ? & ? & _).
  generalize (inv_mix_key_spec e). generalize (inv_mix_key_on e), (of_v8 e), AesSpec.inv_mix_columns.
  intros h f g Hm. cbn [map dec_keys]. by apply (dec_key_loops h); apply Hm.
Qed.

(** ** Decryption *)

Lemma inv_mix_column_xor a b c d a' b' c' d' :
  is_word 8 a → is_word 8 b → is_word 8 c → is_word 8 d →
  is_word 8 a' → is_word 8 b' → is_word 8 c' → is_word 8 d' →
  AesSpec.inv_mix_column (a ^^ a') (b ^^ b') (c ^^ c') (d ^^ d') =
    xor_bytes (AesSpec.inv_mix_column a b c d) (AesSpec.inv_mix_column a' b' c' d').
Proof.
  intros. unfold AesSpec.inv_mix_column, xor_bytes. cbn [zip_with].
  rewrite !gmul_additive by done.
  assert (∀ p q r s p' q' r' s', (p ^^ p') ^^ (q ^^ q') ^^ (r ^^ r') ^^ (s ^^ s') =
    (p ^^ q ^^ r ^^ s) ^^ (p' ^^ q' ^^ r' ^^ s')) as Hx.
  { intros. apply Z.bits_inj'. intros n _. rewrite !Z.lxor_spec. btauto. }
  by rewrite !Hx.
Qed.

Lemma xor_bytes_app a b c d :
  length a = length c → xor_bytes (a ++ b) (c ++ d) = xor_bytes a c ++ xor_bytes b d.
Proof. intros Hl. unfold xor_bytes. by apply zip_with_app. Qed.

Lemma inv_mix_columns_xor o k :
  block o → block k →
  AesSpec.inv_mix_columns (xor_bytes o k) =
    xor_bytes (AesSpec.inv_mix_columns o) (AesSpec.inv_mix_columns k).
Proof.
  intros Ho Hk. block_cases o Ho. block_cases k Hk. unfold AesSpec.inv_mix_columns.
  unfold xor_bytes at 1. cbn [zip_with AesSpec.on_columns]. rewrite !inv_mix_column_xor by done.
  by rewrite !xor_bytes_app by done.
Qed.

Lemma eq_inv_round_mix o k :
  block o → block k →
  eq_inv_round o (AesSpec.inv_mix_columns k) =
    AesSpec.inv_mix_columns (xor_bytes (AesSpec.inv_sub_bytes (AesSpec.inv_shift_rows o)) k).
Proof.
  intros Ho Hk. unfold eq_inv_round. symmetry. apply inv_mix_columns_xor; auto with blocks.
Qed.

Lemma aes_decrypt_spec e c ks :
  block c → Forall block ks → length ks = 11%nat →
  aes_decrypt e (of_v8 e c) (map (of_v8 e) (dec_keys AesSpec.inv_mix_columns ks)) = Some (of_v8 e (AesSpec.inv_cipher ks c)).
Proof.
  intros Hc Hks Hl.
  apply list11_inv in Hl as (k0 & k1 & k2 & k3 & k4 & k5 & k6 & k7 & k8 & k9 & k10 & ->).
  rewrite !Forall_cons_iff in Hks.
  destruct Hks as (? & ? & ? & ? & ? & ? & ? & ? & ? & ? & ? & _).
  unfold aes_decrypt. cbn [map dec_keys AesSpec.inv_cipher AesSpec.inv_rounds].
  agets. rewrite v128_xor_of_v8 by done.
  do 9 (rewrite inv_round_on_spec by auto 12 with blocks; cbn [mbind option_bind]; agets).
  rewrite inv_final_round_on_spec by auto 12 with blocks.
  do 2 f_equal. unfold eq_inv_final_round, AesSpec.inv_round, AesSpec.inv_final_round.
  rewrite !eq_inv_round_mix by auto 30 with blocks. done.
Qed.

Lemma xor_bytes_cancel o k : length o = length k → xor_bytes (xor_bytes o k) k = o.
Proof.
  revert k. induction o as [|x o IH]; intros [|y k] Hl; try done.
  simpl in Hl. injection Hl as Hl. cbn [xor_bytes zip_with]. f_equal; [|by apply IH].
  by rewrite Z.lxor_assoc, Z.lxor_nilpotent, Z.lxor_0_r.
Qed.

Lemma block_xor_cancel o k : block o → block k → xor_bytes (xor_bytes o k) k = o.
Proof. intros [Ho _] [Hk _]. apply xor_bytes_cancel. congruence. Qed.

Lemma inv_rounds_rounds ks o :
  Forall block ks → block o → AesSpec.inv_rounds ks (AesSpec.rounds ks o) = o.
Proof.
  intros Hks. revert o. induction Hks as [|k ks Hk Hks IH]; intros o Ho; [done|].
  destruct ks as [|k' ks].
  - cbn [AesSpec.rounds AesSpec.inv_rounds]. unfold AesSpec.inv_final_round, AesSpec.final_round.
    rewrite block_xor_cancel by auto with blocks. by apply inv_sub_shift_comm.
  - change (AesSpec.rounds (k :: k' :: ks) o) with (AesSpec.rounds (k' :: ks) (AesSpec.round o k)).
    change (AesSpec.inv_round (AesSpec.inv_rounds (k' :: ks)
      (AesSpec.rounds (k' :: ks) (AesSpec.round o k))) k = o).
    rewrite IH by auto with blocks. unfold AesSpec.inv_round, AesSpec.round.
    rewrite block_xor_cancel by auto with blocks. rewrite inv_mix_mix by auto with blocks.
    by apply inv_sub_shift_comm.
Qed.

Lemma inv_cipher_cipher ks o :
  Forall block ks → block o → AesSpec.inv_cipher ks (AesSpec.cipher ks o) = o.
Proof.
  intros Hks Ho. destruct Hks as [|k ks Hk Hks]; [done|].
  cbn [AesSpec.cipher AesSpec.inv_cipher]. rewrite inv_rounds_rounds by auto with blocks.
  by apply block_xor_cancel.
Qed.

Lemma block_inv_cipher ks o :
  Forall block ks → block o → block (AesSpec.inv_cipher ks o).
Proof.
  intros Hks Ho. destruct Hks as [|k ks Hk Hks]; [done|]. cbn [AesSpec.inv_cipher].
  apply block_xor; [|done]. clear Hk. induction Hks as [|k' ks Hk' Hks IH]; [done|].
  destruct ks as [|k2 ks].
  - cbn [AesSpec.inv_rounds]. unfold AesSpec.inv_final_round. auto with blocks.
  - change (block (AesSpec.inv_round (AesSpec.inv_rounds (k2 :: ks) o) k')).
    unfold AesSpec.inv_round. auto with blocks.
Qed.

Lemma copy_octet_string_spec s :
  (16 <= length s)%nat → v128_copy_octet_string s = Some (of_v8 little (take 16 s)).
Proof. intros Hs. unfold v128_copy_octet_string. by rewrite decide_True. Qed.

(** ** Properties *)

(** C23: the code is AES-128: in both builds, for every key and block,
    [aes_expand_encryption_key] followed by [aes_encrypt] runs without an access
    outside of a table or an array and returns the block whose octets are the
    FIPS 197 encryption. *)
Theorem aes_encrypt_fips197 e key x :
  v128_wf key → v128_wf x →
  ∃ ks y, aes_expand_encryption_key e key = Some ks ∧ aes_encrypt e x ks = Some y ∧
    v128_wf y ∧ v8 e y = AesSpec.cipher (AesSpec.key_expansion (v8 e key)) (v8 e x).
Proof.
  intros Hk Hx. pose proof (v8_block e key Hk) as Bk. pose proof (v8_block e x Hx) as Bx.
  destruct (expand_encryption_spec e (v8 e key) Bk) as (E & Hb & Hl).
  rewrite of_v8_v8 in E by done.
  destruct (aes_encrypt_spec e (v8 e x) _ Bx Hb Hl) as [E2 Bc]. rewrite of_v8_v8 in E2 by done.
  eexists _, _. split_and!; [done|done|by apply of_v8_wf|by apply v8_of_v8].
Qed.

(** the example of FIPS 197, appendix C.1 *)
Definition fips_key : list Z := [0x00; 0x01; 0x02; 0x03; 0x04; 0x05; 0x06; 0x07;
  0x08; 0x09; 0x0a; 0x0b; 0x0c; 0x0d; 0x0e; 0x0f].
Definition fips_plain : list Z := [0x00; 0x11; 0x22; 0x33; 0x44; 0x55; 0x66; 0x77;
  0x88; 0x99; 0xaa; 0xbb; 0xcc; 0xdd; 0xee; 0xff].
Definition fips_cipher : list Z := [0x69; 0xc4; 0xe0; 0xd8; 0x6a; 0x7b; 0x04; 0x30;
  0xd8; 0xcd; 0xb7; 0x80; 0x70; 0xb4; 0xc5; 0x5a].

Lemma aes_encrypt_fips197_witness :
  ∃ ks y, aes_expand_encryption_key big (of_v8 big fips_key) = Some ks ∧
    aes_encrypt big (of_v8 big fips_plain) ks = Some y ∧ v8 big y = fips_cipher.
Proof.
  destruct (aes_encrypt_fips197 big (of_v8 big fips_key) (of_v8 big fips_plain))
    as (ks & y & E1 & E2 & _ & E3); [split; [done|eval_dec]..|].
  exists ks, y. split_and!; [exact E1|exact E2|]. rewrite E3. by vm_compute.
Defined.

(** the comment of the source that the indexes of [aes_inv_round] are wrong stands in the
    big-endian branch, whose indexes are right (the theorem below); they are wrong in
    the little-endian branch, which shifts the rows as encryption does *)
Example risc_little_indexes_wrong :
  aes_inv_round_risc_little [0; 0x100; 0x200; 0x300] [0; 0; 0; 0] ≠ aes_inv_round [0; 0x100; 0x200; 0x300] [0; 0; 0; 0].
Proof. vm_compute. discriminate. Qed.

(** C33: decryption undoes encryption: in both supported builds, with the round keys of
    [aes_expand_decryption_key], [aes_decrypt] is the FIPS 197 inverse cipher, and
    it returns every block that [aes_encrypt] encrypted with the same key.  So the
    indexes of the big-endian [aes_inv_round] are right, against its comment. *)
Theorem aes_decrypt_inverts e key x :
  v128_wf key → v128_wf x →
  ∃ ks y ds, aes_expand_encryption_key e key = Some ks ∧ aes_encrypt e x ks = Some y ∧
    aes_expand_decryption_key e key = Some ds ∧ aes_decrypt e y ds = Some x ∧
    ∀ c, v128_wf c → ∃ p, aes_decrypt e c ds = Some p ∧
      p = of_v8 e (AesSpec.inv_cipher (AesSpec.key_expansion (v8 e key)) (v8 e c)).
Proof.
  intros Hk Hx. pose proof (v8_block e key Hk) as Bk. pose proof (v8_block e x Hx) as Bx.
  destruct (expand_encryption_spec e (v8 e key) Bk) as (E & Hb & Hl).
  pose proof (expand_decryption_spec e (v8 e key) Bk) as Ed.
  rewrite of_v8_v8 in E, Ed by done.
  destruct (aes_encrypt_spec e (v8 e x) _ Bx Hb Hl) as [E2 Bc]. rewrite of_v8_v8 in E2 by done.
  eexists _, _, _. split_and!; [done|done|done| |].
  - rewrite aes_decrypt_spec by done. rewrite inv_cipher_cipher by done. by rewrite of_v8_v8.
  - intros c Hc. eexists. split; [|reflexivity]. rewrite <-(of_v8_v8 e c) at 1 by done.
    apply aes_decrypt_spec; [by apply v8_block|done..].
Qed.

Lemma aes_decrypt_inverts_witness :
  ∃ ks y ds, aes_expand_encryption_key little (of_v8 little fips_key) = Some ks ∧
    aes_encrypt little (of_v8 little fips_plain) ks = Some y ∧
    aes_expand_decryption_key little (of_v8 little fips_key) = Some ds ∧
    aes_decrypt little y ds = Some (of_v8 little fips_plain).
Proof.
  destruct (aes_decrypt_inverts little (of_v8 little fips_key) (of_v8 little fips_plain))
    as (ks & y & ds & E1 & E2 & E3 & E4 & _); [split; [done|eval_dec]..|].
  exists ks, y, ds. exact (conj E1 (conj E2 (conj E3 E4))).
Defined.
