(* ===== verification/AesIcm.v ===== *)
(** * AES integer counter mode

    Models [crypto/cipher/aes_icm.c], the cipher of SRTP, in the little-endian
    build, and proves that it is AES-CM of RFC 3711: the keystream is the AES
    encryption of consecutive 128-bit integers, whatever the pieces in which the
    data is handed over, and up to the length at which the code stops.

    A vector [v128_t] is its four words; [v8 little] are its octets. *)

From Stdlib Require Import ZifyNat.
From S2P Require Import Prelude Datatypes Gf28 AesTables Aes Cipher.

(** ** The code *)

Record aes_icm_ctx_t := mk_icm {
  counter : v128_t;
  offset : v128_t;
  keystream_buffer : v128_t;
  expanded_key : list v128_t;
  bytes_in_buffer : Z }.

(** [x.v8[i] = o] *)
Definition set_v8 (x : v128_t) (i o : Z) : option v128_t :=
  l ← aset (v8 little x) i o; Some (of_v8 little l).

(** [x.v16[i]] and [x.v64[i]] on a little-endian host *)
Definition v16_get (x : v128_t) (i : Z) : option Z :=
  a ← aget (v8 little x) (2 * i); b ← aget (v8 little x) (2 * i + 1); Some (le_val [a; b]).

Definition v64_get (x : v128_t) (i : Z) : option Z :=
  a ← aget x (2 * i); b ← aget x (2 * i + 1); Some (a ||| Z.shiftl b 32).

Definition v64_set (x : v128_t) (i w : Z) : option v128_t :=
  x ← aset x (2 * i) (u32 w); aset x (2 * i + 1) (u32 (w >> 32)).

Definition aes_icm_alloc_ismacryp (mem : option aes_icm_ctx_t) (ref_count key_len forIsmacryp : Z)
  : err_status_t * option (cipher_t aes_icm_ctx_t) * Z :=
  if decide (forIsmacryp = 0 ∧ key_len ≠ 30) then (err_status_bad_param, None, ref_count) else
  match mem with
  | None => (err_status_alloc_fail, None, ref_count)
  | Some block => (err_status_ok, Some (mk_cipher block key_len), ref_count + 1)
  end.

Definition aes_icm_alloc (mem : option aes_icm_ctx_t) (ref_count key_len : Z)
  : err_status_t * option (cipher_t aes_icm_ctx_t) * Z :=
  aes_icm_alloc_ismacryp mem ref_count key_len 0.

(** the block is all zero when it is given back *)
Definition aes_icm_dealloc (c : cipher_t aes_icm_ctx_t) (ref_count : Z)
  : err_status_t * cipher_t aes_icm_ctx_t * Z :=
  let zero := [0; 0; 0; 0] in
  (err_status_ok, mk_cipher (mk_icm zero zero zero (replicate 11 zero) 0) 0, ref_count - 1).

(** [key] is the memory at the pointer: the code reads 32 octets of it *)
Definition aes_icm_context_init (c : aes_icm_ctx_t) (key : list Z)
  : option (err_status_t * aes_icm_ctx_t) :=
  counter ← v128_copy_octet_string (drop 16 key);
  offset ← v128_copy_octet_string (drop 16 key);
  offset ← set_v8 offset 15 0; offset ← set_v8 offset 14 0;
  counter ← set_v8 counter 15 0; counter ← set_v8 counter 14 0;
  tmp_key ← v128_copy_octet_string key;
  expanded_key ← aes_expand_encryption_key little tmp_key;
  Some (err_status_ok, mk_icm counter offset (keystream_buffer c) expanded_key 0).

Definition aes_icm_set_octet (c : aes_icm_ctx_t) (octet_num : Z)
  : option (err_status_t * aes_icm_ctx_t) :=
  let tail_num := octet_num mod 16 in
  let block_num := octet_num / 16 in
  w ← v64_get (offset c) 0;
  counter ← v64_set (counter c) 0 (w ^^ block_num);
  if decide (tail_num ≠ 0) then
    keystream_buffer ← aes_encrypt little (v128_copy (keystream_buffer c) counter)
                         (expanded_key c);
    Some (err_status_ok, mk_icm counter (offset c) keystream_buffer (expanded_key c) (16 - tail_num))
  else
    Some (err_status_ok, mk_icm counter (offset c) (keystream_buffer c) (expanded_key c) 0).

(** [iv] is the memory at the pointer, read as one vector *)
Definition aes_icm_set_iv (c : aes_icm_ctx_t) (iv : list Z)
  : option (err_status_t * aes_icm_ctx_t) :=
  nonce ← v128_copy_octet_string iv;
  let counter := v128_xor (offset c) nonce in
  Some (err_status_ok, mk_icm counter (offset c) (keystream_buffer c) (expanded_key c) 0).

Definition aes_icm_advance_ismacryp (c : aes_icm_ctx_t) (forIsmacryp : Z)
  : option aes_icm_ctx_t :=
  keystream_buffer ← aes_encrypt little (v128_copy (keystream_buffer c) (counter c))
                       (expanded_key c);
  counter ← (if decide (forIsmacryp ≠ 0) then
      temp ← aget (counter c) 3;
      aset (counter c) 3 (bswap32 (u32 (bswap32 temp + 1)))
    else
      o ← aget (v8 little (counter c)) 15;
      counter ← set_v8 (counter c) 15 (u8 (o + 1));
      if decide (u8 (o + 1) = 0) then
        o ← aget (v8 little counter) 14;
        set_v8 counter 14 (u8 (o + 1))
      else Some counter);
  Some (mk_icm counter (offset c) keystream_buffer (expanded_key c) 16).

Definition aes_icm_advance (c : aes_icm_ctx_t) : option aes_icm_ctx_t :=
  aes_icm_advance_ismacryp c 0.

(** [for (i = lo; i < hi; i++) *buf++ ^= ks[i]], [pos] the index of [buf] *)
Definition xor_octets (ks : list Z) (lo hi : Z) (buf : list Z) (pos : Z)
  : option (list Z * Z) :=
  for_range lo hi (λ i '(buf, pos),
    k ← aget ks i; b ← aget buf pos;
    buf ← aset buf pos (b ^^ k); Some (buf, pos + 1)) (buf, pos).

Definition load32 (buf : list Z) (pos : Z) : option Z :=
  a ← aget buf pos; b ← aget buf (pos + 1); c ← aget buf (pos + 2); d ← aget buf (pos + 3);
  Some (le_val [a; b; c; d]).

Definition store32 (buf : list Z) (pos w : Z) : option (list Z) :=
  for_range 0 4 (λ i buf, x ← aget (le_bytes 4 w) i; aset buf (pos + i) x) buf.

(** the same for a buffer that is aligned, word by word *)
Definition xor_words (ks : v128_t) (buf : list Z) (pos : Z) : option (list Z * Z) :=
  for_range 0 4 (λ i '(buf, pos),
    k ← aget ks i; b ← load32 buf pos;
    buf ← store32 buf pos (b ^^ k); Some (buf, pos + 4)) (buf, pos).

(** [addr] is the address of the buffer, [buf] the memory there *)
Definition aes_icm_encrypt_ismacryp (addr : Z) (c : aes_icm_ctx_t) (buf : list Z)
    (enc_len forIsmacryp : Z) : option (err_status_t * aes_icm_ctx_t * list Z * Z) :=
  let bytes_to_encr := enc_len in
  block_index ← v16_get (counter c) 7;
  if decide (forIsmacryp = 0 ∧ u32 (bytes_to_encr + bswap16 block_index) > 0xffff)
  then Some (err_status_terminus, c, buf, enc_len) else
  if decide (bytes_to_encr <= bytes_in_buffer c) then
    '(buf, _) ← xor_octets (v8 little (keystream_buffer c)) (16 - bytes_in_buffer c)
                  (16 - bytes_in_buffer c + bytes_to_encr) buf 0;
    Some (err_status_ok,
          mk_icm (counter c) (offset c) (keystream_buffer c) (expanded_key c)
                 (bytes_in_buffer c - bytes_to_encr), buf, enc_len)
  else
    '(buf, pos) ← xor_octets (v8 little (keystream_buffer c)) (16 - bytes_in_buffer c) 16 buf 0;
    let bytes_to_encr := bytes_to_encr - bytes_in_buffer c in
    let c := mk_icm (counter c) (offset c) (keystream_buffer c) (expanded_key c) 0 in
    '(c, buf, pos) ← for_range 0 (bytes_to_encr / 16) (λ _ '(c, buf, pos),
        c ← aes_icm_advance_ismacryp c forIsmacryp;
        '(buf, pos) ← (if decide ((addr + pos) & 3 ≠ 0)
           then xor_octets (v8 little (keystream_buffer c)) 0 16 buf pos
           else xor_words (keystream_buffer c) buf pos);
        Some (c, buf, pos)) (c, buf, pos);
    if decide (bytes_to_encr & 0xf ≠ 0) then
      c ← aes_icm_advance_ismacryp c forIsmacryp;
      '(buf, _) ← xor_octets (v8 little (keystream_buffer c)) 0 (bytes_to_encr & 0xf) buf pos;
      Some (err_status_ok,
            mk_icm (counter c) (offset c) (keystream_buffer c) (expanded_key c)
                   (16 - (bytes_to_encr & 0xf)), buf, enc_len)
    else
      Some (err_status_ok,
            mk_icm (counter c) (offset c) (keystream_buffer c) (expanded_key c) 0, buf, enc_len).

Definition aes_icm_encrypt (addr : Z) (c : aes_icm_ctx_t) (buf : list Z) (enc_len : Z)
  : option (err_status_t * aes_icm_ctx_t * list Z * Z) :=
  aes_icm_encrypt_ismacryp addr c buf enc_len 0.

Definition aes_icm_output (addr : Z) (c : aes_icm_ctx_t) (buffer : list Z)
    (num_octets_to_output : Z) : option (err_status_t * aes_icm_ctx_t * list Z) :=
  let len := u32 num_octets_to_output in
  buffer ← octet_string_set_to_zero buffer num_octets_to_output;
  '(status, c, buffer, _) ← aes_icm_encrypt addr c buffer len;
  Some (status, c, buffer).

Definition aes_icm_test_case_0_key : list Z := [
  0x2b; 0x7e; 0x15; 0x16; 0x28; 0xae; 0xd2; 0xa6;
  0xab; 0xf7; 0x15; 0x88; 0x09; 0xcf; 0x4f; 0x3c;
  0xf0; 0xf1; 0xf2; 0xf3; 0xf4; 0xf5; 0xf6; 0xf7;
  0xf8; 0xf9; 0xfa; 0xfb; 0xfc; 0xfd].

Definition aes_icm_test_case_0_ciphertext : list Z := [
  0xe0; 0x3e; 0xad; 0x09; 0x35; 0xc9; 0x5e; 0x80;
  0xe1; 0x66; 0xb1; 0x6d; 0xd9; 0x2b; 0x4e; 0xb4;
  0xd2; 0x35; 0x13; 0x16; 0x2b; 0x02; 0xd0; 0xf7;
  0x2a; 0x43; 0xa2; 0xfe; 0x4a; 0x5f; 0x97; 0xab].

(** [past] is the memory after the array of the key, of which the code reads
    two octets *)
Definition aes_icm_test_case_0 (past : list Z) : cipher_test_case_t :=
  mk_cipher_test 30 (aes_icm_test_case_0_key ++ past) (replicate 16 0)
    32 (replicate 32 0) 32 aes_icm_test_case_0_ciphertext.

(** the table of functions, for a buffer address and the octets after the key of
    the test case *)
Definition aes_icm (addr : Z) (past : list Z) : CipherType aes_icm_ctx_t := {|
  cipher_alloc_fn := aes_icm_alloc;
  cipher_dealloc_fn := aes_icm_dealloc;
  cipher_init_fn st key _ := aes_icm_context_init st key;
  cipher_encrypt_fn := aes_icm_encrypt addr;
  cipher_decrypt_fn := aes_icm_encrypt addr;
  cipher_set_iv_fn := aes_icm_set_iv;
  cipher_test_data := [aes_icm_test_case_0 past] |}.

(** ** The reference: AES in counter mode (RFC 3711, section 4.1.1)

    Keystream block number [i] is the encryption of the 128-bit integer
    [iv0 + i], most significant octet first. *)

Module AesCm.

Definition key_block (k : list Z) (iv0 : list Z) (i : Z) : list Z :=
  AesSpec.cipher (AesSpec.key_expansion k) (be_bytes 16 (be_val iv0 + i)).

Definition key_octet (k : list Z) (iv0 : list Z) (n : nat) : Z :=
  nth (n mod 16) (key_block k iv0 (Z.of_nat (n / 16))) 0.

End AesCm.

(** proofs use the block cipher through its lemmas only *)
#[local] Opaque AesSpec.cipher AesSpec.key_expansion.

(** the session key, the salt (14 octets times 2^16) and the first counter *)
Definition icm_key (key : list Z) : list Z := take 16 key.
Definition icm_salt (key : list Z) : list Z := take 14 (drop 16 key) ++ [0; 0].
Definition icm_iv0 (key iv : list Z) : list Z := xor_bytes (icm_salt key) (take 16 iv).

(** ** Adding octets into the buffer *)

Lemma xor_octets_mid ks lo pre mid post n :
  0 <= lo → (Z.to_nat lo + length mid <= length ks)%nat → n = Z.of_nat (length mid) →
  xor_octets ks lo (lo + n) (pre ++ mid ++ post) (Z.of_nat (length pre)) =
    Some (pre ++ xor_bytes mid (drop (Z.to_nat lo) ks) ++ post, Z.of_nat (length pre) + n).
Proof.
  intros Hlo Hk ->. unfold xor_octets.
  loop (λ i '(buf, pos), pos = Z.of_nat (length pre) + (i - lo) ∧
    buf = pre ++ xor_bytes (take (Z.to_nat (i - lo)) mid) (drop (Z.to_nat lo) ks) ++
          drop (Z.to_nat (i - lo)) mid ++ post) as ([buf pos] & -> & -> & ->); [lia| | |].
  - rewrite Z.sub_diag. split; [lia|done].
  - intros i [buf pos] Hi [-> ->].
    destruct (lookup_lt_is_Some_2 ks (Z.to_nat i)) as [k Hki]; [lia|].
    destruct (lookup_lt_is_Some_2 mid (Z.to_nat (i - lo))) as [b Hb]; [lia|].
    rewrite !aget_lookup, Hki by lia. cbn [mbind option_bind].
    set (done' := xor_bytes (take (Z.to_nat (i - lo)) mid) (drop (Z.to_nat lo) ks)).
    assert (length done' = Z.to_nat (i - lo)) as Hd.
    { unfold done'. rewrite length_xor_bytes, length_take, length_drop. lia. }
    rewrite (drop_S _ _ _ Hb), app_assoc. cbn [app].
    replace (Z.to_nat (Z.of_nat (length pre) + (i - lo))) with (length (pre ++ done'))
      by (rewrite length_app; lia).
    rewrite (list_lookup_middle _ _ _ _ eq_refl). cbn [mbind option_bind].
    rewrite aset_Some by (rewrite !length_app; simpl; lia).
    replace (Z.to_nat (Z.of_nat (length pre) + (i - lo))) with (length (pre ++ done'))
      by (rewrite length_app; lia).
    cbn [mbind option_bind app]. eexists. split; [done|]. split; [lia|].
    rewrite (insert_app_r_alt (pre ++ done')), Nat.sub_diag by lia. cbn [insert list_insert app].
    replace (Z.to_nat (i + 1 - lo)) with (S (Z.to_nat (i - lo))) by lia.
    rewrite (take_S_r _ _ _ Hb), <-app_assoc. f_equal. unfold xor_bytes at 1.
    rewrite zip_with_app_l, <-app_assoc. f_equal.
    { unfold done', xor_bytes. rewrite zip_with_take_r. done. }
    rewrite length_take, drop_drop, Nat.min_l by lia.
    rewrite (drop_S ks k) by (by replace (Z.to_nat lo + _)%nat with (Z.to_nat i) by lia). done.
  - replace (Z.to_nat (lo + _ - lo)) with (length mid) by lia.
    rewrite firstn_all, drop_all. do 2 f_equal. lia.
Qed.

Lemma load32_mid pre a b c d post :
  load32 (pre ++ a :: b :: c :: d :: post) (Z.of_nat (length pre)) = Some (le_val [a; b; c; d]).
Proof.
  unfold load32. rewrite <-(Z.add_0_r (Z.of_nat (length pre))) at 1.
  by rewrite !aget_app_r by lia.
Qed.

Lemma store32_mid pre a b c d post w :
  store32 (pre ++ a :: b :: c :: d :: post) (Z.of_nat (length pre)) w =
    Some (pre ++ le_bytes 4 w ++ post).
Proof.
  unfold store32. destruct (list4_inv (le_bytes 4 w)) as (p & q & r & s & ->);
    [by autorewrite with lens|].
  unfold for_range. change (Z.to_nat (4 - 0)) with 4%nat. cbn [for_up].
  assert (∀ i x l, aget [p; q; r; s] i = Some x → 0 <= i < 4 → length l = (4 + length post)%nat →
    (x ← aget [p; q; r; s] i; aset (pre ++ l) (Z.of_nat (length pre) + i) x) =
      Some (pre ++ <[Z.to_nat i := x]> l)) as Hset.
  { intros i x l -> Hi Hl. by rewrite Some_bind, aset_app_r, aset_Some by lia. }
  rewrite (Hset 0 p) by (done || lia). rewrite Some_bind.
  rewrite (Hset (0 + 1) q) by (done || lia). rewrite Some_bind.
  rewrite (Hset (0 + 1 + 1) r) by (done || lia). rewrite Some_bind.
  rewrite (Hset (0 + 1 + 1 + 1) s) by (done || lia).
  reflexivity.
Qed.

(** the two ways to add a block of keystream are the same *)
Lemma xor_words_mid ks pre mid post :
  v128_wf ks → block mid →
  xor_words ks (pre ++ mid ++ post) (Z.of_nat (length pre)) =
    Some (pre ++ xor_bytes mid (v8 little ks) ++ post, Z.of_nat (length pre) + 16).
Proof.
  intros (k0 & k1 & k2 & k3 & -> & W0 & W1 & W2 & W3)%v128_wf_inv
    (m0 & m1 & m2 & m3 & -> & (L0 & L1 & L2 & L3) & B0 & B1 & B2 & B3)%block_inv.
  apply list4_inv in L0 as (a0 & a1 & a2 & a3 & ->), L1 as (b0 & b1 & b2 & b3 & ->),
    L2 as (c0 & c1 & c2 & c3 & ->), L3 as (d0 & d1 & d2 & d3 & ->).
  assert (∀ k w x y z t pre post, is_word 32 w → is_bytes [x; y; z; t] →
    aget [k0; k1; k2; k3] k = Some w →
    (k ← aget [k0; k1; k2; k3] k; b ← load32 (pre ++ [x; y; z; t] ++ post) (Z.of_nat (length pre));
     buf ← store32 (pre ++ [x; y; z; t] ++ post) (Z.of_nat (length pre)) (b ^^ k);
     Some (buf, Z.of_nat (length pre) + 4)) =
    Some ((pre ++ xor_bytes [x; y; z; t] (le_bytes 4 w)) ++ post,
      Z.of_nat (length (pre ++ xor_bytes [x; y; z; t] (le_bytes 4 w))))) as Hstep.
  { intros k w x y z t pre' post' Hw Hb ->. rewrite Some_bind.
    cbn [app]. rewrite load32_mid, Some_bind, store32_mid, Some_bind, <-app_assoc.
    f_equal. f_equal.
    - f_equal. f_equal. rewrite <-(word_of_octets_of little w Hw) at 1.
      change (le_val [x; y; z; t]) with (word_of little [x; y; z; t]).
      destruct (list4_inv (octets_of little w)) as (o0 & o1 & o2 & o3 & Eo);
        [unfold octets_of; by autorewrite with lens|].
      assert (is_bytes [o0; o1; o2; o3]) as Ho by (rewrite <-Eo; apply is_bytes_rev, be_bytes_range).
      change (le_bytes 4 w) with (octets_of little w). rewrite Eo.
      rewrite word_of_xor by done. change (le_bytes 4) with (octets_of little).
      rewrite octets_of_word_of; [done|done|]. by apply (is_bytes_xor [x; y; z; t] [o0; o1; o2; o3]).
    - rewrite length_app, length_xor_bytes, length_le_bytes. simpl. lia. }
  unfold xor_words, for_range. change (Z.to_nat (4 - 0)) with 4%nat. cbn [for_up].
  rewrite <-!app_assoc.
  rewrite (Hstep 0 k0), Some_bind by done. rewrite (Hstep (0 + 1) k1), Some_bind by done.
  rewrite (Hstep (0 + 1 + 1) k2), Some_bind by done.
  rewrite (Hstep (0 + 1 + 1 + 1) k3), Some_bind by done.
  unfold v8. cbn [map concat octets_of]. rewrite app_nil_r.
  rewrite !xor_bytes_app by by autorewrite with lens.
  f_equal. f_equal; [by rewrite <-!app_assoc|].
  rewrite !length_app, !length_xor_bytes, !length_le_bytes. simpl. lia.
Qed.

(** ** The counter *)

Lemma counter_octets x : be_bytes 16 x = be_bytes 14 (x >> 16) ++ [u8 (x >> 8); u8 x].
Proof. rewrite (be_bytes_app 14 2). simpl. by rewrite Z.shiftr_0_r. Qed.

Lemma counter_block x : block (be_bytes 16 x).
Proof. split; [apply length_be_bytes|apply be_bytes_range]. Qed.

#[export] Hint Resolve counter_block : blocks.

(** the block counter the code compares with the length is the low half-word *)
Lemma block_index_spec x :
  (i ← v16_get (of_v8 little (be_bytes 16 x)) 7; Some (bswap16 i)) = Some (u16 x).
Proof.
  unfold v16_get. rewrite v8_of_v8, counter_octets by apply counter_block.
  rewrite !aget_lookup by lia. change (Z.to_nat (2 * 7)) with (14 + 0)%nat.
  change (Z.to_nat (2 * 7 + 1)) with (14 + 1)%nat.
  rewrite !lookup_app_r by (rewrite length_be_bytes; lia). rewrite !length_be_bytes.
  cbn [Nat.add Nat.sub lookup list_lookup mbind option_bind]. f_equal.
  unfold bswap16. rewrite (le_bytes_le_val [_; _]).
  - unfold be_val, wrap. rewrite Z.shiftr_div_pow2 by lia. simpl length.
    change (2 ^ 16) with (2 ^ 8 * 2 ^ 8). rewrite Z.rem_mul_r by lia. lia.
  - repeat constructor; by apply wrap_range.
Qed.

Lemma set_v8_spec o i x o' :
  block o → aset o i x = Some o' → set_v8 (of_v8 little o) i x = Some (of_v8 little o').
Proof. intros Ho E. unfold set_v8. by rewrite v8_of_v8, E. Qed.

Lemma aset_last2 (hi : list Z) a b x :
  length hi = 14%nat →
  aset (hi ++ [a; b]) 15 x = Some (hi ++ [a; x]) ∧ aset (hi ++ [a; b]) 14 x = Some (hi ++ [x; b]).
Proof.
  intros Hl. rewrite !aset_Some by (rewrite length_app; simpl; lia).
  change (Z.to_nat 15) with (14 + 1)%nat. change (Z.to_nat 14) with (14 + 0)%nat.
  rewrite <-Hl, !insert_app_r. done.
Qed.

Lemma aget_last2 (hi : list Z) a b :
  length hi = 14%nat →
  aget (hi ++ [a; b]) 15 = Some b ∧ aget (hi ++ [a; b]) 14 = Some a.
Proof.
  intros Hl. rewrite !aget_lookup by lia.
  change (Z.to_nat 15) with (14 + 1)%nat. change (Z.to_nat 14) with (14 + 0)%nat.
  rewrite !lookup_app_r by lia. by rewrite Hl.
Qed.

(** incrementing octet 15, with a carry into octet 14, adds one *)
Lemma counter_step x :
  u16 x < 65535 →
  (o ← aget (v8 little (of_v8 little (be_bytes 16 x))) 15;
   counter ← set_v8 (of_v8 little (be_bytes 16 x)) 15 (u8 (o + 1));
   if decide (u8 (o + 1) = 0) then
     o ← aget (v8 little counter) 14; set_v8 counter 14 (u8 (o + 1))
   else Some counter) = Some (of_v8 little (be_bytes 16 (x + 1))).
Proof.
  intros Hx. pose proof (counter_block x) as Hb. rewrite v8_of_v8 by done.
  rewrite counter_octets in *.
  set (hi := be_bytes 14 (x >> 16)) in *. assert (length hi = 14%nat) as Hl by apply length_be_bytes.
  rewrite (proj1 (aget_last2 hi _ _ Hl)), Some_bind.
  rewrite (set_v8_spec _ _ _ _ Hb (proj1 (aset_last2 hi _ _ _ Hl))), Some_bind.
  assert (block (hi ++ [u8 (x >> 8); u8 (u8 x + 1)])) as Hb'.
  { split; [by rewrite length_app, Hl|]. apply is_bytes_app. split; [apply be_bytes_range|].
    repeat constructor; by apply wrap_range. }
  rewrite counter_octets.
  assert (be_bytes 14 ((x + 1) >> 16) = hi) as ->.
  { unfold hi. f_equal. rewrite !Z.shiftr_div_pow2 by lia.
    unfold wrap in Hx. change (2 ^ 16) with 65536 in *. symmetry. apply Z.div_unique with (x mod 65536 + 1).
    - pose proof (Z.mod_pos_bound x 65536). lia.
    - pose proof (Z.div_mod x 65536). lia. }
  assert (u8 (u8 x + 1) = u8 (x + 1)) as -> by (unfold wrap; apply Zplus_mod_idemp_l).
  rewrite !Z.shiftr_div_pow2 in * by lia. unfold wrap in *.
  change (2 ^ 16) with 65536 in *. change (2 ^ 8) with 256 in *.
  pose proof (Z.div_mod x 256). pose proof (Z.mod_pos_bound x 256).
  case_decide as Hz.
  - rewrite v8_of_v8 by (by rewrite Zplus_mod_idemp_l in Hb').
    rewrite (proj2 (aget_last2 hi _ _ Hl)), Some_bind.
    rewrite (set_v8_spec (hi ++ _) 14 _ (hi ++ [((x / 256) mod 256 + 1) mod 256; (x + 1) mod 256]));
      [|by rewrite Zplus_mod_idemp_l in Hb'|by apply aset_last2].
    do 4 f_equal. rewrite Zplus_mod_idemp_l. f_equal.
    apply Z.div_unique with 0; [lia|].
    pose proof (Z.div_mod (x + 1) 256). 
    assert (x mod 256 = 255); [|lia].
    rewrite Zplus_mod in Hz. change (1 mod 256) with 1 in Hz.
    destruct (decide (x mod 256 = 255)) as [|Hne]; [done|].
    rewrite Z.mod_small in Hz by lia. lia.
  - do 4 f_equal. f_equal. apply Z.div_unique with (x mod 256 + 1); [|lia].
    destruct (decide (x mod 256 = 255)) as [E|]; [|lia].
    exfalso. apply Hz. rewrite Zplus_mod, E. done.
Qed.

(** ** States of the context *)

Definition icm_key_mem (k : list Z) : Prop := is_bytes k ∧ (32 <= length k)%nat.
Definition icm_iv_mem (iv : list Z) : Prop := is_bytes iv ∧ (16 <= length iv)%nat.

(** the context holds the key [k] *)
Definition icm_keyed (c : aes_icm_ctx_t) (k : list Z) : Prop :=
  icm_key_mem k ∧ offset c = of_v8 little (icm_salt k) ∧
  expanded_key c = map (of_v8 little) (AesSpec.key_expansion (icm_key k)).

(** [q] blocks of keystream have been made *)
Definition icm_core (c : aes_icm_ctx_t) (k iv : list Z) (q : Z) : Prop :=
  icm_keyed c k ∧ icm_iv_mem iv ∧
  counter c = of_v8 little (be_bytes 16 (be_val (icm_iv0 k iv) + q)).

(** blocks needed for [n] octets, and the octets of the last one that are left *)
Definition blocks_for (n : nat) : Z := (Z.of_nat n + 15) / 16.

Definition icm_at (c : aes_icm_ctx_t) (k iv : list Z) (n : nat) : Prop :=
  icm_core c k iv (blocks_for n) ∧ bytes_in_buffer c = (- Z.of_nat n) mod 16 ∧
  ((n mod 16 ≠ 0)%nat →
   keystream_buffer c =
     of_v8 little (AesCm.key_block (icm_key k) (icm_iv0 k iv) (Z.of_nat (n / 16)))).

Abbreviation icm_octet k iv := (AesCm.key_octet (icm_key k) (icm_iv0 k iv)).

Lemma icm_key_block k : icm_key_mem k → block (icm_key k).
Proof. intros [Hb Hl]. split; [unfold icm_key; rewrite length_take; lia|]. unfold icm_key. by words. Qed.

Lemma icm_salt_block k : icm_key_mem k → block (icm_salt k).
Proof.
  intros [Hb Hl]. unfold icm_salt. split; [rewrite length_app, length_take, length_drop; cbn [length]; lia|].
  apply is_bytes_app. split; [by words|]. by apply (is_bytes_replicate 2 0), word_0.
Qed.

Lemma take16_block iv : icm_iv_mem iv → block (take 16 iv).
Proof. intros [Hb Hl]. split; [rewrite length_take; lia|by words]. Qed.

Lemma icm_iv0_block k iv : icm_key_mem k → icm_iv_mem iv → block (icm_iv0 k iv).
Proof. intros Hk Hi. apply block_xor; [by apply icm_salt_block|by apply take16_block]. Qed.

Lemma key_block_block k iv0 i : block k → block (AesCm.key_block k iv0 i).
Proof.
  intros Hk. destruct (expand_encryption_spec little k Hk) as (_ & Hb & Hl).
  apply (aes_encrypt_spec little); [apply counter_block|done|done].
Qed.

#[export] Hint Resolve icm_key_block icm_salt_block take16_block icm_iv0_block
  key_block_block : blocks.

Lemma icm_octet_range k iv n : icm_key_mem k → is_word 8 (icm_octet k iv n).
Proof.
  intros Hk. unfold AesCm.key_octet.
  destruct (key_block_block (icm_key k) (icm_iv0 k iv) (Z.of_nat (n / 16))) as [Hl Hb];
    [by apply icm_key_block|].
  apply (proj1 (List.Forall_nth (is_word 8) _) Hb).
  rewrite Hl. apply Nat.mod_upper_bound. lia.
Qed.

(** a piece of a keystream block is a piece of the keystream *)
Lemma xor_key_block k iv0 (q r : nat) mid :
  block k → (r + length mid <= 16)%nat →
  xor_bytes mid (drop r (AesCm.key_block k iv0 (Z.of_nat q))) =
    xor_stream (AesCm.key_octet k iv0) (16 * q + r) mid.
Proof.
  intros Hk Hr. destruct (key_block_block k iv0 (Z.of_nat q) Hk) as [Hl _].
  apply list_eq. intros j. unfold xor_stream, xor_bytes.
  rewrite lookup_zip_with, list_lookup_imap, lookup_drop.
  destruct (mid !! j) as [x|] eqn:Ex; [|done]. apply lookup_lt_Some in Ex.
  unfold AesCm.key_octet. cbn [fmap option_fmap option_map].
  replace (16 * q + r + j)%nat with (r + j + q * 16)%nat by lia.
  rewrite Nat.div_add, Nat.Div0.mod_add, Nat.div_small, Nat.mod_small, Nat.add_0_l by lia.
  generalize dependent (AesCm.key_block k iv0 (Z.of_nat q)). intros B HB.
  destruct (lookup_lt_is_Some_2 B (r + j)) as [y Hy]; [lia|].
  rewrite Hy. simpl. by rewrite (nth_lookup_Some _ _ _ _ Hy).
Qed.

(** [aes_icm_advance] makes the next block *)
Lemma advance_spec c k iv (q : nat) :
  icm_core c k iv (Z.of_nat q) → u16 (be_val (icm_iv0 k iv) + Z.of_nat q) < 65535 →
  ∃ c', aes_icm_advance_ismacryp c 0 = Some c' ∧ icm_core c' k iv (Z.of_nat (S q)) ∧
    keystream_buffer c' = of_v8 little (AesCm.key_block (icm_key k) (icm_iv0 k iv) (Z.of_nat q)).
Proof.
  intros ((Hk & Ho & He) & Hi & Hc) Hlt. unfold aes_icm_advance_ismacryp, v128_copy.
  destruct (expand_encryption_spec little (icm_key k)) as (_ & Hb & Hl); [by apply icm_key_block|].
  rewrite He, Hc. destruct (aes_encrypt_spec little _ _ (counter_block
    (be_val (icm_iv0 k iv) + Z.of_nat q)) Hb Hl) as [-> _]. rewrite Some_bind.
  rewrite decide_False by tauto. rewrite counter_step, Some_bind by done.
  eexists. split; [done|]. split; [|done]. split_and!; try done.
  cbn [counter]. f_equal. f_equal. lia.
Qed.

Lemma u16_add a d : 0 <= d → u16 a + d <= 65535 → u16 (a + d) = u16 a + d.
Proof.
  intros Hd Ha. unfold wrap in *. change (2 ^ 16) with 65536 in *.
  pose proof (Z.mod_pos_bound a 65536). rewrite Zplus_mod.
  rewrite (Z.mod_small d), Z.mod_small by lia. done.
Qed.

(** whole blocks, from a block boundary *)
Lemma block_loop_spec addr c k iv (q m : nat) pre data post :
  icm_core c k iv (Z.of_nat q) → is_bytes data → length data = (16 * m)%nat →
  u16 (be_val (icm_iv0 k iv) + Z.of_nat q) + Z.of_nat m <= 65535 →
  ∃ c', for_range 0 (Z.of_nat m) (λ _ '(c, buf, pos),
        c ← aes_icm_advance_ismacryp c 0;
        '(buf, pos) ← (if decide ((addr + pos) & 3 ≠ 0)
           then xor_octets (v8 little (keystream_buffer c)) 0 16 buf pos
           else xor_words (keystream_buffer c) buf pos);
        Some (c, buf, pos)) (c, pre ++ data ++ post, Z.of_nat (length pre)) =
      Some (c', pre ++ xor_stream (icm_octet k iv) (16 * q) data ++ post,
            Z.of_nat (length pre) + 16 * Z.of_nat m) ∧
    icm_core c' k iv (Z.of_nat (q + m)).
Proof.
  intros Hc Hb Hl Hlt.
  loop (λ j '(c', buf, pos), icm_core c' k iv (Z.of_nat q + j) ∧
    pos = Z.of_nat (length pre) + 16 * j ∧
    buf = pre ++ xor_stream (icm_octet k iv) (16 * q) (take (16 * Z.to_nat j) data) ++
          drop (16 * Z.to_nat j) data ++ post) as ([[c' buf] pos] & -> & H' & -> & ->);
    [lia| | |].
  - rewrite Z.add_0_r. split_and!; [done|lia|done].
  - intros j [[c' buf] pos] Hj (Hc' & -> & ->).
    replace (Z.of_nat q + j) with (Z.of_nat (q + Z.to_nat j)) in Hc' by lia.
    destruct (advance_spec c' k iv (q + Z.to_nat j) Hc') as (c2 & -> & Hc2 & Hks).
    { rewrite Nat2Z.inj_add, Z2Nat.id, Z.add_assoc, u16_add by lia. lia. }
    rewrite Some_bind.
    set (pre' := pre ++ xor_stream (icm_octet k iv) (16 * q) (take (16 * Z.to_nat j) data)).
    assert (length pre' = length pre + 16 * Z.to_nat j)%nat as Hpre.
    { unfold pre'. rewrite length_app, length_xor_stream, length_take. lia. }
    set (mid := take 16 (drop (16 * Z.to_nat j) data)).
    assert (block mid) as Hmid.
    { split; [unfold mid; rewrite length_take, length_drop; lia|]. unfold mid. by words. }
    replace (pre ++ _ ++ _) with (pre' ++ mid ++ drop (16 * Z.to_nat (j + 1)) data ++ post).
    2:{ unfold pre', mid. rewrite <-app_assoc. do 2 f_equal. rewrite app_assoc. f_equal.
        rewrite <-(take_drop 16 (drop (16 * Z.to_nat j) data)) at 2. f_equal.
        rewrite drop_drop. f_equal. lia. }
    replace (Z.of_nat (length pre) + 16 * j) with (Z.of_nat (length pre')) by lia.
    assert (block (AesCm.key_block (icm_key k) (icm_iv0 k iv) (Z.of_nat (q + Z.to_nat j)))) as HB
      by (apply key_block_block, icm_key_block, Hc).
    assert ((if decide ((addr + Z.of_nat (length pre')) & 3 ≠ 0)
       then xor_octets (v8 little (keystream_buffer c2)) 0 16
              (pre' ++ mid ++ drop (16 * Z.to_nat (j + 1)) data ++ post) (Z.of_nat (length pre'))
       else xor_words (keystream_buffer c2)
              (pre' ++ mid ++ drop (16 * Z.to_nat (j + 1)) data ++ post) (Z.of_nat (length pre'))) =
      Some (pre' ++ xor_stream (icm_octet k iv) (16 * (q + Z.to_nat j)) mid ++
            drop (16 * Z.to_nat (j + 1)) data ++ post, Z.of_nat (length pre') + 16)) as ->.
    { rewrite Hks.
      replace (16 * (q + Z.to_nat j))%nat with (16 * (q + Z.to_nat j) + 0)%nat by lia.
      rewrite <-xor_key_block; [|apply icm_key_block, Hc|destruct Hmid; lia].
      rewrite drop_0. case_decide.
      - rewrite v8_of_v8 by done. change 16 with (0 + 16) at 1.
        rewrite xor_octets_mid by (destruct HB, Hmid; simpl; lia). done.
      - rewrite xor_words_mid, v8_of_v8 by (done || by apply of_v8_wf). done. }
    rewrite Some_bind. eexists. split; [done|]. split_and!.
    + by replace (Z.of_nat q + (j + 1)) with (Z.of_nat (S (q + Z.to_nat j))) by lia.
    + lia.
    + unfold pre', mid.
      replace (16 * Z.to_nat (j + 1))%nat with (16 * Z.to_nat j + 16)%nat by lia.
      rewrite <-take_take_drop, xor_stream_app, length_take, <-!app_assoc.
      do 3 f_equal. f_equal. lia.
  - eexists. rewrite Nat2Z.id, <-Hl, firstn_all, drop_all. split; [done|].
    by rewrite Nat2Z.inj_add.
Qed.

(** [div_lia]: linear arithmetic with quotients and remainders by constants *)
Ltac div_lia := unfold blocks_for in *; zify; Z.to_euclidean_division_equations; lia.

(** octets left of the last block *)
Lemma buffer_part_spec c k iv n a rest :
  icm_at c k iv n → Z.of_nat (length a) <= bytes_in_buffer c →
  xor_octets (v8 little (keystream_buffer c)) (16 - bytes_in_buffer c)
      (16 - bytes_in_buffer c + Z.of_nat (length a)) (a ++ rest) 0 =
    Some (xor_stream (icm_octet k iv) n a ++ rest, Z.of_nat (length a)).
Proof.
  intros (((Hk & _) & _) & Hbib & Hks) Ha.
  destruct a as [|x a'] eqn:Ea.
  { unfold xor_octets. by rewrite for_range_empty by (simpl; lia). }
  rewrite <-Ea in *. assert (0 < length a)%nat by (subst; simpl; lia).
  rewrite Hbib in *. clear x a' Ea.
  assert (n mod 16 ≠ 0)%nat as Hn by div_lia.
  rewrite (Hks Hn). destruct (key_block_block (icm_key k) (icm_iv0 k iv) (Z.of_nat (n / 16)))
    as [Hl Hb]; [by apply icm_key_block|].
  rewrite v8_of_v8 by done.
  pose proof (xor_octets_mid (AesCm.key_block (icm_key k) (icm_iv0 k iv) (Z.of_nat (n / 16)))
    (16 - (- Z.of_nat n) mod 16) [] a rest
    (Z.of_nat (length a))) as E. change (Z.of_nat (length [])) with 0 in E.
  rewrite !app_nil_l in E.
  rewrite E; [|div_lia|rewrite Hl; div_lia|done].
  rewrite xor_key_block; [|by apply icm_key_block|div_lia].
  do 4 f_equal. div_lia.
Qed.

Lemma encrypt_small_spec c k iv n (p : list Z) :
  icm_at c k iv n → Z.of_nat (length p) <= bytes_in_buffer c →
  icm_at (mk_icm (counter c) (offset c) (keystream_buffer c) (expanded_key c)
    (bytes_in_buffer c - Z.of_nat (length p))) k iv (n + length p).
Proof.
  intros (Hc & Hbib & Hks) Hp. rewrite Hbib in *. unfold icm_at.
  cbn [bytes_in_buffer keystream_buffer].
  assert (blocks_for (n + length p) = blocks_for n) as -> by div_lia.
  split_and!; [done|div_lia|]. intros Hne. rewrite Hks by div_lia. do 3 f_equal. div_lia.
Qed.

(** the octets that do not fill a block *)
Lemma tail_spec c k iv (q : nat) pre tl post :
  icm_core c k iv (Z.of_nat q) → (0 < length tl < 16)%nat →
  u16 (be_val (icm_iv0 k iv) + Z.of_nat q) < 65535 →
  ∃ c', aes_icm_advance_ismacryp c 0 = Some c' ∧
    xor_octets (v8 little (keystream_buffer c')) 0 (Z.of_nat (length tl)) (pre ++ tl ++ post)
      (Z.of_nat (length pre)) =
      Some (pre ++ xor_stream (icm_octet k iv) (16 * q) tl ++ post,
            Z.of_nat (length pre) + Z.of_nat (length tl)) ∧
    icm_at (mk_icm (counter c') (offset c') (keystream_buffer c') (expanded_key c')
      (16 - Z.of_nat (length tl))) k iv (16 * q + length tl).
Proof.
  intros Hc Ht Hlt. destruct (advance_spec c k iv q Hc Hlt) as (c' & E & Hc' & Hks).
  exists c'. split; [done|].
  destruct (key_block_block (icm_key k) (icm_iv0 k iv) (Z.of_nat q)) as [Hl Hb];
    [apply icm_key_block, Hc|].
  split.
  - rewrite Hks, v8_of_v8 by done. rewrite <-(Z.add_0_l (Z.of_nat (length tl))) at 1.
    rewrite xor_octets_mid; [|lia|rewrite Hl; lia|done].
    rewrite xor_key_block; [|apply icm_key_block, Hc|lia]. by rewrite Nat.add_0_r.
  - split_and!; cbn [bytes_in_buffer keystream_buffer].
    + by replace (blocks_for (16 * q + length tl)) with (Z.of_nat (S q)) by div_lia.
    + div_lia.
    + intros _. rewrite Hks. do 3 f_equal. div_lia.
Qed.

(** ** Encryption adds the keystream, or reports the end of the segment *)

Lemma icm_encrypt_spec addr c k iv n p rest :
  icm_at c k iv n → is_bytes p → Z.of_nat (length p) < 2 ^ 32 - 2 ^ 16 →
  Z.of_nat (length p) + u16 (be_val (icm_iv0 k iv) + blocks_for n) <= 0xffff →
  ∃ c', aes_icm_encrypt addr c (p ++ rest) (Z.of_nat (length p)) =
      Some (err_status_ok, c', xor_stream (icm_octet k iv) n p ++ rest, Z.of_nat (length p)) ∧
    icm_at c' k iv (n + length p).
Proof.
  intros Hat Hp Hlen Hok. pose proof Hat as (Hc & Hbib & Hks).
  pose proof Hc as (Hkeyed & Hi & Hctr).
  unfold aes_icm_encrypt, aes_icm_encrypt_ismacryp.
  pose proof (block_index_spec (be_val (icm_iv0 k iv) + blocks_for n)) as Ebi.
  rewrite <-Hctr in Ebi. destruct (v16_get (counter c) 7) as [bi|]; [|done].
  simplify_eq Ebi. intros Ebi'. rewrite Some_bind, Ebi'.
  set (B := u16 (be_val (icm_iv0 k iv) + blocks_for n)) in *.
  assert (is_word 16 B) as HB by (by apply wrap_range). unfold is_word in HB.
  rewrite decide_False by (intros [_ Hgt]; rewrite wrap_small in Hgt by (unfold is_word; lia); lia).
  destruct (decide (Z.of_nat (length p) <= bytes_in_buffer c)) as [Hsmall|Hbig].
  { rewrite (buffer_part_spec c k iv n) by done. rewrite Some_bind. eexists. split; [done|].
    by apply encrypt_small_spec. }
  assert (0 <= bytes_in_buffer c < 16) as Hbr by (rewrite Hbib; apply Z.mod_pos_bound; lia).
  set (a := take (Z.to_nat (bytes_in_buffer c)) p).
  set (p' := drop (Z.to_nat (bytes_in_buffer c)) p).
  assert (Z.of_nat (length a) = bytes_in_buffer c) as Ha by (unfold a; rewrite length_take; lia).
  set (m := (length p' / 16)%nat). set (data := take (16 * m) p'). set (tl := drop (16 * m) p').
  assert (length p' = length p - length a)%nat as Hp' by (unfold p'; rewrite length_drop; lia).
  assert (length data = 16 * m)%nat as Hd by (unfold data, m; rewrite length_take; div_lia).
  assert (length tl = length p' mod 16)%nat as Htl by (unfold tl, m; rewrite length_drop; div_lia).
  assert (p = a ++ data ++ tl) as Ep by (unfold a, data, tl, p'; by rewrite !take_drop).
  assert (is_bytes data) as Bd by (unfold data, p'; by words). clearbody a data tl p'.
  assert (p ++ rest = a ++ data ++ tl ++ rest) as -> by (by rewrite Ep, <-!app_assoc).
  pose proof (buffer_part_spec c k iv n a (data ++ tl ++ rest) Hat ltac:(lia)) as E1.
  rewrite Ha in E1. replace (16 - bytes_in_buffer c + bytes_in_buffer c) with 16 in E1 by lia.
  rewrite E1, Some_bind.
  set (q := Z.to_nat (blocks_for n)). assert (Z.of_nat q = blocks_for n) as Hq by (unfold q; div_lia).
  set (c0 := mk_icm _ _ _ _ 0).
  assert (icm_core c0 k iv (Z.of_nat q)) as Hc0 by (by rewrite Hq).
  assert (n + length a = 16 * q)%nat as Hna by (rewrite Hbib in Ha; unfold q; div_lia).
  replace ((Z.of_nat (length p) - bytes_in_buffer c) / 16) with (Z.of_nat m) by (unfold m; div_lia).
  destruct (block_loop_spec addr c0 k iv q m (xor_stream (icm_octet k iv) n a) data (tl ++ rest) Hc0)
    as (c1 & E2 & Hc1); [done|done|rewrite Hq; fold B; div_lia|].
  rewrite length_xor_stream, Ha in E2. rewrite E2, Some_bind.
  replace ((Z.of_nat (length p) - bytes_in_buffer c) & 0xf) with (Z.of_nat (length tl))
    by (rewrite Htl; change 0xf with (Z.ones 4); rewrite Z.land_ones by lia; div_lia).
  assert (xor_stream (icm_octet k iv) n p = xor_stream (icm_octet k iv) n a ++
    xor_stream (icm_octet k iv) (16 * q) data ++
    xor_stream (icm_octet k iv) (16 * (q + m)) tl) as ->.
  { rewrite Ep, !xor_stream_app, Hna. do 3 f_equal. lia. }
  case_decide as Hz.
  - set (pre := xor_stream (icm_octet k iv) n a ++ xor_stream (icm_octet k iv) (16 * q) data).
    assert (length pre = length a + 16 * m)%nat as Hpre
      by (unfold pre; rewrite length_app, !length_xor_stream; lia).
    destruct (tail_spec c1 k iv (q + m) pre tl rest Hc1) as (c2 & E3 & E4 & H2); [div_lia| |].
    { rewrite Nat2Z.inj_add, Z.add_assoc, Hq, u16_add by (fold B; div_lia). fold B. div_lia. }
    rewrite E3, Some_bind.
    replace (bytes_in_buffer c + 16 * Z.of_nat m) with (Z.of_nat (length pre)) by lia.
    rewrite app_assoc. fold pre. rewrite E4, Some_bind.
    eexists. split; [unfold pre; by rewrite <-!app_assoc|].
    by replace (n + length p)%nat with (16 * (q + m) + length tl)%nat by div_lia.
  - assert (length p' mod 16 = 0)%nat as Hz' by lia.
    rewrite (nil_length_inv tl) by lia. clear Htl Hz E1 E2 Ep.
    eexists. split; [by rewrite <-!app_assoc|].
    split_and!; cbn [bytes_in_buffer keystream_buffer].
    + by replace (blocks_for (n + length p)) with (Z.of_nat (q + m)) by (unfold m; div_lia).
    + div_lia.
    + intros []. div_lia.
Qed.

(** ** Initialisation *)

Lemma icm_init_value c k :
  icm_key_mem k →
  aes_icm_context_init c k =
    Some (err_status_ok, mk_icm (of_v8 little (icm_salt k)) (of_v8 little (icm_salt k))
      (keystream_buffer c) (map (of_v8 little) (AesSpec.key_expansion (icm_key k))) 0).
Proof.
  intros Hk. pose proof Hk as [Hb Hl]. unfold aes_icm_context_init.
  set (hi := take 14 (drop 16 k)). set (x := take 2 (drop 14 (drop 16 k))).
  assert (take 16 (drop 16 k) = hi ++ x) as E by (unfold hi, x; by rewrite take_take_drop).
  assert (length hi = 14%nat) as Hh by (unfold hi; rewrite length_take, length_drop; lia).
  assert (length x = 2%nat) as Hx by (unfold x; rewrite length_take, !length_drop; lia).
  destruct x as [|a [|b [|]]]; try done. clear Hx.
  assert (block (hi ++ [a; b])) as B1.
  { rewrite <-E. apply take16_block. split; [by words|rewrite length_drop; lia]. }
  assert (block (hi ++ [a; 0])) as B2.
  { destruct B1 as [L1 W1]. split; [by rewrite !length_app in *|].
    apply is_bytes_app in W1 as [W1 [Wa _]%Forall_cons_iff]. apply is_bytes_app.
    split; [done|]. constructor; [done|]. by apply (is_bytes_replicate 1 0), word_0. }
  rewrite !copy_octet_string_spec, E, !Some_bind by (rewrite ?length_drop; lia).
  do 2 (rewrite ?(set_v8_spec (hi ++ [a; b]) 15 0 (hi ++ [a; 0])), ?Some_bind
          by (done || by apply aset_last2);
        rewrite (set_v8_spec (hi ++ [a; 0]) 14 0 (hi ++ [0; 0])), !Some_bind
          by (done || by apply aset_last2)).
  destruct (expand_encryption_spec little (icm_key k)) as (Ek & _); [by apply icm_key_block|].
  unfold icm_key in Ek. rewrite Ek, Some_bind. done.
Qed.

Lemma icm_init_spec c k :
  icm_key_mem k →
  ∃ c', aes_icm_context_init c k = Some (err_status_ok, c') ∧ icm_keyed c' k ∧
    counter c' = of_v8 little (icm_salt k) ∧ bytes_in_buffer c' = 0.
Proof. intros Hk. rewrite icm_init_value by done. eexists. split; [done|]. by split_and!. Qed.

Lemma icm_set_iv_spec c k iv :
  icm_keyed c k → icm_iv_mem iv →
  ∃ c', aes_icm_set_iv c iv = Some (err_status_ok, c') ∧ icm_at c' k iv 0.
Proof.
  intros (Hk & Ho & He) Hi. unfold aes_icm_set_iv.
  rewrite copy_octet_string_spec, Some_bind by apply Hi.
  rewrite Ho, v128_xor_of_v8 by eauto with blocks. eexists. split; [done|].
  destruct (icm_iv0_block k iv Hk Hi) as [L0 B0].
  split; [|split; [done|by intros []]]. split; [done|]. split; [done|].
  change (blocks_for 0) with 0. rewrite Z.add_0_r.
  pose proof (be_bytes_be_val _ B0) as E. rewrite L0 in E. by rewrite E.
Qed.

(** vectors as SRTP makes them: the two octets of the block counter are zero *)
Definition icm_stream_iv (iv : list Z) : Prop :=
  icm_iv_mem iv ∧ drop 14 (take 16 iv) = [0; 0].

Lemma icm_iv0_low k iv :
  icm_key_mem k → icm_stream_iv iv → u16 (be_val (icm_iv0 k iv)) = 0.
Proof.
  intros [Hb Hl] [[Hib Hil] Hz]. unfold icm_iv0, icm_salt.
  rewrite <-(take_drop 14 (take 16 iv)), Hz, xor_bytes_app
    by (rewrite !length_take, length_drop; lia).
  rewrite be_val_app. unfold wrap. simpl length.
  change (2 ^ (8 * Z.of_nat 2)) with (2 ^ 16). rewrite Z.add_comm, Z.mod_add by lia. done.
Qed.

(** AES-ICM meets the contract of a stream cipher, wherever the buffer is *)
#[global] Instance aes_icm_stream addr past : StreamSpec aes_icm_ctx_t (H := aes_icm addr past).
Proof.
  refine {| stream_usable _ := True; stream_key_mem := icm_key_mem;
            stream_iv_mem := icm_stream_iv; stream_key_ok n := n = 30;
            stream_keyed := icm_keyed; stream_octet k iv := icm_octet k iv;
            stream_at c k iv n := icm_at c k iv n ∧ icm_stream_iv iv; stream_max := 0xffff |};
    unfold cipher_alloc_fn, cipher_dealloc_fn, cipher_init_fn, cipher_encrypt_fn,
      cipher_decrypt_fn, cipher_set_iv_fn, aes_icm.
  - by intros block ref klen ->.
  - intros c ref. by eexists.
  - intros key Hb Hl. split; [done|]. rewrite Hl. vm_compute. lia.
  - done.
  - by intros st k iv n [[[] _] _].
  - intros st key dir _ Hk. destruct (icm_init_spec st key Hk) as (c' & E & H & _). by exists c'.
  - intros st k iv Hk Hi. destruct (icm_set_iv_spec st k iv Hk (proj1 Hi)) as (c' & E & H).
    by exists c'.
  - intros k iv n Hk _. by apply icm_octet_range.
  - intros st k iv n p rest [Hat Hi] Hb Hlen. apply is_bytes_app in Hb as [Hp _].
    destruct (icm_encrypt_spec addr st k iv n p rest Hat Hp) as (c' & E & H'); [lia| |by exists c'].
    destruct Hat as [[[Hk _] _] _]. pose proof (icm_iv0_low k iv Hk Hi) as E0.
    rewrite u16_add; rewrite ?E0; div_lia.
  - done.
Defined.

(** ** Properties *)

(** several pieces of data, each at its address, encrypted one after the other *)
Fixpoint encrypt_pieces (c : aes_icm_ctx_t) (pieces : list (Z * list Z))
  : option (aes_icm_ctx_t * list Z) :=
  match pieces with
  | [] => Some (c, [])
  | (addr, p) :: pieces =>
      '(status, c, p, _) ← aes_icm_encrypt addr c p (Z.of_nat (length p));
      if decide (status ≠ err_status_ok) then None else
      '(c, out) ← encrypt_pieces c pieces; Some (c, p ++ out)
  end.

Abbreviation total pieces := (concat (map snd pieces)).

Lemma encrypt_pieces_spec c k iv n (pieces : list (Z * list Z)) :
  icm_at c k iv n → is_bytes (total pieces) →
  Z.of_nat (n + length (total pieces)) + u16 (be_val (icm_iv0 k iv)) <= 0xffff →
  ∃ c', encrypt_pieces c pieces = Some (c', xor_stream (icm_octet k iv) n (total pieces)) ∧
    icm_at c' k iv (n + length (total pieces)).
Proof.
  revert c n. induction pieces as [|[addr p] pieces IH]; intros c n Hc Hb Hlen.
  - exists c. by rewrite Nat.add_0_r.
  - simpl in Hb, Hlen. rewrite length_app in Hlen. apply is_bytes_app in Hb as [Hp Hb].
    assert (0 <= u16 (be_val (icm_iv0 k iv))) as H0 by (apply wrap_range; lia).
    destruct (icm_encrypt_spec addr c k iv n p [] Hc Hp) as (c1 & E1 & H1);
      [lia|rewrite u16_add; div_lia|].
    rewrite !app_nil_r in E1. simpl. rewrite E1. simpl.
    destruct (IH c1 _ H1 Hb) as (c2 & E2 & H2); [lia|].
    rewrite E2. simpl. exists c2. rewrite xor_stream_app, length_app.
    by rewrite Nat.add_assoc.
Qed.

(** C24: the code is AES in counter mode: after initialisation with a key and a
    vector, data handed over in any pieces at any addresses is added to the
    keystream of RFC 3711 (the AES encryptions of consecutive 128-bit integers
    from salt xor vector), as long as the octets and the block counter together do not
    exceed 65535.  No access leaves the arrays, provided that 32 octets can be read
    where the key is: [aes_icm_context_init] copies two octets past the 30 octets of the
    key, as its comment says, and does not use them. *)
Theorem aes_icm_is_aes_cm c k iv (pieces : list (Z * list Z)) :
  icm_key_mem k → icm_iv_mem iv → is_bytes (total pieces) →
  Z.of_nat (length (total pieces)) + u16 (be_val (icm_iv0 k iv)) <= 0xffff →
  ∃ c1 c2 c3, aes_icm_context_init c k = Some (err_status_ok, c1) ∧
    aes_icm_set_iv c1 iv = Some (err_status_ok, c2) ∧
    encrypt_pieces c2 pieces =
      Some (c3, imap (λ n b, b ^^ AesCm.key_octet (take 16 k) (icm_iv0 k iv) n) (total pieces)).
Proof.
  intros Hk Hi Hb Hl. destruct (icm_init_spec c k Hk) as (c1 & E1 & H1 & _).
  destruct (icm_set_iv_spec c1 k iv H1 Hi) as (c2 & E2 & H2).
  destruct (encrypt_pieces_spec c2 k iv 0 pieces H2 Hb) as (c3 & E3 & _); [simpl; lia|].
  by exists c1, c2, c3.
Qed.

Definition zero_icm : aes_icm_ctx_t :=
  mk_icm [0; 0; 0; 0] [0; 0; 0; 0] [0; 0; 0; 0] [] 0.

Lemma aes_icm_is_aes_cm_witness :
  ∃ c1 c2 c3, aes_icm_context_init zero_icm (aes_icm_test_case_0_key ++ [0; 0]) =
      Some (err_status_ok, c1) ∧
    aes_icm_set_iv c1 (replicate 16 0) = Some (err_status_ok, c2) ∧
    encrypt_pieces c2 [(1, replicate 5 0); (2, replicate 27 0)] =
      Some (c3, aes_icm_test_case_0_ciphertext).
Proof.
  destruct (aes_icm_is_aes_cm zero_icm (aes_icm_test_case_0_key ++ [0; 0]) (replicate 16 0)
    [(1, replicate 5 0); (2, replicate 27 0)]) as (c1 & c2 & c3 & E1 & E2 & E3);
    [split; [eval_dec|vm_compute; lia]|split; [eval_dec|vm_compute; lia]|eval_dec
    |vm_compute; discriminate|].
  exists c1, c2, c3. refine (conj E1 (conj E2 _)). rewrite E3. vm_compute. reflexivity.
Defined.

(** decryption: data encrypted in some pieces and decrypted with the same key
    and vector in any other pieces is the data again. *)
Theorem aes_icm_roundtrip c c' k iv (pieces pieces' : list (Z * list Z)) c1 c2 c3 out :
  icm_key_mem k → icm_iv_mem iv → is_bytes (total pieces) →
  Z.of_nat (length (total pieces)) + u16 (be_val (icm_iv0 k iv)) <= 0xffff →
  aes_icm_context_init c k = Some (err_status_ok, c1) →
  aes_icm_set_iv c1 iv = Some (err_status_ok, c2) →
  encrypt_pieces c2 pieces = Some (c3, out) → total pieces' = out →
  ∃ d1 d2 d3, aes_icm_context_init c' k = Some (err_status_ok, d1) ∧
    aes_icm_set_iv d1 iv = Some (err_status_ok, d2) ∧
    encrypt_pieces d2 pieces' = Some (d3, total pieces).
Proof.
  intros Hk Hi Hb Hl E1 E2 E3 Hout.
  destruct (icm_init_spec c k Hk) as (x1 & F1 & H1 & _).
  rewrite E1 in F1. injection F1 as <-.
  destruct (icm_set_iv_spec c1 k iv H1 Hi) as (x2 & F2 & H2).
  rewrite E2 in F2. injection F2 as <-.
  destruct (encrypt_pieces_spec c2 k iv 0 pieces H2 Hb) as (x3 & F3 & _); [simpl; lia|].
  rewrite E3 in F3. injection F3 as _ Eout. rewrite Eout in Hout.
  destruct (icm_init_spec c' k Hk) as (d1 & G1 & I1 & _).
  destruct (icm_set_iv_spec d1 k iv I1 Hi) as (d2 & G2 & I2).
  destruct (encrypt_pieces_spec d2 k iv 0 pieces' I2) as (d3 & G3 & _).
  - rewrite Hout. apply xor_stream_bytes; [|done]. intros. by apply icm_octet_range.
  - rewrite Hout, length_xor_stream. simpl. lia.
  - exists d1, d2, d3. rewrite G3, Hout. by rewrite xor_stream_involutive.
Qed.

Lemma aes_icm_roundtrip_witness :
  ∃ c1 c2 c3, aes_icm_context_init zero_icm (replicate 32 7) = Some (err_status_ok, c1) ∧
    aes_icm_set_iv c1 (replicate 16 1) = Some (err_status_ok, c2) ∧
    encrypt_pieces c2 [(0, [61; 187; 171]); (1, [22])] = Some (c3, [1; 2; 3; 4]).
Proof.
  eapply (aes_icm_roundtrip zero_icm zero_icm (replicate 32 7) (replicate 16 1) [(0, [1; 2; 3; 4])]
    [(0, [61; 187; 171]); (1, [22])] _ _ _ [61; 187; 171; 22]);
    [split; [eval_dec|vm_compute; lia]|split; [eval_dec|vm_compute; lia]|eval_dec
    |vm_compute; discriminate|vm_compute; reflexivity..].
Defined.

(** a request for more octets than the segment has left is refused *)
Lemma icm_encrypt_refused addr c k iv n buf len :
  icm_at c k iv n → 0 <= len < 2 ^ 32 - 2 ^ 16 →
  0xffff < len + u16 (be_val (icm_iv0 k iv) + blocks_for n) →
  aes_icm_encrypt addr c buf len = Some (err_status_terminus, c, buf, len).
Proof.
  intros ((_ & _ & Hctr) & _) Hlen Hgt. unfold aes_icm_encrypt, aes_icm_encrypt_ismacryp.
  pose proof (block_index_spec (be_val (icm_iv0 k iv) + blocks_for n)) as Ebi.
  rewrite <-Hctr in Ebi. destruct (v16_get (counter c) 7) as [bi|]; [|done].
  simplify_eq Ebi. intros Ebi'. rewrite Some_bind, Ebi'.
  pose proof (wrap_range 16 (be_val (icm_iv0 k iv) + blocks_for n)) as HB.
  unfold is_word in HB. rewrite decide_True; [done|]. split; [done|].
  rewrite wrap_small by (unfold is_word; lia). lia.
Qed.

(** the end of a segment: encryption reports [err_status_terminus], and leaves
    context and data alone, exactly when the number of octets plus the number of
    the next block exceeds 65535.  Octets are compared with blocks, so that a
    request for 64 KiB is refused with 65535 of 65536 blocks unused. *)
Theorem aes_icm_terminus addr c k iv n p :
  icm_at c k iv n → is_bytes p → Z.of_nat (length p) < 2 ^ 32 - 2 ^ 16 →
  aes_icm_encrypt addr c p (Z.of_nat (length p)) =
    Some (err_status_terminus, c, p, Z.of_nat (length p)) ↔
  0xffff < Z.of_nat (length p) + u16 (be_val (icm_iv0 k iv) + blocks_for n).
Proof.
  intros Hat Hp Hlen. split.
  - intros E. destruct (decide (0xffff < Z.of_nat (length p) +
      u16 (be_val (icm_iv0 k iv) + blocks_for n))) as [|Hle]; [done|].
    destruct (icm_encrypt_spec addr c k iv n p [] Hat Hp Hlen) as (c' & E' & _); [lia|].
    rewrite app_nil_r, E in E'. simplify_eq.
  - intros Hgt. by apply (icm_encrypt_refused addr c k iv n); [|lia|].
Qed.

(** a context that has made 16 octets refuses 65535 more, and takes 65534 *)
Lemma aes_icm_terminus_witness :
  ∃ c, icm_at c (replicate 32 7) (replicate 16 0) 16 ∧
    aes_icm_encrypt 0 c (replicate (Z.to_nat 65535) 0) 65535 =
      Some (err_status_terminus, c, replicate (Z.to_nat 65535) 0, 65535) ∧
    aes_icm_encrypt 0 c (replicate (Z.to_nat 65534) 0) 65534 ≠
      Some (err_status_terminus, c, replicate (Z.to_nat 65534) 0, 65534).
Proof.
  destruct (icm_init_spec zero_icm (replicate 32 7)) as (c1 & _ & H1 & _);
    [split; [eval_dec|vm_compute; lia]|].
  destruct (icm_set_iv_spec c1 _ (replicate 16 0) H1) as (c2 & _ & H2);
    [split; [eval_dec|vm_compute; lia]|].
  destruct (icm_encrypt_spec 0 c2 _ _ _ (replicate 16 0) [] H2) as (c3 & _ & H3);
    [eval_dec|vm_compute; done|vm_compute; discriminate|].
  rewrite length_replicate in H3. change (0 + 16)%nat with 16%nat in H3. exists c3. split; [exact H3|].
  assert (∀ n, is_bytes (replicate n 0)) as Hb by (intros; apply is_bytes_replicate, word_0; lia).
  pose proof (aes_icm_terminus 0 c3 _ _ 16 (replicate (Z.to_nat 65535) 0) H3 (Hb _)) as T1.
  pose proof (aes_icm_terminus 0 c3 _ _ 16 (replicate (Z.to_nat 65534) 0) H3 (Hb _)) as T2.
  rewrite length_replicate, Z2Nat.id in T1, T2 by lia.
  assert (u16 (be_val (icm_iv0 (replicate 32 7) (replicate 16 0)) + blocks_for 16) = 1) as E1
    by (vm_compute; reflexivity).
  rewrite E1 in T1, T2. split; [apply T1; lia|]. rewrite T2 by lia. lia.
Defined.

(** [aes_icm_context_init] reads two octets past a key of 30 octets: with
    exactly 30 octets at the pointer the access is outside of the array, and with
    two octets more their value makes no difference. *)
Theorem aes_icm_init_reads_past c key past past' :
  is_bytes (key ++ past ++ past') → length key = 30%nat →
  length past = 2%nat → length past' = 2%nat →
  aes_icm_context_init c key = None ∧
  is_Some (aes_icm_context_init c (key ++ past)) ∧
  aes_icm_context_init c (key ++ past) = aes_icm_context_init c (key ++ past').
Proof.
  intros Hb Lk Lp Lp'. rewrite !is_bytes_app in Hb. destruct Hb as (Bk & Bp & Bp'). split_and!.
  - unfold aes_icm_context_init.
    assert (v128_copy_octet_string (drop 16 key) = None) as ->; [|done].
    unfold v128_copy_octet_string. by rewrite decide_False by (rewrite length_drop; lia).
  - destruct (icm_init_spec c (key ++ past)) as (c' & -> & _); [|done].
    split; [by apply is_bytes_app|rewrite length_app; lia].
  - assert (∀ q, is_bytes q → length q = 2%nat → aes_icm_context_init c (key ++ q) =
      Some (err_status_ok, mk_icm (of_v8 little (icm_salt key)) (of_v8 little (icm_salt key))
        (keystream_buffer c) (map (of_v8 little) (AesSpec.key_expansion (icm_key key))) 0)) as Hq.
    { intros q Bq Lq.
      assert (icm_key_mem (key ++ q)) as Hm
        by (split; [by apply is_bytes_app|rewrite length_app; lia]).
      assert (icm_salt (key ++ q) = icm_salt key) as Es.
      { unfold icm_salt. rewrite drop_app_le, take_app_le by (rewrite ?length_drop; lia). done. }
      assert (icm_key (key ++ q) = icm_key key) as Ek by (unfold icm_key; by rewrite take_app_le by lia).
      rewrite <-Es, <-Ek. by apply icm_init_value. }
    by rewrite !Hq.
Qed.

Lemma aes_icm_init_reads_past_witness :
  aes_icm_context_init zero_icm aes_icm_test_case_0_key = None ∧
  is_Some (aes_icm_context_init zero_icm (aes_icm_test_case_0_key ++ [1; 2])) ∧
  aes_icm_context_init zero_icm (aes_icm_test_case_0_key ++ [1; 2]) =
    aes_icm_context_init zero_icm (aes_icm_test_case_0_key ++ [3; 4]).
Proof.
  apply (aes_icm_init_reads_past zero_icm aes_icm_test_case_0_key [1; 2] [3; 4]);
    [eval_dec|reflexivity..].
Defined.

(** ** [aes_icm_set_octet] *)

Lemma cipher_injective ks x y :
  Forall block ks → block x → block y → AesSpec.cipher ks x = AesSpec.cipher ks y → x = y.
Proof.
  intros Hk Hx Hy E. rewrite <-(inv_cipher_cipher ks x Hk Hx), E. by apply inv_cipher_cipher.
Qed.

Lemma xor_bytes_zero a n : (length a <= n)%nat → xor_bytes a (replicate n 0) = a.
Proof.
  revert n. induction a as [|x a IH]; intros [|n] Hl; simpl in *; try (done || lia).
  unfold xor_bytes in *. simpl. by rewrite Z.lxor_0_r, IH by lia.
Qed.

(** the words of the salt, with a block number in the first one *)
Lemma salt_words k i :
  icm_key_mem k → is_word 32 i →
  ∃ w0 w1 w2 w3, of_v8 little (icm_salt k) = [w0; w1; w2; w3] ∧
    is_word 32 w0 ∧ v128_wf [w0 ^^ i; w1; w2; w3] ∧
    v64_get [w0; w1; w2; w3] 0 = Some (w0 ||| Z.shiftl w1 32) ∧
    v64_set [w0; w1; w2; w3] 0 ((w0 ||| Z.shiftl w1 32) ^^ i) = Some [w0 ^^ i; w1; w2; w3].
Proof.
  intros Hk Hi. destruct (v128_wf_inv (of_v8 little (icm_salt k)))
    as (w0 & w1 & w2 & w3 & -> & W0 & W1 & W2 & W3); [by apply of_v8_wf, icm_salt_block|].
  exists w0, w1, w2, w3. split_and!; try done.
  { apply v128_wf_intro; by words. }
  assert (u32 ((w0 ||| Z.shiftl w1 32) ^^ i) = w0 ^^ i) as E0 by bitwise.
  assert (u32 (((w0 ||| Z.shiftl w1 32) ^^ i) >> 32) = w1) as E1.
  { assert (∀ w, is_word 32 w → w >> 32 = 0) as Hs
      by (intros w Hw; rewrite Z.shiftr_div_pow2 by lia; by apply Z.div_small).
    rewrite Z.shiftr_lxor, Z.shiftr_lor, Z.shiftr_shiftl_l, !Hs by (done || lia).
    rewrite Z.lxor_0_r, Z.lor_0_l, Z.shiftl_0_r. by apply wrap_small. }
  unfold v64_set. by rewrite E0, E1.
Qed.

(** the last octets of the counter survive *)
Lemma low_octets_zero w0 w1 w2 w3 k i :
  icm_key_mem k → of_v8 little (icm_salt k) = [w0; w1; w2; w3] →
  v128_wf [w0 ^^ i; w1; w2; w3] → u16 (be_val (v8 little [w0 ^^ i; w1; w2; w3])) = 0.
Proof.
  intros Hk Es Hw. assert (v8 little [w0; w1; w2; w3] = icm_salt k) as E
    by (rewrite <-Es; by apply v8_of_v8, icm_salt_block).
  unfold v8 in *. cbn [map concat octets_of] in *. rewrite app_nil_r in *.
  unfold icm_salt in E. destruct Hk as [Hb Hl].
  set (hi := take 14 (drop 16 k)) in *.
  assert (length hi = 14%nat) as Hh by (unfold hi; rewrite length_take, length_drop; lia).
  assert (∃ a b, le_bytes 4 w3 = [a; b; 0; 0]) as (a & b & ->).
  { assert (drop 12 (le_bytes 4 w0 ++ le_bytes 4 w1 ++ le_bytes 4 w2 ++ le_bytes 4 w3) =
      le_bytes 4 w3) as <-.
    { rewrite (app_assoc _ _ (_ ++ _)), (app_assoc _ _ (le_bytes 4 w3)).
      apply drop_app_length'. rewrite !length_app, !length_le_bytes. done. }
    rewrite E, drop_app_le by lia.
    destruct (drop 12 hi) as [|a [|b [|]]] eqn:Ed; apply (f_equal length) in Ed;
      rewrite length_drop, Hh in Ed; try done. by exists a, b. }
  change [a; b; 0; 0] with ([a; b] ++ [0; 0]). rewrite !app_assoc, be_val_app.
  unfold wrap. change (2 ^ (8 * Z.of_nat (length [0; 0]))) with (2 ^ 16).
  rewrite Z.add_comm, Z.mod_add by lia. done.
Qed.

Lemma salt_first_word w0 w1 w2 w3 k i :
  icm_key_mem k → of_v8 little (icm_salt k) = [w0; w1; w2; w3] →
  is_word 32 w0 → is_word 32 i → 0 < i < 65536 →
  v8 little [w0 ^^ i; w1; w2; w3] ≠ be_bytes 16 (be_val (icm_salt k) + i).
Proof.
  intros Hk Es W0 Wi Hi E.
  destruct (icm_salt_block k Hk) as [Ls Bs].
  assert (u16 (be_val (icm_salt k)) = 0) as Hlow.
  { unfold icm_salt. rewrite be_val_app. unfold wrap.
    change (2 ^ (8 * Z.of_nat (length [0; 0]))) with (2 ^ 16).
    by rewrite Z.add_comm, Z.mod_add by lia. }
  assert (take 4 (be_bytes 16 (be_val (icm_salt k) + i)) = take 4 (icm_salt k)) as E2.
  { pose proof (be_bytes_be_val _ Bs) as Eb. rewrite Ls in Eb. rewrite <-Eb at 2.
    rewrite !counter_octets, !take_app_le by (rewrite length_be_bytes; lia). do 2 f_equal.
    rewrite !Z.shiftr_div_pow2 by lia. unfold wrap in Hlow. change (2 ^ 16) with 65536 in *.
    div_lia. }
  rewrite <-E in E2. rewrite <-(v8_of_v8 little (icm_salt k)), Es in E2 by done.
  unfold v8 in E2. cbn [map concat octets_of] in E2.
  rewrite !take_app_length' in E2 by (by rewrite length_le_bytes).
  apply (f_equal le_val) in E2. rewrite !le_val_le_bytes in E2.
  rewrite !wrap_small in E2 by (change (8 * Z.of_nat 4) with 32; by words).
  apply (f_equal (Z.lxor w0)) in E2. rewrite <-Z.lxor_assoc, Z.lxor_nilpotent, Z.lxor_0_l in E2. lia.
Qed.

(** [aes_icm_set_octet] does not seek: from a context at the start of the
    keystream (for the vector zero), it is asked for the octet that begins block
    [i], for any [i] from 1 to 65535, and the next block of keystream the context
    makes is not block [i]: the block number went into the first octets of the
    counter, not into the last ones. *)
Theorem aes_icm_set_octet_misses c k i :
  icm_key_mem k → 0 < i < 65536 →
  ∃ c1 c2 c3, aes_icm_context_init c k = Some (err_status_ok, c1) ∧
    aes_icm_set_octet c1 (16 * i) = Some (err_status_ok, c2) ∧
    aes_icm_advance c2 = Some c3 ∧
    v8 little (keystream_buffer c3) ≠
      AesCm.key_block (take 16 k) (icm_iv0 k (replicate 16 0)) i.
Proof.
  intros Hk Hi. rewrite icm_init_value by done.
  assert (is_word 32 i) as Wi by (unfold is_word; lia).
  destruct (salt_words k i Hk Wi) as (w0 & w1 & w2 & w3 & Es & W0 & Wn & Eg & Eset).
  eexists _, _, _. split; [done|]. unfold aes_icm_set_octet. cbn [offset counter].
  replace (16 * i / 16) with i by div_lia. replace (16 * i mod 16) with 0 by div_lia.
  rewrite Es, Eg, Some_bind, Eset, Some_bind, decide_False by tauto. split; [done|].
  set (N := [w0 ^^ i; w1; w2; w3]) in *. set (x := be_val (v8 little N)).
  destruct (v8_block little N Wn) as [LN BN].
  assert (be_bytes 16 x = v8 little N) as Ex.
  { unfold x. rewrite <-LN. by apply be_bytes_be_val. }
  assert (N = of_v8 little (be_bytes 16 x)) as EN by (rewrite Ex; by rewrite of_v8_v8).
  destruct (expand_encryption_spec little (icm_key k)) as (_ & Hb & Hl); [by apply icm_key_block|].
  unfold aes_icm_advance, aes_icm_advance_ismacryp, v128_copy.
  cbn [counter expanded_key keystream_buffer offset]. rewrite EN.
  destruct (aes_encrypt_spec little _ _ (counter_block x) Hb Hl) as [-> Bc].
  rewrite Some_bind, decide_False by tauto.
  pose proof (low_octets_zero _ _ _ _ k i Hk Es Wn : u16 x = 0) as Hx.
  rewrite counter_step, Some_bind by (rewrite Hx; lia).
  split; [done|]. cbn [keystream_buffer]. rewrite v8_of_v8 by done. unfold AesCm.key_block.
  intros E. apply cipher_injective in E; [|done|apply counter_block..].
  change (be_val (v8 little _)) with x in E at 1. rewrite Ex in E. revert E. unfold icm_iv0.
  change (take 16 (replicate 16 0)) with (replicate 16 0). rewrite xor_bytes_zero
    by (destruct (icm_salt_block k Hk); lia).
  by apply salt_first_word.
Qed.

Lemma aes_icm_set_octet_misses_witness :
  ∃ c1 c2 c3, aes_icm_context_init zero_icm (replicate 32 7) = Some (err_status_ok, c1) ∧
    aes_icm_set_octet c1 32 = Some (err_status_ok, c2) ∧ aes_icm_advance c2 = Some c3 ∧
    v8 little (keystream_buffer c3) ≠
      AesCm.key_block (replicate 16 7) (icm_iv0 (replicate 32 7) (replicate 16 0)) 2.
Proof.
  apply (aes_icm_set_octet_misses zero_icm (replicate 32 7) 2);
    [split; [eval_dec|vm_compute; lia]|lia].
Defined.

(** the self test of AES-ICM passes, and leaves the reference count at one *)
Definition counting_source (n : Z) : err_status_t * list Z :=
  (err_status_ok, map (λ j, u8 (Z.of_nat j)) (seq 0 (Z.to_nat n))).

Lemma counting_source_ok : source_ok counting_source.
Proof.
  intros n Hn. split_and!; [done| |unfold counting_source; simpl; by rewrite length_map, length_seq].
  apply Forall_map, Forall_true. intros j. by apply wrap_range.
Qed.

Lemma cipher_self_test_decides_witness :
  cipher_type_self_test (CT := aes_icm 0 [0; 0]) (Some <$> [zero_icm; zero_icm])
    (λ j, mk_trial (Z.of_nat j) counting_source counting_source counting_source)
    (replicate 128 0) (replicate 128 0) (replicate 64 0) (replicate 64 0) 0 =
  Some (err_status_ok, 1).
Proof.
  destruct (cipher_self_test_decides (CT := aes_icm 0 [0; 0]) [zero_icm; zero_icm]
    (λ j, mk_trial (Z.of_nat j) counting_source counting_source counting_source)
    (replicate 128 0) (replicate 128 0) (replicate 64 0) (replicate 64 0) 0)
    as (ref' & E & Href).
  - constructor; [|constructor]. split_and!; try (vm_compute; done).
    all: try eval_dec. all: try (split; [eval_dec|vm_compute; lia]).
  - discriminate.
  - vm_compute. discriminate.
  - vm_compute. discriminate.
  - repeat constructor.
  - reflexivity.
  - intros j. split_and!; [simpl; lia|apply counting_source_ok..].
  - reflexivity.
  - reflexivity.
  - reflexivity.
  - reflexivity.
  - eval_dec.
  - set (passes := forallb _ _) in E, Href.
    assert (passes = true) as Ht by (vm_compute; reflexivity).
    rewrite Ht in E, Href. rewrite (Href eq_refl) in E. exact E.
Defined.
