(* ===== verification/Stat.v ===== *)
(** * Statistical tests of random data

    Models [crypto/math/stat.c], the tests of FIPS 140-2 for 20000 bits: on an
    array of 2500 octets, and on a random source that is asked for 50 octets at a
    time.  The reference, module [Fips], is the predicate of the standard on the
    sequence of bits: the number of ones, the sum of the squares of the frequencies of
    nibbles, and the lengths of the maximal segments of equal bits.  The code departs
    from it in two places, which the theorem on the tests names.

    A random source ([rand_source_func_t]) is a function of the memory it writes
    to, the number of octets, and a state of its own.  The bits of an octet are
    taken from the lowest one on.  [poker] is a [double]: see the section on
    floating point numbers. *)

From Stdlib Require Import SpecFloat.
From S2P Require Import Prelude Datatypes.

(** [int16_t] *)
Abbreviation s16 := (swrap 16).

(** ** Floating point numbers

    A [double] that is finite and not too small is an integer of at most 53 bits
    times a power of two; results are rounded to the nearest such number, to the
    even one of two. *)

Record double := mk_double { mant : Z; expo : Z }.

(** the nearest integer to [a / 2 ^ d], for [a] not negative *)
Definition nearest (a d : Z) : Z :=
  let q := a / 2 ^ d in
  let r := a mod 2 ^ d in
  if (2 * r <? 2 ^ d) || ((2 * r =? 2 ^ d) && Z.even q) then q else q + 1.

(** the bits of [a] that are more than 53 *)
Definition excess (a : Z) : Z := Z.max 0 (Z.log2 a - 52).

Definition round (m e : Z) : double :=
  let d := excess (Z.abs m) in mk_double (Z.sgn m * nearest (Z.abs m) d) (e + d).

Definition d_of_int (z : Z) : double := round z 0.
Definition d_mul (a b : double) : double := round (mant a * mant b) (expo a + expo b).

(** two numbers as integers with the smaller exponent *)
Definition aligned (a b : double) : Z * Z * Z :=
  let e := Z.min (expo a) (expo b) in
  (Z.shiftl (mant a) (expo a - e), Z.shiftl (mant b) (expo b - e), e).

Definition d_add (a b : double) : double := let '(x, y, e) := aligned a b in round (x + y) e.
Definition d_sub (a b : double) : double := let '(x, y, e) := aligned a b in round (x - y) e.
Definition d_lt (a b : double) : bool := let '(x, y, _) := aligned a b in x <? y.

(** a quotient of positive integers: 64 more bits and a sticky one *)
Definition d_quot (a b : Z) : double :=
  let q := Z.shiftl a 128 / b in
  round (2 * q + (if Z.shiftl a 128 mod b =? 0 then 0 else 1)) (-129).

(** ** The code *)

Definition STAT_TEST_DATA_LEN : Z := 2500.

(** [while (data < data_end)]: [n] octets from [pos] on; an inner [None] is the
    return of [err_status_algo_fail] *)
Fixpoint scan {A} (step : Z → A → option (option A)) (n : nat) (pos : Z) (data : list Z) (a : A)
  : option (option A) :=
  match n with
  | O => Some (Some a)
  | S n =>
      b ← aget data pos;
      r ← step b a;
      match r with Some a => scan step n (pos + 1) data a | None => Some None end
  end.

Definition outcome (ok : bool) : err_status_t := if ok then err_status_ok else err_status_algo_fail.

Definition monobit_ok (ones_count : Z) : bool := negb ((ones_count <? 9725) || (10275 <? ones_count)).

Definition stat_test_monobit (data : list Z) : option err_status_t :=
  r ← scan (λ b n, w ← octet_get_weight b; Some (Some (u16 (n + w)))) (Z.to_nat STAT_TEST_DATA_LEN) 0 data 0;
  Some (outcome (match r with Some n => monobit_ok n | None => false end)).

(** [f[i]++] *)
Definition bump (f : list Z) (i : Z) : option (list Z) := x ← aget f i; aset f i (u16 (x + 1)).

Definition nibbles (b : Z) (f : list Z) : option (list Z) := f ← bump f (b & 0x0f); bump f (b >> 4).

(** the sum of squares, scaled, less its expectation *)
Definition poker_value (f : list Z) : option double :=
  p ← for_range 0 16 (λ i p, x ← aget f i; Some (d_add p (d_mul (d_of_int x) (d_of_int x)))) (d_of_int 0);
  Some (d_sub (d_mul p (d_quot 16 5000)) (d_of_int 5000)).

Definition poker_ok (poker : double) : bool :=
  negb (d_lt poker (d_quot 216 100) || d_lt (d_quot 4617 100) poker).

Definition stat_test_poker (data : list Z) : option err_status_t :=
  r ← scan (λ b f, f ← nibbles b f; Some (Some f)) (Z.to_nat STAT_TEST_DATA_LEN) 0 data (replicate 16 0);
  match r with
  | Some f => p ← poker_value f; Some (outcome (poker_ok p))
  | None => Some err_status_algo_fail
  end.

(** runs of ones, gaps of zeros, and the bits of the current run (or gap, if
    negative) *)
Record counts := mk_counts { runs : list Z; gaps : list Z; run_state : Z }.

(** one bit *)
Definition runs_bit (bit : bool) (c : counts) : option (option counts) :=
  let state := run_state c in
  if bit then
    if 0 <? state then
      let state := s16 (state + 1) in
      Some (if 25 <? state then None else Some (mk_counts (runs c) (gaps c) state))
    else if state <? 0 then
      if state <? -25 then Some None else
      let state := if state <? -6 then -6 else state in
      g ← bump (gaps c) (-1 - state);
      Some (Some (mk_counts (runs c) g 1))
    else Some (Some (mk_counts (runs c) (gaps c) 1))
  else
    if 0 <? state then
      if 25 <? state then Some None else
      let state := if 6 <? state then 6 else state in
      r ← bump (runs c) (state - 1);
      Some (Some (mk_counts r (gaps c) (-1)))
    else if state <? 0 then
      let state := s16 (state - 1) in
      Some (if state <? -25 then None else Some (mk_counts (runs c) (gaps c) state))
    else Some (Some (mk_counts (runs c) (gaps c) (-1))).

(** [for (mask = 1; mask < 256; mask <<= 1)] *)
Fixpoint runs_masks (masks : list Z) (b : Z) (c : counts) : option (option counts) :=
  match masks with
  | [] => Some (Some c)
  | mask :: masks =>
      r ← runs_bit (negb (b & mask =? 0)) c;
      match r with Some c => runs_masks masks b c | None => Some None end
  end.

Definition masks : list Z := [1; 2; 4; 8; 16; 32; 64; 128].
Definition runs_octet : Z → counts → option (option counts) := runs_masks masks.

Definition lo_value : list Z := [2315; 1114; 527; 240; 103; 103].
Definition hi_value : list Z := [2685; 1386; 723; 384; 209; 209].

Definition runs_ok (c : counts) : option bool :=
  for_range 0 6 (λ i ok,
    lo ← aget lo_value i; hi ← aget hi_value i; r ← aget (runs c) i; g ← aget (gaps c) i;
    Some (ok && negb ((r <? lo) || (hi <? r) || (g <? lo) || (hi <? g)))) true.

Definition no_counts : counts := mk_counts (replicate 6 0) (replicate 6 0) 0.

Definition stat_test_runs (data : list Z) : option err_status_t :=
  r ← scan runs_octet (Z.to_nat STAT_TEST_DATA_LEN) 0 data no_counts;
  match r with
  | Some c => ok ← runs_ok c; Some (outcome ok)
  | None => Some err_status_algo_fail
  end.

(** *** Sources *)

Definition source (St : Type) : Type := list Z → Z → St → option (err_status_t * list Z * St).

Definition RAND_SRC_BUF_OCTETS : Z := 50.

Record tallies := mk_tallies { ones_count : Z; freq : list Z; seen : counts }.

(** one octet, for all three tests *)
Definition tally (b : Z) (t : tallies) : option (option tallies) :=
  w ← octet_get_weight b;
  f ← nibbles b (freq t);
  r ← runs_octet b (seen t);
  Some (c ← r; Some (mk_tallies (ones_count t + w) f c)).

Definition tallies_verdict (t : tallies) : option err_status_t :=
  if negb (monobit_ok (ones_count t)) then Some err_status_algo_fail else
  p ← poker_value (freq t);
  if negb (poker_ok p) then Some err_status_algo_fail else
  ok ← runs_ok (seen t); Some (outcome ok).

Section Source.
Context {St : Type} (get_rand_bytes : source St).

(** [n] turns of the main loop; [buffer] is the memory of the array *)
Fixpoint stat_loop (n : nat) (buffer : list Z) (t : tallies) (s : St) : option (err_status_t * St) :=
  match n with
  | O => v ← tallies_verdict t; Some (v, s)
  | S n =>
      '(status, buffer, s) ← get_rand_bytes buffer RAND_SRC_BUF_OCTETS s;
      if decide (status ≠ err_status_ok) then Some (status, s) else
      r ← scan tally (Z.to_nat RAND_SRC_BUF_OCTETS) 0 buffer t;
      match r with
      | Some t => stat_loop n buffer t s
      | None => Some (err_status_algo_fail, s)
      end
  end.

Definition stat_test_rand_source (buffer : list Z) (s : St) : option (err_status_t * St) :=
  stat_loop 50 buffer (mk_tallies 0 (replicate 16 0) no_counts) s.

(** [stacks] are the arrays of the calls *)
Fixpoint stat_trials (num_trials : nat) (stacks : nat → list Z) (err : err_status_t) (s : St)
  : option (err_status_t * St) :=
  match num_trials with
  | O => Some (err, s)
  | S n =>
      '(err, s) ← stat_test_rand_source (stacks n) s;
      if decide (err = err_status_ok) then Some (err_status_ok, s) else stat_trials n stacks err s
  end.

Definition stat_test_rand_source_with_repetition (num_trials : nat) (stacks : nat → list Z) (s : St)
  : option (err_status_t * St) :=
  stat_trials num_trials stacks err_status_algo_fail s.

End Source.

(** ** Rounding *)

Lemma nearest_le a d k : 0 <= d → a <= k * 2 ^ d → nearest a d <= k.
Proof.
  intros Hd Ha. unfold nearest. pose proof (Z.pow_pos_nonneg 2 d ltac:(lia) Hd) as Hp.
  pose proof (Z.div_mod a (2 ^ d) ltac:(lia)). pose proof (Z.mod_pos_bound a (2 ^ d) Hp).
  destruct (decide (a / 2 ^ d < k)); [case_match; lia|]. assert (a / 2 ^ d = k) as -> by nia.
  rewrite (proj2 (Z.ltb_lt _ _)) by nia. done.
Qed.

Lemma nearest_ge a d k : 0 <= d → k * 2 ^ d <= a → k <= nearest a d.
Proof.
  intros Hd Ha. pose proof (Z.pow_pos_nonneg 2 d ltac:(lia) Hd) as Hp.
  assert (k <= a / 2 ^ d) by (apply Z.div_le_lower_bound; lia). unfold nearest. case_match; lia.
Qed.

Lemma nearest_mono a b d : 0 <= d → a <= b → nearest a d <= nearest b d.
Proof.
  intros Hd Hab. pose proof (Z.pow_pos_nonneg 2 d ltac:(lia) Hd) as Hp.
  pose proof (Z.div_le_mono a b (2 ^ d) Hp Hab) as Hq.
  destruct (decide (a / 2 ^ d = b / 2 ^ d)) as [E|E]; unfold nearest.
  - pose proof (Z.div_mod a (2 ^ d) ltac:(lia)). pose proof (Z.div_mod b (2 ^ d) ltac:(lia)).
    rewrite <-E in *. assert (a mod 2 ^ d <= b mod 2 ^ d) by lia.
    destruct (Z.even _), (Z.ltb_spec (2 * (a mod 2 ^ d)) (2 ^ d)), (Z.ltb_spec (2 * (b mod 2 ^ d)) (2 ^ d)),
      (Z.eqb_spec (2 * (a mod 2 ^ d)) (2 ^ d)), (Z.eqb_spec (2 * (b mod 2 ^ d)) (2 ^ d)); simpl; lia.
  - repeat case_match; lia.
Qed.

(** the number [a] is rounded to, as an integer *)
Definition rounded (a : Z) : Z := nearest a (excess a) * 2 ^ excess a.

Lemma excess_nonneg a : 0 <= excess a.
Proof. unfold excess. lia. Qed.

Lemma rounded_mono a b : 0 <= a → a <= b → rounded a <= rounded b.
Proof.
  intros Ha Hab. unfold rounded. pose proof (excess_nonneg a) as H1. pose proof (excess_nonneg b) as H2.
  destruct (decide (excess a = excess b)) as [->|E].
  { apply Z.mul_le_mono_nonneg_r; [lia|]. by apply nearest_mono. }
  pose proof (Z.log2_le_mono a b Hab) as Hl. pose proof (Z.log2_nonneg a).
  assert (excess b = Z.log2 b - 52 ∧ excess a < excess b ∧ Z.log2 a < Z.log2 b) as (Eb & Hlt & Hll)
    by (unfold excess in *; lia).
  pose proof (Z.log2_spec b ltac:(destruct (decide (b = 0)) as [->|]; [simpl in *; lia|lia])) as [Hb _].
  transitivity (2 ^ Z.log2 b).
  - assert (a <= 2 ^ (Z.log2 b - excess a) * 2 ^ excess a) as Hk.
    { rewrite <-Z.pow_add_r by lia. replace (_ - _ + _) with (Z.log2 b) by lia.
      destruct (decide (a = 0)) as [->|]; [lia|]. pose proof (Z.log2_spec a ltac:(lia)) as [_ Hs].
      pose proof (Z.pow_le_mono_r 2 (Z.succ (Z.log2 a)) (Z.log2 b) ltac:(lia) ltac:(lia)). lia. }
    apply nearest_le in Hk; [|done]. transitivity (2 ^ (Z.log2 b - excess a) * 2 ^ excess a).
    + apply Z.mul_le_mono_nonneg_r; lia.
    + rewrite <-Z.pow_add_r by lia. by replace (_ - _ + _) with (Z.log2 b) by lia.
  - assert (2 ^ 52 * 2 ^ excess b <= b) as Hk
      by (rewrite <-Z.pow_add_r by lia; by replace (52 + excess b) with (Z.log2 b) by lia).
    pose proof (nearest_ge _ _ _ H2 Hk) as Hn. transitivity (2 ^ 52 * 2 ^ excess b).
    + rewrite <-Z.pow_add_r by lia. by replace (52 + excess b) with (Z.log2 b) by lia.
    + apply Z.mul_le_mono_nonneg_r; lia.
Qed.

(** integers of 53 bits are exact *)
Lemma round_exact m e : Z.abs m < 2 ^ 53 → round m e = mk_double m e.
Proof.
  intros Hm. unfold round. assert (excess (Z.abs m) = 0) as ->.
  { unfold excess. destruct (decide (m = 0)) as [->|]; [done|].
    assert (Z.log2 (Z.abs m) < 53) by (apply Z.log2_lt_pow2; lia). lia. }
  unfold nearest. rewrite Z.pow_0_r, Z.div_1_r, Z.mod_1_r. change ((2 * 0 <? 1) || _) with true. cbv iota. f_equal; lia.
Qed.

(** a number in units of [2 ^ -s] *)
Definition scaled (s : Z) (a : double) : Z := mant a * 2 ^ (expo a + s).

Lemma scaled_round s m e : 0 <= m → 0 <= e + s → scaled s (round m e) = rounded m * 2 ^ (e + s).
Proof.
  intros Hm He. unfold scaled, round, rounded. cbn [mant expo]. rewrite (Z.abs_eq m) by done.
  pose proof (excess_nonneg m). replace (e + excess m + s) with (excess m + (e + s)) by lia.
  rewrite Z.pow_add_r by lia. destruct (decide (m = 0)) as [->|]; [done|].
  rewrite Z.sgn_pos by lia. ring.
Qed.

Lemma aligned_scaled s a b :
  0 <= expo a + s → 0 <= expo b + s →
  ∃ x y e, aligned a b = (x, y, e) ∧ 0 <= e + s ∧
    x * 2 ^ (e + s) = scaled s a ∧ y * 2 ^ (e + s) = scaled s b.
Proof.
  intros Ha Hb. eexists _, _, _. split; [done|]. set (e := Z.min _ _).
  assert (0 <= e + s) by lia. split; [done|]. unfold scaled.
  rewrite !Z.shiftl_mul_pow2 by lia. rewrite <-!Z.mul_assoc, <-!Z.pow_add_r by lia.
  split; do 2 f_equal; lia.
Qed.

Lemma d_lt_scaled s a b :
  0 <= expo a + s → 0 <= expo b + s → d_lt a b = (scaled s a <? scaled s b).
Proof.
  intros Ha Hb. destruct (aligned_scaled s a b Ha Hb) as (x & y & e & E & He & <- & <-).
  unfold d_lt. rewrite E. pose proof (Z.pow_pos_nonneg 2 (e + s) ltac:(lia) He).
  destruct (Z.ltb_spec x y), (Z.ltb_spec (x * 2 ^ (e + s)) (y * 2 ^ (e + s))); try done; nia.
Qed.

(** ** The poker test *)

Definition sum_squares (f : list Z) : Z := foldr (λ x a, x * x + a) 0 f.
Definition sum (f : list Z) : Z := foldr Z.add 0 f.

(** the value for a sum of squares *)
Definition poker_of (S : Z) : double := d_sub (d_mul (mk_double S 0) (d_quot 16 5000)) (d_of_int 5000).

Definition C : Z := mant (d_quot 16 5000).

Lemma quot_C : d_quot 16 5000 = mk_double C (-61).
Proof. vm_compute. reflexivity. Qed.

Lemma poker_scaled S :
  1562500 <= S <= 25000000 →
  scaled 61 (poker_of S) = rounded (S * C) - 5000 * 2 ^ 61 ∧ 0 <= expo (poker_of S) + 61.
Proof.
  intros HS. unfold poker_of. rewrite quot_C. unfold d_mul. cbn [mant expo].
  change (0 + -61) with (-61). change (d_of_int 5000) with (mk_double 5000 0).
  assert (C = 7378697629483821) as EC by (vm_compute; reflexivity).
  assert (72 <= Z.log2 (S * C) <= 77) as Hlog.
  { split; [apply (Z.log2_le_mono (2 ^ 72))|]; [rewrite EC; nia|].
    apply Z.lt_succ_r, Z.log2_lt_pow2; rewrite EC; nia. }
  pose proof (scaled_round 61 (S * C) (-61) ltac:(rewrite EC; nia) ltac:(lia)) as Hr.
  destruct (aligned_scaled 61 (round (S * C) (-61)) (mk_double 5000 0)) as (x & y & e & E & He & Hx & Hy);
    [pose proof (excess_nonneg (Z.abs (S * C))); simpl; lia|simpl; lia|].
  unfold d_sub. rewrite E. rewrite Hr, Z.mul_1_r in Hx. change (scaled 61 _) with (5000 * 2 ^ 61) in Hy.
  assert (0 < S * C) as Hp by (rewrite EC; nia).
  assert (excess (S * C) = Z.log2 (S * C) - 52) as Hex by (unfold excess; lia).
  assert (e + 61 = excess (S * C)) as He'.
  { injection E as _ _ <-. simpl. rewrite (Z.abs_eq (S * C)) by lia. lia. }
  assert (2 ^ 52 <= x <= 2 ^ 53) as Hxb.
  { pose proof (Z.log2_spec (S * C) Hp) as [H1 H2].
    rewrite He' in Hx. unfold rounded in Hx. pose proof (excess_nonneg (S * C)) as H0.
    assert (x = nearest (S * C) (excess (S * C))) as -> by nia. split.
    - apply nearest_ge; [done|]. rewrite <-Z.pow_add_r by lia. by replace (52 + _) with (Z.log2 (S * C)) by lia.
    - apply nearest_le; [done|]. rewrite <-Z.pow_add_r by lia.
      replace (53 + excess _) with (Z.succ (Z.log2 (S * C))) by lia. lia. }
  assert (Z.abs (x - y) < 2 ^ 53) as Hd.
  { rewrite He', Hex in Hy. assert (∃ k, Z.log2 (S * C) = k ∧ 72 <= k <= 77) as (k & Ek & Hk) by eauto.
    rewrite Ek in Hy.
    assert (k = 72 ∨ k = 73 ∨ k = 74 ∨ k = 75 ∨ k = 76 ∨ k = 77) as Hc by lia.
    destruct Hc as [->|[->|[->|[->|[->| ->]]]]]; simpl in Hy; lia. }
  rewrite round_exact by done. unfold scaled. cbn [mant expo]. rewrite Z.mul_sub_distr_r. lia.
Qed.

(** the test passes for sums of squares in an interval *)
Lemma poker_ok_spec S :
  1562500 <= S <= 25000000 →
  poker_ok (poker_of S) = (1563176 <=? S) && (S <=? 1576928).
Proof.
  intros HS. destruct (poker_scaled S HS) as [Es He]. unfold poker_ok.
  rewrite !(d_lt_scaled 61) by (done || by vm_compute). rewrite Es.
  set (lo := scaled 61 (d_quot 216 100)). set (hi := scaled 61 (d_quot 4617 100)).
  set (R z := rounded (z * C) - 5000 * 2 ^ 61). change (rounded (S * C) - _) with (R S).
  assert (∀ a b, 0 <= a → a <= b → R a <= R b) as Hm.
  { intros a b Ha Hab. apply Z.sub_le_mono_r, rounded_mono; assert (0 <= C) by (by vm_compute); nia. }
  assert (R 1563175 < lo <= R 1563176 ∧ R 1576928 <= hi < R 1576929) as [H1 H2]
    by (subst R lo hi; vm_compute; by split_and!).
  clearbody lo hi R.
  destruct (Z.leb_spec 1563176 S) as [Hl|Hl], (Z.leb_spec S 1576928) as [Hu|Hu]; cbn [andb];
    [pose proof (Hm 1563176 S); pose proof (Hm S 1576928)|pose proof (Hm 1576929 S)
    |pose proof (Hm S 1563175)|lia];
    destruct (Z.ltb_spec (R S) lo), (Z.ltb_spec hi (R S)); cbn [orb negb]; reflexivity || lia.
Qed.

Lemma sum_squares_app f g : sum_squares (f ++ g) = sum_squares f + sum_squares g.
Proof. induction f as [|x f IH]; simpl; [done|]. rewrite IH. lia. Qed.

Lemma sum_app f g : sum (f ++ g) = sum f + sum g.
Proof. induction f as [|x f IH]; simpl; [done|]. rewrite IH. lia. Qed.

Lemma sum_nonneg f : Forall (λ x, 0 <= x) f → 0 <= sum f.
Proof. induction 1; simpl; lia. Qed.

Lemma sum_squares_range f :
  Forall (λ x, 0 <= x) f → 0 <= sum_squares f <= sum f * sum f.
Proof. induction 1 as [|x f Hx Hf IH]; simpl; [lia|]. apply sum_nonneg in Hf. nia. Qed.

(** the squares of the distances from the mean are not negative *)
Lemma sum_squares_mean f : 2500 * sum f <= 4 * sum_squares f + 390625 * Z.of_nat (length f).
Proof.
  induction f as [|x f IH]; [simpl; lia|]. cbn [sum sum_squares foldr length] in *.
  fold (sum f) (sum_squares f) in *. pose proof (Z.square_nonneg (2 * x - 625)) as Hx.
  replace ((2 * x - 625) * (2 * x - 625)) with (4 * (x * x) - 2500 * x + 390625) in Hx by ring. lia.
Qed.

Lemma sum_squares_prefix n f : Forall (λ x, 0 <= x) f → ∀ x, f !! n = Some x →
  sum_squares (take n f) + x * x <= sum_squares f.
Proof.
  intros Hf x Hx. rewrite <-(take_drop_middle f n x Hx) at 2. rewrite sum_squares_app. simpl.
  pose proof (sum_squares_range (drop (S n) f) ltac:(by apply Forall_drop)). lia.
Qed.

Lemma d_int_small x : Z.abs x < 2 ^ 53 → d_of_int x = mk_double x 0.
Proof. intros. by apply round_exact. Qed.

Lemma d_add_ints a b : Z.abs (a + b) < 2 ^ 53 → d_add (mk_double a 0) (mk_double b 0) = mk_double (a + b) 0.
Proof. intros. unfold d_add, aligned. simpl. by apply round_exact. Qed.

Lemma poker_value_spec f :
  length f = 16%nat → Forall (λ x, 0 <= x) f → sum f <= 5000 →
  poker_value f = Some (poker_of (sum_squares f)).
Proof.
  intros Hl Hf Hs. unfold poker_value.
  pose proof (sum_squares_range f Hf) as Hr. pose proof (sum_nonneg f Hf) as H0.
  assert (sum_squares f <= 25000000) as Hb by nia.
  loop (λ i p, p = mk_double (sum_squares (take (Z.to_nat i) f)) 0) as (p & E & ->); [lia|done| |].
  - intros k p Hk ->. destruct (lookup_lt_is_Some_2 f (Z.to_nat k) ltac:(lia)) as [x Hx].
    rewrite aget_lookup, Hx, Some_bind by lia.
    assert (0 <= x) as Hx0 by (by eapply (proj1 (Forall_lookup _ _) Hf)).
    replace (Z.to_nat (k + 1)) with (S (Z.to_nat k)) by lia.
    rewrite (take_S_r _ _ _ Hx), sum_squares_app. cbn [sum_squares foldr]. fold (sum_squares (take (Z.to_nat k) f)).
    pose proof (sum_squares_prefix (Z.to_nat k) f Hf x Hx) as Hle.
    pose proof (sum_squares_range (take (Z.to_nat k) f) ltac:(by apply Forall_take)) as Ht.
    eexists. split; [reflexivity|]. rewrite d_int_small by nia. unfold d_mul. cbn [mant expo].
    rewrite round_exact by nia. change (0 + 0) with 0. rewrite d_add_ints by lia. f_equal. lia.
  - rewrite E, Some_bind. unfold poker_of. by rewrite take_ge by (rewrite Hl; simpl; lia).
Qed.


(** ** Sequences of bits *)

Definition octet_bits (b : Z) : list bool := map (Z.testbit b) [0; 1; 2; 3; 4; 5; 6; 7].
Definition bits (data : list Z) : list bool := concat (map octet_bits data).

Definition ones (l : list bool) : Z := sum (map Z.b2z l).

(** the number of nibbles of a value *)
Definition octet_nibbles (b : Z) : list Z := [b & 0x0f; b >> 4].
Definition nibble_count (data : list Z) (v : Z) : Z :=
  sum (map (λ x, Z.b2z (x =? v)) (concat (map octet_nibbles data))).
Definition frequencies (data : list Z) : list Z := map (nibble_count data) (seqZ 0 16).

(** the maximal segments of equal bits with their lengths, the last one first *)
Definition push (l : list (bool * Z)) (b : bool) : list (bool * Z) :=
  match l with
  | (c, k) :: r => if eqb b c then (c, k + 1) :: r else (b, 1) :: l
  | [] => [(b, 1)]
  end.
Definition segments (l : list bool) : list (bool * Z) := foldl push [] l.

(** segments of a length; those of more than six count as six *)
Definition segment_count (segs : list (bool * Z)) (b : bool) (n : Z) : Z :=
  sum (map (λ '(c, k), Z.b2z (eqb b c && (Z.min k 6 =? n))) segs).

Definition within (lo hi n : Z) : bool := (lo <=? n) && (n <=? hi).

Definition no_long (segs : list (bool * Z)) : bool := forallb (λ '(_, k), k <=? 25) segs.

(** ** The reference: the tests of FIPS 140-2, section 4.9.1 *)

Module Fips.

(** 9725 < X < 10275, for the number of ones *)
Definition monobit (X : Z) : bool := (9725 <? X) && (X <? 10275).

(** 2.16 < X < 46.17, for X = (16 / 5000) S - 5000 and the sum S of the squares of the
    frequencies of the 4-bit segments; both sides times 500000 *)
Definition poker (S : Z) : bool :=
  let X := 100 * (16 * S - 5000 * 5000) in (216 * 5000 <? X) && (X <? 4617 * 5000).

(** how often runs of each length may occur, of ones and of zeros *)
Definition intervals : list (Z * (Z * Z)) :=
  [(1, (2315, 2685)); (2, (1114, 1386)); (3, (527, 723)); (4, (240, 384)); (5, (103, 209)); (6, (103, 209))].

Definition runs (segs : list (bool * Z)) : bool :=
  forallb (λ '(n, (lo, hi)), within lo hi (segment_count segs true n) &&
                             within lo hi (segment_count segs false n)) intervals.

(** no run of 26 or more *)
Definition long_runs (segs : list (bool * Z)) : bool := forallb (λ '(_, k), k <? 26) segs.

Definition pass (data : list Z) : bool :=
  let segs := segments (bits data) in
  monobit (ones (bits data)) && poker (sum_squares (frequencies data)) && runs segs && long_runs segs.

End Fips.

(** ** What the tests of the code decide *)

(** the last segment, which is not finished, is looked at for its length only *)
Definition runs_pass (l : list bool) : bool :=
  let segs := segments l in no_long segs && Fips.runs (tail segs).

Definition tests_pass (data : list Z) : bool :=
  within 9725 10275 (ones (bits data)) &&
  within 1563176 1576928 (sum_squares (frequencies data)) &&
  runs_pass (bits data).

(** the bounds of the number of ones are included; those of the poker test are not,
    since there is no integer on them *)
Lemma within_monobit n :
  within 9725 10275 n = true ↔ Fips.monobit n = true ∨ n = 9725 ∨ n = 10275.
Proof. unfold within, Fips.monobit. lia. Qed.

Lemma within_poker S : within 1563176 1576928 S = Fips.poker S.
Proof.
  unfold within, Fips.poker. cbv zeta.
  destruct (Z.leb_spec 1563176 S), (Z.leb_spec S 1576928), (Z.ltb_spec (216 * 5000) (100 * (16 * S - 5000 * 5000))),
    (Z.ltb_spec (100 * (16 * S - 5000 * 5000)) (4617 * 5000)); simpl; try done; lia.
Qed.

Lemma no_long_fips segs : no_long segs = Fips.long_runs segs.
Proof.
  unfold no_long, Fips.long_runs. induction segs as [|[b k] segs IH]; [done|]. simpl. rewrite IH. f_equal. lia.
Qed.

(** the segments are the sequence, and neighbours differ *)
Lemma segments_spec l :
  concat (map (λ '(b, k), replicate (Z.to_nat k) b) (rev (segments l))) = l ∧
  Forall (λ '(_, k), 1 <= k) (segments l) ∧
  ∀ i b k c j, segments l !! i = Some (b, k) → segments l !! S i = Some (c, j) → b ≠ c.
Proof.
  induction l as [|b l (IH1 & IH2 & IH3)] using rev_ind; [by split_and!|].
  unfold segments in *. rewrite foldl_app. simpl. revert IH1 IH2 IH3.
  destruct (foldl push [] l) as [|[c k] r]; simpl; intros IH1 IH2 IH3.
  - subst l. split_and!; [done|by repeat constructor|by intros [|i]].
  - apply Forall_cons_1 in IH2 as [Hk Hr]. rewrite map_app, concat_app in IH1. simpl in IH1. rewrite app_nil_r in IH1.
    destruct (Bool.eqb_spec b c) as [->|Hne].
    + simpl. split_and!.
      * rewrite map_app, concat_app. simpl. rewrite app_nil_r, <-IH1, <-app_assoc. f_equal.
        replace (Z.to_nat (k + 1)) with (S (Z.to_nat k)) by lia. by rewrite <-replicate_S_end.
      * constructor; [lia|done].
      * intros [|i] b k' c' j; simpl; [intros [= <- <-]; by eapply (IH3 0%nat)|by apply (IH3 (S i))].
    + simpl. split_and!.
      * by rewrite !map_app, !concat_app; simpl; rewrite !app_nil_r, IH1.
      * by repeat constructor.
      * intros [|i] b' k' c' j; simpl; [by intros [= <- <-] [= <- <-]|by apply (IH3 i)].
Qed.

(** ** Loops with an early return *)

Fixpoint each {A B} (step : B → A → option (option A)) (l : list B) (a : A) : option (option A) :=
  match l with
  | [] => Some (Some a)
  | b :: l => r ← step b a; match r with Some a => each step l a | None => Some None end
  end.

Lemma scan_each {A} (step : Z → A → option (option A)) n pos data a :
  0 <= pos → pos + Z.of_nat n <= Z.of_nat (length data) →
  scan step n pos data a = each step (take n (drop (Z.to_nat pos) data)) a.
Proof.
  revert pos a. induction n as [|n IH]; intros pos a Hp Hl; [done|]. cbn [scan].
  destruct (lookup_lt_is_Some_2 data (Z.to_nat pos) ltac:(lia)) as [x Hx].
  rewrite aget_lookup, Hx, Some_bind, (drop_S _ _ _ Hx) by lia. cbn [firstn each].
  destruct (step x a) as [[a'|]|]; [|done..]. rewrite !Some_bind, IH by lia.
  by replace (Z.to_nat (pos + 1)) with (S (Z.to_nat pos)) by lia.
Qed.

(** a loop that follows [state], while [good] *)
Lemma each_follows {A B} (step : B → A → option (option A)) (state : list B → A) (good : list B → bool)
    (ok : B → Prop) (bound : nat) :
  (∀ l b, good l = true → ok b → (length l < bound)%nat →
    step b (state l) = Some (if good (l ++ [b]) then Some (state (l ++ [b])) else None)) →
  (∀ l k, good (l ++ k) = true → good l = true) →
  ∀ k l, good l = true → Forall ok k → (length l + length k <= bound)%nat →
    each step k (state l) = Some (if good (l ++ k) then Some (state (l ++ k)) else None).
Proof.
  intros Hstep Hpre k. induction k as [|b k IH]; intros l Hg Hok Hl; cbn [each].
  - by rewrite app_nil_r, Hg.
  - apply Forall_cons_1 in Hok as [Hb Hk]. simpl in Hl. rewrite Hstep by (done || lia). rewrite Some_bind.
    rewrite (cons_middle b l k), app_assoc. destruct (good (l ++ [b])) eqn:E.
    + apply IH; [done|done|]. rewrite length_app. simpl. lia.
    + destruct (good ((l ++ [b]) ++ k)) eqn:E'; [|done]. by rewrite (Hpre _ _ E') in E.
Qed.

(** ** One bit, one octet *)

(** the counters after the segments *)
Definition counts_of (segs : list (bool * Z)) : counts :=
  mk_counts (map (segment_count (tail segs) true) (seqZ 1 6))
    (map (segment_count (tail segs) false) (seqZ 1 6))
    (match segs with [] => 0 | (true, k) :: _ => k | (false, k) :: _ => - k end).

Lemma sum_bits_range {A} (g : A → bool) l : 0 <= sum (map (λ x, Z.b2z (g x)) l) <= Z.of_nat (length l).
Proof. induction l as [|x l IH]; simpl; [lia|]. destruct (g x); simpl; lia. Qed.

Lemma segment_count_range segs b n : 0 <= segment_count segs b n <= Z.of_nat (length segs).
Proof.
  unfold segment_count. erewrite map_ext; [apply (sum_bits_range (λ '(c, k), eqb b c && (Z.min k 6 =? n)))|].
  by intros [].
Qed.

(** a segment that is finished is counted *)
Lemma bump_segment segs b k :
  1 <= k → Z.of_nat (length segs) < 65535 →
  bump (map (segment_count segs b) (seqZ 1 6)) (Z.min k 6 - 1) =
    Some (map (segment_count ((b, k) :: segs) b) (seqZ 1 6)).
Proof.
  intros Hk Hl.
  assert (∀ n, segment_count ((b, k) :: segs) b n = Z.b2z (Z.min k 6 =? n) + segment_count segs b n) as Hc.
  { intros n. unfold segment_count. simpl. by rewrite eqb_reflx. }
  pose proof (λ n, segment_count_range segs b n) as Hr.
  rewrite (map_ext _ _ Hc). set (g := segment_count segs b) in *. clearbody g.
  assert (Z.min k 6 = 1 ∨ Z.min k 6 = 2 ∨ Z.min k 6 = 3 ∨ Z.min k 6 = 4 ∨ Z.min k 6 = 5 ∨ Z.min k 6 = 6) as Hm
    by lia.
  destruct Hm as [->|[->|[->|[->|[->| ->]]]]]; unfold bump; simpl; rewrite wrap_small
    by (unfold is_word; match goal with |- context [g ?n] => specialize (Hr n) end; lia);
    rewrite (Z.add_comm (g _) 1); reflexivity.
Qed.

Lemma s16_small z : -32768 <= z < 32768 → s16 z = z.
Proof. intros. unfold swrap. change (2 ^ (16 - 1)) with 32768. change (2 ^ 16) with 65536. rewrite Z.mod_small; lia. Qed.

Lemma runs_bit_push segs b :
  no_long segs = true → Forall (λ '(_, k), 1 <= k) segs → Z.of_nat (length segs) < 65535 →
  runs_bit b (counts_of segs) =
    Some (if no_long (push segs b) then Some (counts_of (push segs b)) else None).
Proof.
  intros Hn H1 Hl. destruct segs as [|[c k] r]; [by destruct b|].
  apply Forall_cons_1 in H1 as [Hk _]. simpl in Hn, Hl. apply andb_true_iff in Hn as [Hk25 Hr].
  apply Z.leb_le in Hk25. pose proof (bump_segment r c k Hk ltac:(lia)) as Hb.
  unfold runs_bit, counts_of, push. cbn [run_state runs gaps tail].
  destruct b, c; cbn [eqb no_long forallb]; fold (no_long r).
  - rewrite (proj2 (Z.ltb_lt 0 k)), s16_small, Hr, andb_true_r by lia.
    destruct (Z.ltb_spec 25 (k + 1)), (Z.leb_spec (k + 1) 25); try done; lia.
  - rewrite (proj2 (Z.ltb_ge 0 (- k))), (proj2 (Z.ltb_lt (- k) 0)), (proj2 (Z.ltb_ge (- k) (-25))) by lia.
    replace (-1 - _) with (Z.min k 6 - 1) by (case_match; lia). rewrite Hb, Some_bind. simpl.
    by rewrite (proj2 (Z.leb_le k 25)), Hr by lia.
  - rewrite (proj2 (Z.ltb_lt 0 k)), (proj2 (Z.ltb_ge 25 k)) by lia.
    replace (_ - 1) with (Z.min k 6 - 1) by (case_match; lia). rewrite Hb, Some_bind. simpl.
    by rewrite (proj2 (Z.leb_le k 25)), Hr by lia.
  - rewrite (proj2 (Z.ltb_ge 0 (- k))), (proj2 (Z.ltb_lt (- k) 0)), s16_small, Hr, andb_true_r by lia.
    destruct (Z.ltb_spec (- k - 1) (-25)), (Z.leb_spec (k + 1) 25); try lia; [done|].
    by replace (- (k + 1)) with (- k - 1) by lia.
Qed.

Lemma segments_snoc l b : segments (l ++ [b]) = push (segments l) b.
Proof. unfold segments. by rewrite foldl_app. Qed.

Lemma length_segments l : (length (segments l) <= length l)%nat.
Proof.
  induction l as [|b l IH] using rev_ind; [done|]. rewrite segments_snoc, length_app. simpl.
  destruct (segments l) as [|[c k] r]; simpl in *; [lia|]. destruct (eqb b c); simpl; lia.
Qed.

Lemma no_long_prefix l k : no_long (segments (l ++ k)) = true → no_long (segments l) = true.
Proof.
  induction k as [|b k IH] using rev_ind; [by rewrite app_nil_r|]. rewrite app_assoc, segments_snoc.
  intros H. apply IH. revert H. destruct (segments (l ++ k)) as [|[c n] r]; [done|]. simpl.
  destruct (eqb b c); simpl; [|done]. rewrite !andb_true_iff, !Z.leb_le. intros [? ?]. split; [lia|done].
Qed.

Lemma runs_bits_follow k l :
  no_long (segments l) = true → Z.of_nat (length l + length k) <= 65534 →
  each runs_bit k (counts_of (segments l)) =
    Some (if no_long (segments (l ++ k)) then Some (counts_of (segments (l ++ k))) else None).
Proof.
  intros Hg Hl. apply (each_follows runs_bit (λ l, counts_of (segments l)) (λ l, no_long (segments l))
    (λ _, True) (Z.to_nat 65534)); [|apply no_long_prefix|done|by apply Forall_true|lia].
  intros l' b Hl' _ Hb. rewrite segments_snoc. pose proof (length_segments l').
  apply runs_bit_push; [done|apply segments_spec|lia].
Qed.

Lemma runs_octet_bits b c : is_word 8 b → runs_octet b c = each runs_bit (octet_bits b) c.
Proof.
  intros Hb.
  assert (∀ ms, runs_masks ms b c = each runs_bit (map (λ m, negb (b & m =? 0)) ms) c) as Hm.
  { intros ms. revert c. induction ms as [|m ms IH]; intros c; [done|]. simpl.
    destruct (runs_bit _ c) as [[c'|]|]; [|done..]. by rewrite !Some_bind. }
  unfold runs_octet. rewrite Hm. f_equal.
  pose proof (octet_forall (λ x, bool_decide (map (λ m, negb (x & m =? 0)) masks = octet_bits x))
    ltac:(by vm_compute) b Hb) as H. by apply bool_decide_eq_true in H.
Qed.

Lemma bits_app d e : bits (d ++ e) = bits d ++ bits e.
Proof. unfold bits. by rewrite map_app, concat_app. Qed.

Lemma length_bits d : length (bits d) = (8 * length d)%nat.
Proof. unfold bits. induction d as [|b d IH]; simpl in *; lia. Qed.

Lemma runs_octet_follow d b :
  is_word 8 b → no_long (segments (bits d)) = true → (length d < 2500)%nat →
  runs_octet b (counts_of (segments (bits d))) =
    Some (if no_long (segments (bits (d ++ [b]))) then Some (counts_of (segments (bits (d ++ [b])))) else None).
Proof.
  intros Hb Hn Hl. rewrite runs_octet_bits, bits_app by done. change (bits [b]) with (octet_bits b).
  apply runs_bits_follow; [done|]. rewrite length_bits. simpl. lia.
Qed.

(** ** Frequencies *)

Lemma bump_map (g : Z → Z) n i :
  0 <= i < n → 0 <= g i < 65535 →
  bump (map g (seqZ 0 n)) i = Some (map (λ j, Z.b2z (i =? j) + g j) (seqZ 0 n)).
Proof.
  intros Hi Hg. unfold bump.
  assert (map g (seqZ 0 n) !! Z.to_nat i = Some (g i)) as Hl.
  { apply list_lookup_fmap_Some. exists i. split; [done|]. apply lookup_seqZ. lia. }
  rewrite aget_lookup, Hl, Some_bind, wrap_small by (unfold is_word; lia).
  rewrite aset_Some by (rewrite length_map, length_seqZ; lia). f_equal. apply list_eq. intros j.
  destruct (decide (j = Z.to_nat i)) as [->|Hj].
  - rewrite list_lookup_insert_eq by (by apply lookup_lt_Some in Hl). symmetry.
    apply list_lookup_fmap_Some. exists i. rewrite Z.eqb_refl. split; [simpl; lia|]. apply lookup_seqZ. lia.
  - rewrite list_lookup_insert_ne by done. change (map ?f ?l) with (f <$> l). rewrite !list_lookup_fmap.
    destruct (seqZ 0 n !! j) as [x|] eqn:E; [|done]. apply lookup_seqZ in E as [-> _]. simpl.
    rewrite (proj2 (Z.eqb_neq i _)) by lia. done.
Qed.

Lemma nibble_count_snoc d b v :
  nibble_count (d ++ [b]) v = Z.b2z (b >> 4 =? v) + (Z.b2z (b & 0x0f =? v) + nibble_count d v).
Proof. unfold nibble_count. rewrite map_app, concat_app, map_app, sum_app. simpl. lia. Qed.

Lemma nibble_count_range d v : 0 <= nibble_count d v <= 2 * Z.of_nat (length d).
Proof.
  unfold nibble_count. pose proof (sum_bits_range (λ x, x =? v) (concat (map octet_nibbles d))) as H.
  assert (length (concat (map octet_nibbles d)) = (2 * length d)%nat) as Hl.
  { clear H. induction d as [|b d IH]; simpl in *; lia. }
  lia.
Qed.

Lemma nibble_range b : is_word 8 b → 0 <= b & 0x0f < 16 ∧ 0 <= b >> 4 < 16.
Proof.
  intros Hb. pose proof (octet_forall (λ x, (0 <=? x & 0x0f) && (x & 0x0f <? 16) && (0 <=? x >> 4) && (x >> 4 <? 16))
    ltac:(by vm_compute) b Hb) as H. cbv beta in H. lia.
Qed.

Lemma nibbles_follow d b :
  is_word 8 b → (length d < 2500)%nat → nibbles b (frequencies d) = Some (frequencies (d ++ [b])).
Proof.
  intros Hb Hl. destruct (nibble_range b Hb) as [H1 H2]. unfold nibbles, frequencies.
  pose proof (λ v, nibble_count_range d v) as Hr.
  rewrite bump_map, Some_bind by (done || specialize (Hr (b & 0x0f)); lia).
  rewrite bump_map by (done || specialize (Hr (b >> 4)); destruct (_ =? _); simpl; lia).
  f_equal. apply map_ext. intros v. by rewrite nibble_count_snoc.
Qed.

(** ** All counters *)

Definition tallies_of (d : list Z) : tallies :=
  mk_tallies (ones (bits d)) (frequencies d) (counts_of (segments (bits d))).
Definition calm (d : list Z) : bool := no_long (segments (bits d)).

Lemma ones_app l k : ones (l ++ k) = ones l + ones k.
Proof. unfold ones. by rewrite map_app, sum_app. Qed.

Lemma weight_bits b : is_word 8 b → octet_get_weight b = Some (ones (octet_bits b)).
Proof. apply octet_get_weight_spec. Qed.

Lemma tally_follow d b :
  calm d = true → is_word 8 b → (length d < 2500)%nat →
  tally b (tallies_of d) = Some (if calm (d ++ [b]) then Some (tallies_of (d ++ [b])) else None).
Proof.
  intros Hc Hb Hl. unfold tally, tallies_of. cbn [ones_count freq seen].
  rewrite weight_bits, Some_bind, nibbles_follow, Some_bind, runs_octet_follow, Some_bind by done.
  unfold calm. destruct (no_long _); [|done]. rewrite Some_bind. do 3 f_equal.
  by rewrite bits_app, ones_app.
Qed.

Lemma calm_prefix d e : calm (d ++ e) = true → calm d = true.
Proof. unfold calm. rewrite bits_app. apply no_long_prefix. Qed.

Lemma scan_tally d buffer :
  calm d = true → is_bytes buffer → (50 <= length buffer)%nat → (length d + 50 <= 2500)%nat →
  scan tally (Z.to_nat RAND_SRC_BUF_OCTETS) 0 buffer (tallies_of d) =
    Some (if calm (d ++ take 50 buffer) then Some (tallies_of (d ++ take 50 buffer)) else None).
Proof.
  intros Hc Hb H50 Hl. rewrite scan_each by (unfold RAND_SRC_BUF_OCTETS; lia).
  apply (each_follows tally tallies_of calm (is_word 8) 2500).
  - intros l b Hl' Hb' Hk. by apply tally_follow.
  - apply calm_prefix.
  - done.
  - by apply Forall_take.
  - unfold RAND_SRC_BUF_OCTETS. rewrite length_take. change (Z.to_nat 50) with 50%nat. lia.
Qed.

Lemma monobit_within n : monobit_ok n = within 9725 10275 n.
Proof. unfold monobit_ok, within. destruct (Z.ltb_spec n 9725), (Z.ltb_spec 10275 n), (Z.leb_spec 9725 n), (Z.leb_spec n 10275); simpl; try done; lia. Qed.

Lemma bounds_within lo hi r g :
  negb ((r <? lo) || (hi <? r) || (g <? lo) || (hi <? g)) = within lo hi r && within lo hi g.
Proof. unfold within. rewrite !Z.ltb_antisym. btauto. Qed.

Lemma runs_ok_spec l :
  no_long (segments l) = true → runs_ok (counts_of (segments l)) = Some (runs_pass l).
Proof.
  intros Hn. unfold runs_ok, runs_pass, Fips.runs. rewrite Hn. cbv zeta. cbn [andb forallb Fips.intervals].
  unfold counts_of. cbn [runs gaps]. generalize (list.tail (segments l)). intros segs.
  set (R := segment_count segs true). set (G := segment_count segs false). clearbody R G.
  set (B lo hi n := negb ((R n <? lo) || (hi <? R n) || (G n <? lo) || (hi <? G n))).
  transitivity (Some (true && B 2315 2685 1 && B 1114 1386 2 && B 527 723 3 && B 240 384 4 &&
    B 103 209 5 && B 103 209 6)); [reflexivity|]. subst B. cbv beta. rewrite !bounds_within. f_equal.
  btauto.
Qed.

Lemma sum_frequencies d : is_bytes d → sum (frequencies d) = 2 * Z.of_nat (length d).
Proof.
  induction d as [|b d IH] using rev_ind; [done|]. intros [Hd Hb]%is_bytes_app.
  apply Forall_cons_1 in Hb as [Hb _]. destruct (nibble_range b Hb) as [H1 H2].
  assert (∀ x, 0 <= x < 16 → sum (map (λ v, Z.b2z (x =? v)) (seqZ 0 16)) = 1) as Hone.
  { intros x Hx. assert (forallb (λ x, sum (map (λ v, Z.b2z (x =? v)) (seqZ 0 16)) =? 1) (seqZ 0 16) = true)
      as H by (by vm_compute). rewrite forallb_forall in H. apply Z.eqb_eq, H, list_elem_of_In, elem_of_seqZ. lia. }
  assert (∀ f g l, sum (map (λ v : Z, f v + g v) l) = sum (map f l) + sum (map g l)) as Hadd.
  { intros f g l. induction l as [|x l IHl]; simpl; lia. }
  unfold frequencies. rewrite (map_ext _ _ (nibble_count_snoc d b)), !Hadd, !Hone by done.
  fold (frequencies d). rewrite IH, length_app by done. simpl. lia.
Qed.

Lemma poker_spec d :
  is_bytes d → length d = 2500%nat →
  ∃ p, poker_value (frequencies d) = Some p ∧
    poker_ok p = within 1563176 1576928 (sum_squares (frequencies d)).
Proof.
  intros Hb Hl. pose proof (sum_frequencies d Hb) as Hs. rewrite Hl in Hs. change (2 * Z.of_nat 2500) with 5000 in Hs.
  assert (Forall (λ x, 0 <= x) (frequencies d)) as Hf.
  { apply Forall_fmap, Forall_true. intros v. apply nibble_count_range. }
  pose proof (sum_squares_range _ Hf). pose proof (sum_squares_mean (frequencies d)) as Hm.
  change (length (frequencies d)) with 16%nat in Hm. rewrite Hs in *.
  eexists. split; [by apply poker_value_spec; [|done|lia]|]. apply poker_ok_spec. lia.
Qed.

Lemma tallies_verdict_spec d :
  is_bytes d → length d = 2500%nat → calm d = true →
  tallies_verdict (tallies_of d) = Some (outcome (tests_pass d)).
Proof.
  intros Hb Hl Hc. destruct (poker_spec d Hb Hl) as (p & Ep & Hp). unfold tallies_verdict, tests_pass.
  cbn [tallies_of ones_count freq seen]. rewrite monobit_within. destruct (within 9725 _ _); [|done].
  cbn [negb]. rewrite Ep, Some_bind, Hp. destruct (within 1563176 _ _); [|done]. cbn [negb andb].
  by rewrite runs_ok_spec by done.
Qed.

(** ** The tests on an array *)

Section Array.
Variable data : list Z.
Hypothesis Hbytes : is_bytes data.
Hypothesis Hlen : length data = 2500%nat.

Lemma ones_range l : 0 <= ones l <= Z.of_nat (length l).
Proof using. unfold ones. rewrite <-(map_ext (λ b, Z.b2z (id b))) by done. apply (sum_bits_range id). Qed.

(** a loop over the whole array *)
Lemma scan_data {A} (step : Z → A → option (option A)) (state : list Z → A) (good : list Z → bool) :
  (∀ l b, good l = true → is_word 8 b → (length l < 2500)%nat →
    step b (state l) = Some (if good (l ++ [b]) then Some (state (l ++ [b])) else None)) →
  (∀ l k, good (l ++ k) = true → good l = true) → good [] = true →
  scan step (Z.to_nat STAT_TEST_DATA_LEN) 0 data (state []) =
    Some (if good data then Some (state data) else None).
Proof using Hbytes Hlen.
  intros Hstep Hpre Hnil. unfold STAT_TEST_DATA_LEN. rewrite scan_each by lia.
  rewrite take_ge by (rewrite length_drop; lia). change (drop (Z.to_nat 0) data) with data.
  rewrite (each_follows step state good (is_word 8) 2500 Hstep Hpre data [] Hnil Hbytes); [done|].
  rewrite Hlen. simpl. lia.
Qed.

Lemma monobit_spec : stat_test_monobit data = Some (outcome (within 9725 10275 (ones (bits data)))).
Proof using Hbytes Hlen.
  unfold stat_test_monobit. rewrite (scan_data _ (λ d, ones (bits d)) (λ _, true)); [|clear data Hbytes Hlen|done..].
  - rewrite Some_bind. by rewrite monobit_within.
  - intros l b _ Hb Hl. rewrite weight_bits, Some_bind, bits_app, ones_app by done. cbv iota.
    change (ones (bits [b])) with (ones (octet_bits b)).
    pose proof (ones_range (bits l)) as H1. rewrite length_bits in H1. pose proof (ones_range (octet_bits b)) as H2.
    simpl length in H2. rewrite wrap_small; [done|]. unfold is_word. lia.
Qed.

Lemma poker_test_spec :
  stat_test_poker data = Some (outcome (within 1563176 1576928 (sum_squares (frequencies data)))).
Proof using Hbytes Hlen.
  unfold stat_test_poker. change (replicate 16 0) with (frequencies []).
  rewrite (scan_data _ frequencies (λ _, true)); [|clear data Hbytes Hlen|done..].
  - rewrite Some_bind. destruct (poker_spec data Hbytes Hlen) as (p & -> & Hp). by rewrite Some_bind, Hp.
  - intros l b _ Hb Hl. by rewrite nibbles_follow.
Qed.

Lemma runs_test_spec : stat_test_runs data = Some (outcome (runs_pass (bits data))).
Proof using Hbytes Hlen.
  unfold stat_test_runs. change no_counts with (counts_of (segments (bits []))).
  rewrite (scan_data _ (λ d, counts_of (segments (bits d))) calm); [|clear data Hbytes Hlen|apply calm_prefix|done].
  - rewrite Some_bind. unfold calm. destruct (no_long (segments (bits data))) eqn:E.
    + by rewrite runs_ok_spec.
    + unfold runs_pass. by rewrite E.
  - intros l b Hc Hb Hl. by apply runs_octet_follow.
Qed.

End Array.

(** C27: the three tests on an array of 2500 octets against those of FIPS 140-2: they
    return (nothing is read or written outside of the arrays and no counter
    overflows).  The poker test, in the rounded arithmetic of doubles, is exactly the
    one of the standard; the monobit test accepts in addition the two bounds, 9725 and
    10275 ones, which the standard excludes; the runs test forbids the same long runs
    and checks the same intervals, but for the sequence without its last run, which
    the standard counts.  So for data with another number of ones, and whose last run
    does not decide, all three succeed exactly when the data passes FIPS 140-2. *)
Theorem stat_tests_fips data :
  is_bytes data → length data = 2500%nat →
  let n := ones (bits data) in let segs := segments (bits data) in
  ∃ m p r, stat_test_monobit data = Some m ∧ stat_test_poker data = Some p ∧ stat_test_runs data = Some r ∧
    (m = err_status_ok ↔ Fips.monobit n = true ∨ n = 9725 ∨ n = 10275) ∧
    (p = err_status_ok ↔ Fips.poker (sum_squares (frequencies data)) = true) ∧
    (r = err_status_ok ↔ Fips.long_runs segs = true ∧ Fips.runs (tail segs) = true) ∧
    (n ≠ 9725 → n ≠ 10275 → Fips.runs (tail segs) = Fips.runs segs →
     Fips.pass data = true ↔ m = err_status_ok ∧ p = err_status_ok ∧ r = err_status_ok).
Proof.
  intros Hb Hl n segs. eexists _, _, _.
  split; [by apply monobit_spec|]. split; [by apply poker_test_spec|]. split; [by apply runs_test_spec|].
  fold n. pose proof (within_monobit n) as Hm. rewrite <-Hm, within_poker. unfold runs_pass. fold segs.
  rewrite no_long_fips. unfold Fips.pass. fold n segs.
  destruct (within 9725 10275 n), (Fips.monobit n), (Fips.poker _), (Fips.long_runs segs), (Fips.runs (tail segs)),
    (Fips.runs segs); cbn [andb outcome]; intuition congruence.
Qed.

(** ** The test of a source *)

Section Source.
Context {St : Type} (get_rand_bytes : source St).

(** the octets of [n] calls, up to the first that fails *)
Fixpoint draw (n : nat) (buffer : list Z) (s : St) : option (err_status_t * list Z * St) :=
  match n with
  | O => Some (err_status_ok, [], s)
  | S n =>
      '(status, buffer, s) ← get_rand_bytes buffer RAND_SRC_BUF_OCTETS s;
      if decide (status ≠ err_status_ok) then Some (status, [], s) else
      '(status, rest, s) ← draw n buffer s;
      Some (status, take 50 buffer ++ rest, s)
  end.

(** a source that returns, and leaves octets in the array *)
Definition well_behaved (P : St → Prop) : Prop :=
  ∀ buffer s, is_bytes buffer → length buffer = 50%nat → P s →
  ∃ status buffer' s', get_rand_bytes buffer RAND_SRC_BUF_OCTETS s = Some (status, buffer', s') ∧
    is_bytes buffer' ∧ length buffer' = 50%nat ∧ P s'.

Variable P : St → Prop.
Hypothesis Hsource : well_behaved P.

Lemma stat_loop_spec n d buffer s :
  is_bytes buffer → length buffer = 50%nat → P s → is_bytes d → calm d = true →
  (length d + 50 * n)%nat = 2500%nat →
  ∃ status s', stat_loop get_rand_bytes n buffer (tallies_of d) s = Some (status, s') ∧ P s' ∧
    (status = err_status_ok ↔ ∃ rest, draw n buffer s = Some (err_status_ok, rest, s') ∧
       tests_pass (d ++ rest) = true).
Proof using Hsource.
  revert d buffer s. induction n as [|n IH]; intros d buffer s Hb H50 HP Hd Hc Hl; cbn [stat_loop draw].
  - rewrite tallies_verdict_spec, Some_bind by (done || lia). eexists _, _. split; [done|]. split; [done|].
    destruct (tests_pass d) eqn:E; simpl.
    + split; [|done]. intros _. exists []. by rewrite app_nil_r.
    + split; [done|]. intros (rest & [= <-] & H). rewrite app_nil_r in H. congruence.
  - destruct (Hsource buffer s Hb H50 HP) as (st & b' & s1 & -> & Hb' & H50' & HP'). rewrite !Some_bind.
    destruct (decide (st ≠ err_status_ok)) as [Hne|Hst].
    { eexists _, _. split; [done|]. split; [done|]. split; [done|]. intros (rest & H & _). congruence. }
    rewrite scan_tally, Some_bind by (done || lia).
    rewrite take_ge by lia. destruct (calm (d ++ b')) eqn:Ec.
    + destruct (IH (d ++ b') b' s1) as (st' & s2 & E & HP2 & Hiff);
        [done..|by apply is_bytes_app|done|rewrite length_app; lia|].
      exists st', s2. split; [done|]. split; [done|]. rewrite Hiff. split.
      * intros (rest & -> & Hf). exists (b' ++ rest). by rewrite Some_bind, app_assoc.
      * intros (rest & Hdr & Hf). destruct (draw n b' s1) as [[[st2 rest2] s3]|]; [|done].
        rewrite Some_bind in Hdr. injection Hdr as -> <- ->. exists rest2. by rewrite <-app_assoc.
    + eexists _, _. split; [done|]. split; [done|]. split; [done|]. intros (rest & Hdr & Hf).
      destruct (draw n b' s1) as [[[st2 rest2] s3]|]; [|done]. rewrite Some_bind in Hdr.
      injection Hdr as -> <- ->. exfalso. revert Hf. unfold tests_pass, runs_pass.
      destruct (no_long (segments (bits (d ++ b' ++ rest2)))) eqn:En; [|by rewrite !andb_false_r].
      rewrite app_assoc in En. fold (calm ((d ++ b') ++ rest2)) in En. apply calm_prefix in En. congruence.
Qed.

(** what is drawn *)
Lemma draw_bytes n buffer s data s' :
  is_bytes buffer → length buffer = 50%nat → P s → draw n buffer s = Some (err_status_ok, data, s') →
  is_bytes data ∧ length data = (50 * n)%nat.
Proof using Hsource.
  revert buffer s data. induction n as [|n IH]; intros buffer s data Hb H50 HP; cbn [draw].
  - intros [= <- <-]. by split; [constructor|].
  - destruct (Hsource buffer s Hb H50 HP) as (st & b' & s1 & -> & Hb' & H50' & HP'). rewrite Some_bind.
    case_decide; [congruence|]. destruct (draw n b' s1) as [[[st2 rest] s2]|] eqn:Ed; [|done].
    rewrite Some_bind. intros [= -> <- ->]. destruct (IH b' s1 rest Hb' H50' HP' Ed) as [Hr Hlr].
    rewrite take_ge, length_app, is_bytes_app by lia. split; [done|lia].
Qed.

End Source.

(** the tests on an array *)
Lemma tests_pass_spec data :
  is_bytes data → length data = 2500%nat →
  tests_pass data = true ↔ stat_test_monobit data = Some err_status_ok ∧
    stat_test_poker data = Some err_status_ok ∧ stat_test_runs data = Some err_status_ok.
Proof.
  intros Hb Hl. rewrite monobit_spec, poker_test_spec, runs_test_spec by done. unfold tests_pass.
  destruct (within 9725 _ _), (within 1563176 _ _), (runs_pass _); cbn [andb outcome]; intuition congruence.
Qed.

(** ** Sources that deliver

    [P j] is a state from which the source fills the array [j] times. *)

Section Delivers.
Context {St : Type} (get_rand_bytes : source St) (P : nat → St → Prop).

Definition delivers : Prop :=
  ∀ j buffer s, is_bytes buffer → length buffer = 50%nat → P (S j) s →
  ∃ buffer' s', get_rand_bytes buffer RAND_SRC_BUF_OCTETS s = Some (err_status_ok, buffer', s') ∧
    is_bytes buffer' ∧ length buffer' = 50%nat ∧ P j s'.

Hypothesis Hsource : delivers.
Hypothesis Hfewer : ∀ i j s, (i <= j)%nat → P j s → P i s.

Lemma stat_loop_delivers m j d buffer s :
  is_bytes buffer → length buffer = 50%nat → P (m + j) s → is_bytes d → calm d = true →
  (length d + 50 * m)%nat = 2500%nat →
  ∃ status s', stat_loop get_rand_bytes m buffer (tallies_of d) s = Some (status, s') ∧
    (status = err_status_ok ∨ status = err_status_algo_fail) ∧ P j s'.
Proof using Hsource Hfewer.
  revert d buffer s. induction m as [|m IH]; intros d buffer s Hb H50 HP Hd Hc Hl; cbn [stat_loop].
  - rewrite tallies_verdict_spec, Some_bind by (done || lia). eexists _, s. split; [done|].
    split; [by destruct (tests_pass d); [left|right]|done].
  - destruct (Hsource (m + j)%nat buffer s Hb H50 HP) as (b' & s1 & -> & Hb' & H50' & HP').
    rewrite Some_bind. destruct (decide _) as [[]|_]; [done|].
    rewrite scan_tally, Some_bind, take_ge by (done || lia). destruct (calm (d ++ b')) eqn:Ec.
    + apply (IH (d ++ b') b' s1); [done..|by apply is_bytes_app|done|rewrite length_app; lia].
    + eexists _, s1. split; [done|]. split; [by right|]. eapply Hfewer; [|done]. lia.
Qed.

Lemma stat_trials_delivers trials j stacks s :
  (∀ i, is_bytes (stacks i) ∧ length (stacks i) = 50%nat) → P (50 * trials + j) s →
  ∃ status s', stat_test_rand_source_with_repetition get_rand_bytes trials stacks s = Some (status, s') ∧
    (status = err_status_ok ∨ status = err_status_algo_fail) ∧ P j s'.
Proof using Hsource Hfewer.
  intros Hs. unfold stat_test_rand_source_with_repetition.
  assert (∀ err, err = err_status_algo_fail → P (50 * trials + j) s → ∃ status s',
    stat_trials get_rand_bytes trials stacks err s = Some (status, s') ∧
    (status = err_status_ok ∨ status = err_status_algo_fail) ∧ P j s') as H; [|by apply H].
  revert s. induction trials as [|m IH]; intros s err -> HP; cbn [stat_trials].
  - eexists _, s. split; [done|]. by split; [right|].
  - destruct (Hs m) as [Hb H50].
    destruct (stat_loop_delivers 50 (50 * m + j)%nat [] (stacks m) s) as (st & s1 & E & Hst & HP1);
      [done|done|eapply Hfewer; [|exact HP]; lia|by constructor|done|done|].
    unfold stat_test_rand_source.
    change (mk_tallies 0 (replicate 16 0) no_counts) with (tallies_of []). rewrite E, Some_bind.
    destruct (decide _) as [->|Hne].
    + eexists _, s1. split; [done|]. split; [by left|]. eapply Hfewer; [|exact HP1]. lia.
    + apply (IH s1 st); [by destruct Hst|done].
Qed.

End Delivers.

(** C25: the streaming test of a source is the three tests on an array: for every
    source that returns, [stat_test_rand_source] returns [err_status_ok] exactly when
    the source fills the buffer fifty times and the 2500 octets it gave pass the
    three tests on arrays. *)
Theorem rand_source_test_fips {St} (get_rand_bytes : source St) P buffer s :
  well_behaved get_rand_bytes P → is_bytes buffer → length buffer = 50%nat → P s →
  ∃ status s', stat_test_rand_source get_rand_bytes buffer s = Some (status, s') ∧ P s' ∧
    (status = err_status_ok ↔ ∃ data, draw get_rand_bytes 50 buffer s = Some (err_status_ok, data, s') ∧
       stat_test_monobit data = Some err_status_ok ∧ stat_test_poker data = Some err_status_ok ∧
       stat_test_runs data = Some err_status_ok).
Proof.
  intros Hs Hb Hl HP.
  destruct (stat_loop_spec get_rand_bytes P Hs 50 [] buffer s Hb Hl HP (Forall_nil_2 _) eq_refl eq_refl)
    as (st & s' & E & HP' & H).
  exists st, s'. split; [exact E|]. split; [done|]. rewrite H. apply exist_proper. intros data.
  split; intros [Hd Ht]; (split; [done|]);
    destruct (draw_bytes get_rand_bytes P Hs 50 buffer s data s' Hb Hl HP Hd) as [Hbd Hld];
    by apply tests_pass_spec.
Qed.

(** ** Concrete data *)

(** a linear congruential generator *)
Fixpoint lcg (n : nat) (x : Z) : list Z :=
  match n with
  | O => []
  | S n => let x := (1103515245 * x + 12345) mod 2 ^ 31 in ((x >> 16) & 255) :: lcg n x
  end.

Definition sample_data : list Z := lcg 2500 1.

Lemma sample_data_bytes : is_bytes sample_data.
Proof. eval_dec. Qed.

Lemma stat_tests_fips_witness :
  Fips.pass sample_data = true ∧
  ∃ m p r, stat_test_monobit sample_data = Some m ∧ stat_test_poker sample_data = Some p ∧
    stat_test_runs sample_data = Some r ∧ m = err_status_ok ∧ p = err_status_ok ∧ r = err_status_ok.
Proof.
  assert (Fips.pass sample_data = true) as Hf by (vm_compute; reflexivity). split; [exact Hf|].
  assert (ones (bits sample_data) ≠ 9725 ∧ ones (bits sample_data) ≠ 10275) as [Hn1 Hn2]
    by (vm_compute; split; discriminate).
  assert (Fips.runs (tail (segments (bits sample_data))) = Fips.runs (segments (bits sample_data))) as Hr
    by (vm_compute; reflexivity).
  destruct (stat_tests_fips sample_data) as (m & p & r & E1 & E2 & E3 & _ & _ & _ & H);
    [apply sample_data_bytes|vm_compute; reflexivity|].
  exists m, p, r. destruct (proj1 (H Hn1 Hn2 Hr) Hf) as (H1 & H2 & H3). by split_and!.
Defined.

(** a source that reads from a list, and fails at its end *)
Definition list_source : source (list Z) := λ buffer len s,
  if (Z.of_nat (length s) <? len) then Some (err_status_fail, buffer, s)
  else Some (err_status_ok, take (Z.to_nat len) s ++ drop (Z.to_nat len) buffer, drop (Z.to_nat len) s).

Lemma list_source_behaves : well_behaved list_source is_bytes.
Proof.
  intros buffer s Hb Hl Hs. unfold list_source, RAND_SRC_BUF_OCTETS.
  destruct (Z.ltb_spec (Z.of_nat (length s)) 50); [by eexists _, _, _|].
  eexists _, _, _. split; [done|]. change (Z.to_nat 50) with 50%nat. split_and!.
  - apply is_bytes_app. split; [by apply is_bytes_take|by apply is_bytes_drop].
  - rewrite length_app, length_take, length_drop. lia.
  - by apply is_bytes_drop.
Qed.

Lemma rand_source_test_fips_witness :
  ∃ status s', stat_test_rand_source list_source (replicate 50 0) sample_data = Some (status, s') ∧
    status = err_status_ok.
Proof.
  destruct (rand_source_test_fips list_source is_bytes (replicate 50 0) sample_data list_source_behaves)
    as (st & s' & E & _ & H); [eval_dec|reflexivity|apply sample_data_bytes|].
  exists st, s'. split; [exact E|]. vm_compute in E. by injection E as <- <-.
Defined.

(** the arithmetic is that of binary64 *)
Definition sf_int (z : Z) : spec_float := binary_normalize 53 1024 z 0 false.
Definition sf_poker_ok (S : Z) : bool :=
  let p := SFsub 53 1024 (SFmul 53 1024 (sf_int S) (SFdiv 53 1024 (sf_int 16) (sf_int 5000))) (sf_int 5000) in
  negb (SFltb p (SFdiv 53 1024 (sf_int 216) (sf_int 100)) || SFltb (SFdiv 53 1024 (sf_int 4617) (sf_int 100)) p).

Example poker_binary64 :
  forallb (λ S, Bool.eqb (sf_poker_ok S) (poker_ok (poker_of S)))
    (seqZ 1563165 20 ++ seqZ 1576920 20 ++ [1562500; 1562502; 1570000; 1600000; 2000000; 25000000]) = true.
Proof. vm_compute. reflexivity. Qed.
