(* ===== verification/Prng.v ===== *)
(** * Random sources and generators

    Models [crypto/rng/rand_source.c] (the build that reads a random device),
    [crypto/rng/ctr_prng.c], the generator the kernel uses, and
    [crypto/rng/prng.c], a generator in the style of ANSI X9.17.

    The device is the class [Device]: what each read returns.  A generator keeps
    its state next to that of the source it was initialised with, and is a source
    itself, so that the tests of [Stat] apply to both.  Arrays on the stack are
    arguments; [addr] is the address of the memory that is written. *)

From S2P Require Import Prelude Datatypes Gf28 AesTables Aes Cipher AesIcm Stat.

(** ** The random device *)

(** the [n]-th call *)
Class Device := {
  dev_open : nat → Z;
  dev_read : nat → Z → option (list Z) }.

(** [read] returns at most what was asked for *)
Definition device_ok (D : Device) : Prop :=
  ∀ n len l, 0 <= len → dev_read n len = Some l → is_bytes l ∧ Z.of_nat (length l) <= len.

Record rand_state := mk_rand { dev_random_fdes : Z; calls : nat }.

(** the first octets of an array are replaced *)
Definition overwrite (dest l : list Z) : option (list Z) :=
  if (length l <=? length dest)%nat then Some (l ++ drop (length l) dest) else None.

Section Device.
Context {D : Device}.

Definition rand_source_init (s : rand_state) : err_status_t * rand_state :=
  if 0 <=? dev_random_fdes s then (err_status_ok, s) else
  let s := mk_rand (dev_open (calls s)) (S (calls s)) in
  (if dev_random_fdes s <? 0 then err_status_init_fail else err_status_ok, s).

Definition rand_source_get_octet_string : source rand_state := λ dest len s,
  if dev_random_fdes s <? 0 then Some (err_status_fail, dest, s) else
  let s' := mk_rand (dev_random_fdes s) (S (calls s)) in
  match dev_read (calls s) len with
  | None => Some (err_status_fail, dest, s')
  | Some l =>
      dest ← overwrite dest l;
      Some (if decide (Z.of_nat (length l) ≠ len) then err_status_fail else err_status_ok, dest, s')
  end.

Definition rand_source_deinit (s : rand_state) : err_status_t * rand_state :=
  if dev_random_fdes s <? 0 then (err_status_dealloc_fail, s)
  else (err_status_ok, mk_rand (-1) (calls s)).

End Device.

(** ** The counter mode generator *)

Definition MAX_PRNG_OUT_LEN : Z := 0xffffffff.

Record ctr_prng_t := mk_ctr { ctr_octet_count : Z; ctr_state : aes_icm_ctx_t }.

Section Ctr.
Context {St : Type} (rand : source St).

(** [tmp_key] is the array of 32 octets on the stack *)
Definition ctr_prng_init (tmp_key : list Z) (p : ctr_prng_t) (s : St)
  : option (err_status_t * ctr_prng_t * St) :=
  let p := mk_ctr 0 (ctr_state p) in
  '(status, tmp_key, s) ← rand tmp_key 32 s;
  if decide (status ≠ err_status_ok) then Some (status, p, s) else
  '(status, c) ← aes_icm_context_init (ctr_state p) tmp_key;
  Some (status, mk_ctr 0 c, s).

Definition ctr_prng_get_octet_string (tmp_key : list Z) (addr : Z) : source (ctr_prng_t * St) :=
  λ dest len '(p, s),
  '(status, p, s) ← (if u32 (MAX_PRNG_OUT_LEN - len) <? ctr_octet_count p then ctr_prng_init tmp_key p s
                     else Some (err_status_ok, p, s));
  if decide (status ≠ err_status_ok) then Some (status, dest, (p, s)) else
  let count := u32 (ctr_octet_count p + len) in
  '(status, c, dest) ← aes_icm_output addr (ctr_state p) dest len;
  Some (status, dest, (mk_ctr count c, s)).

Definition ctr_prng_deinit : err_status_t := err_status_ok.

End Ctr.

(** ** The generator like that of ANSI X9.17 *)

Record x917_prng_t := mk_x917 { x917_state : v128_t; x917_key : list v128_t; x917_octet_count : Z }.

(** [x.v32[0] ^= t] *)
Definition xor_time (t : Z) (x : v128_t) : option v128_t := w ← aget x 0; aset x 0 (w ^^ t).

Section X917.
Context {St : Type} (rand : source St).

(** [tmp_key] is on the stack; [state] is read as the octets of the vector *)
Definition x917_prng_init (tmp_key : list Z) (p : x917_prng_t) (s : St)
  : option (err_status_t * x917_prng_t * St) :=
  let p := mk_x917 (x917_state p) (x917_key p) 0 in
  '(status, tmp_key, s) ← rand tmp_key 16 s;
  if decide (status ≠ err_status_ok) then Some (status, p, s) else
  key ← aes_expand_encryption_key little (of_v8 little tmp_key);
  let p := mk_x917 (x917_state p) key 0 in
  '(status, octets, s) ← rand (v8 little (x917_state p)) 16 s;
  let p := mk_x917 (of_v8 little octets) key 0 in
  Some (status, p, s).

(** time into the state, output, time into the output, new state *)
Definition x917_block (t : Z) (key : list v128_t) (state : v128_t) : option (v128_t * v128_t) :=
  state ← xor_time t state;
  buffer ← aes_encrypt little (v128_copy [] state) key;
  next ← xor_time t buffer;
  next ← aes_encrypt little next key;
  Some (buffer, v128_copy [] next).

(** [*dest++ = buffer.v8[i]] for [n] octets *)
Definition put_octets (n : Z) (buffer : v128_t) (dest : list Z) (pos : Z) : option (list Z * Z) :=
  for_range 0 n (λ i '(dest, pos), o ← aget (v8 little buffer) i; dest ← aset dest pos o; Some (dest, pos + 1))
    (dest, pos).

Definition x917_prng_get_octet_string (tmp_key : list Z) (t : Z) (dest : list Z) (len : Z)
    (p : x917_prng_t) (s : St) : option (err_status_t * list Z * x917_prng_t * St) :=
  '(status, p, s) ← (if u32 (MAX_PRNG_OUT_LEN - len) <? x917_octet_count p then x917_prng_init tmp_key p s
                     else Some (err_status_ok, p, s));
  if decide (status ≠ err_status_ok) then Some (status, dest, p, s) else
  let count := u32 (x917_octet_count p + len) in
  '(state, dest, pos) ← for_range 0 (len / 16) (λ _ '(state, dest, pos),
    '(buffer, state) ← x917_block t (x917_key p) state;
    '(dest, pos) ← put_octets 16 buffer dest pos;
    Some (state, dest, pos)) (x917_state p, dest, 0);
  let tail_len := len mod 16 in
  '(state, dest) ← (if decide (tail_len ≠ 0) then
      '(buffer, state) ← x917_block t (x917_key p) state;
      '(dest, _) ← put_octets tail_len buffer dest pos;
      Some (state, dest)
    else Some (state, dest));
  Some (err_status_ok, dest, mk_x917 state (x917_key p) count, s).

Definition x917_prng_deinit : err_status_t := err_status_ok.

End X917.

(** ** The generator is a keystream *)

Definition zero_iv : list Z := replicate 16 0.

Lemma zero_iv_stream : icm_stream_iv zero_iv.
Proof. split; [split; [eval_dec|done]|done]. Qed.

(** octet [n] of the output for a seed: AES-CM with the salt in the last octets *)
Definition ctr_octet (k : list Z) : nat → Z := AesCm.key_octet (icm_key k) (icm_salt k).

Lemma salt_iv k : icm_key_mem k → icm_iv0 k zero_iv = icm_salt k.
Proof.
  intros Hk. destruct (icm_salt_block k Hk) as [Hl _]. unfold icm_iv0, zero_iv, xor_bytes.
  rewrite take_ge by done. rewrite <-Hl. apply list_eq. intros i. rewrite lookup_zip_with.
  destruct (icm_salt k !! i) as [x|] eqn:E; [|done]. simpl.
  rewrite lookup_replicate_2 by (by apply lookup_lt_Some in E). simpl. by rewrite Z.lxor_0_r.
Qed.

Lemma ctr_stream k n m :
  icm_key_mem k → xor_stream (icm_octet k zero_iv) n (replicate m 0) = map (ctr_octet k) (seq n m).
Proof. intros Hk. rewrite (salt_iv k Hk). unfold ctr_octet. apply xor_stream_zero. Qed.

(** the generator has given [n] octets since it was seeded with [k], and counts
    [count] of them *)
Definition ctr_at (p : ctr_prng_t) (k : list Z) (n : nat) (count : Z) : Prop :=
  icm_at (ctr_state p) k zero_iv n ∧ ctr_octet_count p = count ∧ blocks_for n <= 0xffff.

Lemma block_number k n :
  icm_key_mem k → blocks_for n <= 0xffff → u16 (be_val (icm_iv0 k zero_iv) + blocks_for n) = blocks_for n.
Proof.
  intros Hk Hn. assert (0 <= blocks_for n) by (unfold blocks_for; apply Z.div_pos; lia).
  pose proof (icm_iv0_low k zero_iv Hk zero_iv_stream) as H0. unfold wrap in *.
  rewrite Zplus_mod, H0, Z.add_0_l, !Z.mod_small by (rewrite ?Z.mod_small; lia). done.
Qed.

Lemma ctr_at_key p k n count : ctr_at p k n count → icm_key_mem k.
Proof. intros (((H & _) & _) & _). apply H. Qed.

Section Ctr.
Context {St : Type} (rand : source St) (tmp_key : list Z) (addr : Z).

Abbreviation get := (ctr_prng_get_octet_string rand tmp_key addr).

Lemma ctr_init_spec p s key s' :
  rand tmp_key 32 s = Some (err_status_ok, key, s') → icm_key_mem key →
  ∃ p', ctr_prng_init rand tmp_key p s = Some (err_status_ok, p', s') ∧ ctr_at p' key 0 0.
Proof.
  intros Hr Hk. unfold ctr_prng_init. cbn [ctr_state]. rewrite Hr, Some_bind.
  destruct (decide _) as [[]|_]; [done|].
  destruct (icm_init_spec (ctr_state p) key Hk) as (c & -> & Hc & Hctr & Hb). rewrite Some_bind.
  eexists. split; [done|]. split_and!; [|done|done]. split; [|split; [done|by intros []]].
  split; [done|]. split; [apply zero_iv_stream|]. cbn [ctr_state]. rewrite Hctr, salt_iv by done.
  destruct (icm_salt_block key Hk) as [L0 B0]. change (blocks_for 0) with 0. rewrite Z.add_0_r.
  pose proof (be_bytes_be_val _ B0) as E. rewrite L0 in E. by rewrite E.
Qed.

(** no seed is drawn while the count is below its limit *)
Lemma ctr_get_enter p s dest len count :
  ctr_octet_count p = count → 0 <= count → 0 <= len → count + len <= 0xffffffff →
  get dest len (p, s) =
    ('(status, c, dest) ← aes_icm_output addr (ctr_state p) dest len;
     Some (status, dest, (mk_ctr (count + len) c, s))).
Proof.
  intros Hc H0 Hlen Hs. unfold ctr_prng_get_octet_string, MAX_PRNG_OUT_LEN.
  rewrite wrap_small by (unfold is_word; lia). rewrite Hc, (proj2 (Z.ltb_ge _ _)), Some_bind by lia.
  destruct (decide _) as [[]|_]; [done|]. by rewrite (wrap_small 32), Hc by (unfold is_word; lia).
Qed.

Lemma ctr_get_spec p s k n count dest len :
  ctr_at p k n count → 0 <= count → 1 <= len <= Z.of_nat (length dest) → count + len <= 0xffffffff →
  len + blocks_for n <= 0xffff →
  ∃ p', get dest len (p, s) =
      Some (err_status_ok, map (ctr_octet k) (seq n (Z.to_nat len)) ++ drop (Z.to_nat len) dest, (p', s)) ∧
    ctr_at p' k (n + Z.to_nat len) (count + len).
Proof.
  intros Hat H0 Hlen Hc Hb. pose proof (ctr_at_key _ _ _ _ Hat) as Hk. destruct Hat as (Hat & Hcount & Hn).
  rewrite (ctr_get_enter _ _ _ _ count) by lia. unfold aes_icm_output.
  assert (0 <= blocks_for n) by (unfold blocks_for; apply Z.div_pos; lia).
  rewrite zeroed by (lia || (destruct dest; [simpl in *; lia|discriminate])).
  rewrite Some_bind, (Z.max_r 1 len), wrap_small by (unfold is_word; lia).
  destruct (icm_encrypt_spec addr (ctr_state p) k zero_iv n (replicate (Z.to_nat len) 0)
    (drop (Z.to_nat len) dest) Hat) as (c' & E & Hc').
  - apply is_bytes_replicate, word_0. lia.
  - rewrite length_replicate. lia.
  - rewrite length_replicate, block_number by done. lia.
  - rewrite length_replicate, Z2Nat.id in E by lia. rewrite E, !Some_bind. rewrite length_replicate in Hc'.
    exists (mk_ctr (count + len) c'). split.
    { by rewrite ctr_stream by done. }
    split_and!; [done|done|]. revert Hb. unfold blocks_for. intros Hb.
    apply Z.lt_succ_r, Z.div_lt_upper_bound; [lia|].
    pose proof (Z.mul_div_le (Z.of_nat n + 15) 16 ltac:(lia)). pose proof (Z.mod_pos_bound (Z.of_nat n + 15) 16).
    pose proof (Z.div_mod (Z.of_nat n + 15) 16 ltac:(lia)). lia.
Qed.

(** past the end of the segment the memory is cleared, and nothing else happens *)
Lemma ctr_get_refused p s k n count dest len :
  ctr_at p k n count → 0 <= count → 1 <= len <= Z.of_nat (length dest) → len < 2 ^ 32 - 2 ^ 16 →
  count + len <= 0xffffffff → 0xffff < len + blocks_for n →
  get dest len (p, s) =
    Some (err_status_terminus, replicate (Z.to_nat len) 0 ++ drop (Z.to_nat len) dest,
          (mk_ctr (count + len) (ctr_state p), s)) ∧
  ctr_at (mk_ctr (count + len) (ctr_state p)) k n (count + len).
Proof.
  intros Hat H0 Hlen Hl32 Hc Hb. pose proof (ctr_at_key _ _ _ _ Hat) as Hk. destruct Hat as (Hat & Hcount & Hn).
  split; [|by split_and!]. rewrite (ctr_get_enter _ _ _ _ count) by lia. unfold aes_icm_output.
  rewrite zeroed by (lia || (destruct dest; [simpl in *; lia|discriminate])).
  rewrite Some_bind, (Z.max_r 1 len), wrap_small by (unfold is_word; lia).
  rewrite (icm_encrypt_refused addr _ k zero_iv n) by (done || lia || rewrite block_number by done; lia).
  by rewrite !Some_bind.
Qed.

(** requests one after the other: the memory and the number of octets of each *)
Fixpoint requests (reqs : list (list Z * Z)) (ps : ctr_prng_t * St)
  : option (list (err_status_t * list Z) * (ctr_prng_t * St)) :=
  match reqs with
  | [] => Some ([], ps)
  | (dest, len) :: reqs =>
      '(status, dest, ps) ← get dest len ps;
      '(outs, ps) ← requests reqs ps;
      Some ((status, take (Z.to_nat len) dest) :: outs, ps)
  end.

Definition asked (reqs : list (list Z * Z)) : Z := sum (map snd reqs).

Definition fits (L : Z) (req : list Z * Z) : Prop := 1 <= req.2 <= Z.min L (Z.of_nat (length req.1)).

Lemma asked_nonneg L reqs : Forall (fits L) reqs → 0 <= asked reqs.
Proof using. induction 1 as [|[dest len] reqs [H _] _ IH]; unfold asked in *; simpl in *; lia. Qed.

Lemma blocks_for_mono n m : (n <= m)%nat → blocks_for n <= blocks_for m.
Proof using. intros. unfold blocks_for. apply Z.div_le_mono; lia. Qed.

Lemma requests_spec L reqs p s k n count :
  ctr_at p k n count → 0 <= count → Forall (fits L) reqs →
  count + asked reqs <= 0xffffffff → blocks_for (n + Z.to_nat (asked reqs)) + L <= 0xffff →
  ∃ outs p', requests reqs (p, s) = Some (outs, (p', s)) ∧
    Forall (λ o, o.1 = err_status_ok) outs ∧
    concat (map snd outs) = map (ctr_octet k) (seq n (Z.to_nat (asked reqs))) ∧
    ctr_at p' k (n + Z.to_nat (asked reqs)) (count + asked reqs).
Proof using.
  revert p n count. induction reqs as [|[dest len] reqs IH]; intros p n count Hat H0 Hf Hc Hb.
  - exists [], p. split_and!; [done|by constructor|done|]. change (asked []) with 0.
    by rewrite Nat.add_0_r, Z.add_0_r.
  - apply Forall_cons_1 in Hf as [[Hl1 Hl2] Hf]. cbn [fst snd] in Hl1, Hl2.
    pose proof (asked_nonneg L reqs Hf) as Ha.
    assert (asked ((dest, len) :: reqs) = len + asked reqs) as Ea by done. rewrite Ea in *.
    pose proof (blocks_for_mono n (n + Z.to_nat (len + asked reqs)) ltac:(lia)) as Hm.
    destruct (ctr_get_spec p s k n count dest len Hat) as (p1 & E1 & Hat1); [lia..|].
    assert ((n + Z.to_nat (len + asked reqs))%nat = (n + Z.to_nat len + Z.to_nat (asked reqs))%nat) as En by lia.
    rewrite En, Z.add_assoc in *.
    destruct (IH p1 _ _ Hat1) as (outs & p' & E & Hok & Hout & Hat'); [lia|done|lia|lia|].
    eexists _, p'. split; [cbn [requests]; by rewrite E1, Some_bind, E, Some_bind|]. split_and!.
    + by constructor.
    + cbn [map snd concat]. rewrite Hout, take_app_length' by (by rewrite length_map, length_seq).
      rewrite <-map_app. f_equal. rewrite Z2Nat.inj_add, seq_app by lia. done.
    + done.
Qed.

Lemma requests_refused L reqs p s k n count :
  ctr_at p k n count → 0 <= count → 1 <= L → 0xffff < L + blocks_for n →
  Forall (λ req, L <= req.2 <= Z.of_nat (length req.1) ∧ req.2 < 2 ^ 32 - 2 ^ 16) reqs →
  count + asked reqs <= 0xffffffff →
  ∃ outs p', requests reqs (p, s) = Some (outs, (p', s)) ∧
    Forall (λ o, o.1 = err_status_terminus ∧ Forall (λ x, x = 0) o.2) outs.
Proof using.
  intros Hat H0 HL HLb Hf. revert p count Hat H0. induction reqs as [|[dest len] reqs IH]; intros p count Hat H0 Hc.
  - exists [], p. by split.
  - apply Forall_cons_1 in Hf as [[Hl Hl32] Hf]. cbn [fst snd] in Hl, Hl32.
    assert (0 <= asked reqs) as Ha.
    { clear -Hf HL. unfold asked. induction Hf as [|[d l] reqs [[? _] _] _ IH]; simpl in *; lia. }
    assert (asked ((dest, len) :: reqs) = len + asked reqs) as Ea by done. rewrite Ea in *.
    destruct (ctr_get_refused p s k n count dest len Hat) as [E1 Hat1]; [lia..|].
    destruct (IH Hf _ _ Hat1) as (outs & p' & E & Hout); [lia..|].
    eexists _, p'. split; [cbn [requests]; by rewrite E1, Some_bind, E, Some_bind|].
    constructor; [|done]. cbn [fst snd]. split; [done|].
    rewrite take_app_length' by (by rewrite length_replicate). by apply Forall_replicate.
Qed.

End Ctr.

(** C26: the generator of the kernel is a keystream: seeded with 32 octets of its
    source, it answers any requests with consecutive octets of AES-CM for the key
    and the salt in the seed (no octet is used twice, none is left out), without
    drawing on the source again, as long as the number of blocks used and the
    size of the largest request do not exceed 65535. *)
Theorem ctr_prng_keystream {St} (rand : source St) tmp_key addr p s seed s' L reqs :
  rand tmp_key 32 s = Some (err_status_ok, seed, s') → icm_key_mem seed →
  Forall (fits L) reqs → blocks_for (Z.to_nat (asked reqs)) + L <= 0xffff → asked reqs <= 0xffffffff →
  ∃ p1 outs p2, ctr_prng_init rand tmp_key p s = Some (err_status_ok, p1, s') ∧
    requests rand tmp_key addr reqs (p1, s') = Some (outs, (p2, s')) ∧
    Forall (λ o, o.1 = err_status_ok) outs ∧
    concat (map snd outs) = map (ctr_octet seed) (seq 0 (Z.to_nat (asked reqs))).
Proof.
  intros Hr Hk Hf Hb Hc. destruct (ctr_init_spec rand tmp_key p s seed s' Hr Hk) as (p1 & E1 & Hat).
  destruct (requests_spec rand tmp_key addr L reqs p1 s' seed 0 0 Hat) as (outs & p2 & E2 & Hok & Ho & _);
    [lia|done|lia|done|].
  by exists p1, outs, p2.
Qed.

(** the generator runs dry: when a request would pass the 65535th block, it
    fails, and so do all requests of that size and more that follow, because the
    counter is not reset and a new seed is drawn only after 2^32 octets; what the
    caller finds in its memory, if it does not look at the status, is zeros. *)
Theorem ctr_prng_runs_dry {St} (rand : source St) tmp_key addr p (s : St) k n count L reqs :
  ctr_at p k n count → 0 <= count → 1 <= L → 0xffff < L + blocks_for n →
  Forall (λ req, L <= req.2 <= Z.of_nat (length req.1) ∧ req.2 < 2 ^ 32 - 2 ^ 16) reqs →
  count + asked reqs <= 0xffffffff →
  ∃ outs p', requests rand tmp_key addr reqs (p, s) = Some (outs, (p', s)) ∧
    Forall (λ o, o.1 = err_status_terminus ∧ Forall (λ x, x = 0) o.2) outs.
Proof. intros. by apply (requests_refused _ _ _ L _ _ _ k n count). Qed.

(** ** The test of the generator when the kernel comes up *)

Section Test.
Context {St : Type} (rand : source St) (tmp_key : list Z) (addr : Z).

Abbreviation get := (ctr_prng_get_octet_string rand tmp_key addr).

Lemma ctr_octet_word k n : icm_key_mem k → is_word 8 (ctr_octet k n).
Proof. intros Hk. unfold ctr_octet. rewrite <-(salt_iv k Hk). by apply icm_octet_range. Qed.

(** it delivers, while it is far from its end *)
Definition ctr_ready (k : list Z) (s : St) (j : nat) (ps : ctr_prng_t * St) : Prop :=
  ∃ n, ctr_at ps.1 k n (Z.of_nat n) ∧ (n + 50 * j <= 5000 * 15)%nat ∧ ps.2 = s.

Lemma ctr_delivers k s : delivers get (ctr_ready k s).
Proof.
  intros j buffer [p s'] Hb H50 (n & Hat & Hn & Es). simpl in Hat, Es. subst s'.
  pose proof (ctr_at_key _ _ _ _ Hat) as Hk.
  assert (blocks_for n <= 5000) as Hbn by (unfold blocks_for; apply Z.lt_succ_r, Z.div_lt_upper_bound; lia).
  change RAND_SRC_BUF_OCTETS with 50.
  destruct (ctr_get_spec rand tmp_key addr p s k n (Z.of_nat n) buffer 50 Hat) as (p1 & -> & Hat1); [lia..|].
  change (Z.to_nat 50) with 50%nat in *. rewrite drop_ge, app_nil_r by lia.
  replace (Z.of_nat n + 50) with (Z.of_nat (n + 50)) in Hat1 by lia.
  eexists _, _. split; [done|]. split_and!.
  - apply Forall_fmap, Forall_true. intros. by apply ctr_octet_word.
  - by rewrite length_map, length_seq.
  - exists (n + 50)%nat. split_and!; [done|lia|done].
Qed.

Lemma ctr_ready_fewer k s i j ps : (i <= j)%nat → ctr_ready k s j ps → ctr_ready k s i ps.
Proof. intros Hij (n & H1 & H2 & H3). exists n. split_and!; [done|lia|done]. Qed.

End Test.

(** when the kernel comes up it tests the generator 25 times at most, with a
    fresh seed: the tests return, the generator does not run dry meanwhile, and
    the only statuses are success and a failed statistical test. *)
Theorem ctr_prng_test_total {St} (rand : source St) tmp_key addr stacks p s seed s' :
  rand tmp_key 32 s = Some (err_status_ok, seed, s') → icm_key_mem seed →
  (∀ i, is_bytes (stacks i) ∧ length (stacks i) = 50%nat) →
  ∃ p1 st p2, ctr_prng_init rand tmp_key p s = Some (err_status_ok, p1, s') ∧
    stat_test_rand_source_with_repetition (ctr_prng_get_octet_string rand tmp_key addr) 25 stacks (p1, s') =
      Some (st, (p2, s')) ∧
    (st = err_status_ok ∨ st = err_status_algo_fail).
Proof.
  intros Hr Hk Hs. destruct (ctr_init_spec rand tmp_key p s seed s' Hr Hk) as (p1 & E1 & Hat).
  destruct (stat_trials_delivers (ctr_prng_get_octet_string rand tmp_key addr) (ctr_ready seed s')
    (ctr_delivers rand tmp_key addr seed s') (ctr_ready_fewer seed s') 25 0 stacks (p1, s') Hs)
    as (st & [p2 s2] & E & Hst & (n & _ & _ & Es)).
  - exists 0%nat. split_and!; [done|apply Nat.leb_le; vm_compute; reflexivity|done].
  - simpl in Es. subst s2. by exists p1, st, p2.
Qed.

(** ** The device as a source *)

Lemma device_behaves {D : Device} : device_ok D → well_behaved rand_source_get_octet_string (λ _, True).
Proof.
  intros HD buffer s Hb Hl _. unfold rand_source_get_octet_string.
  destruct (_ <? 0); [by eexists _, _, _|]. destruct (dev_read _ _) as [l|] eqn:El; [|by eexists _, _, _].
  destruct (HD _ RAND_SRC_BUF_OCTETS _ ltac:(done) El) as [Hlb Hll]. unfold overwrite, RAND_SRC_BUF_OCTETS in *.
  rewrite (proj2 (Nat.leb_le _ _)), Some_bind by lia. eexists _, _, _. split; [done|]. split_and!; [| |done].
  - apply is_bytes_app. split; [done|by apply is_bytes_drop].
  - rewrite length_app, length_drop. lia.
Qed.

(** ** The recurrence of ANSI X9.17

    With a block cipher [E] under a fixed key, a seed [V] and an intermediate value [I],
    a step gives the block [R = E (I xor V)] and the seed [E (R xor I)].  In the standard
    [I] is [E D] for the date and time [D].  The code leaves that encryption out: its
    [I] is the time itself, in the first four octets of a block of zeros. *)

Module Ansi.
Section Recurrence.
Variables (E : list Z → list Z) (I : list Z).

Definition R (V : list Z) : list Z := E (xor_bytes V I).
Definition next (V : list Z) : list Z := E (xor_bytes (R V) I).

(** the blocks of [m] steps, and the seed after them *)
Fixpoint blocks (m : nat) (V : list Z) : list Z :=
  match m with O => [] | S m => R V ++ blocks m (next V) end.
Definition seed_after (m : nat) (V : list Z) : list Z := Nat.iter m next V.

End Recurrence.

(** the intermediate value of the standard *)
Definition intermediate (E : list Z → list Z) (D : list Z) : list Z := E D.

End Ansi.

(** the time as a block *)
Definition time_octets (t : Z) : list Z := le_bytes 4 t ++ replicate 12 0.

Definition with_time (t : Z) (s : list Z) : list Z := xor_bytes s (time_octets t).
Definition x917_out (ks : list (list Z)) (t : Z) : list Z → list Z := Ansi.R (AesSpec.cipher ks) (time_octets t).
Definition x917_next (ks : list (list Z)) (t : Z) : list Z → list Z := Ansi.next (AesSpec.cipher ks) (time_octets t).
Definition x917_stream (ks : list (list Z)) (t : Z) : nat → list Z → list Z :=
  Ansi.blocks (AesSpec.cipher ks) (time_octets t).
Definition x917_after (ks : list (list Z)) (t : Z) : nat → list Z → list Z :=
  Ansi.seed_after (AesSpec.cipher ks) (time_octets t).

Lemma time_block t : is_word 32 t → block (time_octets t).
Proof.
  intros Ht. unfold time_octets. split; [by rewrite length_app, length_le_bytes|]. apply is_bytes_app.
  split; [unfold le_bytes; apply is_bytes_rev, be_bytes_range|apply is_bytes_replicate, word_0; lia].
Qed.

Lemma xor_time_spec t s :
  is_word 32 t → block s → xor_time t (of_v8 little s) = Some (of_v8 little (with_time t s)) ∧ block (with_time t s).
Proof.
  intros Ht Hs. pose proof (time_block t Ht) as Hb. split; [|by apply block_xor].
  unfold with_time, time_octets in *. rewrite <-v128_xor_of_v8 by done.
  assert (of_v8 little (le_bytes 4 t ++ replicate 12 0) = [t; 0; 0; 0]) as ->.
  { unfold of_v8. rewrite take_app_length' by done. f_equal.
    unfold word_of. by rewrite le_val_le_bytes, wrap_small. }
  unfold of_v8, xor_time, v128_xor. simpl. by rewrite !Z.lxor_0_r.
Qed.

Lemma put_octets_spec n o pre rest :
  block o → 0 <= n <= 16 → n <= Z.of_nat (length rest) →
  put_octets n (of_v8 little o) (pre ++ rest) (Z.of_nat (length pre)) =
    Some (pre ++ take (Z.to_nat n) o ++ drop (Z.to_nat n) rest, Z.of_nat (length pre) + n).
Proof.
  intros Ho Hn Hr. unfold put_octets. rewrite v8_of_v8 by done. destruct Ho as [Hl _].
  loop (λ i '(dest, pos), dest = pre ++ take (Z.to_nat i) o ++ drop (Z.to_nat i) rest ∧
    pos = Z.of_nat (length pre) + i) as ([dest pos] & -> & -> & ->); [lia| | |done].
  - split; [done|lia].
  - intros i [dest pos] Hi [-> ->]. destruct (lookup_lt_is_Some_2 o (Z.to_nat i) ltac:(lia)) as [x Hx].
    destruct (lookup_lt_is_Some_2 rest (Z.to_nat i) ltac:(lia)) as [y Hy].
    rewrite (aget_lookup o), Hx, Some_bind by lia.
    assert (length (take (Z.to_nat i) o) = Z.to_nat i) as Ht' by (rewrite length_take; lia).
    rewrite aset_Some, Some_bind by (rewrite !length_app, Ht', length_drop; lia).
    eexists (_, _). split; [reflexivity|]. split; [|lia].
    rewrite insert_app_r_alt by lia. f_equal. rewrite insert_app_r_alt by lia.
    replace (_ - _ - _)%nat with 0%nat by lia. rewrite (drop_S _ _ _ Hy). cbn [insert list_insert].
    replace (Z.to_nat (i + 1)) with (S (Z.to_nat i)) by lia. by rewrite (take_S_r _ _ _ Hx), <-app_assoc.
Qed.

Section X917.
Variables (ks : list (list Z)) (t : Z).
Hypothesis Hks : Forall block ks.
Hypothesis Hlen : length ks = 11%nat.
Hypothesis Ht : is_word 32 t.

Lemma x917_block_spec s :
  block s →
  x917_block t (map (of_v8 little) ks) (of_v8 little s) =
    Some (of_v8 little (x917_out ks t s), of_v8 little (x917_next ks t s)) ∧
  block (x917_out ks t s) ∧ block (x917_next ks t s).
Proof using Hks Hlen Ht.
  intros Hs. unfold x917_block, v128_copy. destruct (xor_time_spec t s Ht Hs) as [-> B1]. rewrite Some_bind.
  destruct (aes_encrypt_spec little _ ks B1 Hks Hlen) as [-> B2]. rewrite Some_bind.
  destruct (xor_time_spec t _ Ht B2) as [-> B3]. rewrite Some_bind.
  destruct (aes_encrypt_spec little _ ks B3 Hks Hlen) as [-> B4]. by rewrite Some_bind.
Qed.

Lemma x917_stream_snoc m s : x917_stream ks t (S m) s = x917_stream ks t m s ++ x917_out ks t (x917_after ks t m s).
Proof using.
  revert s. induction m as [|m IH]; intros s; [simpl; by rewrite app_nil_r|].
  change (x917_stream ks t (S (S m)) s) with (x917_out ks t s ++ x917_stream ks t (S m) (x917_next ks t s)).
  rewrite IH. change (x917_stream ks t (S m) s) with (x917_out ks t s ++ x917_stream ks t m (x917_next ks t s)).
  rewrite <-app_assoc. do 3 f_equal. unfold x917_after, Ansi.seed_after.
  by rewrite <-Nat.iter_succ_r.
Qed.

Lemma x917_after_S m s : x917_after ks t (S m) s = x917_next ks t (x917_after ks t m s).
Proof using. done. Qed.

Lemma x917_after_block m s : block s → block (x917_after ks t m s).
Proof using Hks Hlen Ht. intros Hs. induction m as [|m IH]; [done|]. by apply x917_block_spec. Qed.

Lemma length_x917_stream m s : block s → length (x917_stream ks t m s) = (16 * m)%nat.
Proof using Hks Hlen Ht.
  intros Hs. induction m as [|m IH]; [done|]. rewrite x917_stream_snoc, length_app, IH.
  destruct (x917_block_spec _ (x917_after_block m s Hs)) as (_ & [-> _] & _). lia.
Qed.

(** [m] whole blocks *)
Lemma x917_loop m s dest :
  block s → (16 * m <= length dest)%nat →
  for_range 0 (Z.of_nat m) (λ _ '(state, dest, pos),
    '(buffer, state) ← x917_block t (map (of_v8 little) ks) state;
    '(dest, pos) ← put_octets 16 buffer dest pos;
    Some (state, dest, pos)) (of_v8 little s, dest, 0) =
  Some (of_v8 little (x917_after ks t m s), x917_stream ks t m s ++ drop (16 * m) dest, Z.of_nat (16 * m)).
Proof using Hks Hlen Ht.
  intros Hs Hl.
  loop (λ i '(state, d, pos), state = of_v8 little (x917_after ks t (Z.to_nat i) s) ∧
    d = x917_stream ks t (Z.to_nat i) s ++ drop (16 * Z.to_nat i) dest ∧ pos = 16 * i)
    as ([[state d] pos] & -> & -> & -> & ->); [lia|done| |by rewrite Nat2Z.id; do 2 f_equal; lia].
  intros i [[state d] pos] Hi (-> & -> & ->).
  destruct (x917_block_spec _ (x917_after_block (Z.to_nat i) s Hs)) as (-> & B1 & B2). rewrite Some_bind.
  pose proof (length_x917_stream (Z.to_nat i) s Hs) as Hst.
  replace (16 * i) with (Z.of_nat (length (x917_stream ks t (Z.to_nat i) s))) by lia.
  rewrite put_octets_spec, Some_bind by (done || rewrite ?length_drop; lia).
  eexists (_, _, _). split; [reflexivity|]. replace (Z.to_nat (i + 1)) with (S (Z.to_nat i)) by lia.
  rewrite x917_after_S, x917_stream_snoc, <-app_assoc. split_and!; [done| |lia].
  do 2 f_equal. change (Z.to_nat 16) with 16%nat. rewrite take_ge by (destruct B1 as [-> _]; lia).
  f_equal. rewrite drop_drop. f_equal. lia.
Qed.

(** a request that needs no new seed *)
Lemma x917_generates {St} (rand : source St) tmp_key dest len o count (s : St) :
  block o → 0 <= len <= Z.of_nat (length dest) → 0 <= count → count + len <= 0xffffffff →
  let m := Z.to_nat ((len + 15) / 16) in
  x917_prng_get_octet_string rand tmp_key t dest len (mk_x917 (of_v8 little o) (map (of_v8 little) ks) count) s =
    Some (err_status_ok, take (Z.to_nat len) (x917_stream ks t m o) ++ drop (Z.to_nat len) dest,
          mk_x917 (of_v8 little (x917_after ks t m o)) (map (of_v8 little) ks) (count + len), s).
Proof using Hks Hlen Ht.
  intros Ho Hn Hc Hcl m. unfold x917_prng_get_octet_string, MAX_PRNG_OUT_LEN.
  cbn [x917_octet_count x917_state x917_key].
  rewrite (wrap_small 32 (0xffffffff - len)) by (unfold is_word; lia).
  rewrite (proj2 (Z.ltb_ge _ _)), Some_bind by lia. destruct (decide _) as [[]|_]; [done|].
  cbn [x917_octet_count x917_state x917_key]. rewrite (wrap_small 32) by (unfold is_word; lia).
  pose proof (Z.div_mod len 16 ltac:(lia)) as Hdm. pose proof (Z.mod_pos_bound len 16 ltac:(lia)) as Hm.
  assert (0 <= len / 16) as Hd by (apply Z.div_pos; lia).
  replace (len / 16) with (Z.of_nat (Z.to_nat (len / 16))) at 1 by lia.
  rewrite (x917_loop) by (done || lia). rewrite Some_bind.
  set (q := Z.to_nat (len / 16)) in *.
  pose proof (length_x917_stream q o Ho) as Hst.
  destruct (decide (len mod 16 ≠ 0)) as [Hne|Heq].
  - assert (m = S q) as -> by (unfold m, q; rewrite <-Z2Nat.inj_succ by lia; f_equal; Z.div_mod_to_equations; lia).
    destruct (x917_block_spec _ (x917_after_block q o Ho)) as (-> & B1 & B2).
    rewrite Some_bind. replace (Z.of_nat (16 * q)) with (Z.of_nat (length (x917_stream ks t q o))) by lia.
    rewrite put_octets_spec, !Some_bind by (done || rewrite ?length_drop; lia).
    rewrite x917_stream_snoc, take_app_ge, drop_drop, <-app_assoc by lia.
    do 5 f_equal. f_equal; f_equal; lia.
  - assert (m = q) as -> by (unfold m, q; f_equal; Z.div_mod_to_equations; lia).
    rewrite Some_bind, take_ge by lia. do 6 f_equal. lia.
Qed.

End X917.

(** a request that needs a new seed runs like one of a generator that was just seeded *)
Lemma x917_reseeds {St} (rand : source St) tmp_key t dest len p s key s1 o s2 :
  0 <= len <= 0xffffffff → 0xffffffff < x917_octet_count p + len →
  rand tmp_key 16 s = Some (err_status_ok, key, s1) → block key →
  rand (v8 little (x917_state p)) 16 s1 = Some (err_status_ok, o, s2) →
  x917_prng_get_octet_string rand tmp_key t dest len p s =
  x917_prng_get_octet_string rand tmp_key t dest len
    (mk_x917 (of_v8 little o) (map (of_v8 little) (AesSpec.key_expansion key)) 0) s2.
Proof.
  intros Hl Hc Hkey Bk Hst. unfold x917_prng_get_octet_string, MAX_PRNG_OUT_LEN.
  rewrite !(wrap_small 32 (0xffffffff - len)) by (unfold is_word; lia).
  rewrite (proj2 (Z.ltb_lt _ (x917_octet_count p))) by lia. cbn [x917_octet_count].
  rewrite (proj2 (Z.ltb_ge _ 0)) by lia. unfold x917_prng_init. rewrite Hkey, Some_bind.
  destruct (decide (err_status_ok ≠ err_status_ok)) as [[]|_]; [done|].
  destruct (expand_encryption_spec little key Bk) as (-> & _). rewrite Some_bind. cbn [x917_state].
  by rewrite Hst.
Qed.

(** C39: the generator of [prng.c] is the recurrence of ANSI X9.17 with the time in place
    of its encryption as the intermediate value, which is not what the standard says.
    A request for any number of octets that fits the memory writes the first octets of
    the blocks of the recurrence, touches nothing else, and leaves the seed after as many
    steps as blocks were begun.  When the count of octets would pass 2^32 - 1, key and
    seed are drawn from the random source first; a source that does not give the key is
    reported, and nothing is written. *)
Theorem x917_prng_spec {St} (rand : source St) tmp_key t dest len ks o count (s : St) :
  Forall block ks → length ks = 11%nat → is_word 32 t → block o → is_word 32 count →
  0 <= len <= Z.of_nat (length dest) → len <= 0xffffffff →
  let m := Z.to_nat ((len + 15) / 16) in
  let written ks o := take (Z.to_nat len) (Ansi.blocks (AesSpec.cipher ks) (time_octets t) m o)
                      ++ drop (Z.to_nat len) dest in
  let left ks o count := mk_x917 (of_v8 little (Ansi.seed_after (AesSpec.cipher ks) (time_octets t) m o))
                           (map (of_v8 little) ks) count in
  let get := x917_prng_get_octet_string rand tmp_key t dest len
               (mk_x917 (of_v8 little o) (map (of_v8 little) ks) count) s in
  (count + len <= 0xffffffff → get = Some (err_status_ok, written ks o, left ks o (count + len), s)) ∧
  (0xffffffff < count + len →
    (∀ st key s1, rand tmp_key 16 s = Some (st, key, s1) → st ≠ err_status_ok →
       ∃ p, get = Some (st, dest, p, s1)) ∧
    (∀ key s1 o' s2, rand tmp_key 16 s = Some (err_status_ok, key, s1) → block key →
       rand o 16 s1 = Some (err_status_ok, o', s2) → block o' →
       let ks' := AesSpec.key_expansion key in
       get = Some (err_status_ok, written ks' o', left ks' o' len, s2))).
Proof.
  intros Hks Hl Ht Ho Hc Hlen Hmax m written left get. unfold is_word in Hc. split; [|split].
  - intros Hcl. apply (x917_generates ks t Hks Hl Ht); (done || lia).
  - intros st key s1 Hr Hst. unfold get, x917_prng_get_octet_string, MAX_PRNG_OUT_LEN.
    rewrite (wrap_small 32 (0xffffffff - len)) by (unfold is_word; lia). cbn [x917_octet_count].
    rewrite (proj2 (Z.ltb_lt _ count)) by lia. unfold x917_prng_init. rewrite Hr, Some_bind.
    rewrite (decide_True (P := st ≠ err_status_ok)), Some_bind by done.
    rewrite (decide_True (P := st ≠ err_status_ok)) by done. by eexists.
  - intros key s1 o' s2 Hk Bk Hr Bo ks'. unfold get.
    rewrite (x917_reseeds rand tmp_key t dest len _ s key s1 o' s2); [|lia|simpl; lia|done|done|].
    + destruct (expand_encryption_spec little key Bk) as (_ & H1 & H2).
      apply (x917_generates _ t H1 H2 Ht); (done || lia).
    + cbn [x917_state]. by rewrite v8_of_v8.
Qed.

(** ** A concrete device *)

Definition sample_device : Device := {|
  dev_open _ := 3; dev_read n len := Some (lcg (Z.to_nat len) (Z.of_nat n)) |}.

Lemma lcg_bytes k x : length (lcg k x) = k ∧ is_bytes (lcg k x).
Proof.
  revert x. induction k as [|k IH]; intros x; [by split; [|constructor]|].
  destruct (IH ((1103515245 * x + 12345) mod 2 ^ 31)) as [H1 H2]. cbn [lcg length].
  split; [by rewrite H1|]. constructor; [|done]. change 255 with (Z.ones 8). rewrite Z.land_ones by lia.
  apply Z.mod_pos_bound. lia.
Qed.

Abbreviation sample_rand := (@rand_source_get_octet_string sample_device).
Definition sample_seed : list Z := lcg 32 0.
Definition sample_rand_state : rand_state := mk_rand 3 0.
Definition empty_ctr : ctr_prng_t := mk_ctr 7 zero_icm.

Lemma sample_seed_drawn :
  sample_rand (replicate 32 0) 32 sample_rand_state = Some (err_status_ok, sample_seed, mk_rand 3 1).
Proof. vm_compute. reflexivity. Qed.

Lemma sample_seed_mem : icm_key_mem sample_seed.
Proof. split; [eval_dec|vm_compute; lia]. Qed.

Lemma ctr_prng_keystream_witness :
  ∃ p1 outs p2, ctr_prng_init sample_rand (replicate 32 0) empty_ctr sample_rand_state =
      Some (err_status_ok, p1, mk_rand 3 1) ∧
    requests sample_rand (replicate 32 0) 0 [(replicate 50 1, 50); (replicate 9 1, 7)] (p1, mk_rand 3 1) =
      Some (outs, (p2, mk_rand 3 1)) ∧
    Forall (λ o, o.1 = err_status_ok) outs ∧
    concat (map snd outs) = map (ctr_octet sample_seed) (seq 0 57).
Proof.
  apply (ctr_prng_keystream sample_rand (replicate 32 0) 0 empty_ctr sample_rand_state sample_seed
    (mk_rand 3 1) 50 [(replicate 50 1, 50); (replicate 9 1, 7)]);
    [apply sample_seed_drawn|apply sample_seed_mem| |vm_compute; discriminate|vm_compute; discriminate].
  repeat constructor; vm_compute; discriminate.
Defined.

Lemma ctr_prng_runs_dry_witness :
  ∃ p s, ctr_at p sample_seed 16 16 ∧
  ∃ outs p', requests sample_rand (replicate 32 0) 0
      [(replicate (Z.to_nat 65535) 1, 65535); (replicate (Z.to_nat 65535) 1, 65535)] (p, s) = Some (outs, (p', s)) ∧
    Forall (λ o, o.1 = err_status_terminus ∧ Forall (λ x, x = 0) o.2) outs.
Proof.
  destruct (ctr_init_spec sample_rand (replicate 32 0) empty_ctr sample_rand_state sample_seed (mk_rand 3 1)
    sample_seed_drawn sample_seed_mem) as (p1 & _ & H1).
  destruct (ctr_get_spec sample_rand (replicate 32 0) 0 p1 (mk_rand 3 1) sample_seed 0 0 (replicate 16 1) 16 H1)
    as (p2 & _ & H2); [lia|simpl; lia|lia|vm_compute; discriminate|].
  exists p2, (mk_rand 3 1). split; [exact H2|].
  apply (ctr_prng_runs_dry sample_rand (replicate 32 0) 0 p2 (mk_rand 3 1) sample_seed 16 16 65535);
    [exact H2|lia|lia|vm_compute; reflexivity| |vm_compute; discriminate].
  repeat constructor; cbn [fst snd]; rewrite ?length_replicate; lia.
Defined.

Lemma ctr_prng_test_total_witness :
  ∃ p1 st p2, ctr_prng_init sample_rand (replicate 32 0) empty_ctr sample_rand_state =
      Some (err_status_ok, p1, mk_rand 3 1) ∧
    stat_test_rand_source_with_repetition (ctr_prng_get_octet_string sample_rand (replicate 32 0) 0) 25
      (λ _, replicate 50 0) (p1, mk_rand 3 1) = Some (st, (p2, mk_rand 3 1)) ∧
    (st = err_status_ok ∨ st = err_status_algo_fail).
Proof.
  apply (ctr_prng_test_total sample_rand (replicate 32 0) 0 (λ _, replicate 50 0) empty_ctr sample_rand_state
    sample_seed (mk_rand 3 1)); [apply sample_seed_drawn|apply sample_seed_mem|].
  intros i. split; [eval_dec|reflexivity].
Defined.

(** a generator, and one whose count is used up *)
Lemma x917_prng_spec_witness :
  let ks := AesSpec.key_expansion (replicate 16 5) in
  let get count := x917_prng_get_octet_string sample_rand (replicate 16 0) 77 (replicate 40 1) 20
    (mk_x917 (of_v8 little (replicate 16 9)) (map (of_v8 little) ks) count) sample_rand_state in
  get 100 = Some (err_status_ok,
    take 20 (Ansi.blocks (AesSpec.cipher ks) (time_octets 77) 2 (replicate 16 9)) ++ replicate 20 1,
    mk_x917 (of_v8 little (Ansi.seed_after (AesSpec.cipher ks) (time_octets 77) 2 (replicate 16 9)))
      (map (of_v8 little) ks) 120, sample_rand_state) ∧
  ∃ key o s', let ks' := AesSpec.key_expansion key in
    get 0xfffffff0 = Some (err_status_ok,
      take 20 (Ansi.blocks (AesSpec.cipher ks') (time_octets 77) 2 o) ++ replicate 20 1,
      mk_x917 (of_v8 little (Ansi.seed_after (AesSpec.cipher ks') (time_octets 77) 2 o))
        (map (of_v8 little) ks') 20, s').
Proof.
  assert (block (replicate 16 5)) as Hb by (split; [reflexivity|eval_dec]).
  destruct (expand_encryption_spec little (replicate 16 5) Hb) as (_ & H1 & H2).
  split.
  - apply (x917_prng_spec sample_rand (replicate 16 0) 77 (replicate 40 1) 20 _ (replicate 16 9) 100 sample_rand_state);
      [exact H1|exact H2|unfold is_word; lia|split; [reflexivity|eval_dec]|unfold is_word; lia|simpl; lia|lia|lia].
  - destruct (x917_prng_spec sample_rand (replicate 16 0) 77 (replicate 40 1) 20 _ (replicate 16 9) 0xfffffff0
      sample_rand_state H1 H2) as [_ H];
      [unfold is_word; lia|split; [reflexivity|eval_dec]|unfold is_word; lia|simpl; lia|lia|].
    destruct (H ltac:(lia)) as [_ H'].
    eexists _, _, _. eapply H'; [vm_compute; reflexivity|split; [reflexivity|eval_dec]|vm_compute; reflexivity
      |split; [reflexivity|eval_dec]].
Defined.

(** the blocks of the standard are others *)
Example x917_not_ansi :
  let E := AesSpec.cipher (AesSpec.key_expansion (replicate 16 5)) in
  Ansi.blocks E (Ansi.intermediate E (time_octets 77)) 1 (replicate 16 9) ≠
  Ansi.blocks E (time_octets 77) 1 (replicate 16 9).
Proof. vm_compute. discriminate. Qed.
