(* ===== verification/AesCbc.v ===== *)
(** * AES cipher block chaining

    Models [crypto/cipher/aes_cbc.c]: CBC mode and its padded variant, which is
    the one the table of functions names.  CBC decryption inverts encryption, the
    padded cipher meets the contract of [Cipher], and the theorems also state what
    the padding loops do beyond the data.

    The code reads and writes its vectors octet by octet: [state] and [previous]
    are the sixteen octets of their vectors. *)

From Stdlib Require Import ZifyNat.
From S2P Require Import Prelude Datatypes Gf28 AesTables Aes Cipher.

(** ** The code *)

Record aes_cbc_ctx_t := mk_cbc {
  state : list Z;
  previous : list Z;
  cbc_expanded_key : list v128_t }.

Definition aes_cbc_alloc (mem : option aes_cbc_ctx_t) (ref_count key_len : Z)
  : err_status_t * option (cipher_t aes_cbc_ctx_t) * Z :=
  if decide (key_len ≠ 16) then (err_status_bad_param, None, ref_count) else
  match mem with
  | None => (err_status_alloc_fail, None, ref_count)
  | Some block => (err_status_ok, Some (mk_cipher block key_len), ref_count + 1)
  end.

(** the block is all zero when it is given back *)
Definition aes_cbc_dealloc (c : cipher_t aes_cbc_ctx_t) (ref_count : Z)
  : err_status_t * cipher_t aes_cbc_ctx_t * Z :=
  (err_status_ok,
   mk_cipher (mk_cbc (replicate 16 0) (replicate 16 0) (replicate 11 [0; 0; 0; 0])) 0,
   ref_count - 1).

Definition aes_cbc_context_init (c : aes_cbc_ctx_t) (key : list Z) (dir : cipher_direction_t)
  : option (err_status_t * aes_cbc_ctx_t) :=
  tmp_key ← v128_copy_octet_string key;
  match dir with
  | direction_encrypt =>
      ks ← aes_expand_encryption_key little tmp_key;
      Some (err_status_ok, mk_cbc (state c) (previous c) ks)
  | direction_decrypt =>
      ks ← aes_expand_decryption_key little tmp_key;
      Some (err_status_ok, mk_cbc (state c) (previous c) ks)
  | direction_any => Some (err_status_bad_param, c)
  end.

Definition aes_cbc_set_iv (c : aes_cbc_ctx_t) (iv : list Z)
  : option (err_status_t * aes_cbc_ctx_t) :=
  '(st, prev) ← for_range 0 16 (λ i '(st, prev),
      x ← aget iv i; st ← aset st i x; prev ← aset prev i x; Some (st, prev))
      (state c, previous c);
  Some (err_status_ok, mk_cbc st prev (cbc_expanded_key c)).

(** one turn of the encryption loop; [pos] is the index of [input] and [output],
    which move together *)
Definition cbc_encrypt_block (ks : list v128_t) (st data : list Z) (pos : Z)
  : option (list Z * list Z) :=
  st ← for_range 0 16 (λ i st,
      o ← aget st i; x ← aget data (pos + i); aset st i (o ^^ x)) st;
  y ← aes_encrypt little (of_v8 little st) ks;
  data ← for_range 0 16 (λ i data, x ← aget (v8 little y) i; aset data (pos + i) x) data;
  Some (v8 little y, data).

(** [bytes_to_encr] is a signed integer that counts down by sixteen *)
Definition aes_cbc_encrypt (c : aes_cbc_ctx_t) (data : list Z) (bytes_in_data : Z)
  : option (err_status_t * aes_cbc_ctx_t * list Z * Z) :=
  let bytes_to_encr := s32 bytes_in_data in
  if decide (bytes_in_data & 0xf ≠ 0) then Some (err_status_bad_param, c, data, bytes_in_data) else
  '(st, data) ← for_range 0 (bytes_to_encr / 16) (λ j '(st, data),
      cbc_encrypt_block (cbc_expanded_key c) st data (16 * j)) (state c, data);
  Some (err_status_ok, mk_cbc st (previous c) (cbc_expanded_key c), data, bytes_in_data).

Definition cbc_decrypt_block (ks : list v128_t) (prev data : list Z) (pos : Z)
  : option (list Z * list Z) :=
  st ← for_range 0 16 (λ i st, x ← aget data (pos + i); vset st i x) (uninit 16);
  st ← mapM id st;
  y ← aes_decrypt little (of_v8 little st) ks;
  for_range 0 16 (λ i '(prev, data),
    tmp ← aget data (pos + i);
    s ← aget (v8 little y) i; p ← aget prev i;
    data ← aset data (pos + i) (s ^^ p);
    prev ← aset prev i tmp;
    Some (prev, data)) (prev, data).

Definition aes_cbc_decrypt (c : aes_cbc_ctx_t) (data : list Z) (bytes_in_data : Z)
  : option (err_status_t * aes_cbc_ctx_t * list Z * Z) :=
  let bytes_to_encr := s32 bytes_in_data in
  if decide (bytes_in_data & 0x0f ≠ 0) then Some (err_status_bad_param, c, data, bytes_in_data) else
  '(_, data) ← for_range 0 (bytes_to_encr / 16) (λ j '(prev, data),
      cbc_decrypt_block (cbc_expanded_key c) prev data (16 * j)) (previous c, data);
  Some (err_status_ok, c, data, bytes_in_data).

Definition aes_cbc_nist_encrypt (c : aes_cbc_ctx_t) (data : list Z) (bytes_in_data : Z)
  : option (err_status_t * aes_cbc_ctx_t * list Z * Z) :=
  let num_pad_bytes := 16 - (bytes_in_data & 0xf) in
  data ← aset data bytes_in_data 0xa0;
  data ← for_range 0 num_pad_bytes (λ i data, aset data (bytes_in_data + 1 + i) 0x00) data;
  aes_cbc_encrypt c data (u32 (bytes_in_data + num_pad_bytes)).

(** the loop that looks for 0xa0 from the end: [None] when the scan leaves the data, which is
    where the array of the model begins *)
Fixpoint pad_scan (fuel : nat) (data : list Z) (pad_end num_pad_bytes : Z) : option Z :=
  match fuel with
  | O => None
  | S fuel =>
      x ← aget data pad_end;
      if decide (x ≠ 0xa0) then pad_scan fuel data (pad_end - 1) (num_pad_bytes + 1)
      else Some num_pad_bytes
  end.

Definition aes_cbc_nist_decrypt (c : aes_cbc_ctx_t) (data : list Z) (bytes_in_data : Z)
  : option (err_status_t * aes_cbc_ctx_t * list Z * Z) :=
  '(status, c, data, bytes_in_data) ← aes_cbc_decrypt c data bytes_in_data;
  if decide (status ≠ err_status_ok) then Some (status, c, data, bytes_in_data) else
  num_pad_bytes ← pad_scan (S (Z.to_nat bytes_in_data)) data (bytes_in_data - 1) 1;
  Some (err_status_ok, c, data, u32 (bytes_in_data - num_pad_bytes)).

Definition aes_cbc_test_case_0_key : list Z := [
  0x00; 0x01; 0x02; 0x03; 0x04; 0x05; 0x06; 0x07;
  0x08; 0x09; 0x0a; 0x0b; 0x0c; 0x0d; 0x0e; 0x0f].

Definition aes_cbc_test_case_0_plaintext : list Z := [
  0x00; 0x11; 0x22; 0x33; 0x44; 0x55; 0x66; 0x77;
  0x88; 0x99; 0xaa; 0xbb; 0xcc; 0xdd; 0xee; 0xff] ++ replicate 48 0.

Definition aes_cbc_test_case_0_ciphertext : list Z := [
  0x69; 0xc4; 0xe0; 0xd8; 0x6a; 0x7b; 0x04; 0x30;
  0xd8; 0xcd; 0xb7; 0x80; 0x70; 0xb4; 0xc5; 0x5a;
  0x03; 0x35; 0xed; 0x27; 0x67; 0xf2; 0x6d; 0xf1;
  0x64; 0x83; 0x2e; 0x23; 0x44; 0x38; 0x70; 0x8b] ++ replicate 48 0.

Definition aes_cbc_test_case_0_iv : list Z := replicate 16 0x00.

Definition aes_cbc_test_case_1_key : list Z := [
  0x2b; 0x7e; 0x15; 0x16; 0x28; 0xae; 0xd2; 0xa6;
  0xab; 0xf7; 0x15; 0x88; 0x09; 0xcf; 0x4f; 0x3c].

Definition aes_cbc_test_case_1_plaintext : list Z := [
  0x6b; 0xc1; 0xbe; 0xe2; 0x2e; 0x40; 0x9f; 0x96;
  0xe9; 0x3d; 0x7e; 0x11; 0x73; 0x93; 0x17; 0x2a;
  0xae; 0x2d; 0x8a; 0x57; 0x1e; 0x03; 0xac; 0x9c;
  0x9e; 0xb7; 0x6f; 0xac; 0x45; 0xaf; 0x8e; 0x51;
  0x30; 0xc8; 0x1c; 0x46; 0xa3; 0x5c; 0xe4; 0x11;
  0xe5; 0xfb; 0xc1; 0x19; 0x1a; 0x0a; 0x52; 0xef;
  0xf6; 0x9f; 0x24; 0x45; 0xdf; 0x4f; 0x9b; 0x17;
  0xad; 0x2b; 0x41; 0x7b; 0xe6; 0x6c; 0x37; 0x10].

Definition aes_cbc_test_case_1_ciphertext : list Z := [
  0x76; 0x49; 0xab; 0xac; 0x81; 0x19; 0xb2; 0x46;
  0xce; 0xe9; 0x8e; 0x9b; 0x12; 0xe9; 0x19; 0x7d;
  0x50; 0x86; 0xcb; 0x9b; 0x50; 0x72; 0x19; 0xee;
  0x95; 0xdb; 0x11; 0x3a; 0x91; 0x76; 0x78; 0xb2;
  0x73; 0xbe; 0xd6; 0xb8; 0xe3; 0xc1; 0x74; 0x3b;
  0x71; 0x16; 0xe6; 0x9e; 0x22; 0x22; 0x95; 0x16;
  0x3f; 0xf1; 0xca; 0xa1; 0x68; 0x1f; 0xac; 0x09;
  0x12; 0x0e; 0xca; 0x30; 0x75; 0x86; 0xe1; 0xa7;
  0x39; 0x34; 0x07; 0x03; 0x36; 0xd0; 0x77; 0x99;
  0xe0; 0xc4; 0x2f; 0xdd; 0xa8; 0xdf; 0x4c; 0xa3].

Definition aes_cbc_test_case_1_iv : list Z := [
  0x00; 0x01; 0x02; 0x03; 0x04; 0x05; 0x06; 0x07;
  0x08; 0x09; 0x0a; 0x0b; 0x0c; 0x0d; 0x0e; 0x0f].

Definition aes_cbc_test_case_0 : cipher_test_case_t :=
  mk_cipher_test 16 aes_cbc_test_case_0_key aes_cbc_test_case_0_iv
    16 aes_cbc_test_case_0_plaintext 32 aes_cbc_test_case_0_ciphertext.

Definition aes_cbc_test_case_1 : cipher_test_case_t :=
  mk_cipher_test 16 aes_cbc_test_case_1_key aes_cbc_test_case_1_iv
    64 aes_cbc_test_case_1_plaintext 80 aes_cbc_test_case_1_ciphertext.

(** [test_data] points to the last test case: the other one, which points to it,
    is not reached *)
#[global] Instance aes_cbc : CipherType aes_cbc_ctx_t := {
  cipher_alloc_fn := aes_cbc_alloc;
  cipher_dealloc_fn := aes_cbc_dealloc;
  cipher_init_fn := aes_cbc_context_init;
  cipher_encrypt_fn := aes_cbc_nist_encrypt;
  cipher_decrypt_fn := aes_cbc_nist_decrypt;
  cipher_set_iv_fn := aes_cbc_set_iv;
  cipher_test_data := [aes_cbc_test_case_0] }.

(** ** The reference: CBC (NIST SP 800-38A) on [n] blocks *)

Module Cbc.

Fixpoint enc (ks : list (list Z)) (iv : list Z) (n : nat) (p : list Z) : list Z :=
  match n with
  | O => []
  | S n => let c := AesSpec.cipher ks (xor_bytes iv (take 16 p)) in c ++ enc ks c n (drop 16 p)
  end.

Fixpoint dec (ks : list (list Z)) (iv : list Z) (n : nat) (c : list Z) : list Z :=
  match n with
  | O => []
  | S n => xor_bytes (AesSpec.inv_cipher ks (take 16 c)) iv ++ dec ks (take 16 c) n (drop 16 c)
  end.

(** the padding of the code: 0xa0, then zeros up to a block *)
Definition pad (p : list Z) : list Z := p ++ 0xa0 :: replicate (15 - length p mod 16) 0.

End Cbc.

(** proofs use the block cipher through its lemmas only *)
#[local] Opaque AesSpec.cipher AesSpec.inv_cipher AesSpec.key_expansion.

Ltac div_lia := zify; Z.to_euclidean_division_equations; lia.

(** ** One block *)

(** the loop that writes sixteen octets inside of the data *)
Lemma write_block_loop (pre mid post y : list Z) :
  length mid = 16%nat → length y = 16%nat →
  for_range 0 16 (λ i data, x ← aget y i; aset data (Z.of_nat (length pre) + i) x)
    (pre ++ mid ++ post) = Some (pre ++ y ++ post).
Proof.
  intros Hm Hy.
  rewrite (for_range_sim (λ d, pre ++ d ++ post) (λ d, length d = 16%nat) _
    (λ i d, x ← aget y i; aset d i x)); [|done|].
  - rewrite copy_out by lia. cbn [mbind option_bind].
    by rewrite (firstn_all2 y), (drop_ge mid), app_nil_r by lia.
  - intros i d Hi Hd. destruct (aget y i) as [x|]; [|done]. cbn [mbind option_bind].
    rewrite aset_app_r, !aset_Some by (rewrite ?length_app; lia). cbn [mbind option_bind].
    rewrite insert_app_l by lia. split; [done|]. intros d' [= <-]. by rewrite length_insert.
Qed.

Lemma encrypt_block_spec ks st pre mid post :
  block st → block mid → Forall block ks → length ks = 11%nat →
  cbc_encrypt_block (map (of_v8 little) ks) st (pre ++ mid ++ post) (Z.of_nat (length pre)) =
    Some (AesSpec.cipher ks (xor_bytes st mid),
          pre ++ AesSpec.cipher ks (xor_bytes st mid) ++ post).
Proof.
  intros Hst Hm Hk Hl. pose proof Hst as [Ls _]. pose proof Hm as [Lm _]. unfold cbc_encrypt_block.
  rewrite (for_range_ext _ (λ i st, o ← aget st i; x ← aget mid i; aset st i (o ^^ x))).
  2:{ intros i s Hi. rewrite aget_app_r by lia. rewrite !(aget_lookup _ i), lookup_app_l by lia. done. }
  replace 16 with (Z.of_nat (length st)) at 1 by lia. rewrite zip_loop by lia. rewrite Some_bind.
  destruct (aes_encrypt_spec little _ ks (block_xor st mid Hst Hm) Hk Hl) as [E B].
  unfold xor_bytes in *. rewrite E, Some_bind, v8_of_v8 by done.
  rewrite write_block_loop by (done || apply B). done.
Qed.

(** the loop that fills an array without contents *)
Lemma read_block_loop (pre mid post : list Z) :
  length mid = 16%nat →
  (st ← for_range 0 16 (λ i st, x ← aget (pre ++ mid ++ post) (Z.of_nat (length pre) + i); vset st i x)
     (uninit 16); mapM id st) = Some mid.
Proof.
  intros Hm. destruct (for_range_fill (λ i, mid !! Z.to_nat i) 0 16 (uninit 16)
    (λ i st, x ← aget (pre ++ mid ++ post) (Z.of_nat (length pre) + i); vset st i x))
    as (l & -> & Hl & Hin & _); [lia|done| |].
  - intros k l' Hk Hl'. rewrite aget_app_r, aget_lookup, lookup_app_l by lia.
    destruct (lookup_lt_is_Some_2 mid (Z.to_nat k)) as [x Hx]; [lia|]. by rewrite Hx.
  - rewrite Some_bind. apply mapM_Some, Forall2_same_length_lookup.
    split; [rewrite Hl, Hm; done|]. intros i x y Hx Hy.
    rewrite Hin in Hx by (apply lookup_lt_Some in Hy; lia). rewrite Nat2Z.id, Hy in Hx.
    by simplify_eq.
Qed.

Lemma swap_block_loop (pre mid post prev y : list Z) :
  length mid = 16%nat → length prev = 16%nat → length y = 16%nat →
  for_range 0 16 (λ i '(prev, data),
    tmp ← aget data (Z.of_nat (length pre) + i);
    s ← aget y i; p ← aget prev i;
    data ← aset data (Z.of_nat (length pre) + i) (s ^^ p);
    prev ← aset prev i tmp;
    Some (prev, data)) (prev, pre ++ mid ++ post) =
  Some (mid, pre ++ xor_bytes y prev ++ post).
Proof.
  intros Hm Hp Hy.
  loop (λ k '(pr, data), pr = take (Z.to_nat k) mid ++ drop (Z.to_nat k) prev ∧
    data = pre ++ (xor_bytes (take (Z.to_nat k) y) (take (Z.to_nat k) prev) ++
                   drop (Z.to_nat k) mid) ++ post) as ([pr data] & -> & -> & ->); [lia|done| |].
  - intros k [pr data] Hk [-> ->].
    destruct (lookup_lt_is_Some_2 mid (Z.to_nat k)) as [m Em]; [lia|].
    destruct (lookup_lt_is_Some_2 prev (Z.to_nat k)) as [p Epr]; [lia|].
    destruct (lookup_lt_is_Some_2 y (Z.to_nat k)) as [s Es]; [lia|].
    set (d := xor_bytes _ _). assert (length d = Z.to_nat k) as Hd
      by (unfold d, xor_bytes; rewrite length_zip_with, !length_take; lia).
    set (t := take (Z.to_nat k) mid). assert (length t = Z.to_nat k) as Ht
      by (unfold t; rewrite length_take; lia).
    rewrite aget_app_r, (drop_S _ _ _ Em), (drop_S _ _ _ Epr) by lia.
    rewrite (aget_lookup y), Es by lia. rewrite <-!app_assoc. cbn [app].
    rewrite !(aget_lookup _ k) by lia. rewrite (list_lookup_middle d _ _ (Z.to_nat k)) by lia.
    rewrite (list_lookup_middle t _ _ (Z.to_nat k)) by lia. cbn [mbind option_bind].
    rewrite aset_app_r by lia.
    rewrite !aset_Some by (rewrite !length_app; simpl; rewrite ?length_app, ?length_drop; lia).
    cbn [mbind option_bind]. rewrite !insert_app_r_alt, Ht, Hd, Nat.sub_diag by lia.
    cbn [insert list_insert]. eexists. split; [done|].
    replace (Z.to_nat (k + 1)) with (S (Z.to_nat k)) by lia.
    rewrite (take_S_r _ _ _ Em), (take_S_r _ _ _ Epr), (take_S_r _ _ _ Es).
    unfold xor_bytes. rewrite zip_with_app by (rewrite !length_take; lia).
    fold (xor_bytes (take (Z.to_nat k) y) (take (Z.to_nat k) prev)). fold d t.
    by rewrite <-!app_assoc.
  - change (Z.to_nat 16) with 16%nat.
    rewrite !firstn_all2, !drop_ge, !app_nil_r by lia. done.
Qed.

Lemma decrypt_block_spec ks prev pre mid post :
  block prev → block mid → Forall block ks → length ks = 11%nat →
  cbc_decrypt_block (map (of_v8 little) (dec_keys AesSpec.inv_mix_columns ks)) prev
      (pre ++ mid ++ post) (Z.of_nat (length pre)) =
    Some (mid, pre ++ xor_bytes (AesSpec.inv_cipher ks mid) prev ++ post).
Proof.
  intros Hp Hm Hk Hl. unfold cbc_decrypt_block.
  pose proof (read_block_loop pre mid post (proj1 Hm)) as E. revert E.
  destruct (for_range 0 16 _ (uninit 16)) as [st|]; [|done]. rewrite !Some_bind. intros ->.
  rewrite Some_bind, aes_decrypt_spec, Some_bind by done.
  rewrite v8_of_v8 by by apply block_inv_cipher.
  apply swap_block_loop; [apply Hm|apply Hp|by apply block_inv_cipher].
Qed.

(** ** All blocks *)

Lemma xor_bytes_comm a b : xor_bytes a b = xor_bytes b a.
Proof.
  unfold xor_bytes. revert b. induction a as [|x a IH]; intros [|y b]; simpl; try done.
  by rewrite Z.lxor_comm, IH.
Qed.

Lemma block_take16 p n : is_bytes p → length p = (16 * S n)%nat → block (take 16 p).
Proof. intros Hb Hl. split; [rewrite length_take; lia|by words]. Qed.

Lemma encrypt_loop_spec ks n i st pre p post :
  Forall block ks → length ks = 11%nat → block st → is_bytes p →
  length p = (16 * n)%nat → Z.of_nat (length pre) = 16 * i →
  ∃ st', for_up n i (λ j '(st, data), cbc_encrypt_block (map (of_v8 little) ks) st data (16 * j))
      (st, pre ++ p ++ post) = Some (st', pre ++ Cbc.enc ks st n p ++ post) ∧ block st'.
Proof.
  intros Hk Hl. revert i st pre p. induction n as [|n IH]; intros i st pre p Hst Hp Lp Hi.
  - destruct p; [|done]. by exists st.
  - pose proof (block_take16 p n Hp Lp) as Hm. cbn [for_up Cbc.enc].
    replace (pre ++ p ++ post) with (pre ++ take 16 p ++ drop 16 p ++ post)
      by (by rewrite (app_assoc (take 16 p)), take_drop).
    rewrite <-Hi.
    rewrite encrypt_block_spec, Some_bind by done.
    destruct (aes_encrypt_spec little _ ks (block_xor _ _ Hst Hm) Hk Hl) as [_ Bc].
    set (c := AesSpec.cipher ks (xor_bytes st (take 16 p))) in *.
    destruct (IH (i + 1) c (pre ++ c) (drop 16 p)) as (st' & E & H');
      [done|by words|rewrite length_drop; lia|rewrite length_app, (proj1 Bc); lia|].
    exists st'. rewrite <-!app_assoc in E. rewrite E. by rewrite <-!app_assoc.
Qed.

Lemma decrypt_loop_spec ks n i prev pre p post :
  Forall block ks → length ks = 11%nat → block prev → is_bytes p →
  length p = (16 * n)%nat → Z.of_nat (length pre) = 16 * i →
  ∃ prev', for_up n i (λ j '(prev, data),
        cbc_decrypt_block (map (of_v8 little) (dec_keys AesSpec.inv_mix_columns ks)) prev data (16 * j))
      (prev, pre ++ p ++ post) = Some (prev', pre ++ Cbc.dec ks prev n p ++ post).
Proof.
  intros Hk Hl. revert i prev pre p. induction n as [|n IH]; intros i prev pre p Hst Hp Lp Hi.
  - destruct p; [|done]. by exists prev.
  - pose proof (block_take16 p n Hp Lp) as Hm. cbn [for_up Cbc.dec].
    replace (pre ++ p ++ post) with (pre ++ take 16 p ++ drop 16 p ++ post)
      by (by rewrite (app_assoc (take 16 p)), take_drop).
    rewrite <-Hi.
    rewrite decrypt_block_spec, Some_bind by done.
    pose proof (block_xor _ _ (block_inv_cipher ks _ Hk Hm) Hst) as [Lx _].
    set (x := xor_bytes _ prev) in *.
    destruct (IH (i + 1) (take 16 p) (pre ++ x) (drop 16 p)) as (prev' & E);
      [done|by words|rewrite length_drop; lia|rewrite length_app, Lx; lia|].
    exists prev'. rewrite <-!app_assoc in E. rewrite E. by rewrite <-!app_assoc.
Qed.

Lemma enc_shape ks iv n p :
  Forall block ks → length ks = 11%nat → block iv → is_bytes p → length p = (16 * n)%nat →
  length (Cbc.enc ks iv n p) = (16 * n)%nat ∧ is_bytes (Cbc.enc ks iv n p).
Proof.
  intros Hk Hl. revert iv p. induction n as [|n IH]; intros iv p Hi Hp Lp; [by split; [|constructor]|].
  cbn [Cbc.enc]. pose proof (block_take16 p n Hp Lp) as Hm.
  destruct (aes_encrypt_spec little _ ks (block_xor _ _ Hi Hm) Hk Hl) as [_ Bc].
  destruct (IH _ (drop 16 p) Bc) as [L B]; [by words|rewrite length_drop; lia|].
  rewrite length_app, L, (proj1 Bc). split; [lia|]. apply is_bytes_app. split; [apply Bc|done].
Qed.

(** the reference decryption inverts the reference encryption *)
Lemma dec_enc ks iv n p :
  Forall block ks → length ks = 11%nat → block iv → is_bytes p → length p = (16 * n)%nat →
  Cbc.dec ks iv n (Cbc.enc ks iv n p) = p.
Proof.
  intros Hk Hl. revert iv p. induction n as [|n IH]; intros iv p Hi Hp Lp.
  - by destruct p.
  - cbn [Cbc.enc Cbc.dec]. pose proof (block_take16 p n Hp Lp) as Hm.
    destruct (aes_encrypt_spec little _ ks (block_xor _ _ Hi Hm) Hk Hl) as [_ Bc].
    set (c := AesSpec.cipher ks (xor_bytes iv (take 16 p))) in *.
    rewrite take_app_length', drop_app_length' by apply (eq_sym (proj1 Bc)).
    rewrite IH; [|done|by words|rewrite length_drop; lia].
    unfold c. rewrite inv_cipher_cipher by (done || by apply block_xor).
    rewrite (xor_bytes_comm iv), block_xor_cancel by done. apply take_drop.
Qed.

(** ** Encryption and decryption of whole blocks *)

Lemma land15 n : (16 * Z.of_nat n) & 0xf = 0.
Proof. change 0xf with (Z.ones 4). rewrite Z.land_ones by lia. div_lia. Qed.

Definition enc_keyed (c : aes_cbc_ctx_t) (ks : list (list Z)) : Prop :=
  Forall block ks ∧ length ks = 11%nat ∧ cbc_expanded_key c = map (of_v8 little) ks.

Definition dec_keyed (c : aes_cbc_ctx_t) (ks : list (list Z)) : Prop :=
  Forall block ks ∧ length ks = 11%nat ∧
  cbc_expanded_key c = map (of_v8 little) (dec_keys AesSpec.inv_mix_columns ks).

Lemma cbc_encrypt_spec c ks n p rest :
  enc_keyed c ks → block (state c) → is_bytes p → length p = (16 * n)%nat →
  16 * Z.of_nat n < 2 ^ 31 →
  ∃ st', aes_cbc_encrypt c (p ++ rest) (16 * Z.of_nat n) =
    Some (err_status_ok, mk_cbc st' (previous c) (cbc_expanded_key c),
          Cbc.enc ks (state c) n p ++ rest, 16 * Z.of_nat n) ∧ block st'.
Proof.
  intros (Hk & Hl & He) Hst Hp Lp Hn. unfold aes_cbc_encrypt.
  rewrite land15, decide_False by tauto. rewrite s32_small by lia.
  replace (16 * Z.of_nat n / 16) with (Z.of_nat n) by div_lia.
  unfold for_range. rewrite Z.sub_0_r, Nat2Z.id, He.
  destruct (encrypt_loop_spec ks n 0 (state c) [] p rest) as (st' & E & H'); [done..|].
  rewrite !app_nil_l in E. rewrite E, Some_bind. by exists st'.
Qed.

Lemma cbc_decrypt_spec c ks n p rest :
  dec_keyed c ks → block (previous c) → is_bytes p → length p = (16 * n)%nat →
  16 * Z.of_nat n < 2 ^ 31 →
  aes_cbc_decrypt c (p ++ rest) (16 * Z.of_nat n) =
    Some (err_status_ok, c, Cbc.dec ks (previous c) n p ++ rest, 16 * Z.of_nat n).
Proof.
  intros (Hk & Hl & He) Hst Hp Lp Hn. unfold aes_cbc_decrypt.
  rewrite land15, decide_False by tauto. rewrite s32_small by lia.
  replace (16 * Z.of_nat n / 16) with (Z.of_nat n) by div_lia.
  unfold for_range. rewrite Z.sub_0_r, Nat2Z.id, He.
  destruct (decrypt_loop_spec ks n 0 (previous c) [] p rest) as (st' & E); [done..|].
  rewrite !app_nil_l in E. by rewrite E, Some_bind.
Qed.

(** ** Padding *)

(** the number of blocks of padded data *)
Definition pad_blocks (p : list Z) : nat := S (length p / 16).

Lemma length_pad p : length (Cbc.pad p) = (16 * pad_blocks p)%nat.
Proof.
  unfold Cbc.pad, pad_blocks. rewrite length_app. cbn [length]. rewrite length_replicate. div_lia.
Qed.

Lemma pad_bytes p : is_bytes p → is_bytes (Cbc.pad p).
Proof.
  intros Hp. apply is_bytes_app. split; [done|]. constructor; [done|].
  apply is_bytes_replicate, word_0. lia.
Qed.

(** the code pads, and clears one octet more *)
Lemma pad_loop_spec p rest :
  (17 <= length rest)%nat →
  (data ← aset (p ++ rest) (Z.of_nat (length p)) 0xa0;
   for_range 0 (16 - (Z.of_nat (length p) & 0xf))
     (λ i data, aset data (Z.of_nat (length p) + 1 + i) 0x00) data) =
  Some (Cbc.pad p ++ 0 :: drop (17 - length p mod 16) rest).
Proof.
  intros Hr. destruct rest as [|x rest]; [simpl in Hr; lia|]. cbn [length] in Hr.
  rewrite aset_Some by (rewrite length_app; simpl; lia).
  rewrite Nat2Z.id, insert_app_r_alt, Nat.sub_diag, Some_bind by lia. cbn [insert list_insert].
  replace (p ++ 0xa0 :: rest) with ((p ++ [0xa0]) ++ rest) by (by rewrite <-app_assoc).
  set (pre := p ++ [0xa0]).
  assert (Z.of_nat (length pre) = Z.of_nat (length p) + 1) as Hpre
    by (unfold pre; rewrite length_app; simpl; lia).
  change 0xf with (Z.ones 4). rewrite Z.land_ones by lia. change (2 ^ 4) with 16.
  rewrite (for_range_sim (app pre) (λ d, length d = length rest) _ (λ i d, aset d i 0)); [|done|].
  - rewrite zero_loop by div_lia. rewrite Some_bind. unfold pre, Cbc.pad.
    rewrite <-!app_assoc. cbn [app]. f_equal. f_equal. f_equal.
    replace (Z.to_nat (16 - Z.of_nat (length p) mod 16)) with (S (15 - length p mod 16)) by div_lia.
    replace (17 - length p mod 16)%nat with (S (S (15 - length p mod 16))) by div_lia.
    by rewrite replicate_S_end, <-app_assoc.
  - intros i d Hi Hd. rewrite <-Hpre, aset_app_r, !aset_Some by div_lia. split; [done|].
    intros d' [= <-]. by rewrite length_insert.
Qed.

Lemma pad_scan_spec q z r m fuel :
  (z < fuel)%nat →
  pad_scan fuel (q ++ 0xa0 :: replicate z 0 ++ r) (Z.of_nat (length q + z)) m =
    Some (m + Z.of_nat z).
Proof.
  revert r m fuel. induction z as [|z IH]; intros r m fuel Hf; (destruct fuel as [|fuel]; [lia|]).
  - cbn [pad_scan]. rewrite Nat.add_0_r, aget_lookup, Nat2Z.id by lia.
    rewrite (list_lookup_middle q) by done. cbn [mbind option_bind].
    rewrite decide_False by tauto. f_equal. lia.
  - cbn [pad_scan]. rewrite replicate_S_end, <-app_assoc. cbn [app].
    replace (q ++ 0xa0 :: replicate z 0 ++ 0 :: r) with ((q ++ 0xa0 :: replicate z 0) ++ 0 :: r)
      by (by rewrite <-app_assoc).
    rewrite aget_lookup, Nat2Z.id by lia.
    rewrite (list_lookup_middle (q ++ 0xa0 :: replicate z 0))
      by (rewrite length_app; simpl; rewrite length_replicate; lia).
    cbn [mbind option_bind]. rewrite decide_True by done. rewrite <-app_assoc. cbn [app].
    replace (Z.of_nat (length q + S z) - 1) with (Z.of_nat (length q + z)) by lia.
    rewrite IH by lia. f_equal. lia.
Qed.

(** no 0xa0 in the data: the scan goes below its first octet *)
Lemma pad_scan_overruns data fuel i m :
  0xa0 ∉ data → pad_scan fuel data i m = None.
Proof.
  intros Hd. revert i m. induction fuel as [|fuel IH]; intros i m; [done|]. cbn [pad_scan].
  destruct (aget data i) as [x|] eqn:E; [|done]. cbn [mbind option_bind].
  destruct (decide (x ≠ 0xa0)) as [|Hx]; [apply IH|]. apply dec_stable in Hx as ->.
  destruct Hd. unfold aget in E. destruct (0 <=? i); [|done]. by eapply list_elem_of_lookup_2.
Qed.

(** ** The padded cipher *)

Lemma nist_encrypt_spec c ks p rest :
  enc_keyed c ks → block (state c) → is_bytes p → (17 <= length rest)%nat →
  Z.of_nat (length p) + 16 < 2 ^ 31 →
  ∃ st', aes_cbc_nist_encrypt c (p ++ rest) (Z.of_nat (length p)) =
    Some (err_status_ok, mk_cbc st' (previous c) (cbc_expanded_key c),
          Cbc.enc ks (state c) (pad_blocks p) (Cbc.pad p) ++ 0 :: drop (17 - length p mod 16) rest,
          16 * Z.of_nat (pad_blocks p)) ∧ block st'.
Proof.
  intros Hk Hst Hp Hr Hlen. unfold aes_cbc_nist_encrypt.
  pose proof (pad_loop_spec p rest Hr) as E. revert E.
  destruct (aset (p ++ rest) _ _) as [data|]; [|done]. rewrite !Some_bind. intros ->.
  rewrite Some_bind. change 0xf with (Z.ones 4). rewrite Z.land_ones by lia. change (2 ^ 4) with 16.
  replace (Z.of_nat (length p) + (16 - Z.of_nat (length p) mod 16))
    with (16 * Z.of_nat (pad_blocks p)) by (unfold pad_blocks; div_lia).
  rewrite wrap_small by (unfold is_word, pad_blocks; div_lia).
  apply cbc_encrypt_spec; [done|done|by apply pad_bytes|apply length_pad|unfold pad_blocks; div_lia].
Qed.

Lemma nist_decrypt_spec c ks p rest :
  dec_keyed c ks → block (previous c) → is_bytes p → Z.of_nat (length p) + 16 < 2 ^ 31 →
  aes_cbc_nist_decrypt c (Cbc.enc ks (previous c) (pad_blocks p) (Cbc.pad p) ++ rest)
      (16 * Z.of_nat (pad_blocks p)) =
    Some (err_status_ok, c, Cbc.pad p ++ rest, Z.of_nat (length p)).
Proof.
  intros Hk Hst Hp Hlen. unfold aes_cbc_nist_decrypt.
  pose proof (length_pad p) as Lp. pose proof (pad_bytes p Hp) as Bp.
  destruct (enc_shape ks (previous c) (pad_blocks p) (Cbc.pad p)) as [Le Be]; [apply Hk..|done|done|done|].
  rewrite (cbc_decrypt_spec c ks), Some_bind by (done || unfold pad_blocks; div_lia).
  rewrite dec_enc by (apply Hk || done). rewrite decide_False by tauto.
  unfold Cbc.pad. rewrite <-app_assoc. cbn [app].
  replace (16 * Z.of_nat (pad_blocks p) - 1) with
    (Z.of_nat (length p + (15 - length p mod 16))) by (unfold pad_blocks; div_lia).
  rewrite pad_scan_spec by (unfold pad_blocks; div_lia). rewrite Some_bind. do 2 f_equal.
  rewrite wrap_small; unfold is_word, pad_blocks; div_lia.
Qed.

(** ** The contract *)

Lemma cbc_init_spec c key :
  is_bytes key → (16 <= length key)%nat →
  ∃ c1 c2, aes_cbc_context_init c key direction_encrypt = Some (err_status_ok, c1) ∧
    aes_cbc_context_init c key direction_decrypt = Some (err_status_ok, c2) ∧
    (enc_keyed c1 (AesSpec.key_expansion (take 16 key)) ∧
     state c1 = state c ∧ previous c1 = previous c) ∧
    (dec_keyed c2 (AesSpec.key_expansion (take 16 key)) ∧
     state c2 = state c ∧ previous c2 = previous c).
Proof.
  intros Hb Hl. assert (block (take 16 key)) as Bk by (split; [rewrite length_take; lia|by words]).
  destruct (expand_encryption_spec little _ Bk) as (E & Hk & Hn).
  pose proof (expand_decryption_spec little _ Bk) as Ed.
  unfold aes_cbc_context_init. rewrite copy_octet_string_spec, !Some_bind by done.
  rewrite E, Ed, !Some_bind. eexists _, _. split_and!; done.
Qed.

Definition cbc_usable (c : aes_cbc_ctx_t) : Prop :=
  length (state c) = 16%nat ∧ length (previous c) = 16%nat.

Lemma cbc_set_iv_spec c iv :
  cbc_usable c → (16 <= length iv)%nat →
  aes_cbc_set_iv c iv =
    Some (err_status_ok, mk_cbc (take 16 iv) (take 16 iv) (cbc_expanded_key c)).
Proof.
  intros [Hs Hp] Hi. unfold aes_cbc_set_iv.
  loop (λ k '(st, prev), st = take (Z.to_nat k) iv ++ drop (Z.to_nat k) (state c) ∧
    prev = take (Z.to_nat k) iv ++ drop (Z.to_nat k) (previous c))
    as ([st prev] & -> & -> & ->); [lia|done| |].
  - intros k [st prev] Hk [-> ->].
    destruct (lookup_lt_is_Some_2 iv (Z.to_nat k)) as [x Hx]; [lia|].
    destruct (lookup_lt_is_Some_2 (state c) (Z.to_nat k)) as [y Hy]; [lia|].
    destruct (lookup_lt_is_Some_2 (previous c) (Z.to_nat k)) as [z Hz]; [lia|].
    rewrite aget_lookup, Hx, Some_bind by lia.
    rewrite !aset_Some, !Some_bind by (rewrite length_app, length_take, length_drop; lia).
    eexists. split; [done|]. replace (Z.to_nat (k + 1)) with (S (Z.to_nat k)) by lia.
    rewrite (take_S_r _ _ _ Hx), (drop_S _ _ _ Hy), (drop_S _ _ _ Hz), <-!app_assoc.
    rewrite !insert_app_r_alt by (rewrite length_take; lia).
    rewrite length_take, Nat.min_l, Nat.sub_diag by lia. done.
  - rewrite Some_bind. change (Z.to_nat 16) with 16%nat. by rewrite !drop_ge, !app_nil_r by lia.
Qed.

Definition cbc_keyed (c : aes_cbc_ctx_t) (dir : cipher_direction_t) (k : list Z) : Prop :=
  is_bytes k ∧ cbc_usable c ∧
  match dir with
  | direction_encrypt => enc_keyed c (AesSpec.key_expansion (take 16 k))
  | direction_decrypt => dec_keyed c (AesSpec.key_expansion (take 16 k))
  | direction_any => True
  end.

Definition cbc_enc (k iv p : list Z) : list Z :=
  Cbc.enc (AesSpec.key_expansion (take 16 k)) (take 16 iv) (pad_blocks p) (Cbc.pad p).

Lemma enc_shape_for k iv p :
  is_bytes k → (16 <= length k)%nat → is_bytes iv → (16 <= length iv)%nat → is_bytes p →
  length (cbc_enc k iv p) = (16 * pad_blocks p)%nat ∧ is_bytes (cbc_enc k iv p).
Proof.
  intros Bk Lk Bi Li Bp.
  destruct (expand_encryption_spec little (take 16 k)) as (_ & Hk & Hn);
    [split; [rewrite length_take; lia|by words]|].
  apply enc_shape; [done|done| |by apply pad_bytes|apply length_pad].
  split; [rewrite length_take; lia|by words].
Qed.

#[global] Instance aes_cbc_spec : CipherSpec aes_cbc_ctx_t.
Proof.
  refine {| cipher_usable := cbc_usable;
            cipher_key_mem k := is_bytes k ∧ (16 <= length k)%nat;
            cipher_iv_mem iv := is_bytes iv ∧ (16 <= length iv)%nat;
            cipher_keyed := cbc_keyed;
            cipher_ready c dir k iv := cbc_keyed c dir k ∧ (is_bytes iv ∧ (16 <= length iv)%nat) ∧
              state c = take 16 iv ∧ previous c = take 16 iv;
            cipher_enc := cbc_enc; cipher_key_ok n := n = 16;
            cipher_max := 2 ^ 31 - 17; cipher_grow := 17 |};
    unfold cipher_alloc_fn, cipher_dealloc_fn, cipher_init_fn, cipher_encrypt_fn,
      cipher_decrypt_fn, cipher_set_iv_fn, aes_cbc.
  - by intros block ref klen ->.
  - intros c ref. by eexists.
  - intros key Hb Hl. split; [done|]. rewrite Hl. vm_compute. lia.
  - intros st key dir Hu [Hb Hl] Hd. destruct (cbc_init_spec st key Hb Hl)
      as (c1 & c2 & E1 & E2 & (K1 & S1 & P1) & (K2 & S2 & P2)).
    unfold cbc_keyed, cbc_usable in *. destruct dir; [exists c1|exists c2|done].
    + rewrite S1, P1. split_and!; (done || apply Hu).
    + rewrite S2, P2. split_and!; (done || apply Hu).
  - intros st dir k iv (Hb & Hu & Hd) [Bi Li]. rewrite cbc_set_iv_spec by done.
    assert (length (take 16 iv) = 16%nat) by (rewrite length_take; lia).
    eexists. split; [done|]. by split_and!.
  - done.
  - intros k iv p [Bk Lk] [Bi Li] Bp.
    destruct (enc_shape_for k iv p Bk Lk Bi Li Bp) as [-> _]. unfold pad_blocks. div_lia.
  - intros k iv p [Bk Lk] [Bi Li] Bp. by apply enc_shape_for.
  - intros st k iv p rest ((Bk & Hu & Hk) & [Bi Li] & Hs & Hp) Hb Hlen Hr.
    apply is_bytes_app in Hb as [Bp Br].
    assert (block (state st)) as Bs by (rewrite Hs; split; [rewrite length_take; lia|by words]).
    destruct (nist_encrypt_spec st _ p rest Hk Bs Bp) as (st' & E & H'); [lia..|].
    unfold cbc_enc. rewrite Hs in E. eexists _, _. rewrite E. rewrite length_app.
    destruct (enc_shape (AesSpec.key_expansion (take 16 k)) (take 16 iv) (pad_blocks p) (Cbc.pad p))
      as [Le Be]; [apply Hk..|by rewrite <-Hs|by apply pad_bytes|apply length_pad|].
    rewrite Le. split_and!; [by rewrite Nat2Z.inj_mul|split; [apply H'|apply Hu]| |].
    + constructor; [done|by apply is_bytes_drop].
    + cbn [length]. rewrite length_drop, length_app. unfold pad_blocks. div_lia.
  - intros st k iv p rest ((Bk & Hu & Hk) & [Bi Li] & Hs & Hp) Hb Bp Hlen.
    assert (block (previous st)) as Bs by (rewrite Hp; split; [rewrite length_take; lia|by words]).
    apply is_bytes_app in Hb as [_ Br].
    destruct (enc_shape (AesSpec.key_expansion (take 16 k)) (take 16 iv) (pad_blocks p) (Cbc.pad p))
      as [Le Be]; [apply Hk..|by rewrite <-Hp|by apply pad_bytes|apply length_pad|].
    pose proof (nist_decrypt_spec st _ p rest Hk Bs Bp) as E. rewrite Hp in E.
    unfold cbc_enc. rewrite Le, Nat2Z.inj_mul. change (Z.of_nat 16) with 16. rewrite E by lia.
    unfold Cbc.pad at 1. rewrite <-app_assoc. eexists _, _. split; [done|].
    split_and!; [apply Hu| |].
    + apply is_bytes_app. split; [|done]. constructor; [done|apply is_bytes_replicate, word_0; lia].
    + rewrite !length_app, Le. cbn [length]. rewrite length_replicate.
      unfold pad_blocks. div_lia.
Defined.

Lemma nist_decrypt_ctx c data n status c' data' n' :
  aes_cbc_nist_decrypt c data n = Some (status, c', data', n') → c' = c.
Proof.
  unfold aes_cbc_nist_decrypt, aes_cbc_decrypt. case_decide.
  { rewrite Some_bind, decide_True by done. by intros [= _ -> _ _]. }
  destruct (for_range _ _ _ _) as [[? ?]|]; [|done]. rewrite !Some_bind, decide_False by tauto.
  destruct (pad_scan _ _ _ _); [|done]. rewrite Some_bind. by intros [= _ -> _ _].
Qed.

(** ** Properties *)

(** C35: the padded cipher round trip: for a key and a vector of sixteen octets and
    data of any length, with room for 17 octets after it, encryption gives the CBC
    encryption (NIST SP 800-38A over FIPS 197) of the data padded with 0xa0 and
    zeros, and decryption with the same key and vector gives the data and its
    length back. *)
Theorem aes_cbc_roundtrip c c' key iv p rest :
  cbc_usable c → cbc_usable c' → block key → block iv → is_bytes (p ++ rest) →
  (17 <= length rest)%nat → Z.of_nat (length p) + 16 < 2 ^ 31 →
  ∃ c1 c2 c3 e rest' d1 d2 rest'',
    aes_cbc_context_init c key direction_encrypt = Some (err_status_ok, c1) ∧
    aes_cbc_set_iv c1 iv = Some (err_status_ok, c2) ∧
    aes_cbc_nist_encrypt c2 (p ++ rest) (Z.of_nat (length p)) =
      Some (err_status_ok, c3, e ++ rest', Z.of_nat (length e)) ∧
    e = Cbc.enc (AesSpec.key_expansion key) iv (S (length p / 16)) (Cbc.pad p) ∧
    aes_cbc_context_init c' key direction_decrypt = Some (err_status_ok, d1) ∧
    aes_cbc_set_iv d1 iv = Some (err_status_ok, d2) ∧
    aes_cbc_nist_decrypt d2 (e ++ rest') (Z.of_nat (length e)) =
      Some (err_status_ok, d2, p ++ rest'', Z.of_nat (length p)).
Proof.
  intros Hu Hu' [Lk Bk] [Li Bi] Hb Hr Hlen.
  destruct (encrypt_run (CS := aes_cbc_spec) c key iv p rest)
    as (c1 & c2 & c3 & rest' & E1 & E2 & E3 & _ & Br & _);
    [done|by split; [|lia]|by split; [|lia]|done|simpl; lia|simpl; lia|].
  apply is_bytes_app in Hb as [Bp _].
  destruct (decrypt_run (CS := aes_cbc_spec) c' key iv p rest')
    as (d1 & d2 & d3 & rest'' & F1 & F2 & F3 & _);
    [done|by split; [|lia]|by split; [|lia]|done|done|simpl; lia|].
  exists c1, c2, c3, (cbc_enc key iv p), rest', d1, d2, rest''.
  assert (d3 = d2) as -> by (by apply nist_decrypt_ctx in F3).
  unfold cbc_enc at 3. rewrite !firstn_all2 by lia. by split_and!.
Qed.

Definition zero_cbc : aes_cbc_ctx_t := mk_cbc (replicate 16 0) (replicate 16 0) [].

(** the second test case of the file, which the self test does not reach *)
Lemma aes_cbc_roundtrip_witness :
  ∃ c1 c2 c3 e rest' d1 d2 rest'',
    aes_cbc_context_init zero_cbc aes_cbc_test_case_1_key direction_encrypt =
      Some (err_status_ok, c1) ∧
    aes_cbc_set_iv c1 aes_cbc_test_case_1_iv = Some (err_status_ok, c2) ∧
    aes_cbc_nist_encrypt c2 (aes_cbc_test_case_1_plaintext ++ replicate 17 0) 64 =
      Some (err_status_ok, c3, e ++ rest', Z.of_nat (length e)) ∧
    e = aes_cbc_test_case_1_ciphertext ∧
    aes_cbc_context_init zero_cbc aes_cbc_test_case_1_key direction_decrypt =
      Some (err_status_ok, d1) ∧
    aes_cbc_set_iv d1 aes_cbc_test_case_1_iv = Some (err_status_ok, d2) ∧
    aes_cbc_nist_decrypt d2 (e ++ rest') (Z.of_nat (length e)) =
      Some (err_status_ok, d2, aes_cbc_test_case_1_plaintext ++ rest'', 64).
Proof.
  destruct (aes_cbc_roundtrip zero_cbc zero_cbc aes_cbc_test_case_1_key aes_cbc_test_case_1_iv
    aes_cbc_test_case_1_plaintext (replicate 17 0))
    as (c1 & c2 & c3 & e & rest' & d1 & d2 & rest'' & E1 & E2 & E3 & Ee & F1 & F2 & F3);
    [done|done|split; [done|eval_dec]|split; [done|eval_dec]|eval_dec|vm_compute; lia
    |vm_compute; reflexivity|].
  exists c1, c2, c3, e, rest', d1, d2, rest''.
  refine (conj E1 (conj E2 (conj E3 (conj _ (conj F1 (conj F2 F3)))))).
  rewrite Ee. vm_compute. reflexivity.
Defined.

Lemma zero_overruns (data : list Z) base n :
  0 <= base <= Z.of_nat (length data) → 0 < n → Z.of_nat (length data) < base + n →
  for_range 0 n (λ i data, aset data (base + i) 0) data = None.
Proof.
  intros Hb Hn Hl. unfold for_range.
  enough (∀ m i d, length d = length data → 0 <= i → (0 < m)%nat →
    Z.of_nat (length data) < base + i + Z.of_nat m →
    for_up m i (λ i data, aset data (base + i) 0) d = None) as H by (apply H; lia || done).
  induction m as [|m IH]; intros i d Hd Hi Hm Hlt; [lia|]. cbn [for_up]. unfold aset.
  destruct (Z.leb_spec 0 (base + i)); [|done].
  destruct (Z.ltb_spec (base + i) (Z.of_nat (length d))); [|done]. cbn [andb mbind option_bind].
  destruct m as [|m]; [lia|]. apply IH; rewrite ?length_insert; lia.
Qed.

(** padding writes one octet too many: with memory for exactly the padded
    data, as long as a multiple of sixteen octets, encryption writes past it. *)
Theorem aes_cbc_pad_overruns c p room :
  length (p ++ room) = (16 * S (length p / 16))%nat →
  aes_cbc_nist_encrypt c (p ++ room) (Z.of_nat (length p)) = None.
Proof.
  intros Hl. unfold aes_cbc_nist_encrypt. rewrite length_app in Hl.
  change 0xf with (Z.ones 4). rewrite Z.land_ones by lia. change (2 ^ 4) with 16.
  rewrite aset_Some by (rewrite length_app; div_lia). rewrite Some_bind.
  set (data := <[_ := _]> _). assert (length data = length p + length room)%nat as Hd
    by (unfold data; by rewrite length_insert, length_app).
  assert (for_range 0 (16 - Z.of_nat (length p) mod 16)
    (λ i data, aset data (Z.of_nat (length p) + 1 + i) 0) data = None) as ->; [|done].
  apply zero_overruns; div_lia.
Qed.

Lemma aes_cbc_pad_overruns_witness :
  aes_cbc_nist_encrypt zero_cbc ([1; 2; 3] ++ replicate 13 0) 3 = None.
Proof. apply (aes_cbc_pad_overruns zero_cbc [1; 2; 3] (replicate 13 0)). reflexivity. Defined.

(** the scan for the padding has no lower bound: when the decrypted data has
    no octet 0xa0, decryption reads before the start of the buffer. *)
Theorem aes_cbc_unpad_overruns c key n p :
  is_bytes key → (16 <= length key)%nat → cbc_keyed c direction_decrypt key →
  block (previous c) → is_bytes p → length p = (16 * n)%nat → 16 * Z.of_nat n < 2 ^ 31 →
  0xa0 ∉ Cbc.dec (AesSpec.key_expansion (take 16 key)) (previous c) n p →
  aes_cbc_nist_decrypt c p (16 * Z.of_nat n) = None.
Proof.
  intros Bk Lk (_ & _ & Hk) Hp Bp Lp Hn Hno. unfold aes_cbc_nist_decrypt.
  pose proof (cbc_decrypt_spec c _ n p [] Hk Hp Bp Lp Hn) as E. rewrite !app_nil_r in E.
  rewrite E, Some_bind, decide_False by tauto. by rewrite pad_scan_overruns.
Qed.

(** a block of zeros has no padding *)
Lemma aes_cbc_unpad_overruns_witness :
  ∃ c, aes_cbc_context_init zero_cbc fips_key direction_decrypt = Some (err_status_ok, c) ∧
    aes_cbc_nist_decrypt c (AesSpec.cipher (AesSpec.key_expansion fips_key) (replicate 16 0)) 16 =
      None.
Proof.
  destruct (cbc_init_spec zero_cbc fips_key) as (_ & c & _ & E & _ & Hk & Hs & Hp);
    [eval_dec|vm_compute; lia|].
  exists c. split; [exact E|].
  apply (aes_cbc_unpad_overruns c fips_key 1); [eval_dec|vm_compute; lia| | | | | |].
  - split; [eval_dec|]. split; [unfold cbc_usable; rewrite Hs, Hp; by split|exact Hk].
  - rewrite Hp. split; [done|eval_dec].
  - eval_dec.
  - vm_compute. reflexivity.
  - vm_compute. reflexivity.
  - rewrite Hp. apply (bool_decide_unpack _). vm_compute. exact I.
Defined.
