(* ===== verification/CryptoKernel.v ===== *)
(** * The crypto kernel

    Models [crypto/kernel/crypto_kernel.c]: the global register of cipher types,
    authentication functions and debug modules, its two states, and the
    allocation of ciphers and authentication functions by number.

    The objects of the three cipher types and the two authentication types are
    the sums [cipher_obj] and [auth_obj]; a call through the table of functions of
    an object is a case distinction on them.  What the kernel gets from the system
    is the class [KernelEnv]: the memory and the random data of the self tests,
    and the status of the tests of the random sources. *)

From stdpp Require Import strings functions sets.
From S2P Require Import Prelude Datatypes Sha1 Hmac Cipher Gf28 AesTables Aes AesIcm AesCbc.

Create HintDb kernel.

(** ** Cipher and authentication objects *)

(** a pointer to one of the global tables of functions *)
Inductive cipher_type := Null_cipher | Aes_icm | Aes_cbc.
Inductive auth_type := Null_auth | Hmac_sha1.

#[global] Instance cipher_type_eq_dec : EqDecision cipher_type.
Proof. solve_decision. Defined.
#[global] Instance auth_type_eq_dec : EqDecision auth_type.
Proof. solve_decision. Defined.

Inductive cipher_obj :=
  | NullObj (c : cipher_t NullCipher.null_cipher_ctx_t)
  | IcmObj (c : cipher_t aes_icm_ctx_t)
  | CbcObj (c : cipher_t aes_cbc_ctx_t).

Inductive auth_obj :=
  | NullAuthObj (a : auth_t NullAuth.null_auth_ctx_t)
  | HmacObj (a : auth_t Hmac.hmac_ctx_t).

Definition obj_type (o : cipher_obj) : cipher_type :=
  match o with NullObj _ => Null_cipher | IcmObj _ => Aes_icm | CbcObj _ => Aes_cbc end.

Definition auth_obj_type (a : auth_obj) : auth_type :=
  match a with NullAuthObj _ => Null_auth | HmacObj _ => Hmac_sha1 end.

(** the tables; [addr] is the address of a buffer, of which counter mode uses the
    alignment; the octets after the key of the first test case are zero *)
#[local] Instance icm_table : CipherType aes_icm_ctx_t := aes_icm 0 [0; 0].

Definition obj_key_length (o : cipher_obj) : Z :=
  match o with
  | NullObj c => cipher_get_key_length c
  | IcmObj c => cipher_get_key_length c
  | CbcObj c => cipher_get_key_length c
  end.

(** a call of one function of the table of an object *)
Definition obj_init (o : cipher_obj) (key : list Z) (dir : cipher_direction_t)
  : option (err_status_t * cipher_obj) :=
  match o with
  | NullObj c => '(s, c) ← cipher_init c key dir; Some (s, NullObj c)
  | IcmObj c => '(s, c) ← cipher_init c key dir; Some (s, IcmObj c)
  | CbcObj c => '(s, c) ← cipher_init c key dir; Some (s, CbcObj c)
  end.

Definition obj_set_iv (o : cipher_obj) (iv : list Z) : option (err_status_t * cipher_obj) :=
  match o with
  | NullObj c => '(s, c) ← cipher_set_iv (Some c) iv; c ← c; Some (s, NullObj c)
  | IcmObj c => '(s, c) ← cipher_set_iv (Some c) iv; c ← c; Some (s, IcmObj c)
  | CbcObj c => '(s, c) ← cipher_set_iv (Some c) iv; c ← c; Some (s, CbcObj c)
  end.

Definition obj_encrypt (addr : Z) (o : cipher_obj) (buf : list Z) (len : Z)
  : option (err_status_t * cipher_obj * list Z * Z) :=
  match o with
  | NullObj c => '(s, c, buf, len) ← cipher_encrypt c buf len; Some (s, NullObj c, buf, len)
  | IcmObj c => '(s, c, buf, len) ← cipher_encrypt (CT := aes_icm addr [0; 0]) c buf len;
                Some (s, IcmObj c, buf, len)
  | CbcObj c => '(s, c, buf, len) ← cipher_encrypt c buf len; Some (s, CbcObj c, buf, len)
  end.

Definition obj_output (addr : Z) (o : cipher_obj) (buf : list Z) (n : Z)
  : option (err_status_t * cipher_obj * list Z) :=
  match o with
  | NullObj c => '(s, c, buf) ← cipher_output c buf n; Some (s, NullObj c, buf)
  | IcmObj c => '(s, c, buf) ← cipher_output (CT := aes_icm addr [0; 0]) c buf n;
                Some (s, IcmObj c, buf)
  | CbcObj c => '(s, c, buf) ← cipher_output c buf n; Some (s, CbcObj c, buf)
  end.

Definition auth_obj_init (a : auth_obj) (key : list Z) : option (err_status_t * auth_obj) :=
  match a with
  | NullAuthObj a => '(s, a) ← auth_init a key; Some (s, NullAuthObj a)
  | HmacObj a => '(s, a) ← auth_init a key; Some (s, HmacObj a)
  end.

Definition auth_obj_start (a : auth_obj) : err_status_t * auth_obj :=
  match a with
  | NullAuthObj a => let '(s, a) := auth_start a in (s, NullAuthObj a)
  | HmacObj a => let '(s, a) := auth_start a in (s, HmacObj a)
  end.

Definition auth_obj_update (a : auth_obj) (buf : list Z) (len : Z)
  : option (err_status_t * auth_obj) :=
  match a with
  | NullAuthObj a => '(s, a) ← auth_update a buf len; Some (s, NullAuthObj a)
  | HmacObj a => '(s, a) ← auth_update a buf len; Some (s, HmacObj a)
  end.

Definition auth_obj_compute (a : auth_obj) (buf : list Z) (len : Z) (res : list Z)
  : option (err_status_t * auth_obj * list Z) :=
  match a with
  | NullAuthObj a => '(s, a, res) ← auth_compute a buf len res; Some (s, NullAuthObj a, res)
  | HmacObj a => '(s, a, res) ← auth_compute a buf len res; Some (s, HmacObj a, res)
  end.

Definition auth_obj_key_length (a : auth_obj) : Z :=
  match a with
  | NullAuthObj a => auth_get_key_length a
  | HmacObj a => auth_get_key_length a
  end.
Definition auth_obj_tag_length (a : auth_obj) : Z :=
  match a with
  | NullAuthObj a => auth_get_tag_length a
  | HmacObj a => auth_get_tag_length a
  end.
Definition auth_obj_prefix_length (a : auth_obj) : Z :=
  match a with
  | NullAuthObj a => auth_get_prefix_length a
  | HmacObj a => auth_get_prefix_length a
  end.

(** a block of memory, as it reads at the types it is allocated for *)
Record junk := mk_junk {
  j_icm : aes_icm_ctx_t;
  j_cbc : aes_cbc_ctx_t;
  j_hmac : Hmac.hmac_ctx_t;
  j_null_auth : NullAuth.null_auth_ctx_t }.

Definition type_alloc (t : cipher_type) (mem : option junk) (ref key_len : Z)
  : err_status_t * option cipher_obj * Z :=
  match t with
  | Null_cipher => let '(s, c, ref) := cipher_alloc_fn ((λ _, tt) <$> mem) ref key_len in
      (s, NullObj <$> c, ref)
  | Aes_icm => let '(s, c, ref) := cipher_alloc_fn (j_icm <$> mem) ref key_len in
      (s, IcmObj <$> c, ref)
  | Aes_cbc => let '(s, c, ref) := cipher_alloc_fn (j_cbc <$> mem) ref key_len in
      (s, CbcObj <$> c, ref)
  end.

Definition auth_type_alloc (t : auth_type) (mem : option junk) (ref key_len tag_len : Z)
  : err_status_t * option auth_obj * Z :=
  match t with
  | Null_auth => let '(s, a, ref) := auth_alloc_fn (j_null_auth <$> mem) ref key_len tag_len in
      (s, NullAuthObj <$> a, ref)
  | Hmac_sha1 => let '(s, a, ref) := auth_alloc_fn (j_hmac <$> mem) ref key_len tag_len in
      (s, HmacObj <$> a, ref)
  end.

Definition obj_dealloc (o : cipher_obj) (ref : Z) : err_status_t * Z :=
  match o with
  | NullObj c => let '(s, _, ref) := cipher_dealloc_fn c ref in (s, ref)
  | IcmObj c => let '(s, _, ref) := cipher_dealloc_fn c ref in (s, ref)
  | CbcObj c => let '(s, _, ref) := cipher_dealloc_fn c ref in (s, ref)
  end.

Definition auth_obj_dealloc (a : auth_obj) (ref : Z) : err_status_t * Z :=
  match a with
  | NullAuthObj a => let '(s, _, ref) := auth_dealloc_fn a ref in (s, ref)
  | HmacObj a => let '(s, _, ref) := auth_dealloc_fn a ref in (s, ref)
  end.

(** ** The register *)

Definition NULL_CIPHER : Z := 0.
Definition AES_128_ICM : Z := 1.
Definition AES_128_CBC : Z := 3.
Definition NULL_AUTH : Z := 0.
Definition HMAC_SHA1 : Z := 3.

Inductive crypto_kernel_state_t := crypto_kernel_state_insecure | crypto_kernel_state_secure.

#[global] Instance crypto_kernel_state_eq_dec : EqDecision crypto_kernel_state_t.
Proof. solve_decision. Defined.

(** a debug module is a global object: the list holds its name, and [on] is its
    flag; [cipher_refs] and [auth_refs] are the reference counts of the types *)
Record crypto_kernel_t := mk_kernel {
  kernel_state : crypto_kernel_state_t;
  cipher_type_list : list (Z * cipher_type);
  auth_type_list : list (Z * auth_type);
  debug_module_list : list string;
  debug_on : string → bool;
  cipher_refs : cipher_type → Z;
  auth_refs : auth_type → Z }.

Definition crypto_kernel : crypto_kernel_t :=
  mk_kernel crypto_kernel_state_insecure [] [] [] (λ _, false) (λ _, 0) (λ _, 0).

Definition set_state (s : crypto_kernel_state_t) (k : crypto_kernel_t) : crypto_kernel_t :=
  mk_kernel s (cipher_type_list k) (auth_type_list k) (debug_module_list k) (debug_on k)
    (cipher_refs k) (auth_refs k).
Definition set_ciphers l (k : crypto_kernel_t) : crypto_kernel_t :=
  mk_kernel (kernel_state k) l (auth_type_list k) (debug_module_list k) (debug_on k)
    (cipher_refs k) (auth_refs k).
Definition set_auths l (k : crypto_kernel_t) : crypto_kernel_t :=
  mk_kernel (kernel_state k) (cipher_type_list k) l (debug_module_list k) (debug_on k)
    (cipher_refs k) (auth_refs k).
Definition set_modules l (k : crypto_kernel_t) : crypto_kernel_t :=
  mk_kernel (kernel_state k) (cipher_type_list k) (auth_type_list k) l (debug_on k)
    (cipher_refs k) (auth_refs k).
Definition set_on f (k : crypto_kernel_t) : crypto_kernel_t :=
  mk_kernel (kernel_state k) (cipher_type_list k) (auth_type_list k) (debug_module_list k) f
    (cipher_refs k) (auth_refs k).
Definition set_cipher_ref (t : cipher_type) (n : Z) (k : crypto_kernel_t) : crypto_kernel_t :=
  mk_kernel (kernel_state k) (cipher_type_list k) (auth_type_list k) (debug_module_list k)
    (debug_on k) (<[t := n]> (cipher_refs k)) (auth_refs k).
Definition set_auth_ref (t : auth_type) (n : Z) (k : crypto_kernel_t) : crypto_kernel_t :=
  mk_kernel (kernel_state k) (cipher_type_list k) (auth_type_list k) (debug_module_list k)
    (debug_on k) (cipher_refs k) (<[t := n]> (auth_refs k)).

(** the list of types is walked for a number or a pointer that is there already *)
Definition listed {T} `{EqDecision T} (l : list (Z * T)) (id : Z) (t : T) : bool :=
  existsb (λ '(i, u), bool_decide (t = u) || (id =? i)) l.

(** [alloc] says whether [crypto_alloc] has memory for the list element *)
Definition crypto_kernel_load_debug_module (name : string) (alloc : bool) (k : crypto_kernel_t)
  : err_status_t * crypto_kernel_t :=
  if bool_decide (name ∈ debug_module_list k) then (err_status_bad_param, k) else
  if negb alloc then (err_status_alloc_fail, k) else
  (err_status_ok, set_modules (name :: debug_module_list k) k).

Definition crypto_kernel_set_debug_module (name : string) (on : bool) (k : crypto_kernel_t)
  : err_status_t * crypto_kernel_t :=
  if bool_decide (name ∈ debug_module_list k)
  then (err_status_ok, set_on (<[name := on]> (debug_on k)) k)
  else (err_status_fail, k).

(** ** What the system provides *)

Class KernelEnv := {
  (** one answer of [crypto_alloc] for each element of the lists *)
  env_alloc : string → bool;
  (** the memory, the random data and the stack of the self tests *)
  env_null_mem : list (option NullCipher.null_cipher_ctx_t);
  env_icm_mem : list (option aes_icm_ctx_t);
  env_cbc_mem : list (option aes_cbc_ctx_t);
  env_null_auth_mem : list (option NullAuth.null_auth_ctx_t);
  env_hmac_mem : list (option Hmac.hmac_ctx_t);
  env_trials : nat → rand_trial;
  env_buffer : list Z;
  env_buffer2 : list Z;
  env_key : list Z;
  env_iv : list Z;
  env_tag : list Z;
  (** the status of [err_reporting_init], [rand_source_init], [ctr_prng_init],
      [rand_source_deinit] and of the statistical tests of the two sources *)
  env_err_reporting : err_status_t;
  env_rand_init : err_status_t;
  env_rand_deinit : err_status_t;
  env_rand_test : err_status_t;
  env_prng_init : err_status_t;
  env_prng_test : err_status_t }.

Section Kernel.
Context `{Env : KernelEnv}.

Definition run_cipher_self_test (t : cipher_type) (ref : Z) : option (err_status_t * Z) :=
  match t with
  | Null_cipher => cipher_type_self_test (St := NullCipher.null_cipher_ctx_t) env_null_mem
      env_trials env_buffer env_buffer2 env_key env_iv ref
  | Aes_icm => cipher_type_self_test (St := aes_icm_ctx_t) env_icm_mem
      env_trials env_buffer env_buffer2 env_key env_iv ref
  | Aes_cbc => cipher_type_self_test (St := aes_cbc_ctx_t) env_cbc_mem
      env_trials env_buffer env_buffer2 env_key env_iv ref
  end.

Definition run_auth_self_test (t : auth_type) (ref : Z) : option (err_status_t * Z) :=
  match t with
  | Null_auth => auth_type_self_test (St := NullAuth.null_auth_ctx_t) env_null_auth_mem env_tag ref
  | Hmac_sha1 => auth_type_self_test (St := Hmac.hmac_ctx_t) env_hmac_mem env_tag ref
  end.

(** the debug module of a type: the null cipher and null authentication have none *)
Definition cipher_debug (t : cipher_type) : option string :=
  match t with Null_cipher => None | Aes_icm => Some "aes icm"%string | Aes_cbc => Some "aes cbc"%string end.
Definition auth_debug (t : auth_type) : option string :=
  match t with Null_auth => None | Hmac_sha1 => Some "hmac sha-1"%string end.
Definition cipher_name (t : cipher_type) : string :=
  match t with
  | Null_cipher => "null cipher" | Aes_icm => "aes integer counter mode"
  | Aes_cbc => "aes cipher block chaining (cbc) mode"
  end.
Definition auth_name (t : auth_type) : string :=
  match t with
  | Null_auth => "null authentication function"
  | Hmac_sha1 => "hmac sha-1 authentication function"
  end.

Definition load_debug (m : option string) (k : crypto_kernel_t) : crypto_kernel_t :=
  match m with
  | None => k
  | Some name => snd (crypto_kernel_load_debug_module name (env_alloc name) k)
  end.

Definition crypto_kernel_load_cipher_type (t : cipher_type) (id : Z) (k : crypto_kernel_t)
  : option (err_status_t * crypto_kernel_t) :=
  '(status, ref) ← run_cipher_self_test t (cipher_refs k t);
  let k := set_cipher_ref t ref k in
  if decide (status ≠ err_status_ok) then Some (status, k) else
  if listed (cipher_type_list k) id t then Some (err_status_bad_param, k) else
  if negb (env_alloc (cipher_name t)) then Some (err_status_alloc_fail, k) else
  Some (err_status_ok, load_debug (cipher_debug t) (set_ciphers ((id, t) :: cipher_type_list k) k)).

Definition crypto_kernel_load_auth_type (t : auth_type) (id : Z) (k : crypto_kernel_t)
  : option (err_status_t * crypto_kernel_t) :=
  '(status, ref) ← run_auth_self_test t (auth_refs k t);
  let k := set_auth_ref t ref k in
  if decide (status ≠ err_status_ok) then Some (status, k) else
  if listed (auth_type_list k) id t then Some (err_status_bad_param, k) else
  if negb (env_alloc (auth_name t)) then Some (err_status_alloc_fail, k) else
  Some (err_status_ok, load_debug (auth_debug t) (set_auths ((id, t) :: auth_type_list k) k)).

(** the list is walked for a number *)
Fixpoint find_type {T} (l : list (Z * T)) (id : Z) : option T :=
  match l with
  | [] => None
  | (i, t) :: l => if id =? i then Some t else find_type l id
  end.

Definition crypto_kernel_get_cipher_type (id : Z) (k : crypto_kernel_t) : option cipher_type :=
  find_type (cipher_type_list k) id.

Definition crypto_kernel_get_auth_type (id : Z) (k : crypto_kernel_t) : option auth_type :=
  find_type (auth_type_list k) id.

(** [mem] is the answer of [crypto_alloc] *)
Definition crypto_kernel_alloc_cipher (id key_len : Z) (mem : option junk) (k : crypto_kernel_t)
  : err_status_t * option cipher_obj * crypto_kernel_t :=
  if decide (kernel_state k ≠ crypto_kernel_state_secure) then (err_status_init_fail, None, k) else
  match crypto_kernel_get_cipher_type id k with
  | None => (err_status_fail, None, k)
  | Some t =>
      let '(status, c, ref) := type_alloc t mem (cipher_refs k t) key_len in
      (status, c, set_cipher_ref t ref k)
  end.

Definition crypto_kernel_alloc_auth (id key_len tag_len : Z) (mem : option junk)
    (k : crypto_kernel_t) : err_status_t * option auth_obj * crypto_kernel_t :=
  if decide (kernel_state k ≠ crypto_kernel_state_secure) then (err_status_init_fail, None, k) else
  match crypto_kernel_get_auth_type id k with
  | None => (err_status_fail, None, k)
  | Some t =>
      let '(status, a, ref) := auth_type_alloc t mem (auth_refs k t) key_len tag_len in
      (status, a, set_auth_ref t ref k)
  end.

(** a call returns, or the process exits *)
Inductive kernel_run := Returns (status : err_status_t) (k : crypto_kernel_t) | Exits (code : err_status_t).

(** the two [while] loops over the registered types; the output is left out *)
Fixpoint status_ciphers (l : list (Z * cipher_type)) (k : crypto_kernel_t)
  : option (err_status_t + crypto_kernel_t) :=
  match l with
  | [] => Some (inr k)
  | (_, t) :: l =>
      '(status, ref) ← run_cipher_self_test t (cipher_refs k t);
      if decide (status ≠ err_status_ok) then Some (inl status)
      else status_ciphers l (set_cipher_ref t ref k)
  end.

Fixpoint status_auths (l : list (Z * auth_type)) (k : crypto_kernel_t)
  : option (err_status_t + crypto_kernel_t) :=
  match l with
  | [] => Some (inr k)
  | (_, t) :: l =>
      '(status, ref) ← run_auth_self_test t (auth_refs k t);
      if decide (status ≠ err_status_ok) then Some (inl status)
      else status_auths l (set_auth_ref t ref k)
  end.

Definition crypto_kernel_status (k : crypto_kernel_t) : option kernel_run :=
  if decide (env_rand_test ≠ err_status_ok)
  then Some (Returns env_rand_test (set_state crypto_kernel_state_insecure k)) else
  r ← status_ciphers (cipher_type_list k) k;
  match r with
  | inl status => Some (Exits status)
  | inr k =>
      r ← status_auths (auth_type_list k) k;
      match r with
      | inl status => Some (Exits status)
      | inr k => Some (Returns err_status_ok k)
      end
  end.

(** a sequence of calls, up to the first that fails *)
Fixpoint in_order (calls : list (crypto_kernel_t → option (err_status_t * crypto_kernel_t)))
    (k : crypto_kernel_t) : option (err_status_t * crypto_kernel_t) :=
  match calls with
  | [] => Some (err_status_ok, k)
  | f :: calls =>
      '(status, k) ← f k;
      if decide (status ≠ err_status_ok) then Some (status, k) else in_order calls k
  end.

Definition load_module (name : string) (k : crypto_kernel_t)
  : option (err_status_t * crypto_kernel_t) :=
  Some (crypto_kernel_load_debug_module name (env_alloc name) k).

Definition kernel_modules : list string :=
  ["crypto kernel"; "auth func"; "cipher"; "stat test"; "alloc"]%string.

Definition answer (s : err_status_t) (k : crypto_kernel_t)
  : option (err_status_t * crypto_kernel_t) := Some (s, k).

Definition crypto_kernel_init (k : crypto_kernel_t) : option kernel_run :=
  if decide (kernel_state k = crypto_kernel_state_secure) then crypto_kernel_status k else
  '(status, k) ← in_order
    ([answer env_err_reporting] ++ map load_module kernel_modules ++
     [answer env_rand_init; answer env_rand_test; answer env_prng_init; answer env_prng_test] ++
     [crypto_kernel_load_cipher_type Null_cipher NULL_CIPHER;
      crypto_kernel_load_cipher_type Aes_icm AES_128_ICM;
      crypto_kernel_load_cipher_type Aes_cbc AES_128_CBC;
      crypto_kernel_load_auth_type Null_auth NULL_AUTH;
      crypto_kernel_load_auth_type Hmac_sha1 HMAC_SHA1]) k;
  if decide (status ≠ err_status_ok) then Some (Returns status k) else
  Some (Returns err_status_ok (set_state crypto_kernel_state_secure k)).

Definition crypto_kernel_shutdown (k : crypto_kernel_t) : err_status_t * crypto_kernel_t :=
  let k := set_modules [] (set_auths [] (set_ciphers [] k)) in
  if decide (env_rand_deinit ≠ err_status_ok) then (env_rand_deinit, k) else
  (err_status_ok, set_state crypto_kernel_state_insecure k).

End Kernel.

(** ** An environment in which everything works *)

Record env_works (E : KernelEnv) : Prop := {
  works_alloc name : env_alloc name = true;
  works_null_mem : env_null_mem = [Some tt; Some tt];
  works_icm_mem : ∃ a b, env_icm_mem = [Some a; Some b];
  works_cbc_mem : ∃ a b, env_cbc_mem = [Some a; Some b] ∧ cbc_usable a ∧ cbc_usable b;
  works_null_auth_mem : ∃ a, env_null_auth_mem = [Some a];
  works_hmac_mem : ∃ a, env_hmac_mem = [Some a] ∧ Hmac.hmac_usable a;
  works_trials j : trial_ok (env_trials j);
  works_buffers : length env_buffer = 128%nat ∧ length env_buffer2 = 128%nat ∧
    length env_key = 64%nat ∧ length env_iv = 64%nat ∧
    is_bytes (env_buffer ++ env_buffer2 ++ env_key ++ env_iv);
  works_tag : length env_tag = 32%nat;
  works_err : env_err_reporting = err_status_ok;
  works_rand_init : env_rand_init = err_status_ok;
  works_rand_test : env_rand_test = err_status_ok;
  works_prng_init : env_prng_init = err_status_ok;
  works_prng_test : env_prng_test = err_status_ok }.

Section KernelWorks.
Context `{E : KernelEnv} (HE : env_works E).

Lemma null_self_test ref : run_cipher_self_test Null_cipher ref = Some (err_status_ok, ref + 1).
Proof.
  unfold run_cipher_self_test. rewrite (works_null_mem _ HE).
  change [Some tt; Some tt] with (Some <$> ([tt; tt] : list NullCipher.null_cipher_ctx_t)).
  destruct (works_buffers _ HE) as (L1 & L2 & L3 & L4 & B).
  destruct (self_test_spec (CS := stream_cipher_spec (St := NullCipher.null_cipher_ctx_t))
    [tt; tt] env_trials env_buffer env_buffer2 env_key env_iv ref) as (ref' & -> & Hr);
    [| | | | | |apply (works_trials _ HE)|done..| ]; try done.
  - repeat constructor; vm_compute; done.
  - repeat constructor.
  - by rewrite (Hr ltac:(vm_compute; reflexivity)).
Qed.

Lemma icm_self_test ref : run_cipher_self_test Aes_icm ref = Some (err_status_ok, ref + 1).
Proof.
  unfold run_cipher_self_test. destruct (works_icm_mem _ HE) as (a & b & ->).
  change [Some a; Some b] with (Some <$> [a; b]).
  destruct (works_buffers _ HE) as (L1 & L2 & L3 & L4 & B).
  destruct (self_test_spec (CT := icm_table) (CS := stream_cipher_spec (CT := icm_table)
    (SS := aes_icm_stream 0 [0; 0]))
    [a; b] env_trials env_buffer env_buffer2 env_key env_iv ref) as (ref' & -> & Hr);
    [| | | | | |apply (works_trials _ HE)|done..| ]; try done.
  - constructor; [|constructor]. split_and!; try (vm_compute; done); try eval_dec;
      try (split; [eval_dec|vm_compute; lia]).
  - repeat constructor.
  - set (passes := forallb _ _) in *. assert (passes = true) as Ht by (vm_compute; reflexivity).
    rewrite Ht in *. by rewrite (Hr eq_refl).
Qed.

Lemma cbc_self_test ref : run_cipher_self_test Aes_cbc ref = Some (err_status_ok, ref + 1).
Proof.
  unfold run_cipher_self_test. destruct (works_cbc_mem _ HE) as (a & b & -> & Ha & Hb).
  change [Some a; Some b] with (Some <$> [a; b]).
  destruct (works_buffers _ HE) as (L1 & L2 & L3 & L4 & B).
  destruct (self_test_spec (CS := aes_cbc_spec)
    [a; b] env_trials env_buffer env_buffer2 env_key env_iv ref) as (ref' & -> & Hr);
    [| | | | | |apply (works_trials _ HE)|done..| ]; try done.
  - constructor; [|constructor]. split_and!; try (vm_compute; done); try eval_dec;
      try (split; [eval_dec|vm_compute; lia]).
  - constructor; [done|]. constructor; [done|constructor].
  - set (passes := forallb _ _) in *. assert (passes = true) as Ht by (vm_compute; reflexivity).
    rewrite Ht in *. by rewrite (Hr eq_refl).
Qed.

Lemma null_auth_self_test ref : run_auth_self_test Null_auth ref = Some (err_status_ok, ref).
Proof.
  unfold run_auth_self_test. destruct (works_null_auth_mem _ HE) as (a & ->).
  change [Some a] with (Some <$> [a]).
  rewrite (auth_self_test_spec (AS := NullAuth.null_auth_spec));
    [done|done| |by repeat constructor|done|apply (works_tag _ HE)].
  constructor; [|constructor]. split_and!; try eval_dec; vm_compute; intros [=].
Qed.

Lemma hmac_self_test ref : run_auth_self_test Hmac_sha1 ref = Some (err_status_ok, ref).
Proof.
  unfold run_auth_self_test. destruct (works_hmac_mem _ HE) as (a & -> & Ha).
  change [Some a] with (Some <$> [a]).
  rewrite (auth_self_test_spec (AS := Hmac.hmac_spec));
    [vm_compute; reflexivity|done| |constructor; [done|constructor]|done|apply (works_tag _ HE)].
  constructor; [|constructor]. split_and!; try eval_dec; vm_compute; intros [=].
Qed.

(** a debug module does not touch the lists of types *)
Lemma load_debug_lists m k :
  cipher_type_list (load_debug m k) = cipher_type_list k ∧
  auth_type_list (load_debug m k) = auth_type_list k ∧
  kernel_state (load_debug m k) = kernel_state k.
Proof.
  destruct m as [name|]; [|done]. simpl. unfold crypto_kernel_load_debug_module.
  destruct (bool_decide _); [done|]. by destruct (env_alloc name).
Qed.

(** loading a type that passes and is new *)
Definition with_cipher (t : cipher_type) (id : Z) (k : crypto_kernel_t) : crypto_kernel_t :=
  load_debug (cipher_debug t)
    (set_ciphers ((id, t) :: cipher_type_list k) (set_cipher_ref t (cipher_refs k t + 1) k)).
Definition with_auth (t : auth_type) (id : Z) (k : crypto_kernel_t) : crypto_kernel_t :=
  load_debug (auth_debug t)
    (set_auths ((id, t) :: auth_type_list k) (set_auth_ref t (auth_refs k t) k)).

(** the three lists after each of the steps *)
Definition lists (k : crypto_kernel_t) := (cipher_type_list k, auth_type_list k, debug_module_list k).

Definition push_module (m : option string) (l : list string) : list string :=
  match m with None => l | Some name => name :: l end.

Lemma load_debug_new m k :
  (∀ name, m = Some name → name ∉ debug_module_list k) →
  debug_module_list (load_debug m k) = push_module m (debug_module_list k).
Proof.
  intros Hn. destruct m as [name|]; [|done]. simpl. unfold crypto_kernel_load_debug_module.
  by rewrite bool_decide_false, (works_alloc _ HE) by auto.
Qed.

Lemma with_cipher_lists t id k cs us ms :
  lists k = (cs, us, ms) → (∀ name, cipher_debug t = Some name → name ∉ ms) →
  lists (with_cipher t id k) = ((id, t) :: cs, us, push_module (cipher_debug t) ms).
Proof.
  intros [= <- <- <-] Hn. unfold lists, with_cipher.
  destruct (load_debug_lists (cipher_debug t) (set_ciphers ((id, t) :: cipher_type_list k)
    (set_cipher_ref t (cipher_refs k t + 1) k))) as (-> & -> & _).
  by rewrite load_debug_new.
Qed.

Lemma with_auth_lists t id k cs us ms :
  lists k = (cs, us, ms) → (∀ name, auth_debug t = Some name → name ∉ ms) →
  lists (with_auth t id k) = (cs, (id, t) :: us, push_module (auth_debug t) ms).
Proof.
  intros [= <- <- <-] Hn. unfold lists, with_auth.
  destruct (load_debug_lists (auth_debug t) (set_auths ((id, t) :: auth_type_list k)
    (set_auth_ref t (auth_refs k t) k))) as (-> & -> & _).
  by rewrite load_debug_new.
Qed.

Lemma load_cipher_works t id k cs us ms :
  run_cipher_self_test t (cipher_refs k t) = Some (err_status_ok, cipher_refs k t + 1) →
  lists k = (cs, us, ms) → listed cs id t = false →
  crypto_kernel_load_cipher_type t id k = Some (err_status_ok, with_cipher t id k).
Proof.
  intros Ht [= <- <- <-] Hl. unfold crypto_kernel_load_cipher_type.
  rewrite Ht, Some_bind, decide_False by tauto.
  cbn [set_cipher_ref cipher_type_list]. rewrite Hl, (works_alloc _ HE). done.
Qed.

Lemma load_auth_works t id k cs us ms :
  run_auth_self_test t (auth_refs k t) = Some (err_status_ok, auth_refs k t) →
  lists k = (cs, us, ms) → listed us id t = false →
  crypto_kernel_load_auth_type t id k = Some (err_status_ok, with_auth t id k).
Proof.
  intros Ht [= <- <- <-] Hl. unfold crypto_kernel_load_auth_type.
  rewrite Ht, Some_bind, decide_False by tauto.
  cbn [set_auth_ref auth_type_list]. rewrite Hl, (works_alloc _ HE). done.
Qed.

Lemma in_order_ok f calls k k' :
  f k = Some (err_status_ok, k') → in_order (f :: calls) k = in_order calls k'.
Proof. intros Hf. cbn [in_order]. rewrite Hf, Some_bind. by rewrite decide_False by tauto. Qed.

Lemma load_module_new name k cs us ms :
  lists k = (cs, us, ms) → name ∉ ms →
  ∃ k', load_module name k = Some (err_status_ok, k') ∧ lists k' = (cs, us, name :: ms).
Proof.
  intros [= <- <- <-] Hn. unfold load_module, crypto_kernel_load_debug_module.
  rewrite bool_decide_false, (works_alloc _ HE) by done. eauto.
Qed.

Lemma load_cipher_step t id k cs us ms :
  (∀ ref, run_cipher_self_test t ref = Some (err_status_ok, ref + 1)) →
  lists k = (cs, us, ms) → listed cs id t = false →
  (∀ name, cipher_debug t = Some name → name ∉ ms) →
  ∃ k', crypto_kernel_load_cipher_type t id k = Some (err_status_ok, k') ∧
    lists k' = ((id, t) :: cs, us, push_module (cipher_debug t) ms).
Proof. intros Ht Hk Hl Hn. eexists. split; [by eapply load_cipher_works|by apply with_cipher_lists]. Qed.

Lemma load_auth_step t id k cs us ms :
  (∀ ref, run_auth_self_test t ref = Some (err_status_ok, ref)) →
  lists k = (cs, us, ms) → listed us id t = false →
  (∀ name, auth_debug t = Some name → name ∉ ms) →
  ∃ k', crypto_kernel_load_auth_type t id k = Some (err_status_ok, k') ∧
    lists k' = (cs, (id, t) :: us, push_module (auth_debug t) ms).
Proof. intros Ht Hk Hl Hn. eexists. split; [by eapply load_auth_works|by apply with_auth_lists]. Qed.

(** a sequence of calls that all succeed, with what each makes of the lists *)
Definition step_ok (f : crypto_kernel_t → option (err_status_t * crypto_kernel_t)) l l' : Prop :=
  ∀ k, lists k = l → ∃ k', f k = Some (err_status_ok, k') ∧ lists k' = l'.

Lemma in_order_step f calls l l' l'' :
  step_ok f l l' → step_ok (in_order calls) l' l'' → step_ok (in_order (f :: calls)) l l''.
Proof.
  intros Hf Hc k Hk. destruct (Hf _ Hk) as (k' & E1 & Hk'). rewrite (in_order_ok _ _ _ _ E1). auto.
Qed.

Lemma answer_ok s l : s = err_status_ok → step_ok (answer s) l l.
Proof. intros -> k Hk. by exists k. Qed.

End KernelWorks.

(** ** Properties *)

(** the register after initialisation: every number leads to the type it names *)
Definition registered (k : crypto_kernel_t) : Prop :=
  kernel_state k = crypto_kernel_state_secure ∧
  cipher_type_list k = [(AES_128_CBC, Aes_cbc); (AES_128_ICM, Aes_icm); (NULL_CIPHER, Null_cipher)] ∧
  auth_type_list k = [(HMAC_SHA1, Hmac_sha1); (NULL_AUTH, Null_auth)].

(** the whole initialisation *)
Lemma init_works (E : KernelEnv) :
  env_works E →
  ∃ k, crypto_kernel_init crypto_kernel = Some (Returns err_status_ok k) ∧ registered k ∧
    debug_module_list k = ["hmac sha-1"; "aes cbc"; "aes icm"; "alloc"; "stat test"; "cipher";
                           "auth func"; "crypto kernel"]%string.
Proof.
  intros HE. unfold crypto_kernel_init. rewrite decide_False by done.
  cbn [map kernel_modules app].
  match goal with |- context [in_order ?calls crypto_kernel] => set (all := calls) end.
  assert (step_ok (in_order all) ([], [], [])
    ([(AES_128_CBC, Aes_cbc); (AES_128_ICM, Aes_icm); (NULL_CIPHER, Null_cipher)],
     [(HMAC_SHA1, Hmac_sha1); (NULL_AUTH, Null_auth)],
     ["hmac sha-1"; "aes cbc"; "aes icm"; "alloc"; "stat test"; "cipher";
      "auth func"; "crypto kernel"]%string)) as Hall.
  - unfold all.
    do 10 (eapply in_order_step; [first
      [apply answer_ok; by first [apply (works_err _ HE)|apply (works_rand_init _ HE)
        |apply (works_rand_test _ HE)|apply (works_prng_init _ HE)|apply (works_prng_test _ HE)]
      |intros k Hk; apply (load_module_new HE _ _ _ _ _ Hk); eval_dec]|]).
    eapply in_order_step; [intros k Hk; apply (load_cipher_step HE _ _ _ _ _ _ (null_self_test HE) Hk);
      [reflexivity|intros ? [=]]|].
    eapply in_order_step; [intros k Hk; apply (load_cipher_step HE _ _ _ _ _ _ (icm_self_test HE) Hk);
      [reflexivity|intros ? [= <-]; eval_dec]|].
    eapply in_order_step; [intros k Hk; apply (load_cipher_step HE _ _ _ _ _ _ (cbc_self_test HE) Hk);
      [reflexivity|intros ? [= <-]; eval_dec]|].
    eapply in_order_step; [intros k Hk; apply (load_auth_step HE _ _ _ _ _ _ (null_auth_self_test HE) Hk);
      [reflexivity|intros ? [=]]|].
    eapply in_order_step; [intros k Hk; apply (load_auth_step HE _ _ _ _ _ _ (hmac_self_test HE) Hk);
      [reflexivity|intros ? [= <-]; eval_dec]|].
    intros k Hk. by exists k.
  - destruct (Hall crypto_kernel eq_refl) as (k & -> & [= H1 H2 H3]).
    rewrite Some_bind, decide_False by tauto. by exists (set_state crypto_kernel_state_secure k).
Qed.

(** the first of the answers that is an error *)
Definition first_failure (l : list err_status_t) : err_status_t :=
  foldr (λ s r, if decide (s = err_status_ok) then r else s) err_status_ok l.

Lemma answers_fail l rest k :
  first_failure l ≠ err_status_ok → in_order (map answer l ++ rest) k = Some (first_failure l, k).
Proof.
  induction l as [|x l IH]; [done|]. cbn [first_failure foldr map app in_order]. change (answer x k) with (Some (x, k)).
  rewrite Some_bind. fold (first_failure l). destruct (decide (x = err_status_ok)) as [->|Hne].
  - rewrite decide_False by tauto. apply IH.
  - by rewrite decide_True.
Qed.

(** an error of the random sources is returned, and the kernel stays insecure *)
Lemma init_refused (E : KernelEnv) :
  (∀ name, env_alloc name = true) → env_err_reporting = err_status_ok →
  let status := first_failure [env_rand_init; env_rand_test; env_prng_init; env_prng_test] in
  status ≠ err_status_ok →
  ∃ k, crypto_kernel_init crypto_kernel = Some (Returns status k) ∧
    kernel_state k = crypto_kernel_state_insecure ∧ cipher_type_list k = [] ∧ auth_type_list k = [].
Proof.
  intros Ha He status Hs. unfold crypto_kernel_init. rewrite decide_False by done.
  cbn [map kernel_modules app]. rewrite He. rewrite in_order_ok with (k' := crypto_kernel) by done.
  unfold load_module, crypto_kernel_load_debug_module.
  do 5 (erewrite in_order_ok; [|rewrite Ha, bool_decide_false by eval_dec; reflexivity]).
  match goal with |- context [in_order (_ :: _ :: _ :: _ :: ?rest) ?k] =>
    pose proof (answers_fail [env_rand_init; env_rand_test; env_prng_init; env_prng_test] rest k Hs) as Hf end.
  cbn [map app] in Hf. rewrite Hf.
  rewrite Some_bind, decide_True by done. by eexists.
Qed.

(** initialisation: in an environment that works (memory, sources of random
    octets, statistical tests), [crypto_kernel_init] runs the self tests of all
    types without an access outside of an array, all of them pass, and it returns
    [err_status_ok] in the secure state with exactly the three ciphers and the two
    authentication functions registered under their numbers. *)
Theorem kernel_init_secure (E : KernelEnv) :
  env_works E →
  ∃ k, crypto_kernel_init crypto_kernel = Some (Returns err_status_ok k) ∧ registered k ∧
    debug_module_list k = ["hmac sha-1"; "aes cbc"; "aes icm"; "alloc"; "stat test"; "cipher";
                           "auth func"; "crypto kernel"]%string.
Proof. apply init_works. Qed.

(** an environment in which everything works *)
Definition plain_env : KernelEnv := {|
  env_alloc := λ _, true;
  env_null_mem := [Some tt; Some tt];
  env_icm_mem := [Some zero_icm; Some zero_icm];
  env_cbc_mem := [Some zero_cbc; Some zero_cbc];
  env_null_auth_mem := [Some (NullAuth.mk_null_auth 0)];
  env_hmac_mem := [Some junk_block];
  env_trials := λ j, mk_trial (Z.of_nat j) counting_source counting_source counting_source;
  env_buffer := replicate 128 0;
  env_buffer2 := replicate 128 0;
  env_key := replicate 64 0;
  env_iv := replicate 64 0;
  env_tag := replicate 32 0;
  env_err_reporting := err_status_ok;
  env_rand_init := err_status_ok;
  env_rand_deinit := err_status_ok;
  env_rand_test := err_status_ok;
  env_prng_init := err_status_ok;
  env_prng_test := err_status_ok |}.

Lemma plain_env_works : env_works plain_env.
Proof.
  split; try done; cbn.
  - eauto.
  - exists zero_cbc, zero_cbc. split_and!; [done|..]; split; try done; eval_dec.
  - eauto.
  - exists junk_block. split; [done|]. repeat constructor; (done || eval_dec).
  - intros j. split_and!; [simpl; lia|apply counting_source_ok..].
  - split_and!; try done. eval_dec.
Qed.

Lemma kernel_init_secure_witness :
  ∃ k, crypto_kernel_init (Env := plain_env) crypto_kernel = Some (Returns err_status_ok k) ∧
    registered k ∧
    debug_module_list k = ["hmac sha-1"; "aes cbc"; "aes icm"; "alloc"; "stat test"; "cipher";
                           "auth func"; "crypto kernel"]%string.
Proof. apply (kernel_init_secure plain_env). exact plain_env_works. Defined.

(** what no call of [crypto_kernel_init] undoes: an element of the list of debug
    modules, and the insecure state *)
Definition grows (k k' : crypto_kernel_t) : Prop :=
  kernel_state k' = kernel_state k ∧ debug_module_list k ⊆ debug_module_list k'.

#[global] Instance grows_preorder : PreOrder grows.
Proof.
  split; [done|]. intros k1 k2 k3 [H1 H2] [H3 H4]. split; [congruence|]. by etransitivity.
Qed.

Definition grower (f : crypto_kernel_t → option (err_status_t * crypto_kernel_t)) : Prop :=
  ∀ k s k', f k = Some (s, k') → grows k k'.

Section Growing.
Context `{E : KernelEnv}.

Lemma load_debug_grows name b k : grows k (snd (crypto_kernel_load_debug_module name b k)).
Proof.
  unfold crypto_kernel_load_debug_module. destruct (bool_decide _); [done|].
  destruct b; [|done]. split; [done|]. simpl. set_solver.
Qed.

Lemma load_debug_option_grows m k : grows k (load_debug m k).
Proof. destruct m as [name|]; [apply load_debug_grows|done]. Qed.

Lemma load_module_grows name : grower (load_module name).
Proof. intros k s k' [= H]. pose proof (load_debug_grows name (env_alloc name) k) as G. by rewrite H in G. Qed.

Lemma load_cipher_grows t id : grower (crypto_kernel_load_cipher_type t id).
Proof.
  intros k s k'. unfold crypto_kernel_load_cipher_type.
  destruct (run_cipher_self_test _ _) as [[s' ref]|]; [|done]. rewrite Some_bind.
  repeat case_match; intros [= <- <-]; try done.
  etransitivity; [|apply load_debug_option_grows]. done.
Qed.

Lemma load_auth_grows t id : grower (crypto_kernel_load_auth_type t id).
Proof.
  intros k s k'. unfold crypto_kernel_load_auth_type.
  destruct (run_auth_self_test _ _) as [[s' ref]|]; [|done]. rewrite Some_bind.
  repeat case_match; intros [= <- <-]; try done.
  etransitivity; [|apply load_debug_option_grows]. done.
Qed.

Lemma answer_grows s : grower (answer s).
Proof. by intros k s' k' [= <- <-]. Qed.

Lemma in_order_grows calls : Forall grower calls → grower (in_order calls).
Proof.
  induction 1 as [|f calls Hf _ IH]; intros k s k'; cbn [in_order]; [by intros [= <- <-]|].
  destruct (f k) as [[s1 k1]|] eqn:E1; [|done]. rewrite Some_bind.
  case_decide; intros Hk; [simplify_eq; by eapply Hf|]. etransitivity; [by eapply Hf|by eapply IH].
Qed.

Lemma in_order_err f calls s k k' :
  f k = Some (s, k') → s ≠ err_status_ok → in_order (f :: calls) k = Some (s, k').
Proof. intros Hf Hs. cbn [in_order]. by rewrite Hf, Some_bind, decide_True. Qed.

End Growing.

#[export] Hint Resolve load_module_grows load_cipher_grows load_auth_grows answer_grows : kernel.

(** a failed initialisation cannot be repeated: once the first debug module is in
    the list, an initialisation that fails for any reason leaves it there, and every
    later call of [crypto_kernel_init], in an environment however good, returns
    [err_status_bad_param] and changes nothing. *)
Theorem kernel_init_retry_fails (E E' : KernelEnv) (s : err_status_t) (k : crypto_kernel_t) :
  env_err_reporting (KernelEnv := E) = err_status_ok →
  env_alloc (KernelEnv := E) "crypto kernel" = true →
  crypto_kernel_init (Env := E) crypto_kernel = Some (Returns s k) → s ≠ err_status_ok →
  env_err_reporting (KernelEnv := E') = err_status_ok →
  crypto_kernel_init (Env := E') k = Some (Returns err_status_bad_param k).
Proof.
  intros He Ha Hrun Hs He'.
  assert (kernel_state k = crypto_kernel_state_insecure ∧ "crypto kernel"%string ∈ debug_module_list k)
    as [Hst Hin].
  - revert Hrun. unfold crypto_kernel_init. rewrite decide_False by done.
    cbn [map kernel_modules app].
    erewrite in_order_ok by (unfold answer; by rewrite He).
    erewrite in_order_ok by (unfold load_module; by rewrite Ha).
    match goal with |- context [in_order ?calls ?k0] => set (rest := calls); set (k1 := k0) end.
    destruct (in_order rest k1) as [[s' k']|] eqn:Er; [|done]. rewrite Some_bind.
    case_decide; intros [= <- <-]; [|done].
    assert (grows k1 k') as [G1 G2];
      [|split; [by rewrite G1|apply G2; constructor]].
    eapply (in_order_grows rest); [|done]. unfold rest. repeat (constructor; eauto with kernel).
  - unfold crypto_kernel_init. rewrite decide_False by (by rewrite Hst). cbn [map kernel_modules app].
    erewrite in_order_ok by (unfold answer; by rewrite He').
    erewrite (in_order_err _ _ err_status_bad_param).
    + by rewrite Some_bind, decide_True.
    + unfold load_module, crypto_kernel_load_debug_module. by rewrite bool_decide_true.
    + done.
Qed.

(** an environment whose random source does not open *)
Definition short_env : KernelEnv := {|
  env_alloc := λ _, true; env_null_mem := []; env_icm_mem := []; env_cbc_mem := [];
  env_null_auth_mem := []; env_hmac_mem := [];
  env_trials := λ j, mk_trial (Z.of_nat j) counting_source counting_source counting_source;
  env_buffer := []; env_buffer2 := []; env_key := []; env_iv := []; env_tag := [];
  env_err_reporting := err_status_ok; env_rand_init := err_status_init_fail;
  env_rand_deinit := err_status_ok; env_rand_test := err_status_ok;
  env_prng_init := err_status_ok; env_prng_test := err_status_ok |}.

Lemma kernel_init_retry_fails_witness :
  ∃ k, crypto_kernel_init (Env := short_env) crypto_kernel = Some (Returns err_status_init_fail k) ∧
    crypto_kernel_init (Env := plain_env) k = Some (Returns err_status_bad_param k).
Proof.
  eexists. split; [reflexivity|].
  apply (kernel_init_retry_fails short_env plain_env err_status_init_fail);
    [reflexivity|reflexivity|reflexivity|discriminate|reflexivity].
Defined.
