(* ===== verification/KernelRandom.v ===== *)
(** * The kernel on its random sources

    [crypto_kernel_init] with the random device, the generator and their tests in
    place of the answers its environment gives: the calls of
    [crypto/kernel/crypto_kernel.c] between the debug modules and the types. *)

From S2P Require Import Prelude Datatypes Sha1 Hmac Cipher Gf28 AesTables Aes AesIcm AesCbc CryptoKernel Stat Prng.

Definition MAX_RNG_TRIALS : nat := 25.

(** arrays on the stack, where they are *)
Record stack := mk_stack { trial_buffers : nat → list Z; seed_buffer : list Z; out_addr : Z }.

Definition stack_ok (t : stack) : Prop :=
  (∀ i, is_bytes (trial_buffers t i) ∧ length (trial_buffers t i) = 50%nat) ∧
  is_bytes (seed_buffer t) ∧ length (seed_buffer t) = 32%nat.

Section Random.
Context {D : Device}.

(** the four statuses, from the state of the device and of the generator *)
Definition random_up (t : stack) (s : rand_state) (p : ctr_prng_t) : option (list err_status_t) :=
  let '(init, s) := rand_source_init s in
  '(test, s) ← stat_test_rand_source_with_repetition rand_source_get_octet_string MAX_RNG_TRIALS
                 (trial_buffers t) s;
  '(prng, p, s) ← ctr_prng_init rand_source_get_octet_string (seed_buffer t) p s;
  '(prng_test, _) ← stat_test_rand_source_with_repetition
    (ctr_prng_get_octet_string rand_source_get_octet_string (seed_buffer t) (out_addr t)) MAX_RNG_TRIALS
    (trial_buffers t) (p, s);
  Some [init; test; prng; prng_test].

(** the environment with these answers *)
Definition answers (l : list err_status_t) (E : KernelEnv) : KernelEnv := {|
  env_alloc := env_alloc; env_null_mem := env_null_mem; env_icm_mem := env_icm_mem;
  env_cbc_mem := env_cbc_mem; env_null_auth_mem := env_null_auth_mem; env_hmac_mem := env_hmac_mem;
  env_trials := env_trials; env_buffer := env_buffer; env_buffer2 := env_buffer2; env_key := env_key;
  env_iv := env_iv; env_tag := env_tag; env_err_reporting := env_err_reporting;
  env_rand_init := nth 0 l err_status_ok; env_rand_test := nth 1 l err_status_ok;
  env_prng_init := nth 2 l err_status_ok; env_prng_test := nth 3 l err_status_ok;
  env_rand_deinit := env_rand_deinit |}.

Definition kernel_up (E : KernelEnv) (t : stack) (s : rand_state) (p : ctr_prng_t) : option kernel_run :=
  l ← random_up t s p; crypto_kernel_init (Env := answers l E) crypto_kernel.

(** octets for the user of the library, in the secure state only *)
Definition crypto_get_random (t : stack) (buffer : list Z) (length : Z) (k : crypto_kernel_t)
    (ps : ctr_prng_t * rand_state) : option (err_status_t * list Z * (ctr_prng_t * rand_state)) :=
  if decide (kernel_state k = crypto_kernel_state_secure)
  then ctr_prng_get_octet_string rand_source_get_octet_string (seed_buffer t) (out_addr t) buffer length ps
  else Some (err_status_fail, buffer, ps).

(** a device that opens, and fills what it is asked to fill *)
Definition device_full : Prop :=
  (∀ n, 0 <= dev_open n) ∧
  ∀ n len, 0 <= len → ∃ l, dev_read n len = Some l ∧ is_bytes l ∧ Z.of_nat (length l) = len.

Hypothesis Hdev : device_full.

Lemma get_full dest len s :
  0 <= dev_random_fdes s → 0 <= len → Z.of_nat (length dest) = len →
  ∃ l s', rand_source_get_octet_string dest len s = Some (err_status_ok, l, s') ∧
    is_bytes l ∧ length l = length dest ∧ 0 <= dev_random_fdes s'.
Proof using Hdev.
  intros Hs Hlen Hd. unfold rand_source_get_octet_string. rewrite (proj2 (Z.ltb_ge _ 0)) by done.
  destruct (proj2 Hdev (calls s) len Hlen) as (l & -> & Hb & Hl). unfold overwrite.
  rewrite (proj2 (Nat.leb_le _ _)), Some_bind by lia. rewrite drop_ge, app_nil_r by lia.
  rewrite decide_False by tauto. eexists _, _. split; [done|]. split_and!; [done|lia|done].
Qed.

Lemma device_delivers : delivers rand_source_get_octet_string (λ _ s, 0 <= dev_random_fdes s).
Proof using Hdev.
  intros j buffer s Hb H50 Hs. unfold RAND_SRC_BUF_OCTETS.
  destruct (get_full buffer 50 s) as (l & s' & E & Hl & H & Hs'); [done|lia|lia|].
  exists l, s'. split_and!; [done|done|lia|done].
Qed.

(** the four calls return; only the statistical tests can fail *)
Lemma random_up_spec t s p :
  stack_ok t → ∃ a b, random_up t s p = Some [err_status_ok; a; err_status_ok; b] ∧
    (a = err_status_ok ∨ a = err_status_algo_fail) ∧ (b = err_status_ok ∨ b = err_status_algo_fail).
Proof using Hdev.
  intros (Ht & Hb & Hl). unfold random_up, MAX_RNG_TRIALS.
  assert (∃ s0, rand_source_init s = (err_status_ok, s0) ∧ 0 <= dev_random_fdes s0) as (s0 & -> & H0).
  { unfold rand_source_init. destruct (Z.leb_spec 0 (dev_random_fdes s)); [eauto|]. cbn [dev_random_fdes].
    pose proof (proj1 Hdev (calls s)). rewrite (proj2 (Z.ltb_ge _ 0)) by done. by eexists. }
  destruct (stat_trials_delivers rand_source_get_octet_string (λ _ s, 0 <= dev_random_fdes s) device_delivers
    (λ _ _ _ _ H, H) 25 0 (trial_buffers t) s0 Ht H0) as (a & s1 & -> & Ha & H1). rewrite Some_bind.
  destruct (get_full (seed_buffer t) 32 s1) as (seed & s2 & E & Hsb & Hsl & H2); [done|lia|lia|].
  assert (icm_key_mem seed) as Hk by (split; [done|lia]).
  destruct (ctr_init_spec _ _ p s1 seed s2 E Hk) as (p1 & -> & Hat). rewrite Some_bind.
  destruct (stat_trials_delivers (ctr_prng_get_octet_string rand_source_get_octet_string (seed_buffer t) (out_addr t))
    (ctr_ready seed s2) (ctr_delivers _ _ _ seed s2) (ctr_ready_fewer seed s2) 25 0 (trial_buffers t) (p1, s2) Ht)
    as (b & ps & -> & Hbb & _).
  - exists 0%nat. split_and!; [done|apply Nat.leb_le; vm_compute; reflexivity|done].
  - rewrite Some_bind. eauto.
Qed.

Lemma answers_work E : env_works E → env_works (answers [err_status_ok; err_status_ok; err_status_ok; err_status_ok] E).
Proof using. intros []. by constructor. Qed.

End Random.

(** C34: initialisation on a random device that delivers: [crypto_kernel_init]
    returns, whatever the stack and the generator held before.  It succeeds, in the
    secure state with all types registered, exactly when the statistical tests of the
    device and of the generator succeed; otherwise it reports the failed test and the
    kernel stays insecure, with no type registered. *)
Theorem kernel_up_decides (D : Device) (E : KernelEnv) t s p :
  device_full → stack_ok t → env_works E →
  ∃ a b status k, random_up t s p = Some [err_status_ok; a; err_status_ok; b] ∧
    kernel_up E t s p = Some (Returns status k) ∧
    (a = err_status_ok ∧ b = err_status_ok → status = err_status_ok ∧ registered k) ∧
    (¬ (a = err_status_ok ∧ b = err_status_ok) → status = err_status_algo_fail ∧
       kernel_state k = crypto_kernel_state_insecure ∧ cipher_type_list k = [] ∧ auth_type_list k = []).
Proof.
  intros HD Ht HE. destruct (random_up_spec HD t s p Ht) as (a & b & Er & Ha & Hb). exists a, b.
  unfold kernel_up. rewrite Er, Some_bind.
  destruct (decide (a = err_status_ok ∧ b = err_status_ok)) as [[-> ->]|Hne].
  - destruct (init_works _ (answers_work E HE)) as (k & -> & Hk & _). exists err_status_ok, k.
    split_and!; [done|done|done|tauto].
  - destruct (init_refused (answers [err_status_ok; a; err_status_ok; b] E)) as (k & -> & Hk);
      [apply HE|apply HE|destruct Ha as [->| ->], Hb as [->| ->]; try done; by destruct Hne|].
    eexists _, k. split_and!; [done|done|tauto|]. intros _. split; [|done].
    destruct Ha as [->| ->], Hb as [->| ->]; try done. by destruct Hne.
Qed.

Definition sample_stack : stack := mk_stack (λ _, replicate 50 0) (replicate 32 0) 0.

Lemma kernel_up_decides_witness :
  ∃ a b status k, @random_up sample_device sample_stack sample_rand_state empty_ctr =
      Some [err_status_ok; a; err_status_ok; b] ∧
    @kernel_up sample_device plain_env sample_stack sample_rand_state empty_ctr = Some (Returns status k).
Proof.
  destruct (kernel_up_decides sample_device plain_env sample_stack sample_rand_state empty_ctr)
    as (a & b & st & k & H1 & H2 & _).
  - split; [intros; simpl; lia|]. intros n len Hlen. destruct (lcg_bytes (Z.to_nat len) (Z.of_nat n)) as [Hl Hb].
    eexists. split; [reflexivity|]. split; [exact Hb|]. rewrite Hl. lia.
  - split_and!; [intros; split; [eval_dec|reflexivity]|eval_dec|reflexivity].
  - exact plain_env_works.
  - exists a, b, st, k. exact (conj H1 H2).
Defined.
