(* ===== verification/Rfc3711.v ===== *)
(** * The Secure Real-time Transport Protocol (RFC 3711), as a reference

    Key derivation (section 4.3), encryption in counter mode (section 4.1.1), the
    authentication tag (section 4.2) and the format of protected packets, for the
    transforms libsrtp has: AES in counter mode with 128-bit keys and 112-bit salts,
    and HMAC-SHA1.  Integers are mathematical; nothing here is taken from the code. *)

From S2P Require Import Prelude Datatypes Sha1 Hmac Cipher Gf28 AesTables Aes AesIcm.

#[local] Opaque AesSpec.cipher AesSpec.key_expansion Hmac.HMAC.

Module Rfc3711.

(** the initial counter block of packet [i] of the source [ssrc]:
    [(k_s * 2^16) XOR (SSRC * 2^64) XOR (i * 2^16)] *)
Definition iv (salt : list Z) (ssrc i : Z) : Z :=
  (be_val salt * 2 ^ 16) ^^ ((ssrc * 2 ^ 64) ^^ (i * 2 ^ 16)).

(** octet [n] of the keystream that starts at a counter *)
Definition cm_octet (key : list Z) (start : Z) (n : nat) : Z :=
  AesCm.key_octet key (be_bytes 16 start) n.

(** key derivation with a rate of zero: the counter block is
    [(label * 2^48 XOR master_salt) * 2^16] *)
Definition derive (master_key master_salt : list Z) (label : Z) (n : nat) : list Z :=
  map (cm_octet master_key (((label * 2 ^ 48) ^^ be_val master_salt) * 2 ^ 16)) (seq 0 n).

(** the session keys of one of the two protocols *)
Record session_keys := mk_keys { k_e : list Z; k_s : list Z; k_a : list Z }.

Definition rtp_keys (master_key master_salt : list Z) : session_keys :=
  mk_keys (derive master_key master_salt 0 16) (derive master_key master_salt 2 14)
    (derive master_key master_salt 1 20).
Definition rtcp_keys (master_key master_salt : list Z) : session_keys :=
  mk_keys (derive master_key master_salt 3 16) (derive master_key master_salt 5 14)
    (derive master_key master_salt 4 20).

Definition encrypt (ks : session_keys) (ssrc i : Z) (payload : list Z) : list Z :=
  xor_stream (cm_octet (k_e ks) (iv (k_s ks) ssrc i)) 0 payload.

(** an SRTP packet: header, encrypted payload, and a tag of [n] octets over both
    and the rollover counter [i / 2^16] *)
Definition srtp_packet (ks : session_keys) (n : nat) (hdr payload : list Z) (i : Z) : list Z :=
  let m := hdr ++ encrypt ks (be_val (take 4 (drop 8 hdr))) i payload in
  m ++ take n (Hmac.HMAC (k_a ks) (m ++ be_bytes 4 (i / 2 ^ 16))).

(** an SRTCP packet: header, encrypted part, the E flag with the 31-bit index, and
    the tag over all of them *)
Definition srtcp_packet (ks : session_keys) (n : nat) (hdr payload : list Z) (i : Z) : list Z :=
  let m := hdr ++ encrypt ks (be_val (take 4 (drop 4 hdr))) i payload ++ be_bytes 4 (2 ^ 31 + i) in
  m ++ take n (Hmac.HMAC (k_a ks) m).

End Rfc3711.

(** ** The vectors of the code are those of the reference *)

Lemma shift_add_xor a b n : 0 <= n → 0 <= b < 2 ^ n → a * 2 ^ n + b = (a * 2 ^ n) ^^ b.
Proof.
  intros Hn Hb. rewrite <-Z.add_nocarry_lxor; [done|]. rewrite <-Z.shiftl_mul_pow2 by done.
  apply Z.bits_inj'. intros m Hm. rewrite Z.land_spec, Z.bits_0, testbit_shiftl by done.
  destruct (Z.leb_spec n m); [|by rewrite ?andb_false_l].
  rewrite (word_testbit_high n b) by (done || unfold is_word; lia). by rewrite andb_false_r.
Qed.

(** a vector of the source and the index in place, against the salt of the key *)
Lemma icm_iv0_rfc k (x : list Z) i y :
  icm_key_mem k → is_bytes x → length x = 4%nat → 0 <= i < 2 ^ 48 →
  is_bytes y → length y = 8%nat → be_val y = i * 2 ^ 16 →
  icm_iv0 k (le_bytes 4 0 ++ x ++ y) =
    be_bytes 16 (Rfc3711.iv (take 14 (drop 16 k)) (be_val x) i).
Proof.
  intros Hk Hx Lx Hi Hy Ly Ey. pose proof Hk as [Hkb Hkl].
  assert (length (le_bytes 4 0 ++ x ++ y) = 16%nat) as L16
    by (rewrite !length_app, length_le_bytes; lia).
  assert (icm_iv_mem (le_bytes 4 0 ++ x ++ y)) as Hm.
  { split; [|lia]. apply is_bytes_app; split; [apply is_bytes_rev, be_bytes_range|].
    by apply is_bytes_app. }
  destruct (icm_iv0_block k _ Hk Hm) as [L B].
  rewrite <-(be_bytes_be_val _ B), L. f_equal. unfold icm_iv0, Rfc3711.iv.
  destruct (icm_salt_block k Hk) as [Ls Bs].
  rewrite take_ge, <-be_val_xor by (lia || done || apply Hm). f_equal.
  - unfold icm_salt. rewrite be_val_app. simpl. lia.
  - rewrite !be_val_app, Ly, Ey. change (be_val (le_bytes 4 0)) with 0.
    change (8 * Z.of_nat 8) with 64. rewrite Z.mul_0_l, Z.add_0_l.
    apply shift_add_xor; lia.
Qed.
