(* ===== verification/Srtp.v ===== *)
(** * SRTP and SRTCP: the code

    Models [srtp/srtp.c] and [include/srtp.h]: sessions and their streams, key
    derivation, and the protection of RTP and RTCP packets.

    The objects of the library live in a heap ([world]): a pointer is a number,
    and each kind of object has its finite map from pointers to contents.  Memory
    that was given back is absent, pointers are never reused, and an access through
    a pointer that is absent is undefined ([None]).  Streams cloned from a template
    share its ciphers, authentication functions and key limit, as in the source.

    The functions are computations in [M], with early returns: the result is
    [inl status] after [return status] in the middle, and [inr] of the value at the
    end, with the heap in both cases.  The packet of the caller and its length,
    which are updated in place, are part of the heap.

    Modelled is the little-endian build with 64-bit arithmetic. *)

From stdpp Require Import gmap strings.
From S2P Require Import Prelude Datatypes Replay KeyLimit Hmac Cipher Aes AesIcm CryptoKernel.
Import Rdb Rdbx.

(** ** Data *)

Definition sec_serv_none : Z := 0.
Definition sec_serv_conf : Z := 1.
Definition sec_serv_auth : Z := 2.
Definition sec_serv_conf_and_auth : Z := 3.

Record crypto_policy_t := mk_policy {
  p_cipher_type : Z;
  p_cipher_key_len : Z;
  p_auth_type : Z;
  p_auth_key_len : Z;
  p_auth_tag_len : Z;
  p_sec_serv : Z }.

Inductive ssrc_type_t := ssrc_undefined | ssrc_specific | ssrc_any_inbound | ssrc_any_outbound.

(** [p_key] is the memory at the pointer, [None] for NULL *)
Record srtp_policy_t := mk_srtp_policy {
  p_ssrc_type : ssrc_type_t;
  p_ssrc_value : Z;
  p_rtp : crypto_policy_t;
  p_rtcp : crypto_policy_t;
  p_key : option (list Z) }.

Inductive direction_t := dir_unknown | dir_srtp_sender | dir_srtp_receiver.

#[global] Instance direction_eq_dec : EqDecision direction_t.
Proof. solve_decision. Defined.

Inductive srtp_event_t :=
  | event_ssrc_collision | event_key_soft_limit | event_key_hard_limit | event_packet_index_limit.

(** an [ssrc] is kept as the 32-bit word in memory, in network order *)
Record srtp_stream_ctx_t := mk_stream {
  ssrc : Z;
  rtp_cipher : nat;
  rtp_auth : nat;
  rtp_rdbx : rdbx_t;
  rtp_services : Z;
  rtcp_cipher : nat;
  rtcp_auth : nat;
  rtcp_rdb : rdb_t;
  rtcp_services : Z;
  limit : nat;
  direction : direction_t;
  next : option nat }.

Definition set_ssrc (x : Z) (s : srtp_stream_ctx_t) : srtp_stream_ctx_t :=
  mk_stream x (rtp_cipher s) (rtp_auth s) (rtp_rdbx s) (rtp_services s) (rtcp_cipher s)
    (rtcp_auth s) (rtcp_rdb s) (rtcp_services s) (limit s) (direction s) (next s).
Definition set_rtp_cipher (x : nat) (s : srtp_stream_ctx_t) : srtp_stream_ctx_t :=
  mk_stream (ssrc s) x (rtp_auth s) (rtp_rdbx s) (rtp_services s) (rtcp_cipher s) (rtcp_auth s)
    (rtcp_rdb s) (rtcp_services s) (limit s) (direction s) (next s).
Definition set_rtp_auth (x : nat) (s : srtp_stream_ctx_t) : srtp_stream_ctx_t :=
  mk_stream (ssrc s) (rtp_cipher s) x (rtp_rdbx s) (rtp_services s) (rtcp_cipher s) (rtcp_auth
    s) (rtcp_rdb s) (rtcp_services s) (limit s) (direction s) (next s).
Definition set_rtp_rdbx (x : rdbx_t) (s : srtp_stream_ctx_t) : srtp_stream_ctx_t :=
  mk_stream (ssrc s) (rtp_cipher s) (rtp_auth s) x (rtp_services s) (rtcp_cipher s) (rtcp_auth
    s) (rtcp_rdb s) (rtcp_services s) (limit s) (direction s) (next s).
Definition set_rtp_services (x : Z) (s : srtp_stream_ctx_t) : srtp_stream_ctx_t :=
  mk_stream (ssrc s) (rtp_cipher s) (rtp_auth s) (rtp_rdbx s) x (rtcp_cipher s) (rtcp_auth s)
    (rtcp_rdb s) (rtcp_services s) (limit s) (direction s) (next s).
Definition set_rtcp_cipher (x : nat) (s : srtp_stream_ctx_t) : srtp_stream_ctx_t :=
  mk_stream (ssrc s) (rtp_cipher s) (rtp_auth s) (rtp_rdbx s) (rtp_services s) x (rtcp_auth s)
    (rtcp_rdb s) (rtcp_services s) (limit s) (direction s) (next s).
Definition set_rtcp_auth (x : nat) (s : srtp_stream_ctx_t) : srtp_stream_ctx_t :=
  mk_stream (ssrc s) (rtp_cipher s) (rtp_auth s) (rtp_rdbx s) (rtp_services s) (rtcp_cipher s) x
    (rtcp_rdb s) (rtcp_services s) (limit s) (direction s) (next s).
Definition set_rtcp_rdb (x : rdb_t) (s : srtp_stream_ctx_t) : srtp_stream_ctx_t :=
  mk_stream (ssrc s) (rtp_cipher s) (rtp_auth s) (rtp_rdbx s) (rtp_services s) (rtcp_cipher s)
    (rtcp_auth s) x (rtcp_services s) (limit s) (direction s) (next s).
Definition set_rtcp_services (x : Z) (s : srtp_stream_ctx_t) : srtp_stream_ctx_t :=
  mk_stream (ssrc s) (rtp_cipher s) (rtp_auth s) (rtp_rdbx s) (rtp_services s) (rtcp_cipher s)
    (rtcp_auth s) (rtcp_rdb s) x (limit s) (direction s) (next s).
Definition set_limit (x : nat) (s : srtp_stream_ctx_t) : srtp_stream_ctx_t :=
  mk_stream (ssrc s) (rtp_cipher s) (rtp_auth s) (rtp_rdbx s) (rtp_services s) (rtcp_cipher s)
    (rtcp_auth s) (rtcp_rdb s) (rtcp_services s) x (direction s) (next s).
Definition set_direction (x : direction_t) (s : srtp_stream_ctx_t) : srtp_stream_ctx_t :=
  mk_stream (ssrc s) (rtp_cipher s) (rtp_auth s) (rtp_rdbx s) (rtp_services s) (rtcp_cipher s)
    (rtcp_auth s) (rtcp_rdb s) (rtcp_services s) (limit s) x (next s).
Definition set_next (x : option nat) (s : srtp_stream_ctx_t) : srtp_stream_ctx_t :=
  mk_stream (ssrc s) (rtp_cipher s) (rtp_auth s) (rtp_rdbx s) (rtp_services s) (rtcp_cipher s)
    (rtcp_auth s) (rtcp_rdb s) (rtcp_services s) (limit s) (direction s) x.

Record srtp_ctx_t := mk_ctx { stream_list : option nat; stream_template : option nat }.

(** ** The heap

    [mem] are the answers of the next calls of [crypto_alloc]: [None] is NULL, and
    when the list ends there is no more memory; [block] is what the memory holds,
    at each type it is used for.  [stack] and [stack_icm] are what local variables
    hold before they are written. *)

Record block := mk_block {
  b_object : junk;
  b_limit : key_limit_ctx_t;
  b_stream : srtp_stream_ctx_t;
  b_ctx : srtp_ctx_t }.

Record world := mk_world {
  kernel : crypto_kernel_t;
  ciphers : gmap nat cipher_obj;
  auths : gmap nat auth_obj;
  limits : gmap nat key_limit_ctx_t;
  streams : gmap nat srtp_stream_ctx_t;
  sessions : gmap nat srtp_ctx_t;
  brk : nat;
  mem : list (option block);
  stack : list Z;
  stack_icm : aes_icm_ctx_t;
  srtp_event_handler : bool;
  events : list (nat * nat * srtp_event_t);
  packet : list Z;
  pkt_octet_len : Z }.

Definition put_kernel (x : crypto_kernel_t) (w : world) : world :=
  mk_world x (ciphers w) (auths w) (limits w) (streams w) (sessions w) (brk w) (mem w) (stack w)
    (stack_icm w) (srtp_event_handler w) (events w) (packet w) (pkt_octet_len w).
Definition put_ciphers (x : gmap nat cipher_obj) (w : world) : world :=
  mk_world (kernel w) x (auths w) (limits w) (streams w) (sessions w) (brk w) (mem w) (stack w)
    (stack_icm w) (srtp_event_handler w) (events w) (packet w) (pkt_octet_len w).
Definition put_auths (x : gmap nat auth_obj) (w : world) : world :=
  mk_world (kernel w) (ciphers w) x (limits w) (streams w) (sessions w) (brk w) (mem w) (stack
    w) (stack_icm w) (srtp_event_handler w) (events w) (packet w) (pkt_octet_len w).
Definition put_limits (x : gmap nat key_limit_ctx_t) (w : world) : world :=
  mk_world (kernel w) (ciphers w) (auths w) x (streams w) (sessions w) (brk w) (mem w) (stack w)
    (stack_icm w) (srtp_event_handler w) (events w) (packet w) (pkt_octet_len w).
Definition put_streams (x : gmap nat srtp_stream_ctx_t) (w : world) : world :=
  mk_world (kernel w) (ciphers w) (auths w) (limits w) x (sessions w) (brk w) (mem w) (stack w)
    (stack_icm w) (srtp_event_handler w) (events w) (packet w) (pkt_octet_len w).
Definition put_sessions (x : gmap nat srtp_ctx_t) (w : world) : world :=
  mk_world (kernel w) (ciphers w) (auths w) (limits w) (streams w) x (brk w) (mem w) (stack w)
    (stack_icm w) (srtp_event_handler w) (events w) (packet w) (pkt_octet_len w).
Definition put_handler (x : bool) (w : world) : world :=
  mk_world (kernel w) (ciphers w) (auths w) (limits w) (streams w) (sessions w) (brk w) (mem w)
    (stack w) (stack_icm w) x (events w) (packet w) (pkt_octet_len w).
Definition put_events (x : list (nat * nat * srtp_event_t)) (w : world) : world :=
  mk_world (kernel w) (ciphers w) (auths w) (limits w) (streams w) (sessions w) (brk w) (mem w)
    (stack w) (stack_icm w) (srtp_event_handler w) x (packet w) (pkt_octet_len w).
Definition put_packet (x : list Z) (w : world) : world :=
  mk_world (kernel w) (ciphers w) (auths w) (limits w) (streams w) (sessions w) (brk w) (mem w)
    (stack w) (stack_icm w) (srtp_event_handler w) (events w) x (pkt_octet_len w).
Definition put_len (x : Z) (w : world) : world :=
  mk_world (kernel w) (ciphers w) (auths w) (limits w) (streams w) (sessions w) (brk w) (mem w)
    (stack w) (stack_icm w) (srtp_event_handler w) (events w) (packet w) x.
Definition next_block (w : world) : world :=
  mk_world (kernel w) (ciphers w) (auths w) (limits w) (streams w) (sessions w) (S (brk w)) (tl
    (mem w)) (stack w) (stack_icm w) (srtp_event_handler w) (events w) (packet w) (pkt_octet_len
    w).

Definition M (A : Type) : Type := world → option ((err_status_t + A) * world).

#[global] Instance M_ret : MRet M := λ A a w, Some (inr a, w).
#[global] Instance M_bind : MBind M := λ A B f m w,
  match m w with
  | None => None
  | Some (inl status, w) => Some (inl status, w)
  | Some (inr a, w) => f a w
  end.

(** [return status;] *)
Definition throw {A} (status : err_status_t) : M A := λ w, Some (inl status, w).
Definition lift {A} (x : option A) : M A := λ w, a ← x; Some (inr a, w).
Definition gets {A} (f : world → A) : M A := λ w, Some (inr (f w), w).
Definition modify (f : world → world) : M unit := λ w, Some (inr tt, f w).

(** [if (status) return status;] and [if (status) return e;] *)
Definition check (status : err_status_t) : M unit :=
  if decide (status = err_status_ok) then mret tt else throw status.
Definition check_as (e status : err_status_t) : M unit :=
  if decide (status = err_status_ok) then mret tt else throw e.

(** [status = f(...);], to go on with the status *)
Definition status_of {A} (m : M A) : M err_status_t := λ w,
  match m w with
  | None => None
  | Some (inl status, w) => Some (inr status, w)
  | Some (inr _, w) => Some (inr err_status_ok, w)
  end.

(** [f(...)], with a cleanup before the return of its error *)
Definition on_error {A} (m : M A) (cleanup : M unit) : M A := λ w,
  match m w with
  | Some (inl status, w) => (cleanup;; throw status) w
  | r => r
  end.

(** access through pointers *)
Definition get_stream (p : nat) : M srtp_stream_ctx_t := s ← gets streams; lift (s !! p).
Definition set_stream (p : nat) (f : srtp_stream_ctx_t → srtp_stream_ctx_t) : M unit :=
  s ← get_stream p; modify (λ w, put_streams (<[p := f s]> (streams w)) w).
Definition get_cipher (p : nat) : M cipher_obj := s ← gets ciphers; lift (s !! p).
Definition set_cipher (p : nat) (o : cipher_obj) : M unit :=
  modify (λ w, put_ciphers (<[p := o]> (ciphers w)) w).
Definition get_auth (p : nat) : M auth_obj := s ← gets auths; lift (s !! p).
Definition set_auth (p : nat) (a : auth_obj) : M unit :=
  modify (λ w, put_auths (<[p := a]> (auths w)) w).
Definition get_ctx (p : nat) : M srtp_ctx_t := s ← gets sessions; lift (s !! p).
Definition set_ctx (p : nat) (f : srtp_ctx_t → srtp_ctx_t) : M unit :=
  s ← get_ctx p; modify (λ w, put_sessions (<[p := f s]> (sessions w)) w).

Definition set_list (l : option nat) (c : srtp_ctx_t) : srtp_ctx_t := mk_ctx l (stream_template c).
Definition set_template (t : option nat) (c : srtp_ctx_t) : srtp_ctx_t := mk_ctx (stream_list c) t.

(** [crypto_alloc]: the new pointer and what is there *)
Definition crypto_alloc : M (option (nat * block)) :=
  p ← gets brk; answer ← gets (λ w, hd None (mem w));
  modify next_block;;
  mret (pair p <$> answer).

(** [crypto_free] of a stream and of a key limit *)
Definition free_stream (p : nat) : M unit :=
  get_stream p;; modify (λ w, put_streams (delete p (streams w)) w).
Definition free_limit (p : nat) : M unit :=
  s ← gets limits; lift (s !! p);; modify (λ w, put_limits (delete p (limits w)) w).

(** [crypto_kernel_alloc_cipher(id, &p, key_len)]: the pointer *)
Definition alloc_cipher (id key_len : Z) : M nat :=
  p ← gets brk; answer ← gets (λ w, hd None (mem w)); k ← gets kernel;
  modify next_block;;
  let '(status, o, k) := crypto_kernel_alloc_cipher id key_len (b_object <$> answer) k in
  modify (put_kernel k);;
  check status;;
  o ← lift o; set_cipher p o;; mret p.

Definition alloc_auth (id key_len tag_len : Z) : M nat :=
  p ← gets brk; answer ← gets (λ w, hd None (mem w)); k ← gets kernel;
  modify next_block;;
  let '(status, a, k) := crypto_kernel_alloc_auth id key_len tag_len (b_object <$> answer) k in
  modify (put_kernel k);;
  check status;;
  a ← lift a; set_auth p a;; mret p.

Definition cipher_dealloc (p : nat) : M unit :=
  o ← get_cipher p; k ← gets kernel;
  let '(status, ref) := obj_dealloc o (cipher_refs k (obj_type o)) in
  modify (put_kernel (set_cipher_ref (obj_type o) ref k));;
  modify (λ w, put_ciphers (delete p (ciphers w)) w);;
  check status.

Definition auth_dealloc (p : nat) : M unit :=
  a ← get_auth p; k ← gets kernel;
  let '(status, ref) := auth_obj_dealloc a (auth_refs k (auth_obj_type a)) in
  modify (put_kernel (set_auth_ref (auth_obj_type a) ref k));;
  modify (λ w, put_auths (delete p (auths w)) w);;
  check status.

(** ** Streams *)

Definition srtp_stream_alloc (p : srtp_policy_t) : M nat :=
  answer ← crypto_alloc;
  match answer with
  | None => throw err_status_alloc_fail
  | Some (str, b) =>
      modify (λ w, put_streams (<[str := b_stream b]> (streams w)) w);;
      c ← on_error (alloc_cipher (p_cipher_type (p_rtp p)) (p_cipher_key_len (p_rtp p)))
            (free_stream str);
      set_stream str (set_rtp_cipher c);;
      a ← on_error (alloc_auth (p_auth_type (p_rtp p)) (p_auth_key_len (p_rtp p))
                      (p_auth_tag_len (p_rtp p)))
            (cipher_dealloc c;; free_stream str);
      set_stream str (set_rtp_auth a);;
      answer ← crypto_alloc;
      match answer with
      | None =>
          auth_dealloc a;; cipher_dealloc c;; free_stream str;; throw err_status_alloc_fail
      | Some (l, b) =>
          modify (λ w, put_limits (<[l := b_limit b]> (limits w)) w);;
          set_stream str (set_limit l);;
          c' ← on_error (alloc_cipher (p_cipher_type (p_rtcp p)) (p_cipher_key_len (p_rtcp p)))
                 (auth_dealloc a;; cipher_dealloc c;; free_limit l;; free_stream str);
          set_stream str (set_rtcp_cipher c');;
          a' ← on_error (alloc_auth (p_auth_type (p_rtcp p)) (p_auth_key_len (p_rtcp p))
                           (p_auth_tag_len (p_rtcp p)))
                 (cipher_dealloc c';; auth_dealloc a;; cipher_dealloc c;; free_limit l;;
                  free_stream str);
          set_stream str (set_rtcp_auth a');;
          mret str
      end
  end.

(** the pointer [field] of the template, if there is a template *)
Definition in_template (session : nat) (field : srtp_stream_ctx_t → nat) (p : nat) : M bool :=
  ctx ← get_ctx session;
  match stream_template ctx with
  | None => mret false
  | Some t => s ← get_stream t; mret (bool_decide (p = field s))
  end.

(** [if] it is the same as that in the template, nothing, [else] [free] it *)
Definition unless_shared (session stream : nat) (field : srtp_stream_ctx_t → nat)
    (free : nat → M unit) : M unit :=
  s ← get_stream stream;
  shared ← in_template session field (field s);
  if (shared : bool) then mret tt else free (field s).

Definition srtp_stream_dealloc (session stream : nat) : M unit :=
  unless_shared session stream rtp_cipher cipher_dealloc;;
  unless_shared session stream rtp_auth auth_dealloc;;
  unless_shared session stream limit free_limit;;
  unless_shared session stream rtcp_cipher cipher_dealloc;;
  unless_shared session stream rtcp_auth auth_dealloc;;
  free_stream stream.

Definition srtp_stream_clone (template : nat) (ssrc' : Z) : M nat :=
  answer ← crypto_alloc;
  match answer with
  | None => throw err_status_alloc_fail
  | Some (str, b) =>
      modify (λ w, put_streams (<[str := b_stream b]> (streams w)) w);;
      t ← get_stream template;
      set_stream str (λ s, set_rtcp_auth (rtcp_auth t) (set_rtcp_cipher (rtcp_cipher t)
        (set_rtp_auth (rtp_auth t) (set_rtp_cipher (rtp_cipher t) s))));;
      let '(status, l) := key_limit_clone (Some (limit t)) None in
      check status;;
      l ← lift l;
      set_stream str (set_limit l);;
      set_stream str (λ s, set_rtcp_rdb (snd rdb_init) (set_rtp_rdbx (snd rdbx_init) s));;
      set_stream str (set_ssrc ssrc');;
      set_stream str (λ s, set_rtcp_services (rtcp_services t)
        (set_rtp_services (rtp_services t) (set_direction (direction t) s)));;
      set_stream str (set_next None);;
      mret str
  end.

(** ** Key derivation *)

Inductive srtp_prf_label :=
  | label_rtp_encryption | label_rtp_msg_auth | label_rtp_salt
  | label_rtcp_encryption | label_rtcp_msg_auth | label_rtcp_salt.

Definition label_val (l : srtp_prf_label) : Z :=
  match l with
  | label_rtp_encryption => 0x00
  | label_rtp_msg_auth => 0x01
  | label_rtp_salt => 0x02
  | label_rtcp_encryption => 0x03
  | label_rtcp_msg_auth => 0x04
  | label_rtcp_salt => 0x05
  end.

Definition srtp_kdf_init (kdf : aes_icm_ctx_t) (key : list Z) : option aes_icm_ctx_t :=
  '(_, c) ← aes_icm_context_init kdf key; Some c.

(** [key] is the memory at the pointer, [addr] its address *)
Definition srtp_kdf_generate (addr : Z) (kdf : aes_icm_ctx_t) (label : srtp_prf_label)
    (key : list Z) (length : Z) : option (aes_icm_ctx_t * list Z) :=
  nonce ← set_v8 (v128_set_to_zero []) 7 (label_val label);
  '(_, c) ← aes_icm_set_iv kdf (v8 little nonce);
  '(_, c, key) ← aes_icm_output addr c key length;
  Some (c, key).

Definition MAX_SRTP_KEY_LEN : Z := 256.

(** the key of a cipher, with the salt behind it for [aes_icm], in [tmp_key] *)
Definition cipher_keys (kdf : aes_icm_ctx_t) (tmp_key : list Z) (encryption salt : srtp_prf_label)
    (o : cipher_obj) : option (aes_icm_ctx_t * list Z) :=
  '(kdf, tmp_key) ← srtp_kdf_generate 0 kdf encryption tmp_key (obj_key_length o);
  if decide (obj_type o = Aes_icm) then
    let base_key_len := 16 in
    let salt_len := obj_key_length o - base_key_len in
    '(kdf, rest) ← srtp_kdf_generate 16 kdf salt (drop 16 tmp_key) salt_len;
    Some (kdf, take 16 tmp_key ++ rest)
  else Some (kdf, tmp_key).

(** derive the keys of one cipher and one authentication function, and initialise
    them *)
Definition init_cipher (p : nat) (kdf : aes_icm_ctx_t) (tmp_key : list Z)
    (encryption salt : srtp_prf_label) : M (aes_icm_ctx_t * list Z) :=
  o ← get_cipher p;
  '(kdf, tmp_key) ← lift (cipher_keys kdf tmp_key encryption salt o);
  '(status, o) ← lift (obj_init o tmp_key direction_any);
  set_cipher p o;;
  check_as err_status_init_fail status;;
  mret (kdf, tmp_key).

Definition init_auth (p : nat) (kdf : aes_icm_ctx_t) (tmp_key : list Z) (label : srtp_prf_label)
  : M (aes_icm_ctx_t * list Z) :=
  a ← get_auth p;
  '(kdf, tmp_key) ← lift (srtp_kdf_generate 0 kdf label tmp_key (auth_obj_key_length a));
  '(status, a) ← lift (auth_obj_init a tmp_key);
  set_auth p a;;
  check_as err_status_init_fail status;;
  mret (kdf, tmp_key).

(** the arrays that are cleared before a return are not read again *)
Definition srtp_stream_init (srtp : nat) (p : srtp_policy_t) (key : list Z) : M unit :=
  kdf ← gets stack_icm; tmp_key ← gets (λ w, take (Z.to_nat MAX_SRTP_KEY_LEN) (stack w));
  set_stream srtp (set_rtp_rdbx (snd rdbx_init));;
  s ← get_stream srtp;
  ls ← gets limits; l ← lift (ls !! limit s);
  modify (λ w, put_limits (<[limit s := snd (key_limit_set l 0xffffffffffff)]> (limits w)) w);;
  set_stream srtp (set_ssrc (bswap32 (p_ssrc_value p)));;
  set_stream srtp (λ s, set_rtcp_services (p_sec_serv (p_rtcp p))
    (set_rtp_services (p_sec_serv (p_rtp p)) s));;
  set_stream srtp (set_direction dir_unknown);;
  kdf ← lift (srtp_kdf_init kdf key);
  '(kdf, tmp_key) ← init_cipher (rtp_cipher s) kdf tmp_key label_rtp_encryption label_rtp_salt;
  '(kdf, tmp_key) ← init_auth (rtp_auth s) kdf tmp_key label_rtp_msg_auth;
  set_stream srtp (set_rtcp_rdb (snd rdb_init));;
  '(kdf, tmp_key) ← init_cipher (rtcp_cipher s) kdf tmp_key label_rtcp_encryption label_rtcp_salt;
  '(kdf, tmp_key) ← init_auth (rtcp_auth s) kdf tmp_key label_rtcp_msg_auth;
  mret tt.

(** ** Events *)

Definition srtp_install_event_handler (func : bool) : M unit := modify (put_handler func).

(** the handler is called, when there is one; [events] are its calls *)
Definition srtp_handle_event (srtp strm : nat) (evnt : srtp_event_t) : M unit :=
  h ← gets srtp_event_handler;
  if (h : bool) then modify (λ w, put_events (events w ++ [(srtp, strm, evnt)]) w) else mret tt.

(** ** Sessions *)

(** the loop down the list; a list that is longer than the number of streams there
    are is circular, and then the loop does not end *)
Fixpoint walk (fuel : nat) (stream : option nat) (ssrc' : Z) : M (option nat) :=
  match stream with
  | None => mret None
  | Some p =>
      s ← get_stream p;
      if decide (ssrc s = ssrc') then mret (Some p) else
      match fuel with
      | O => lift None
      | S fuel => walk fuel (next s) ssrc'
      end
  end.

Definition srtp_get_stream (srtp : nat) (ssrc' : Z) : M (option nat) :=
  ctx ← get_ctx srtp; n ← gets (λ w, size (streams w));
  walk n (stream_list ctx) ssrc'.

Fixpoint dealloc_streams (fuel : nat) (session : nat) (stream : option nat) : M unit :=
  match stream with
  | None => mret tt
  | Some p =>
      s ← get_stream p;
      srtp_stream_dealloc session p;;
      match fuel with
      | O => lift None
      | S fuel => dealloc_streams fuel session (next s)
      end
  end.

Definition free_ctx (p : nat) : M unit :=
  get_ctx p;; modify (λ w, put_sessions (delete p (sessions w)) w).

Definition srtp_dealloc (session : nat) : M unit :=
  ctx ← get_ctx session; n ← gets (λ w, size (streams w));
  dealloc_streams n session (stream_list ctx);;
  match stream_template ctx with
  | None => mret tt
  | Some t =>
      s ← get_stream t;
      auth_dealloc (rtcp_auth s);;
      cipher_dealloc (rtcp_cipher s);;
      free_limit (limit s);;
      cipher_dealloc (rtp_cipher s);;
      auth_dealloc (rtp_auth s);;
      free_stream t
  end;;
  free_ctx session.

(** the template is set, or there is one already *)
Definition add_template (session tmp : nat) (dir : direction_t) : M unit :=
  ctx ← get_ctx session;
  match stream_template ctx with
  | Some _ => throw err_status_bad_param
  | None => set_ctx session (set_template (Some tmp));; set_stream tmp (set_direction dir)
  end.

Definition srtp_add_stream (session : nat) (policy : srtp_policy_t) : M unit :=
  match p_key policy with
  | None => throw err_status_bad_param
  | Some key =>
      tmp ← srtp_stream_alloc policy;
      on_error (srtp_stream_init tmp policy key) (free_stream tmp);;
      match p_ssrc_type policy with
      | ssrc_any_outbound => add_template session tmp dir_srtp_sender
      | ssrc_any_inbound => add_template session tmp dir_srtp_receiver
      | ssrc_specific =>
          ctx ← get_ctx session;
          set_stream tmp (set_next (stream_list ctx));;
          set_ctx session (set_list (Some tmp))
      | ssrc_undefined => free_stream tmp;; throw err_status_bad_param
      end
  end.

Fixpoint add_streams (session : nat) (policies : list srtp_policy_t) : M unit :=
  match policies with
  | [] => mret tt
  | policy :: policies =>
      on_error (srtp_add_stream session policy) (status_of (srtp_dealloc session);; mret tt);;
      add_streams session policies
  end.

(** the result is the pointer of the session *)
Definition srtp_create (policies : list srtp_policy_t) : M nat :=
  answer ← crypto_alloc;
  match answer with
  | None => throw err_status_alloc_fail
  | Some (ctx, b) =>
      modify (λ w, put_sessions (<[ctx := b_ctx b]> (sessions w)) w);;
      set_ctx ctx (set_template None);;
      set_ctx ctx (set_list None);;
      add_streams ctx policies;;
      mret ctx
  end.

(** the search of [srtp_remove_stream]: [last_stream] and [stream] *)
Fixpoint walk_last (fuel : nat) (last_stream : nat) (stream : option nat) (ssrc' : Z)
  : M (nat * option nat) :=
  match stream with
  | None => mret (last_stream, None)
  | Some p =>
      s ← get_stream p;
      if decide (ssrc' = ssrc s) then mret (last_stream, Some p) else
      match fuel with
      | O => lift None
      | S fuel => walk_last fuel p (next s) ssrc'
      end
  end.

Definition srtp_remove_stream (session : nat) (ssrc' : Z) : M unit :=
  ctx ← get_ctx session; n ← gets (λ w, size (streams w));
  match stream_list ctx with
  | None => throw err_status_no_ctx
  | Some first =>
      '(last_stream, stream) ← walk_last n first (Some first) ssrc';
      match stream with
      | None => throw err_status_no_ctx
      | Some stream =>
          s ← get_stream stream;
          set_stream last_stream (set_next (next s));;
          srtp_stream_dealloc session stream
      end
  end.

(** [srtp_init], with the environment of the kernel; the process may exit *)
Definition srtp_init `{KernelEnv} (k : crypto_kernel_t) : option kernel_run :=
  r ← crypto_kernel_init k;
  match r with
  | Exits code => Some (Exits code)
  | Returns status k =>
      if decide (status ≠ err_status_ok) then Some (Returns status k) else
      let '(status, k) := crypto_kernel_load_debug_module "srtp" (env_alloc "srtp") k in
      Some (Returns status k)
  end.

(** ** Policies *)

Definition crypto_policy_set_rtp_default : crypto_policy_t :=
  mk_policy AES_128_ICM 30 HMAC_SHA1 20 10 sec_serv_conf_and_auth.
Definition crypto_policy_set_rtcp_default : crypto_policy_t :=
  mk_policy AES_128_ICM 30 HMAC_SHA1 20 10 sec_serv_conf_and_auth.
Definition crypto_policy_set_aes_cm_128_hmac_sha1_32 : crypto_policy_t :=
  mk_policy AES_128_ICM 30 HMAC_SHA1 20 4 sec_serv_conf_and_auth.
Definition crypto_policy_set_aes_cm_128_null_auth : crypto_policy_t :=
  mk_policy AES_128_ICM 30 NULL_AUTH 0 0 sec_serv_conf.
Definition crypto_policy_set_null_cipher_hmac_sha1_80 : crypto_policy_t :=
  mk_policy NULL_CIPHER 0 HMAC_SHA1 20 10 sec_serv_auth.

(** ** Packets *)

Definition octets_in_rtp_header : Z := 12.
Definition uint32s_in_rtp_header : Z := 3.
Definition octets_in_rtcp_header : Z := 8.
Definition uint32s_in_rtcp_header : Z := 2.
Definition SRTP_MAX_TAG_LEN : Z := 12.
Definition sizeof_srtcp_trailer : Z := 4.
Definition SRTCP_E_BIT : Z := 0x80000000.
Definition SRTCP_E_BYTE_BIT : Z := 0x80.
Definition SRTCP_INDEX_MASK : Z := 0x7fffffff.

(** fields of the header, and words of the packet *)
Definition octet (i : Z) : M Z := p ← gets packet; lift (aget p i).
Definition word32 (i : Z) : M Z := p ← gets packet; lift (load32 p i).
Definition ntohs_at (i : Z) : M Z := a ← octet i; b ← octet (i + 1); mret (be_val [a; b]).
Definition hdr_cc : M Z := b ← octet 0; mret (b & 15).
Definition hdr_x : M Z := b ← octet 0; mret ((b >> 4) & 1).
Definition hdr_seq : M Z := ntohs_at 2.
Definition hdr_ssrc : M Z := word32 8.
Definition rtcp_ssrc : M Z := word32 4.

(** work in place on the memory at [hdr + off] *)
Definition on_packet {A} (off : Z) (f : list Z → option (A * list Z)) : M A :=
  p ← gets packet;
  if decide (off < 0) then lift None else
  '(a, buf) ← lift (f (drop (Z.to_nat off) p));
  modify (put_packet (take (Z.to_nat off) p ++ buf));;
  mret a.

(** calls through the pointers of a stream, that update the object *)
Definition call_set_iv (c : nat) (iv : list Z) : M err_status_t :=
  o ← get_cipher c; '(status, o) ← lift (obj_set_iv o iv); set_cipher c o;; mret status.

Definition call_encrypt (c : nat) (off len : Z) : M err_status_t :=
  o ← get_cipher c;
  '(status, o) ← on_packet off (λ buf,
     '(status, o, buf, _) ← obj_encrypt off o buf len; Some ((status, o), buf));
  set_cipher c o;; mret status.

Definition call_output (c : nat) (off n : Z) : M err_status_t :=
  o ← get_cipher c;
  '(status, o) ← on_packet off (λ buf,
     '(status, o, buf) ← obj_output off o buf n; Some ((status, o), buf));
  set_cipher c o;; mret status.

Definition call_auth_start (p : nat) : M err_status_t :=
  a ← get_auth p; let '(status, a) := auth_obj_start a in set_auth p a;; mret status.

Definition call_auth_update (p : nat) (len : Z) : M err_status_t :=
  a ← get_auth p; buf ← gets packet;
  '(status, a) ← lift (auth_obj_update a buf len); set_auth p a;; mret status.

(** [auth_compute(a, msg, len, hdr + off)] *)
Definition call_auth_compute (p : nat) (msg : list Z) (len off : Z) : M err_status_t :=
  a ← get_auth p;
  '(status, a) ← on_packet off (λ res,
     '(status, a, res) ← auth_obj_compute a msg len res; Some ((status, a), res));
  set_auth p a;; mret status.

(** the same into a local array *)
Definition call_auth_tag (p : nat) (msg : list Z) (len : Z) (tmp_tag : list Z)
  : M (err_status_t * list Z) :=
  a ← get_auth p;
  '(status, a, tmp_tag) ← lift (auth_obj_compute a msg len tmp_tag);
  set_auth p a;; mret (status, tmp_tag).

(** a new stream at the head of the list *)
Definition push_stream (ctx new_stream : nat) : M unit :=
  c ← get_ctx ctx;
  set_stream new_stream (set_next (stream_list c));;
  set_ctx ctx (set_list (Some new_stream)).

Definition clone_template (ctx : nat) (ssrc' : Z) : M nat :=
  c ← get_ctx ctx;
  match stream_template c with
  | None => throw err_status_no_ctx
  | Some t => new_stream ← srtp_stream_clone t ssrc'; push_stream ctx new_stream;; mret new_stream
  end.

(** the check that detects collisions *)
Definition check_direction (ctx stream : nat) (dir : direction_t) : M unit :=
  s ← get_stream stream;
  if decide (direction s = dir) then mret tt else
  if decide (direction s = dir_unknown) then set_stream stream (set_direction dir)
  else srtp_handle_event ctx stream event_ssrc_collision.

Definition update_limit (ctx stream : nat) : M unit :=
  s ← get_stream stream;
  ls ← gets limits; l ← lift (ls !! limit s);
  let '(event, l) := key_limit_update l in
  modify (λ w, put_limits (<[limit s := l]> (limits w)) w);;
  match event with
  | key_event_normal => mret tt
  | key_event_soft_limit => srtp_handle_event ctx stream event_key_soft_limit
  | key_event_hard_limit =>
      srtp_handle_event ctx stream event_key_hard_limit;; throw err_status_key_expired
  end.

(** the octet at which the encrypted portion starts *)
Definition rtp_enc_start : M Z :=
  cc ← hdr_cc;
  let enc_start := uint32s_in_rtp_header + cc in
  x ← hdr_x;
  if decide (x = 1) then
    n ← ntohs_at (4 * enc_start + 2);
    mret (4 * (enc_start + (n + 1)))
  else mret (4 * enc_start).

(** the index as it goes into a vector and into the tag *)
Definition est_octets (est : Z) : list Z := be_bytes 8 (u64 (Z.shiftl est 16)).

Definition rtp_iv (o : cipher_obj) (ssrc' est : Z) : list Z :=
  if decide (obj_type o = Aes_icm)
  then le_bytes 4 0 ++ le_bytes 4 ssrc' ++ est_octets est
  else le_bytes 8 0 ++ be_bytes 8 est.

(** [stream = srtp_get_stream(...)], or a clone of the template *)
Definition rtp_sender_stream (ctx : nat) : M nat :=
  ssrc' ← hdr_ssrc;
  found ← srtp_get_stream ctx ssrc';
  match found with
  | Some stream => mret stream
  | None =>
      new_stream ← clone_template ctx ssrc';
      set_stream new_stream (set_direction dir_srtp_sender);;
      mret new_stream
  end.

Definition srtp_protect (ctx : nat) : M unit :=
  len ← gets pkt_octet_len;
  if decide (len < octets_in_rtp_header) then throw err_status_bad_param else
  stream ← rtp_sender_stream ctx;
  check_direction ctx stream dir_srtp_sender;;
  update_limit ctx stream;;
  s ← get_stream stream;
  a ← get_auth (rtp_auth s);
  let tag_len := auth_obj_tag_length a in
  let conf := bool_decide (rtp_services s & sec_serv_conf ≠ 0) in
  let auth := bool_decide (rtp_services s & sec_serv_auth ≠ 0) in
  enc_start ← (if (conf : bool) then rtp_enc_start else mret 0);
  let enc_octet_len := u32 (len - enc_start) in
  seq ← hdr_seq;
  let '(est, delta) := rdbx_estimate_index (rtp_rdbx s) seq in
  status ← lift (rdbx_check (rtp_rdbx s) delta);
  check status;;
  '(_, r) ← lift (rdbx_add_index (rtp_rdbx s) delta);
  set_stream stream (set_rtp_rdbx r);;
  ssrc' ← hdr_ssrc;
  o ← get_cipher (rtp_cipher s);
  status ← call_set_iv (rtp_cipher s) (rtp_iv o ssrc' est);
  check_as err_status_cipher_fail status;;
  (if (auth : bool) then
     let prefix_len := auth_obj_prefix_length a in
     if decide (prefix_len ≠ 0) then
       status ← call_output (rtp_cipher s) len prefix_len; check_as err_status_cipher_fail status
     else mret tt
   else mret tt);;
  (if (conf : bool) then
     status ← call_encrypt (rtp_cipher s) enc_start enc_octet_len;
     check_as err_status_cipher_fail status
   else mret tt);;
  if (auth : bool) then
    status ← call_auth_start (rtp_auth s); check status;;
    status ← call_auth_update (rtp_auth s) len; check status;;
    status ← call_auth_compute (rtp_auth s) (est_octets est) 4 len;
    check_as err_status_auth_fail status;;
    modify (put_len (len + tag_len))
  else mret tt.

(** the stream of a received packet, the index and its distance: a stream of the
    list passes the replay check, or the template is used provisionally *)
Definition rtp_receiver_stream (ctx : nat) : M (nat * Z * Z) :=
  ssrc' ← hdr_ssrc;
  found ← srtp_get_stream ctx ssrc';
  match found with
  | None =>
      c ← get_ctx ctx;
      match stream_template c with
      | None => throw err_status_no_ctx
      | Some t => seq ← hdr_seq; mret (t, seq, seq)
      end
  | Some stream =>
      s ← get_stream stream;
      seq ← hdr_seq;
      let '(est, delta) := rdbx_estimate_index (rtp_rdbx s) seq in
      status ← lift (rdbx_check (rtp_rdbx s) delta);
      check status;;
      mret (stream, est, delta)
  end.

(** the comparison of the tag with the last [tag_len] octets of the packet *)
Definition check_tag (tmp_tag : list Z) (off tag_len : Z) : M unit :=
  p ← gets packet;
  if decide (off < 0) then lift None else
  ne ← lift (octet_string_is_eq tmp_tag (drop (Z.to_nat off) p) tag_len);
  if decide (ne ≠ 0) then throw err_status_auth_fail else mret tt.

Definition rtp_authenticate (s : srtp_stream_ctx_t) (a : auth_obj) (est len tag_len : Z) : M unit :=
  tmp_tag ← gets (λ w, take (Z.to_nat SRTP_MAX_TAG_LEN) (stack w));
  tmp_tag ← (
    if decide (auth_obj_prefix_length a ≠ 0) then
      o ← get_cipher (rtp_cipher s);
      '(status, o, tmp_tag) ← lift (obj_output 0 o tmp_tag (auth_obj_prefix_length a));
      set_cipher (rtp_cipher s) o;;
      check_as err_status_cipher_fail status;; mret tmp_tag
    else mret tmp_tag);
  status ← call_auth_start (rtp_auth s); check status;;
  call_auth_update (rtp_auth s) (len - tag_len);;
  '(status, tmp_tag) ← call_auth_tag (rtp_auth s) (est_octets est) 4 tmp_tag;
  check_as err_status_auth_fail status;;
  check_tag tmp_tag (len - tag_len) tag_len.

(** a stream that is the template is replaced by a new clone *)
Definition settle_stream (ctx stream : nat) (read_ssrc : M Z) : M nat :=
  c ← get_ctx ctx;
  if decide (Some stream = stream_template c)
  then ssrc' ← read_ssrc; clone_template ctx ssrc'
  else mret stream.

Definition srtp_unprotect (ctx : nat) : M unit :=
  len ← gets pkt_octet_len;
  if decide (len < octets_in_rtp_header) then throw err_status_bad_param else
  '(stream, est, delta) ← rtp_receiver_stream ctx;
  s ← get_stream stream;
  a ← get_auth (rtp_auth s);
  let tag_len := auth_obj_tag_length a in
  ssrc' ← hdr_ssrc;
  o ← get_cipher (rtp_cipher s);
  status ← call_set_iv (rtp_cipher s) (rtp_iv o ssrc' est);
  check_as err_status_cipher_fail status;;
  let conf := bool_decide (rtp_services s & sec_serv_conf ≠ 0) in
  let auth := bool_decide (rtp_services s & sec_serv_auth ≠ 0) in
  enc_start ← (if (conf : bool) then rtp_enc_start else mret 0);
  let enc_octet_len := u32 (len - tag_len - enc_start) in
  (if (auth : bool) then rtp_authenticate s a est len tag_len else mret tt);;
  update_limit ctx stream;;
  (if (conf : bool) then
     status ← call_encrypt (rtp_cipher s) enc_start enc_octet_len;
     check_as err_status_cipher_fail status
   else mret tt);;
  check_direction ctx stream dir_srtp_receiver;;
  stream ← settle_stream ctx stream hdr_ssrc;
  s ← get_stream stream;
  '(_, r) ← lift (rdbx_add_index (rtp_rdbx s) delta);
  set_stream stream (set_rtp_rdbx r);;
  modify (put_len (len - tag_len)).

(** ** SRTCP *)

Definition rtcp_iv (o : cipher_obj) (ssrc' seq_num : Z) : list Z :=
  if decide (obj_type o = Aes_icm)
  then le_bytes 4 0 ++ le_bytes 4 ssrc' ++ be_bytes 4 (seq_num >> 16) ++ be_bytes 4 (seq_num <<32 16)
  else le_bytes 12 0 ++ be_bytes 4 seq_num.

(** [*trailer = w;] with the word in network order *)
Definition store_trailer (off w : Z) : M unit :=
  p ← gets packet; p ← lift (store32 p off (bswap32 w)); modify (put_packet p).

Definition rtcp_sender_stream (ctx : nat) : M nat :=
  ssrc' ← rtcp_ssrc;
  found ← srtp_get_stream ctx ssrc';
  match found with
  | Some stream => mret stream
  | None => clone_template ctx ssrc'
  end.

Definition srtp_protect_rtcp (ctx : nat) : M unit :=
  len ← gets pkt_octet_len;
  stream ← rtcp_sender_stream ctx;
  check_direction ctx stream dir_srtp_sender;;
  s ← get_stream stream;
  a ← get_auth (rtcp_auth s);
  let tag_len := auth_obj_tag_length a in
  let conf := bool_decide (rtcp_services s & sec_serv_conf ≠ 0) in
  let enc_start := 4 * uint32s_in_rtcp_header in
  let enc_octet_len := u32 (len - octets_in_rtcp_header) in
  let trailer := enc_start + enc_octet_len in
  store_trailer trailer (if conf then SRTCP_E_BIT else 0);;
  let auth_tag := len + sizeof_srtcp_trailer in
  let '(status, r) := rdb_increment (rtcp_rdb s) in
  set_stream stream (set_rtcp_rdb r);;
  check status;;
  let seq_num := rdb_get_value r in
  t ← word32 trailer;
  store_trailer trailer (bswap32 t ||| seq_num);;
  ssrc' ← rtcp_ssrc;
  o ← get_cipher (rtcp_cipher s);
  status ← call_set_iv (rtcp_cipher s) (rtcp_iv o ssrc' seq_num);
  check_as err_status_cipher_fail status;;
  status ← call_output (rtcp_cipher s) auth_tag (auth_obj_prefix_length a);
  check_as err_status_cipher_fail status;;
  (if (conf : bool) then
     status ← call_encrypt (rtcp_cipher s) enc_start enc_octet_len;
     check_as err_status_cipher_fail status
   else mret tt);;
  call_auth_start (rtcp_auth s);;
  msg ← gets packet;
  status ← call_auth_compute (rtcp_auth s) msg (len + sizeof_srtcp_trailer) auth_tag;
  check_as err_status_auth_fail status;;
  modify (put_len (len + (tag_len + sizeof_srtcp_trailer))).

Definition rtcp_receiver_stream (ctx : nat) : M nat :=
  ssrc' ← rtcp_ssrc;
  found ← srtp_get_stream ctx ssrc';
  match found with
  | Some stream => mret stream
  | None =>
      c ← get_ctx ctx;
      match stream_template c with
      | None => throw err_status_no_ctx
      | Some t => mret t
      end
  end.

(** the tag over all of the packet before it *)
Definition rtcp_authenticate (s : srtp_stream_ctx_t) (len tag_len : Z) : M unit :=
  call_auth_start (rtcp_auth s);;
  tmp_tag ← gets (λ w, take (Z.to_nat SRTP_MAX_TAG_LEN) (stack w));
  msg ← gets packet;
  '(status, tmp_tag) ← call_auth_tag (rtcp_auth s) msg (len - tag_len) tmp_tag;
  check_as err_status_auth_fail status;;
  check_tag tmp_tag (len - tag_len) tag_len.

Definition srtp_unprotect_rtcp (ctx : nat) : M unit :=
  len ← gets pkt_octet_len;
  stream ← rtcp_receiver_stream ctx;
  s ← get_stream stream;
  a ← get_auth (rtcp_auth s);
  let tag_len := auth_obj_tag_length a in
  let enc_octet_len := u32 (len - (octets_in_rtcp_header + tag_len + sizeof_srtcp_trailer)) in
  let trailer := len - (tag_len + sizeof_srtcp_trailer) in
  e ← octet trailer;
  let conf := bool_decide (e & SRTCP_E_BYTE_BIT ≠ 0) in
  let enc_start := 4 * uint32s_in_rtcp_header in
  let auth_tag := len - tag_len in
  t ← word32 trailer;
  let seq_num := bswap32 t & SRTCP_INDEX_MASK in
  status ← lift (rdb_check (rtcp_rdb s) seq_num);
  check status;;
  ssrc' ← rtcp_ssrc;
  o ← get_cipher (rtcp_cipher s);
  status ← call_set_iv (rtcp_cipher s) (rtcp_iv o ssrc' seq_num);
  check_as err_status_cipher_fail status;;
  rtcp_authenticate s len tag_len;;
  (if decide (auth_obj_prefix_length a ≠ 0) then
     status ← call_output (rtcp_cipher s) auth_tag (auth_obj_prefix_length a);
     check_as err_status_cipher_fail status
   else mret tt);;
  (if (conf : bool) then
     status ← call_encrypt (rtcp_cipher s) enc_start enc_octet_len;
     check_as err_status_cipher_fail status
   else mret tt);;
  modify (put_len (len - (tag_len + sizeof_srtcp_trailer)));;
  check_direction ctx stream dir_srtp_receiver;;
  stream ← settle_stream ctx stream rtcp_ssrc;
  s ← get_stream stream;
  '(_, r) ← lift (rdb_add_index (rtcp_rdb s) seq_num);
  set_stream stream (set_rtcp_rdb r).
