(* ===== verification/SrtpObjects.v ===== *)
(** * What SRTP relies on

    The contracts of stream ciphers and authentication functions, lifted to the
    objects of the crypto kernel ([obj_keyed], [obj_at], [auth_obj_keyed],
    [auth_obj_absorbed]), the rules to run computations in [M] step by step, and
    what each helper function of [srtp/srtp.c] does to the heap. *)

From stdpp Require Import gmap strings.
From S2P Require Import Prelude Datatypes Replay KeyLimit Sha1 Hmac Cipher Aes AesIcm CryptoKernel Srtp.
Import Rdb Rdbx.

#[local] Opaque AesSpec.cipher AesSpec.key_expansion.

(** ** Cipher objects *)

(** the object holds the session key [k]; AES-CBC is never keyed by SRTP *)
Definition obj_keyed (o : cipher_obj) (k : list Z) : Prop :=
  match o with
  | NullObj _ => True
  | IcmObj c => icm_keyed (cipher_state c) k
  | CbcObj _ => False
  end.

(** ... and it is [n] octets into the keystream of the vector [iv] *)
Definition obj_at (o : cipher_obj) (k iv : list Z) (n : nat) : Prop :=
  match o with
  | NullObj _ => True
  | IcmObj c => icm_at (cipher_state c) k iv n ∧ icm_stream_iv iv
  | CbcObj _ => False
  end.

Definition obj_iv_ok (o : cipher_obj) (iv : list Z) : Prop :=
  match o with IcmObj _ => icm_stream_iv iv | _ => True end.

(** the keystream: that of AES-CM, or zero *)
Definition type_octet (t : cipher_type) (k iv : list Z) (n : nat) : Z :=
  match t with Aes_icm => icm_octet k iv n | _ => 0 end.

(** the parts of an object that calls leave alone *)
Definition obj_shape (o : cipher_obj) : cipher_type * Z := (obj_type o, obj_key_length o).

(** the bound of counter mode, which every cipher keeps *)
Definition max_keystream : Z := 0xffff.

Lemma obj_at_keyed o k iv n : obj_at o k iv n → obj_keyed o k.
Proof. destruct o; [done| |done]. by intros [[[] _] _]. Qed.

Lemma type_octet_range o k iv n : obj_keyed o k → is_word 8 (type_octet (obj_type o) k iv n).
Proof. destruct o; [|intros []; by apply icm_octet_range|done]. intros _. by apply word_0. Qed.

Lemma obj_set_iv_spec o k iv :
  obj_keyed o k → obj_iv_ok o iv →
  ∃ o', obj_set_iv o iv = Some (err_status_ok, o') ∧ obj_shape o' = obj_shape o ∧
    obj_at o' k iv 0.
Proof.
  destruct o as [c|c|c]; intros Hk Hi; [eauto| |done].
  destruct (icm_set_iv_spec (cipher_state c) k iv Hk (proj1 Hi)) as (c' & E & H).
  unfold obj_set_iv, cipher_set_iv, cipher_set_iv_fn, icm_table, aes_icm. rewrite E, !Some_bind.
  eexists. by split_and!.
Qed.

Lemma obj_encrypt_spec addr o k iv n p rest :
  obj_at o k iv n → is_bytes (p ++ rest) → Z.of_nat n + Z.of_nat (length p) <= max_keystream →
  ∃ o', obj_encrypt addr o (p ++ rest) (Z.of_nat (length p)) =
      Some (err_status_ok, o', xor_stream (type_octet (obj_type o) k iv) n p ++ rest,
            Z.of_nat (length p)) ∧
    obj_shape o' = obj_shape o ∧ obj_at o' k iv (n + length p).
Proof.
  destruct o as [c|c|c]; intros Ha Hb Hn; [| |done]; unfold obj_encrypt, cipher_encrypt.
  - destruct (stream_encrypt_law (StreamSpec := NullCipher.null_cipher_stream) (cipher_state c) k iv
      n p rest I Hb) as (st' & -> & _); [unfold stream_max, max_keystream in *; simpl; lia|].
    rewrite !Some_bind. eexists. by split_and!.
  - destruct (stream_encrypt_law (StreamSpec := aes_icm_stream addr [0; 0]) (cipher_state c) k iv
      n p rest Ha Hb Hn) as (st' & -> & H). rewrite !Some_bind. eexists. by split_and!.
Qed.

(** [cipher_output] clears one octet even when none is asked for *)
Lemma obj_output_spec addr o k iv n len buffer :
  obj_at o k iv n → is_bytes buffer → 0 <= len <= Z.of_nat (length buffer) → buffer ≠ [] →
  Z.of_nat n + len <= max_keystream →
  ∃ o', obj_output addr o buffer len =
      Some (err_status_ok, o',
            map (type_octet (obj_type o) k iv) (seq n (Z.to_nat len)) ++
            replicate (Z.to_nat (Z.max 1 len - len)) 0 ++ drop (Z.to_nat (Z.max 1 len)) buffer) ∧
    obj_shape o' = obj_shape o ∧ obj_at o' k iv (n + Z.to_nat len).
Proof.
  intros Ha Hb Hl Hne Hm.
  assert (length buffer ≠ 0%nat) as Hne' by (by destruct buffer).
  assert (∃ o', obj_encrypt addr o (replicate (Z.to_nat len) 0 ++
      (replicate (Z.to_nat (Z.max 1 len - len)) 0 ++ drop (Z.to_nat (Z.max 1 len)) buffer)) len =
    Some (err_status_ok, o', map (type_octet (obj_type o) k iv) (seq n (Z.to_nat len)) ++
            replicate (Z.to_nat (Z.max 1 len - len)) 0 ++ drop (Z.to_nat (Z.max 1 len)) buffer, len) ∧
    obj_shape o' = obj_shape o ∧ obj_at o' k iv (n + Z.to_nat len)) as (o' & E & H).
  { destruct (obj_encrypt_spec addr o k iv n (replicate (Z.to_nat len) 0)
      (replicate (Z.to_nat (Z.max 1 len - len)) 0 ++ drop (Z.to_nat (Z.max 1 len)) buffer) Ha)
      as (o' & E & H1 & H2).
    { by apply is_bytes_app; split; [apply is_bytes_replicate, word_0|apply is_bytes_app; split;
        [apply is_bytes_replicate, word_0|by words]]. }
    { rewrite length_replicate. lia. }
    rewrite length_replicate, Z2Nat.id in E by lia. rewrite length_replicate in H2.
    rewrite xor_stream_zero in E. by exists o'. }
  exists o'. split; [|done]. unfold max_keystream in *.
  assert (octet_string_set_to_zero buffer len = Some (replicate (Z.to_nat len) 0 ++
      (replicate (Z.to_nat (Z.max 1 len - len)) 0 ++ drop (Z.to_nat (Z.max 1 len)) buffer))) as Ez.
  { rewrite zeroed by (lia || done). rewrite app_assoc, <-replicate_add. do 3 f_equal. lia. }
  revert E. destruct o as [c|c|c]; [| |done]; unfold obj_output, obj_encrypt, cipher_output;
    rewrite Ez, !Some_bind, wrap_small by (unfold is_word; lia).
  - destruct (cipher_encrypt _ _ _) as [[[[s c'] buf] l]|]; rewrite ?Some_bind; [|done].
    by intros [= -> <- -> ->].
  - destruct (cipher_encrypt _ _ _) as [[[[s c'] buf] l]|]; rewrite ?Some_bind; [|done].
    by intros [= -> <- -> ->].
Qed.

(** ** Authentication objects *)

Definition auth_obj_keyed (a : auth_obj) (k : list Z) : Prop :=
  match a with NullAuthObj _ => True | HmacObj a => Hmac.hmac_keyed (auth_state a) k end.

(** ... and has absorbed the message [m] *)
Definition auth_obj_absorbed (a : auth_obj) (k m : list Z) : Prop :=
  match a with NullAuthObj _ => True | HmacObj a => Hmac.hmac_absorbed (auth_state a) k m end.

Definition type_mac (t : auth_type) (k m : list Z) : list Z :=
  match t with Null_auth => [] | Hmac_sha1 => Hmac.HMAC k m end.

Definition auth_shape (a : auth_obj) : auth_type * Z * Z * Z :=
  (auth_obj_type a, auth_obj_key_length a, auth_obj_tag_length a, auth_obj_prefix_length a).

(** the tags SRTP has room for, from a function without keystream prefix: at most
    the 12 octets of the local array, none for the null function *)
Definition auth_fits (a : auth_obj) : Prop :=
  auth_obj_prefix_length a = 0 ∧
  0 <= auth_obj_tag_length a <= match auth_obj_type a with Null_auth => 0 | Hmac_sha1 => 12 end.

(** the tag of a message *)
Definition obj_tag (a : auth_obj) (k m : list Z) : list Z :=
  take (Z.to_nat (auth_obj_tag_length a)) (type_mac (auth_obj_type a) k m).

Lemma auth_shape_fits a a' : auth_shape a' = auth_shape a → auth_fits a → auth_fits a'.
Proof. unfold auth_shape, auth_fits. by intros [= -> _ -> ->]. Qed.

Lemma auth_shape_tag a a' k m : auth_shape a' = auth_shape a → obj_tag a' k m = obj_tag a k m.
Proof. unfold auth_shape, obj_tag. by intros [= -> _ -> _]. Qed.

Lemma length_obj_tag a k m : auth_fits a → Z.of_nat (length (obj_tag a k m)) = auth_obj_tag_length a.
Proof.
  intros [_ Ht]. unfold obj_tag. rewrite length_take. destruct a; simpl in *; [lia|].
  pose proof (auth_mac_length (AuthSpec := Hmac.hmac_spec) k m) as Hl. simpl in Hl. lia.
Qed.

Lemma obj_tag_bytes a k m : is_bytes (obj_tag a k m).
Proof.
  apply is_bytes_take. destruct a; [constructor|].
  apply (auth_mac_bytes (AuthSpec := Hmac.hmac_spec)).
Qed.

Lemma absorbed_keyed a k m : auth_obj_absorbed a k m → auth_obj_keyed a k.
Proof. destruct a; [done|]. by intros []. Qed.

Lemma auth_obj_start_spec a k :
  auth_obj_keyed a k →
  ∃ a', auth_obj_start a = (err_status_ok, a') ∧ auth_shape a' = auth_shape a ∧
    auth_obj_absorbed a' k [].
Proof.
  destruct a as [a|a]; intros Hk; [by eexists|]. unfold auth_obj_start, auth_start.
  destruct (auth_start_law (AuthSpec := Hmac.hmac_spec) (auth_state a) k Hk) as (st' & -> & H).
  eexists. by split_and!.
Qed.

Lemma auth_obj_update_spec a k m msg n :
  auth_obj_absorbed a k m → is_bytes msg → 0 <= n <= Z.of_nat (length msg) →
  ∃ a', auth_obj_update a msg n = Some (err_status_ok, a') ∧ auth_shape a' = auth_shape a ∧
    auth_obj_absorbed a' k (m ++ take (Z.to_nat n) msg).
Proof.
  destruct a as [a|a]; intros Ha Hb Hn; [by eexists|]. unfold auth_obj_update, auth_update.
  destruct (auth_update_law (AuthSpec := Hmac.hmac_spec) (auth_state a) k m msg n Ha Hb Hn)
    as (st' & -> & H). rewrite !Some_bind. eexists. by split_and!.
Qed.

Lemma auth_obj_compute_spec a k m msg n res :
  auth_obj_absorbed a k m → auth_fits a → is_bytes msg → 0 <= n <= Z.of_nat (length msg) →
  Z.of_nat (length m) + n < 2 ^ 28 → auth_obj_tag_length a <= Z.of_nat (length res) →
  ∃ a', auth_obj_compute a msg n res =
      Some (err_status_ok, a', obj_tag a k (m ++ take (Z.to_nat n) msg) ++
                               drop (Z.to_nat (auth_obj_tag_length a)) res) ∧
    auth_shape a' = auth_shape a ∧ auth_obj_keyed a' k.
Proof.
  intros Ha [Hp Hf] Hb Hn Hm Hr. unfold obj_tag. destruct a as [a|a]; simpl in *.
  - unfold auth_compute. simpl. replace (auth_get_tag_length a) with 0 by lia. by eexists.
  - unfold auth_compute, auth_get_tag_length in *.
    destruct (auth_compute_law (AuthSpec := Hmac.hmac_spec) (auth_state a) k m msg n (out_len a) res
      Ha Hb Hn) as (st' & -> & H); [simpl; lia|simpl; lia|lia|].
    rewrite !Some_bind. eexists. by split_and!.
Qed.

(** ** Running computations *)

Definition runs {A} (m : M A) (w : world) (r : err_status_t + A) (w' : world) : Prop :=
  m w = Some (r, w').

Lemma runs_ret {A} (a : A) w : runs (mret a) w (inr a) w.
Proof. done. Qed.

Lemma runs_bind {A B} (m : M A) (f : A → M B) w a w1 r w2 :
  runs m w (inr a) w1 → runs (f a) w1 r w2 → runs (m ≫= f) w r w2.
Proof. unfold runs. intros Hm Hf. unfold mbind, M_bind. by rewrite Hm. Qed.

Lemma runs_bind_err {A B} (m : M A) (f : A → M B) w e w1 :
  runs m w (inl e) w1 → runs (m ≫= f) w (inl e) w1.
Proof. unfold runs. intros Hm. unfold mbind, M_bind. by rewrite Hm. Qed.

Lemma runs_throw {A} e w : runs (A := A) (throw e) w (inl e) w.
Proof. done. Qed.

Lemma runs_gets {A} (f : world → A) w : runs (gets f) w (inr (f w)) w.
Proof. done. Qed.

Lemma runs_modify f w : runs (modify f) w (inr tt) (f w).
Proof. done. Qed.

Lemma runs_lift {A} (x : option A) a w : x = Some a → runs (lift x) w (inr a) w.
Proof. by intros ->. Qed.

Lemma runs_check_ok w : runs (check err_status_ok) w (inr tt) w.
Proof. done. Qed.

Lemma runs_check_err s w : s ≠ err_status_ok → runs (check s) w (inl s) w.
Proof. intros Hs. unfold check. by rewrite decide_False. Qed.

Lemma runs_check_as_ok e w : runs (check_as e err_status_ok) w (inr tt) w.
Proof. done. Qed.

Lemma runs_get_stream p s w : streams w !! p = Some s → runs (get_stream p) w (inr s) w.
Proof. intros Hp. by unfold runs, get_stream, gets, lift, mbind, M_bind; rewrite Hp. Qed.

Lemma runs_get_cipher p o w : ciphers w !! p = Some o → runs (get_cipher p) w (inr o) w.
Proof. intros Hp. by unfold runs, get_cipher, gets, lift, mbind, M_bind; rewrite Hp. Qed.

Lemma runs_get_auth p a w : auths w !! p = Some a → runs (get_auth p) w (inr a) w.
Proof. intros Hp. by unfold runs, get_auth, gets, lift, mbind, M_bind; rewrite Hp. Qed.

Lemma runs_get_ctx p c w : sessions w !! p = Some c → runs (get_ctx p) w (inr c) w.
Proof. intros Hp. by unfold runs, get_ctx, gets, lift, mbind, M_bind; rewrite Hp. Qed.

Lemma runs_set_stream p f s w :
  streams w !! p = Some s → runs (set_stream p f) w (inr tt) (put_streams (<[p := f s]> (streams w)) w).
Proof. intros Hp. unfold set_stream. eapply runs_bind; [by apply runs_get_stream|done]. Qed.

Lemma runs_set_ctx p f c w :
  sessions w !! p = Some c → runs (set_ctx p f) w (inr tt) (put_sessions (<[p := f c]> (sessions w)) w).
Proof. intros Hp. unfold set_ctx. eapply runs_bind; [by apply runs_get_ctx|done]. Qed.

Create HintDb runs.
#[export] Hint Resolve runs_ret runs_throw runs_gets runs_modify runs_check_ok runs_check_as_ok : runs.
#[export] Hint Resolve runs_get_stream runs_get_cipher runs_get_auth runs_get_ctx
  runs_set_stream runs_set_ctx runs_lift : runs.

(** a computation that comes to its end, and one that returns a status before *)
Definition returns {A} (m : M A) (w : world) (Q : A → world → Prop) : Prop :=
  ∃ a w', runs m w (inr a) w' ∧ Q a w'.
Definition refuses {A} (m : M A) (w : world) (e : err_status_t) (Q : world → Prop) : Prop :=
  ∃ w', runs m w (inl e) w' ∧ Q w'.

Lemma returns_bind {A B} (m : M A) (f : A → M B) w a w1 Q :
  runs m w (inr a) w1 → returns (f a) w1 Q → returns (m ≫= f) w Q.
Proof. intros Hm (b & w' & Hf & HQ). exists b, w'. split; [by eapply runs_bind|done]. Qed.

Lemma refuses_bind {A B} (m : M A) (f : A → M B) w a w1 e Q :
  runs m w (inr a) w1 → refuses (f a) w1 e Q → refuses (m ≫= f) w e Q.
Proof. intros Hm (w' & Hf & HQ). exists w'. split; [by eapply runs_bind|done]. Qed.

Lemma returns_intro {A} (m : M A) w a w' (Q : A → world → Prop) :
  runs m w (inr a) w' → Q a w' → returns m w Q.
Proof. intros Hm HQ. by exists a, w'. Qed.

Lemma refuses_intro {A} (m : M A) w e w' (Q : world → Prop) :
  runs m w (inl e) w' → Q w' → refuses m w e Q.
Proof. intros Hm HQ. by exists w'. Qed.

(** the next step of a computation: [step] for the rules above, [step by H] with a
    lemma on the computation *)
Ltac step_with tac :=
  first [eapply runs_bind|eapply returns_bind|eapply refuses_bind]; [tac|cbv beta iota].
Ltac step := step_with ltac:(solve [eauto with runs]).
Tactic Notation "step" "by" uconstr(H) := step_with ltac:(eapply H; eauto with runs).

(** ** Fields of a packet *)

Definition pkt_seq (h : list Z) : Z := be_val (take 2 (drop 2 h)).
Definition pkt_ssrc (h : list Z) : Z := le_val (take 4 (drop 8 h)).
Definition pkt_rtcp_ssrc (h : list Z) : Z := le_val (take 4 (drop 4 h)).

(** where the payload starts: after the header, its contributing sources and its
    extension *)
Definition enc_start_of (h : list Z) : option Z :=
  b ← aget h 0;
  let e := uint32s_in_rtp_header + (b & 15) in
  if decide ((b >> 4) & 1 = 1) then
    x ← aget h (4 * e + 2); y ← aget h (4 * e + 3);
    Some (4 * (e + (be_val [x; y] + 1)))
  else Some (4 * e).

Lemma aget_app_l {A} (h x : list A) i v : aget h i = Some v → aget (h ++ x) i = Some v.
Proof.
  unfold aget. destruct (0 <=? i); [|done]. intros Hi. by apply lookup_app_l_Some.
Qed.

Lemma runs_octet w h x i v : packet w = h ++ x → aget h i = Some v → runs (octet i) w (inr v) w.
Proof.
  intros Hp Hi. unfold octet. step. rewrite Hp. by apply runs_lift, aget_app_l.
Qed.

Lemma runs_ntohs_at w h x i a b :
  packet w = h ++ x → aget h i = Some a → aget h (i + 1) = Some b →
  runs (ntohs_at i) w (inr (be_val [a; b])) w.
Proof.
  intros Hp Ha Hb. unfold ntohs_at. step by runs_octet. step by runs_octet. apply runs_ret.
Qed.

Lemma runs_enc_start w h x n :
  packet w = h ++ x → enc_start_of h = Some n → runs rtp_enc_start w (inr n) w.
Proof.
  intros Hp. unfold enc_start_of. destruct (aget h 0) as [b|] eqn:Eb; [|done]. rewrite Some_bind.
  assert (runs hdr_cc w (inr (b & 15)) w) as Hcc
    by (unfold hdr_cc; step by runs_octet; apply runs_ret).
  assert (runs hdr_x w (inr ((b >> 4) & 1)) w) as Hx
    by (unfold hdr_x; step by runs_octet; apply runs_ret).
  unfold rtp_enc_start. intros Hn. step by Hcc. step by Hx. case_decide; [|by simplify_eq].
  apply bind_Some in Hn as (y & E1 & (z & E2 & [= <-])%bind_Some).
  replace (4 * (uint32s_in_rtp_header + (b & 15)) + 3)
    with (4 * (uint32s_in_rtp_header + (b & 15)) + 2 + 1) in E2 by lia.
  step by runs_ntohs_at. apply runs_ret.
Qed.

(** the first octets of a list, one by one *)
Lemma list_split (n : nat) {A} (h : list A) :
  (n <= length h)%nat → ∃ h1 h2, h = h1 ++ h2 ∧ length h1 = n.
Proof. intros Hn. exists (take n h), (drop n h). rewrite take_drop, length_take. split; [done|lia]. Qed.

Lemma runs_word32 w pre a b c d post :
  packet w = pre ++ a :: b :: c :: d :: post →
  runs (word32 (Z.of_nat (length pre))) w (inr (le_val [a; b; c; d])) w.
Proof. intros Hp. unfold word32. step. rewrite Hp. apply runs_lift, load32_mid. Qed.

Lemma word32_at w h x n :
  packet w = h ++ x → (n + 4 <= length h)%nat →
  runs (word32 (Z.of_nat n)) w (inr (le_val (take 4 (drop n h)))) w.
Proof.
  intros Hp Hn. destruct (list_split n h) as (h1 & h2 & -> & <-); [lia|].
  rewrite length_app in Hn. destruct h2 as [|a [|b [|c [|d h2]]]]; simpl in Hn; try lia.
  rewrite drop_app_length. simpl. eapply runs_word32. by rewrite Hp, <-app_assoc.
Qed.

Lemma runs_hdr_ssrc w h x :
  packet w = h ++ x → (12 <= length h)%nat → runs hdr_ssrc w (inr (pkt_ssrc h)) w.
Proof. intros Hp Hl. by apply (word32_at w h x 8). Qed.

Lemma runs_rtcp_ssrc w h x :
  packet w = h ++ x → (8 <= length h)%nat → runs rtcp_ssrc w (inr (pkt_rtcp_ssrc h)) w.
Proof. intros Hp Hl. by apply (word32_at w h x 4). Qed.

Lemma runs_hdr_seq w h x :
  packet w = h ++ x → (12 <= length h)%nat → runs hdr_seq w (inr (pkt_seq h)) w.
Proof.
  intros Hp Hl. destruct h as [|a [|b [|c [|d h]]]]; simpl in Hl; try lia.
  apply (runs_ntohs_at w _ _ _ c d Hp); done.
Qed.

#[export] Hint Resolve runs_enc_start runs_hdr_ssrc runs_rtcp_ssrc runs_hdr_seq : runs.

(** ** Vectors *)

Lemma est_octets_bytes est : is_bytes (est_octets est).
Proof. apply be_bytes_range. Qed.

Lemma length_est_octets est : length (est_octets est) = 8%nat.
Proof. apply length_be_bytes. Qed.

Lemma est_octets_low est : drop 6 (est_octets est) = [0; 0].
Proof.
  unfold est_octets. rewrite (be_bytes_app 6 2), drop_app_ge by (rewrite length_be_bytes; lia).
  rewrite length_be_bytes. cbn [be_bytes drop Nat.sub].
  assert (∀ i, 0 <= i <= 8 → u8 (u64 (Z.shiftl est 16) >> i) = 0) as Hz.
  { intros i Hi. apply Z.bits_inj'. intros n Hn. rewrite Z.bits_0, !wrap_testbit by lia.
    rewrite testbit_shiftr, wrap_testbit, testbit_shiftl by lia.
    destruct (Z.ltb_spec n 8); [|done]. rewrite (Z.testbit_neg_r est) by lia.
    by rewrite !andb_false_r. }
  by rewrite !Hz by lia.
Qed.

(** the rollover counter *)
Lemma est_octets_roc est : 0 <= est < 2 ^ 48 → take 4 (est_octets est) = be_bytes 4 (est >> 16).
Proof.
  intros He. unfold est_octets. rewrite (be_bytes_app 4 4), take_app_length' by (by rewrite length_be_bytes).
  f_equal. rewrite wrap_small, Z.shiftr_shiftl_r by (lia || unfold is_word; rewrite Z.shiftl_mul_pow2; lia).
  done.
Qed.

Lemma le_bytes_range n x : is_bytes (le_bytes n x).
Proof. apply is_bytes_rev, be_bytes_range. Qed.

(** a vector of three words and an index ends in zero octets *)
Lemma stream_iv_intro a b c :
  length a = 4%nat → length b = 4%nat → length c = 8%nat → is_bytes (a ++ b ++ c) →
  drop 6 c = [0; 0] → icm_stream_iv (a ++ b ++ c).
Proof.
  intros La Lb Lc Hb Hd. split; [split; [done|rewrite !length_app; lia]|].
  rewrite take_ge by (rewrite !length_app; lia).
  rewrite app_assoc, drop_app_ge, length_app, La, Lb by (rewrite length_app; lia). exact Hd.
Qed.

Lemma rtp_iv_ok o ssrc' est : obj_iv_ok o (rtp_iv o ssrc' est).
Proof.
  destruct o; [done| |done]. apply stream_iv_intro; [done| |apply length_est_octets| |apply est_octets_low].
  - apply length_le_bytes.
  - apply is_bytes_app; split; [apply le_bytes_range|].
    apply is_bytes_app; split; [apply le_bytes_range|apply est_octets_bytes].
Qed.

Lemma rtp_iv_shape o o' ssrc' est :
  obj_shape o' = obj_shape o → rtp_iv o' ssrc' est = rtp_iv o ssrc' est.
Proof. unfold obj_shape, rtp_iv. by intros [= -> _]. Qed.

(** ** Calls on the objects of a stream *)

Lemma runs_call_set_iv w c o k iv :
  ciphers w !! c = Some o → obj_keyed o k → obj_iv_ok o iv →
  ∃ o', runs (call_set_iv c iv) w (inr err_status_ok) (put_ciphers (<[c := o']> (ciphers w)) w) ∧
    obj_shape o' = obj_shape o ∧ obj_at o' k iv 0.
Proof.
  intros Hc Hk Hi. destruct (obj_set_iv_spec o k iv Hk Hi) as (o' & E & Hs & Ha).
  exists o'. split; [|done]. unfold call_set_iv. step. step by runs_lift. step. apply runs_ret.
Qed.

Lemma runs_on_packet {A} w pre buf off (f : list Z → option (A * list Z)) a buf' :
  packet w = pre ++ buf → off = Z.of_nat (length pre) → f buf = Some (a, buf') →
  runs (on_packet off f) w (inr a) (put_packet (pre ++ buf') w).
Proof.
  intros Hp -> Hf. unfold on_packet. step. rewrite decide_False by lia.
  step by runs_lift.
  { by rewrite Nat2Z.id, Hp, drop_app_length. }
  step. rewrite Nat2Z.id, Hp, take_app_length. apply runs_ret.
Qed.

Lemma runs_call_encrypt w c o k iv n pre p rest :
  ciphers w !! c = Some o → obj_at o k iv n → packet w = pre ++ p ++ rest → is_bytes (p ++ rest) →
  Z.of_nat n + Z.of_nat (length p) <= max_keystream →
  ∃ o', runs (call_encrypt c (Z.of_nat (length pre)) (Z.of_nat (length p))) w (inr err_status_ok)
      (put_ciphers (<[c := o']> (ciphers w))
        (put_packet (pre ++ xor_stream (type_octet (obj_type o) k iv) n p ++ rest) w)) ∧
    obj_shape o' = obj_shape o ∧ obj_at o' k iv (n + length p).
Proof.
  intros Hc Ha Hp Hb Hn.
  destruct (obj_encrypt_spec (Z.of_nat (length pre)) o k iv n p rest Ha Hb Hn) as (o' & E & Hs & H).
  exists o'. split; [|done]. unfold call_encrypt. step.
  eapply runs_bind; [eapply (runs_on_packet w pre); [done|done|by rewrite E]|cbv beta iota].
  step. apply runs_ret.
Qed.

Lemma runs_call_output w c o k iv n pre buf len :
  ciphers w !! c = Some o → obj_at o k iv n → packet w = pre ++ buf → is_bytes buf →
  0 <= len <= Z.of_nat (length buf) → buf ≠ [] → Z.of_nat n + len <= max_keystream →
  ∃ o', runs (call_output c (Z.of_nat (length pre)) len) w (inr err_status_ok)
      (put_ciphers (<[c := o']> (ciphers w))
        (put_packet (pre ++ map (type_octet (obj_type o) k iv) (seq n (Z.to_nat len)) ++
            replicate (Z.to_nat (Z.max 1 len - len)) 0 ++ drop (Z.to_nat (Z.max 1 len)) buf) w)) ∧
    obj_shape o' = obj_shape o ∧ obj_at o' k iv (n + Z.to_nat len).
Proof.
  intros Hc Ha Hp Hb Hl Hne Hn.
  destruct (obj_output_spec (Z.of_nat (length pre)) o k iv n len buf Ha Hb Hl Hne Hn)
    as (o' & E & Hs & H).
  exists o'. split; [|done]. unfold call_output. step.
  eapply runs_bind; [eapply (runs_on_packet w pre); [done|done|by rewrite E]|cbv beta iota].
  step. apply runs_ret.
Qed.

Lemma runs_call_auth_start w p a k :
  auths w !! p = Some a → auth_obj_keyed a k →
  ∃ a', runs (call_auth_start p) w (inr err_status_ok) (put_auths (<[p := a']> (auths w)) w) ∧
    auth_shape a' = auth_shape a ∧ auth_obj_absorbed a' k [].
Proof.
  intros Hp Hk. destruct (auth_obj_start_spec a k Hk) as (a' & E & H). exists a'. split; [|done].
  unfold call_auth_start. step. rewrite E. step. apply runs_ret.
Qed.

Lemma runs_call_auth_update w p a k m len :
  auths w !! p = Some a → auth_obj_absorbed a k m → is_bytes (packet w) →
  0 <= len <= Z.of_nat (length (packet w)) →
  ∃ a', runs (call_auth_update p len) w (inr err_status_ok) (put_auths (<[p := a']> (auths w)) w) ∧
    auth_shape a' = auth_shape a ∧ auth_obj_absorbed a' k (m ++ take (Z.to_nat len) (packet w)).
Proof.
  intros Hp Ha Hb Hl. destruct (auth_obj_update_spec a k m (packet w) len Ha Hb Hl) as (a' & E & H).
  exists a'. split; [|done]. unfold call_auth_update. step. step. step by runs_lift. step. apply runs_ret.
Qed.

Lemma runs_call_auth_compute w p a k m msg len pre res :
  auths w !! p = Some a → auth_obj_absorbed a k m → auth_fits a → is_bytes msg →
  0 <= len <= Z.of_nat (length msg) → Z.of_nat (length m) + len < 2 ^ 28 →
  packet w = pre ++ res → auth_obj_tag_length a <= Z.of_nat (length res) →
  ∃ a', runs (call_auth_compute p msg len (Z.of_nat (length pre))) w (inr err_status_ok)
      (put_auths (<[p := a']> (auths w))
        (put_packet (pre ++ obj_tag a k (m ++ take (Z.to_nat len) msg) ++
                     drop (Z.to_nat (auth_obj_tag_length a)) res) w)) ∧
    auth_shape a' = auth_shape a ∧ auth_obj_keyed a' k.
Proof.
  intros Hp Ha Hf Hb Hl Hm Hpk Hr.
  destruct (auth_obj_compute_spec a k m msg len res Ha Hf Hb Hl Hm Hr) as (a' & E & H).
  exists a'. split; [|done]. unfold call_auth_compute. step.
  eapply runs_bind; [eapply (runs_on_packet w pre); [done|done|by rewrite E]|cbv beta iota].
  step. apply runs_ret.
Qed.

Lemma runs_call_auth_tag w p a k m msg len tmp :
  auths w !! p = Some a → auth_obj_absorbed a k m → auth_fits a → is_bytes msg →
  0 <= len <= Z.of_nat (length msg) → Z.of_nat (length m) + len < 2 ^ 28 → length tmp = 12%nat →
  ∃ a', runs (call_auth_tag p msg len tmp) w
      (inr (err_status_ok, obj_tag a k (m ++ take (Z.to_nat len) msg) ++
                           drop (Z.to_nat (auth_obj_tag_length a)) tmp))
      (put_auths (<[p := a']> (auths w)) w) ∧
    auth_shape a' = auth_shape a ∧ auth_obj_keyed a' k.
Proof.
  intros Hp Ha Hf Hb Hl Hm Ht.
  destruct (auth_obj_compute_spec a k m msg len tmp Ha Hf Hb Hl Hm) as (a' & E & H).
  { destruct Hf as [_ Hf]. destruct (auth_obj_type a); lia. }
  exists a'. split; [|done]. unfold call_auth_tag. step. step by runs_lift. step. apply runs_ret.
Qed.

Lemma runs_check_direction w ctx p s dir :
  streams w !! p = Some s → direction s = dir ∨ direction s = dir_unknown →
  runs (check_direction ctx p dir) w (inr tt)
    (put_streams (<[p := set_direction dir s]> (streams w)) w).
Proof.
  intros Hp Hd. unfold check_direction. step. case_decide as Hs.
  - rewrite insert_id; [by destruct w|]. rewrite Hp. f_equal. destruct s. simpl in *. by subst.
  - rewrite decide_True by (by destruct Hd). by apply runs_set_stream.
Qed.

Lemma runs_update_limit w ctx p s l l' :
  streams w !! p = Some s → limits w !! limit s = Some l →
  key_limit_update l = (key_event_normal, l') →
  runs (update_limit ctx p) w (inr tt) (put_limits (<[limit s := l']> (limits w)) w).
Proof.
  intros Hp Hl Hu. unfold update_limit. step. step. step by runs_lift. rewrite Hu. step.
  apply runs_ret.
Qed.

(** ** The list of streams *)

(** [l] are the pointers of the linked list that starts at [p] *)
Fixpoint chain (ss : gmap nat srtp_stream_ctx_t) (p : option nat) (l : list nat) : Prop :=
  match l with
  | [] => p = None
  | q :: l => p = Some q ∧ ∃ s, ss !! q = Some s ∧ chain ss (next s) l
  end.

(** the first stream with an SSRC *)
Definition has_ssrc (ss : gmap nat srtp_stream_ctx_t) (x : Z) (q : nat) : bool :=
  match ss !! q with Some s => bool_decide (ssrc s = x) | None => false end.

Fixpoint find_ssrc (ss : gmap nat srtp_stream_ctx_t) (x : Z) (l : list nat) : option nat :=
  match l with
  | [] => None
  | q :: l => if has_ssrc ss x q then Some q else find_ssrc ss x l
  end.

Lemma chain_unique ss p l l' : chain ss p l → chain ss p l' → l = l'.
Proof.
  revert p l'. induction l as [|q l IH]; intros p [|q' l']; simpl; [done|..].
  - by intros -> [? _].
  - by intros [-> _] ?.
  - intros [-> (s & Hs & Hc)] [[= <-] (s' & Hs' & Hc')]. simplify_eq. f_equal. by eapply IH.
Qed.

Lemma chain_suffix ss p l1 q l2 : chain ss p (l1 ++ q :: l2) → chain ss (Some q) (q :: l2).
Proof.
  revert p. induction l1 as [|x l1 IH]; intros p; simpl.
  - by intros [-> H].
  - intros [_ (s & _ & Hc)]. by eapply IH.
Qed.

(** a list that ends visits no stream twice *)
Lemma chain_nodup ss p l : chain ss p l → NoDup l.
Proof.
  revert p. induction l as [|q l IH]; intros p Hc; [constructor|].
  constructor; [|destruct Hc as [_ (s & _ & Hc)]; by eapply IH].
  intros (l1 & l2 & El)%list_elem_of_split.
  assert (chain ss (Some q) (q :: l)) as H1 by (by destruct Hc as [-> Hc]).
  assert (chain ss (Some q) (q :: l2)) as H2.
  { apply (chain_suffix ss p (q :: l1)). cbn [app]. by rewrite <-El. }
  pose proof (chain_unique _ _ _ _ H1 H2) as E. apply (f_equal length) in E.
  rewrite El in E. simpl in E. rewrite length_app in E. simpl in E. lia.
Qed.

Lemma chain_in ss p l q : chain ss p l → q ∈ l → is_Some (ss !! q).
Proof.
  revert p. induction l as [|x l IH]; intros p Hc; [by intros ?%elem_of_nil|].
  destruct Hc as [_ (s & Hs & Hc)]. rewrite elem_of_cons. intros [->|Hq]; [by eexists|by eapply IH].
Qed.

Lemma chain_length ss p l : chain ss p l → (length l <= size ss)%nat.
Proof.
  intros Hc. pose proof (chain_nodup _ _ _ Hc) as Hn.
  assert (list_to_set l ⊆ dom ss) as Hs.
  { intros q. rewrite elem_of_list_to_set, elem_of_dom. by eapply chain_in. }
  apply subseteq_size in Hs. by rewrite size_list_to_set, size_dom in Hs.
Qed.

Lemma find_ssrc_in ss x l q : find_ssrc ss x l = Some q → q ∈ l ∧ ∃ s, ss !! q = Some s ∧ ssrc s = x.
Proof.
  induction l as [|q' l IH]; [done|]. simpl. unfold has_ssrc.
  destruct (ss !! q') as [s|] eqn:Es; [case_bool_decide|].
  - intros [= <-]. split; [by left|eauto].
  - intros [? ?]%IH. split; [by right|done].
  - intros [? ?]%IH. split; [by right|done].
Qed.

Lemma walk_chain w p l x fuel :
  chain (streams w) p l → (length l <= fuel)%nat →
  runs (walk fuel p x) w (inr (find_ssrc (streams w) x l)) w.
Proof.
  revert p fuel. induction l as [|q l IH]; intros p fuel Hc Hf.
  - simpl in Hc. subst. by destruct fuel.
  - destruct Hc as [-> (s & Hs & Hc)].
    destruct fuel as [|fuel]; [simpl in Hf; lia|]. cbn [walk]. step.
    simpl. unfold has_ssrc at 1. rewrite Hs. case_decide as He; [by rewrite bool_decide_true|].
    rewrite bool_decide_false by done. apply IH; [done|simpl in Hf; lia].
Qed.

Lemma runs_get_stream_list w c ctx l x :
  sessions w !! c = Some ctx → chain (streams w) (stream_list ctx) l →
  runs (srtp_get_stream c x) w (inr (find_ssrc (streams w) x l)) w.
Proof.
  intros Hc Hl. unfold srtp_get_stream. step. step. apply walk_chain; [done|].
  by eapply chain_length.
Qed.

(** the list does not depend on what changes in the streams but their links *)
Lemma chain_insert ss p l q s s' :
  chain ss p l → ss !! q = Some s → next s' = next s → chain (<[q := s']> ss) p l.
Proof.
  revert p. induction l as [|x l IH]; intros p; [done|]. intros [-> (t & Ht & Hc)] Hq Hn.
  split; [done|]. destruct (decide (x = q)) as [->|Hne].
  - simplify_eq. exists s'. rewrite lookup_insert_eq, Hn. split; [done|by apply IH].
  - exists t. rewrite lookup_insert_ne by done. split; [done|by apply IH].
Qed.

Lemma chain_insert_new ss p l q s' : chain ss p l → ss !! q = None → chain (<[q := s']> ss) p l.
Proof.
  revert p. induction l as [|x l IH]; intros p; [done|]. intros [-> (t & Ht & Hc)] Hq.
  split; [done|]. exists t. rewrite lookup_insert_ne by naive_solver. split; [done|by apply IH].
Qed.
