(* ===== verification/SrtpPacket.v ===== *)
(** * SRTP: protected packets

    What [srtp_protect] and [srtp_unprotect] do to a packet and to the heap, and
    the properties of RTP protection: the packet format of RFC 3711, the way back,
    replayed and forged packets. *)

From stdpp Require Import gmap strings.
From S2P Require Import Prelude Datatypes Replay KeyLimit Sha1 Hmac Cipher Aes AesIcm AesCbc.
From S2P Require Import CryptoKernel Rfc3711 Srtp SrtpObjects.
Import Rdb Rdbx.

#[local] Opaque AesSpec.cipher AesSpec.key_expansion Hmac.HMAC.

(** ** Views of the heap *)

(** the heap [w] with other streams, ciphers, authentication functions, limits and
    another packet *)
Definition heap (w : world) st ci au li (pk : list Z) (n : Z) : world :=
  mk_world (kernel w) ci au li st (sessions w) (brk w) (mem w) (stack w) (stack_icm w)
    (srtp_event_handler w) (events w) pk n.

(** a stream with its objects, keyed for RTP with [k] and [ka] *)
Record rtp_stream (w : world) (p : nat) (s : srtp_stream_ctx_t) (o : cipher_obj) (a : auth_obj)
    (l : key_limit_ctx_t) (k ka : list Z) : Prop := {
  rs_stream : streams w !! p = Some s;
  rs_cipher : ciphers w !! rtp_cipher s = Some o;
  rs_auth : auths w !! rtp_auth s = Some a;
  rs_limit : limits w !! limit s = Some l;
  rs_keyed : obj_keyed o k;
  rs_auth_keyed : auth_obj_keyed a ka;
  rs_fits : auth_fits a }.

(** a session whose list holds the stream [p] for an SSRC *)
Definition has_stream (w : world) (c : nat) (x : Z) (p : nat) : Prop :=
  ∃ ctx l, sessions w !! c = Some ctx ∧ chain (streams w) (stream_list ctx) l ∧
    find_ssrc (streams w) x l = Some p.

(** the packet of the caller: header (with sources and extension), payload, and
    the room behind it *)
Record rtp_packet (w : world) (hdr body room : list Z) : Prop := {
  rp_packet : packet w = hdr ++ body ++ room;
  rp_len : pkt_octet_len w = Z.of_nat (length (hdr ++ body));
  rp_bytes : is_bytes (hdr ++ body ++ room);
  rp_start : enc_start_of hdr = Some (Z.of_nat (length hdr));
  rp_body : Z.of_nat (length body) <= max_keystream }.

(** the database accepts the sequence number as index [est], and becomes [r'] *)
Definition accepts (r : rdbx_t) (seq est : Z) (r' : rdbx_t) : Prop :=
  ∃ delta st, rdbx_estimate_index r seq = (est, delta) ∧
    rdbx_check r delta = Some err_status_ok ∧ rdbx_add_index r delta = Some (st, r').

Definition conf_on (services : Z) : bool := bool_decide (services & sec_serv_conf ≠ 0).
Definition auth_on (services : Z) : bool := bool_decide (services & sec_serv_auth ≠ 0).

(** ** The format: the payload with the keystream, and the tag *)

Definition protected_body (services : Z) (o : cipher_obj) (k : list Z) (hdr body : list Z) (est : Z)
  : list Z :=
  if conf_on services
  then xor_stream (type_octet (obj_type o) k (rtp_iv o (pkt_ssrc hdr) est)) 0 body
  else body.

Definition packet_tag (services : Z) (a : auth_obj) (ka : list Z) (m : list Z) (est : Z) : list Z :=
  if auth_on services then obj_tag a ka (m ++ take 4 (est_octets est)) else [].

(** ** Lemmas on headers *)

Lemma rtp_hdr_long hdr :
  enc_start_of hdr = Some (Z.of_nat (length hdr)) → is_bytes hdr →
  (12 <= length hdr)%nat ∧ Z.of_nat (length hdr) < 2 ^ 20.
Proof.
  intros Hs Hb. unfold enc_start_of in Hs. apply bind_Some in Hs as (b & Hb0 & Hs).
  assert (0 <= (b & 15) <= 15) as Hcc.
  { pose proof (Z.land_ones b 4 ltac:(lia)) as E. change (Z.ones 4) with 15 in E. rewrite E.
    pose proof (Z.mod_pos_bound b (2 ^ 4) ltac:(lia)). lia. }
  unfold uint32s_in_rtp_header in *. case_decide; [|simplify_eq; lia].
  apply bind_Some in Hs as (x & Hx & (y & Hy & Hl%(inj Some))%bind_Some).
  assert (∀ i v, aget hdr i = Some v → is_word 8 v) as Hv.
  { intros i v. unfold aget. destruct (0 <=? i); [|done]. by apply Forall_lookup_1. }
  pose proof (be_val_range [x; y] ltac:(constructor; [by eapply Hv|constructor; [by eapply Hv|constructor]]))
    as Hr. unfold is_word in Hr. change (2 ^ (8 * Z.of_nat (length [x; y]))) with 65536 in Hr. lia.
Qed.

Lemma pkt_ssrc_app hdr x : (12 <= length hdr)%nat → pkt_ssrc (hdr ++ x) = pkt_ssrc hdr.
Proof.
  intros Hl. unfold pkt_ssrc. rewrite drop_app_le, take_app_le by (rewrite ?length_drop; lia). done.
Qed.

Lemma length_protected_body services o k hdr body est :
  length (protected_body services o k hdr body est) = length body.
Proof. unfold protected_body. destruct (conf_on _); [apply length_xor_stream|done]. Qed.

Lemma protected_body_bytes services o k hdr body est :
  obj_keyed o k → is_bytes body → is_bytes (protected_body services o k hdr body est).
Proof.
  intros Hk Hb. unfold protected_body. destruct (conf_on _); [|done].
  apply xor_stream_bytes; [|done]. intros j. by apply type_octet_range.
Qed.

Lemma protected_body_involutive services o k hdr body est :
  protected_body services o k hdr (protected_body services o k hdr body est) est = body.
Proof. unfold protected_body. destruct (conf_on _); [apply xor_stream_involutive|done]. Qed.

Lemma protected_body_shape services o o' k hdr body est :
  obj_shape o' = obj_shape o → protected_body services o' k hdr body est = protected_body services o k hdr body est.
Proof.
  intros Hs. unfold protected_body. rewrite (rtp_iv_shape _ _ _ _ Hs).
  unfold obj_shape in Hs. by injection Hs as -> _.
Qed.

(** ** srtp_protect *)

Lemma runs_sender_found w c p hdr x :
  packet w = hdr ++ x → (12 <= length hdr)%nat → has_stream w c (pkt_ssrc hdr) p →
  runs (rtp_sender_stream c) w (inr p) w.
Proof.
  intros Hp Hl (ctx & l & Hc & Hch & Hf). unfold rtp_sender_stream. step.
  step by runs_get_stream_list. rewrite Hf. apply runs_ret.
Qed.

(** the optional parts of the processing *)
Lemma runs_start_if (conf : bool) w hdr x n :
  packet w = hdr ++ x → enc_start_of hdr = Some n →
  runs (if conf then rtp_enc_start else mret 0) w (inr (if conf then n else 0)) w.
Proof. intros Hp Hn. destruct conf; eauto with runs. Qed.

Lemma runs_encrypt_if (conf : bool) w c o k iv hdr body rest start len :
  ciphers w !! c = Some o → obj_at o k iv 0 → packet w = hdr ++ body ++ rest →
  is_bytes (body ++ rest) → Z.of_nat (length body) <= max_keystream →
  (conf = true → start = Z.of_nat (length hdr) ∧ len = Z.of_nat (length body)) →
  ∃ o', runs (if conf then
                status ← call_encrypt c start len;
                check_as err_status_cipher_fail status
              else mret tt) w (inr tt)
      (put_ciphers (<[c := o']> (ciphers w))
        (put_packet (hdr ++ (if conf then xor_stream (type_octet (obj_type o) k iv) 0 body else body)
                     ++ rest) w)) ∧
    obj_shape o' = obj_shape o ∧ obj_keyed o' k.
Proof.
  intros Hc Ha Hp Hb Hm Hstart. destruct conf.
  - destruct Hstart as [-> ->]; [done|].
    destruct (runs_call_encrypt w c o k iv 0 hdr body rest Hc Ha Hp Hb Hm) as (o' & Hr & Hs & H).
    exists o'. split; [|split; [done|by eapply obj_at_keyed]]. step by Hr. apply runs_check_as_ok.
  - exists o. rewrite insert_id, <-Hp by done. split; [|split; [done|by eapply obj_at_keyed]].
    by destruct w.
Qed.

Lemma runs_prefix_if (auth : bool) w a c len :
  auth_fits a →
  runs (if auth then
          let prefix_len := auth_obj_prefix_length a in
          if decide (prefix_len ≠ 0) then
            status ← call_output c len prefix_len; check_as err_status_cipher_fail status
          else mret tt
        else mret tt) w (inr tt) w.
Proof. intros [-> _]. by destruct auth. Qed.

Lemma runs_tag_if (auth : bool) w p a ka m room est len tag_len :
  auths w !! p = Some a → auth_obj_keyed a ka → auth_fits a → packet w = m ++ room →
  is_bytes (m ++ room) → Z.of_nat (length m) < 2 ^ 27 →
  auth_obj_tag_length a <= Z.of_nat (length room) →
  len = Z.of_nat (length m) → pkt_octet_len w = len → tag_len = auth_obj_tag_length a →
  let tag := if auth then obj_tag a ka (m ++ take 4 (est_octets est)) else [] in
  ∃ a', runs (if auth then
      status ← call_auth_start p; check status;;
      status ← call_auth_update p len; check status;;
      status ← call_auth_compute p (est_octets est) 4 len;
      check_as err_status_auth_fail status;;
      modify (put_len (len + tag_len))
    else mret tt) w (inr tt)
      (put_auths (<[p := a']> (auths w)) (put_packet (m ++ tag ++ drop (length tag) room)
        (put_len (Z.of_nat (length (m ++ tag))) w))) ∧
    auth_shape a' = auth_shape a ∧ auth_obj_keyed a' ka.
Proof.
  intros Ha Hka Hf Hp Hb Hm Hr -> Hlen -> tag. destruct auth.
  - pose proof Hf as [_ Ht].
    destruct (runs_call_auth_start w p a ka Ha Hka) as (a1 & R1 & S1 & A1).
    set (w1 := put_auths _ w) in R1.
    destruct (runs_call_auth_update w1 p a1 ka [] (Z.of_nat (length m))) as (a2 & R2 & S2 & A2);
      [apply lookup_insert_eq|done|by cbn; rewrite Hp|cbn; rewrite Hp, length_app; lia|].
    set (w2 := put_auths _ w1) in R2. cbn [packet w1 put_auths app] in A2.
    rewrite Nat2Z.id, Hp, take_app_length in A2.
    assert (auth_shape a2 = auth_shape a) as S3 by congruence.
    destruct (runs_call_auth_compute w2 p a2 ka m (est_octets est) 4 m room) as (a3 & R3 & S4 & A3).
    { apply lookup_insert_eq. }
    { done. }
    { by eapply auth_shape_fits. }
    { apply est_octets_bytes. }
    { rewrite length_est_octets. lia. }
    { lia. }
    { done. }
    { unfold auth_shape in S3. injection S3 as _ _ -> _. done. }
    rewrite (auth_shape_tag _ _ _ _ S3) in R3.
    assert (auth_obj_tag_length a2 = auth_obj_tag_length a) as E2
      by (by unfold auth_shape in S3; injection S3 as _ _ -> _).
    change (take (Z.to_nat 4) (est_octets est)) with (take 4 (est_octets est)) in R3.
    fold tag in R3. rewrite E2 in R3.
    assert (Z.of_nat (length tag) = auth_obj_tag_length a) as Lt by (by apply length_obj_tag).
    exists a3. split; [|split; [congruence|done]].
    step by R1. step. step by R2. step. step by R3. step.
    unfold runs, modify, w2, w1. cbn. rewrite !insert_insert_eq, length_app, Nat2Z.inj_add, Lt.
    by replace (Z.to_nat (auth_obj_tag_length a)) with (length tag) by lia.
  - exists a. unfold tag. change ([] ++ drop (length []) room) with room.
    rewrite app_nil_r, insert_id, <-Hp, <-Hlen by done. split; [|done]. by destruct w.
Qed.

Lemma protect_spec w c p s o a l l' k ka hdr body room est r' :
  has_stream w c (pkt_ssrc hdr) p → rtp_stream w p s o a l k ka → rtp_packet w hdr body room →
  direction s = dir_srtp_sender ∨ direction s = dir_unknown →
  key_limit_update l = (key_event_normal, l') →
  accepts (rtp_rdbx s) (pkt_seq hdr) est r' →
  auth_obj_tag_length a <= Z.of_nat (length room) →
  returns (srtp_protect c) w (λ _ w',
    let body' := protected_body (rtp_services s) o k hdr body est in
    let tag := packet_tag (rtp_services s) a ka (hdr ++ body') est in
    ∃ o' a', w' = heap w (<[p := set_rtp_rdbx r' (set_direction dir_srtp_sender s)]> (streams w))
         (<[rtp_cipher s := o']> (ciphers w)) (<[rtp_auth s := a']> (auths w))
         (<[limit s := l']> (limits w)) (hdr ++ body' ++ tag ++ drop (length tag) room)
         (Z.of_nat (length (hdr ++ body' ++ tag))) ∧
    obj_shape o' = obj_shape o ∧ obj_keyed o' k ∧ auth_shape a' = auth_shape a ∧
    auth_obj_keyed a' ka).
Proof.
  intros Hhas [Hs Ho Ha Hl Hk Hka Hf] [Hp Hlen Hb Hst Hbody] Hdir Hlim (delta & st & Hest & Hchk & Hadd)
    Hroom.
  pose proof Hb as [Hbh [Hbb Hbr]%is_bytes_app]%is_bytes_app.
  destruct (rtp_hdr_long hdr Hst Hbh) as [H12 Hhl].
  unfold srtp_protect. step. rewrite Hlen, decide_False
    by (rewrite length_app; unfold octets_in_rtp_header; lia).
  step by runs_sender_found. step by (runs_check_direction w c p).
  set (s1 := set_direction _ s). set (w1 := put_streams _ w).
  assert (streams w1 !! p = Some s1) as Hs1 by apply lookup_insert_eq.
  step by (runs_update_limit w1 c p s1). set (w2 := put_limits _ w1).
  assert (streams w2 !! p = Some s1) as Hs2 by done.
  assert (packet w2 = hdr ++ body ++ room) as Hp2 by done.
  step. assert (auths w2 !! rtp_auth s1 = Some a) as Ha2 by done. step.
  fold (conf_on (rtp_services s1)). fold (auth_on (rtp_services s1)).
  step by runs_start_if. set (start := if conf_on _ then _ else 0).
  step by (runs_hdr_seq w2 hdr). change (rtp_rdbx s1) with (rtp_rdbx s). rewrite Hest.
  step. step. step. step. set (w3 := put_streams _ w2).
  assert (packet w3 = hdr ++ body ++ room) as Hp3 by done.
  assert (ciphers w3 !! rtp_cipher s1 = Some o) as Ho3 by done.
  step by (runs_hdr_ssrc w3 hdr). step.
  destruct (runs_call_set_iv w3 _ o k _ Ho3 Hk (rtp_iv_ok o (pkt_ssrc hdr) est)) as (o1 & R1 & S1 & A1).
  step by R1. step. set (w4 := put_ciphers _ w3).
  step by runs_prefix_if.
  destruct (runs_encrypt_if (conf_on (rtp_services s1)) w4 (rtp_cipher s1) o1 k _ hdr body room start
    (u32 (Z.of_nat (length (hdr ++ body)) - start)) (lookup_insert_eq _ _ _) A1 Hp3)
    as (o2 & R2 & S2 & K2); [by apply is_bytes_app|done| |].
  { intros Hc. unfold start. rewrite Hc. split; [done|]. rewrite length_app, wrap_small;
      unfold is_word, max_keystream in *; lia. }
  step by R2. set (w5 := put_ciphers _ _).
  assert (packet w5 = (hdr ++ protected_body (rtp_services s) o k hdr body est) ++ room) as Hp5.
  { rewrite <-app_assoc. unfold w5, protected_body. cbn. unfold obj_shape in S1. by injection S1 as -> _. }
  destruct (runs_tag_if (auth_on (rtp_services s1)) w5 (rtp_auth s1) a ka _ room est
    (Z.of_nat (length (hdr ++ body))) (auth_obj_tag_length a) Ha2 Hka Hf Hp5) as (a2 & R3 & S3 & K3).
  { apply is_bytes_app; split; [apply is_bytes_app; split|]; [done| |done].
    by apply protected_body_bytes. }
  { rewrite length_app, length_protected_body. unfold max_keystream in *. lia. }
  { done. }
  { by rewrite !length_app, length_protected_body. }
  { done. }
  { done. }
  eapply returns_intro; [exact R3|]. exists o2, a2.
  split; [|split_and!; congruence || done].
  fold (packet_tag (rtp_services s1) a ka (hdr ++ protected_body (rtp_services s) o k hdr body est) est).
  unfold heap, w5, w4, w3, w2, w1. cbn. rewrite !insert_insert_eq, <-!app_assoc. done.
Qed.

(** ** srtp_unprotect *)

(** a received packet: header, payload, tag and what follows *)
Record srtp_packet (w : world) (hdr body tag room : list Z) : Prop := {
  sp_packet : packet w = hdr ++ body ++ tag ++ room;
  sp_len : pkt_octet_len w = Z.of_nat (length (hdr ++ body ++ tag));
  sp_bytes : is_bytes (hdr ++ body ++ tag ++ room);
  sp_start : enc_start_of hdr = Some (Z.of_nat (length hdr));
  sp_body : Z.of_nat (length body) <= max_keystream }.

Definition not_template (w : world) (c p : nat) : Prop :=
  ∃ ctx, sessions w !! c = Some ctx ∧ stream_template ctx ≠ Some p.

Lemma runs_check_tag w m tag room tmp off n :
  packet w = m ++ tag ++ room → off = Z.of_nat (length m) → n = Z.of_nat (length tag) →
  (length tag <= length tmp)%nat →
  runs (check_tag tmp off n) w
    (if decide (take (length tag) tmp = tag) then inr tt else inl err_status_auth_fail) w.
Proof.
  intros Hp -> -> Hl. unfold check_tag. step. rewrite decide_False by lia.
  rewrite Nat2Z.id, Hp, drop_app_length.
  rewrite octet_string_is_eq_spec by (rewrite ?length_app; lia). step.
  rewrite Nat2Z.id, take_app_length. by destruct (decide (take (length tag) tmp = tag)).
Qed.

(** the tag is compared: the packet passes exactly when it is the right one *)
Lemma runs_authenticate w s a ka m tag room est :
  auths w !! rtp_auth s = Some a → auth_obj_keyed a ka → auth_fits a →
  packet w = m ++ tag ++ room → is_bytes (m ++ tag ++ room) → Z.of_nat (length m) < 2 ^ 27 →
  Z.of_nat (length tag) = auth_obj_tag_length a → (12 <= length (stack w))%nat →
  ∃ a', runs (rtp_authenticate s a est (Z.of_nat (length (m ++ tag))) (auth_obj_tag_length a)) w
      (if decide (tag = obj_tag a ka (m ++ take 4 (est_octets est)))
       then inr tt else inl err_status_auth_fail)
      (put_auths (<[rtp_auth s := a']> (auths w)) w) ∧
    auth_shape a' = auth_shape a ∧ auth_obj_keyed a' ka.
Proof.
  intros Ha Hka Hf Hp Hb Hm Ht Hst. pose proof Hf as [Hpre Htl].
  assert (Z.of_nat (length (m ++ tag)) - auth_obj_tag_length a = Z.of_nat (length m)) as El
    by (rewrite length_app; lia).
  destruct (runs_call_auth_start w (rtp_auth s) a ka Ha Hka) as (a1 & R1 & S1 & A1).
  set (w1 := put_auths _ w) in R1.
  destruct (runs_call_auth_update w1 (rtp_auth s) a1 ka [] (Z.of_nat (length m))) as (a2 & R2 & S2 & A2);
    [apply lookup_insert_eq|done|by cbn; rewrite Hp|cbn; rewrite Hp, length_app; lia|].
  set (w2 := put_auths _ w1) in R2. cbn [packet w1 put_auths app] in A2.
  rewrite Nat2Z.id, Hp, take_app_length in A2.
  assert (auth_shape a2 = auth_shape a) as S3 by congruence.
  set (tmp := take 12 (stack w)).
  destruct (runs_call_auth_tag w2 (rtp_auth s) a2 ka m (est_octets est) 4 tmp) as (a3 & R3 & S4 & K3).
  { apply lookup_insert_eq. }
  { done. }
  { by eapply auth_shape_fits. }
  { apply est_octets_bytes. }
  { rewrite length_est_octets. lia. }
  { lia. }
  { unfold tmp. rewrite length_take. lia. }
  change (take (Z.to_nat 4) (est_octets est)) with (take 4 (est_octets est)) in R3.
  rewrite (auth_shape_tag _ _ _ _ S3) in R3.
  set (good := obj_tag a ka _) in *.
  assert (Z.of_nat (length good) = auth_obj_tag_length a) as Lg by (by apply length_obj_tag).
  exists a3. split; [|split; [congruence|done]]. unfold rtp_authenticate. step.
  step_with ltac:(rewrite decide_False by tauto; apply runs_ret).
  rewrite El. step by R1. step. step by R2. step by R3. step.
  set (w3 := put_auths _ w2).
  assert (w3 = put_auths (<[rtp_auth s := a3]> (auths w)) w) as <-.
  { unfold w3, w2, w1. cbn. by rewrite !insert_insert_eq. }
  assert (length tag = length good) as Lt by lia.
  pose proof (runs_check_tag w3 m tag room (good ++ drop (Z.to_nat (auth_obj_tag_length a2)) tmp)
    (Z.of_nat (length m)) (auth_obj_tag_length a) Hp eq_refl (eq_sym Ht)) as R4.
  rewrite Lt, take_app_length, length_app in R4. specialize (R4 ltac:(lia)).
  destruct (decide (tag = good)) as [E|E].
  - by rewrite decide_True in R4.
  - by rewrite decide_False in R4 by done.
Qed.

Lemma runs_receiver_found w c p s hdr x est delta :
  packet w = hdr ++ x → (12 <= length hdr)%nat → has_stream w c (pkt_ssrc hdr) p →
  streams w !! p = Some s → rdbx_estimate_index (rtp_rdbx s) (pkt_seq hdr) = (est, delta) →
  rdbx_check (rtp_rdbx s) delta = Some err_status_ok →
  runs (rtp_receiver_stream c) w (inr (p, est, delta)) w.
Proof.
  intros Hp Hl (ctx & l & Hc & Hch & Hf) Hs He Hk. unfold rtp_receiver_stream. step.
  step by runs_get_stream_list. rewrite Hf. step. step. rewrite He. step. step. apply runs_ret.
Qed.

(** a replayed packet stops there, whatever its tag *)
Lemma receiver_refuses w c p s hdr x est delta e :
  packet w = hdr ++ x → (12 <= length hdr)%nat → has_stream w c (pkt_ssrc hdr) p →
  streams w !! p = Some s → rdbx_estimate_index (rtp_rdbx s) (pkt_seq hdr) = (est, delta) →
  rdbx_check (rtp_rdbx s) delta = Some e → e ≠ err_status_ok →
  runs (rtp_receiver_stream c) w (inl e) w.
Proof.
  intros Hp Hl (ctx & l & Hc & Hch & Hf) Hs He Hk Hne. unfold rtp_receiver_stream. step.
  step by runs_get_stream_list. rewrite Hf. step. step. rewrite He. step.
  apply runs_bind_err. by apply runs_check_err.
Qed.

Lemma runs_settle_listed w c p x : not_template w c p → runs (settle_stream c p x) w (inr p) w.
Proof.
  intros (ctx & Hc & Ht). unfold settle_stream. step. rewrite decide_False by done. apply runs_ret.
Qed.

(** the steps of [srtp_unprotect] up to the tag, on a stream of the list *)
Tactic Notation "unprotect_front" constr(w) constr(c) constr(p) constr(s) constr(o) constr(k)
    constr(hdr) constr(est) constr(Ho) constr(Hk) constr(Hlen) "as" ident(o1) ident(R1) ident(S1)
    ident(A1) ident(start) :=
  unfold srtp_unprotect; step; rewrite Hlen, decide_False
    by (rewrite length_app; unfold octets_in_rtp_header; lia);
  step by (runs_receiver_found w c p s hdr); step; step; step by (runs_hdr_ssrc w hdr); step;
  destruct (runs_call_set_iv w _ o k _ Ho Hk (rtp_iv_ok o (pkt_ssrc hdr) est))
    as (o1 & R1 & S1 & A1);
  step by R1; step; fold (conf_on (rtp_services s)); fold (auth_on (rtp_services s));
  step by runs_start_if; set (start := if conf_on _ then _ else 0).

(** [srtp_unprotect] once the stream is chosen: the packet passes, and what is left is
    to settle the stream and to record the index *)
Lemma unprotect_passes w c p s o a l l' k ka hdr body tag room est delta :
  runs (rtp_receiver_stream c) w (inr (p, est, delta)) w → rtp_stream w p s o a l k ka →
  srtp_packet w hdr body tag room → (12 <= length (stack w))%nat →
  direction s = dir_srtp_receiver ∨ direction s = dir_unknown →
  key_limit_update l = (key_event_normal, l') →
  Z.of_nat (length tag) = auth_obj_tag_length a →
  (auth_on (rtp_services s) = true → tag = obj_tag a ka ((hdr ++ body) ++ take 4 (est_octets est))) →
  ∃ o' a', obj_shape o' = obj_shape o ∧ obj_keyed o' k ∧ auth_shape a' = auth_shape a ∧
    auth_obj_keyed a' ka ∧
  ∀ Q, returns (stream ← settle_stream c p hdr_ssrc;
                s ← get_stream stream;
                '(_, r) ← lift (rdbx_add_index (rtp_rdbx s) delta);
                set_stream stream (set_rtp_rdbx r);;
                modify (put_len (Z.of_nat (length (hdr ++ body)))))
         (heap w (<[p := set_direction dir_srtp_receiver s]> (streams w))
            (<[rtp_cipher s := o']> (ciphers w)) (<[rtp_auth s := a']> (auths w))
            (<[limit s := l']> (limits w))
            (hdr ++ protected_body (rtp_services s) o k hdr body est ++ tag ++ room) (pkt_octet_len w)) Q →
       returns (srtp_unprotect c) w Q.
Proof.
  intros Hrecv [Hs Ho Ha Hl Hk Hka Hf] [Hp Hlen Hb Hst Hbody] Hstk Hdir Hlim Htl Htag.
  pose proof Hb as [Hbh [Hbb Hbr]%is_bytes_app]%is_bytes_app.
  destruct (rtp_hdr_long hdr Hst Hbh) as [H12 Hhl].
  destruct (runs_call_set_iv w _ o k _ Ho Hk (rtp_iv_ok o (pkt_ssrc hdr) est)) as (o1 & R1 & S1 & A1).
  set (w1 := put_ciphers _ w) in R1.
  assert (∃ a2, runs (if auth_on (rtp_services s) then rtp_authenticate s a est
      (Z.of_nat (length (hdr ++ body ++ tag))) (auth_obj_tag_length a) else mret tt) w1 (inr tt)
      (put_auths (<[rtp_auth s := a2]> (auths w)) w1) ∧ auth_shape a2 = auth_shape a ∧
      auth_obj_keyed a2 ka) as (a2 & R2 & S2 & K2).
  { destruct (auth_on _); [|exists a; rewrite insert_id by done; split; [unfold w1; by destruct w|done]].
    rewrite app_assoc. destruct (runs_authenticate w1 s a ka (hdr ++ body) tag room est) as (a2 & R2 & H2);
      [done..|rewrite <-app_assoc; exact Hp|by rewrite <-app_assoc|
       rewrite length_app; unfold max_keystream in *; lia|done|done|].
    rewrite decide_True in R2 by auto. by exists a2. }
  set (w2 := put_auths _ w1) in R2. set (w3 := put_limits (<[limit s := l']> (limits w2)) w2).
  set (start := if conf_on (rtp_services s) then Z.of_nat (length hdr) else 0).
  destruct (runs_encrypt_if (conf_on (rtp_services s)) w3 (rtp_cipher s) o1 k _ hdr body (tag ++ room)
    start (u32 (Z.of_nat (length (hdr ++ body ++ tag)) - auth_obj_tag_length a - start))
    (lookup_insert_eq _ _ _) A1 Hp) as (o2 & R3 & S3 & K3); [by apply is_bytes_app|done| |].
  { intros Hc. unfold start. rewrite Hc. split; [done|]. rewrite !length_app, wrap_small;
      unfold is_word, max_keystream in *; lia. }
  exists o2, a2. split; [congruence|]. split; [done|]. split; [done|]. split; [done|].
  intros Q HQ. unfold srtp_unprotect. step. rewrite Hlen, decide_False
    by (rewrite length_app; unfold octets_in_rtp_header; lia).
  step by Hrecv. step. step. step by (runs_hdr_ssrc w hdr). step. step by R1. step.
  fold (conf_on (rtp_services s)). fold (auth_on (rtp_services s)).
  step by runs_start_if. fold start. step by R2. step by (runs_update_limit w2 c p s). fold w3.
  step by R3. set (w4 := put_ciphers _ _). step by (runs_check_direction w4 c p s).
  assert (Z.of_nat (length (hdr ++ body ++ tag)) - auth_obj_tag_length a =
    Z.of_nat (length (hdr ++ body))) as -> by (rewrite !length_app; lia).
  assert (protected_body (rtp_services s) o k hdr body est =
    if conf_on (rtp_services s)
    then xor_stream (type_octet (obj_type o1) k (rtp_iv o (pkt_ssrc hdr) est)) 0 body else body) as Eb.
  { unfold protected_body, obj_shape in *. by injection S1 as -> _. }
  match goal with |- returns _ ?v _ => match type of HQ with returns _ ?u _ => assert (v = u) as -> end end;
    [|exact HQ].
  rewrite Eb. unfold heap, w4, w3, w2, w1. cbn. by rewrite !insert_insert_eq.
Qed.

Lemma unprotect_spec w c p s o a l l' k ka hdr body tag room est r' :
  has_stream w c (pkt_ssrc hdr) p → not_template w c p → rtp_stream w p s o a l k ka →
  srtp_packet w hdr body tag room → (12 <= length (stack w))%nat →
  direction s = dir_srtp_receiver ∨ direction s = dir_unknown →
  key_limit_update l = (key_event_normal, l') →
  accepts (rtp_rdbx s) (pkt_seq hdr) est r' →
  Z.of_nat (length tag) = auth_obj_tag_length a →
  (auth_on (rtp_services s) = true → tag = obj_tag a ka ((hdr ++ body) ++ take 4 (est_octets est))) →
  returns (srtp_unprotect c) w (λ _ w',
    ∃ o' a', w' = heap w (<[p := set_rtp_rdbx r' (set_direction dir_srtp_receiver s)]> (streams w))
         (<[rtp_cipher s := o']> (ciphers w)) (<[rtp_auth s := a']> (auths w))
         (<[limit s := l']> (limits w))
         (hdr ++ protected_body (rtp_services s) o k hdr body est ++ tag ++ room)
         (Z.of_nat (length (hdr ++ body))) ∧
    obj_shape o' = obj_shape o ∧ obj_keyed o' k ∧ auth_shape a' = auth_shape a ∧
    auth_obj_keyed a' ka).
Proof.
  intros Hhas Hnt Hst Hpk Hstk Hdir Hlim (delta & st & Hest & Hchk & Hadd) Htl Htag.
  pose proof Hpk as [Hp _ [Bh _]%is_bytes_app Hs _]. destruct (rtp_hdr_long hdr Hs Bh) as [H12 _].
  pose proof (runs_receiver_found w c p s hdr _ est delta Hp H12 Hhas (rs_stream _ _ _ _ _ _ _ _ Hst)
    Hest Hchk) as Hrecv.
  destruct (unprotect_passes w c p s o a l l' k ka hdr body tag room est delta Hrecv Hst Hpk Hstk Hdir
    Hlim Htl Htag) as (o' & a' & S1 & K1 & S2 & K2 & HQ). apply HQ. clear HQ.
  set (w1 := heap _ _ _ _ _ _ _). set (s1 := set_direction _ s) in *.
  step by (runs_settle_listed w1 c p).
  assert (streams w1 !! p = Some s1) as Hs1 by apply lookup_insert_eq. step.
  step by (runs_lift (rdbx_add_index (rtp_rdbx s1) delta)). step.
  eapply returns_intro; [apply runs_modify|]. exists o', a'. split; [|done].
  unfold w1, heap. cbn. by rewrite insert_insert_eq.
Qed.

(** a wrong tag: nothing changes but the working state of the two objects *)
Lemma unprotect_forged w c p s o a l k ka hdr body tag room est r' :
  has_stream w c (pkt_ssrc hdr) p → rtp_stream w p s o a l k ka →
  srtp_packet w hdr body tag room → (12 <= length (stack w))%nat →
  accepts (rtp_rdbx s) (pkt_seq hdr) est r' →
  Z.of_nat (length tag) = auth_obj_tag_length a → auth_on (rtp_services s) = true →
  tag ≠ obj_tag a ka ((hdr ++ body) ++ take 4 (est_octets est)) →
  refuses (srtp_unprotect c) w err_status_auth_fail (λ w',
    ∃ o' a', w' = heap w (streams w) (<[rtp_cipher s := o']> (ciphers w))
         (<[rtp_auth s := a']> (auths w)) (limits w) (packet w) (pkt_octet_len w) ∧
    obj_shape o' = obj_shape o ∧ obj_keyed o' k ∧ auth_shape a' = auth_shape a ∧
    auth_obj_keyed a' ka).
Proof.
  intros Hhas [Hs Ho Ha Hl Hk Hka Hf] [Hp Hlen Hb Hst Hbody] Hstk
    (delta & st & Hest & Hchk & Hadd) Htl Hon Htag.
  pose proof Hb as [Hbh [Hbb Hbr]%is_bytes_app]%is_bytes_app.
  destruct (rtp_hdr_long hdr Hst Hbh) as [H12 Hhl].
  unprotect_front w c p s o k hdr est Ho Hk Hlen as o1 R1 S1 A1 start.
  set (w1 := put_ciphers _ w). rewrite Hon, app_assoc.
  destruct (runs_authenticate w1 s a ka (hdr ++ body) tag room est) as (a2 & R2 & S2 & K2);
    [done..|rewrite <-app_assoc; exact Hp|by rewrite <-app_assoc|
     rewrite length_app; unfold max_keystream in *; lia|done|done|].
  rewrite decide_False in R2 by done. eapply refuses_intro; [by apply runs_bind_err|].
  exists o1, a2. split; [rewrite app_assoc in Hlen; by rewrite <-Hlen|]. split_and!; try done. by eapply obj_at_keyed.
Qed.

(** a packet the database does not accept: nothing changes at all *)
Lemma unprotect_replayed w c p s hdr x est delta e :
  packet w = hdr ++ x → (12 <= length hdr)%nat → pkt_octet_len w >= 12 →
  has_stream w c (pkt_ssrc hdr) p → streams w !! p = Some s →
  rdbx_estimate_index (rtp_rdbx s) (pkt_seq hdr) = (est, delta) →
  rdbx_check (rtp_rdbx s) delta = Some e → e ≠ err_status_ok →
  runs (srtp_unprotect c) w (inl e) w.
Proof.
  intros Hp Hl Hlen Hhas Hs He Hk Hne. unfold srtp_unprotect. step.
  rewrite decide_False by (unfold octets_in_rtp_header; lia). apply runs_bind_err.
  by eapply receiver_refuses.
Qed.

(** ** Properties *)

(** the session keys of a stream: AES-ICM takes the key and the salt from one array *)
Definition rfc_keys (k ka : list Z) : Rfc3711.session_keys :=
  Rfc3711.mk_keys (icm_key k) (take 14 (drop 16 k)) ka.

Lemma le_bytes_word (x : list Z) : is_bytes x → length x = 4%nat → le_bytes 4 (le_val x) = x.
Proof. intros Hb Hl. rewrite <-Hl at 1. by apply le_bytes_le_val. Qed.

Lemma be_val_est est : 0 <= est < 2 ^ 48 → be_val (est_octets est) = est * 2 ^ 16.
Proof.
  intros He. unfold est_octets. rewrite be_val_be_bytes, !Z.shiftl_mul_pow2 by lia.
  change (8 * Z.of_nat 8) with 64. by rewrite wrap_wrap, wrap_small by (unfold is_word; lia).
Qed.

Lemma protected_body_rfc s ci k ka hdr body i :
  icm_key_mem k → is_bytes hdr → (12 <= length hdr)%nat → 0 <= i < 2 ^ 48 → conf_on s = true →
  protected_body s (IcmObj ci) k hdr body i =
    Rfc3711.encrypt (rfc_keys k ka) (be_val (take 4 (drop 8 hdr))) i body.
Proof.
  intros Hk Hb Hl Hi Hc. unfold protected_body, Rfc3711.encrypt, Rfc3711.cm_octet. rewrite Hc.
  cbn [obj_type rfc_keys Rfc3711.k_e Rfc3711.k_s]. unfold type_octet.
  assert (length (take 4 (drop 8 hdr)) = 4%nat) as L4 by (rewrite length_take, length_drop; lia).
  assert (rtp_iv (IcmObj ci) (pkt_ssrc hdr) i =
    le_bytes 4 0 ++ take 4 (drop 8 hdr) ++ est_octets i) as ->.
  { unfold rtp_iv. rewrite decide_True by done. do 2 f_equal. apply le_bytes_word; [by words|done]. }
  by rewrite (icm_iv0_rfc k _ i) by
    (done || by words || apply est_octets_bytes || apply length_est_octets || by apply be_val_est).
Qed.

(** the packet that is made, in the terms of RFC 3711 *)
Lemma protect_rfc w c p s ci ai l l' k ka hdr body room i r' :
  has_stream w c (pkt_ssrc hdr) p → rtp_stream w p s (IcmObj ci) (HmacObj ai) l k ka →
  rtp_packet w hdr body room → rtp_services s = sec_serv_conf_and_auth →
  direction s = dir_srtp_sender ∨ direction s = dir_unknown →
  key_limit_update l = (key_event_normal, l') →
  accepts (rtp_rdbx s) (pkt_seq hdr) i r' → 0 <= i < 2 ^ 48 →
  out_len ai <= Z.of_nat (length room) →
  let n := Z.to_nat (out_len ai) in
  let pkt := Rfc3711.srtp_packet (rfc_keys k ka) n hdr body i in
  ∃ w', srtp_protect c w = Some (inr tt, w') ∧ packet w' = pkt ++ drop n room ∧
    pkt_octet_len w' = Z.of_nat (length pkt) ∧
    streams w' = <[p := set_rtp_rdbx r' (set_direction dir_srtp_sender s)]> (streams w) ∧
    events w' = events w.
Proof.
  intros Hhas Hst Hpk Hsv Hdir Hlim Hacc Hi Hroom n pkt.
  destruct (protect_spec w c p s _ _ l l' k ka hdr body room i r' Hhas Hst Hpk Hdir Hlim Hacc Hroom)
    as (u & w' & Hr & o' & a' & -> & _). destruct u.
  eexists. split; [exact Hr|].
  destruct Hst as [_ _ _ _ [Hk _] _ Hf], Hpk as [_ _ Hb Hs _].
  apply is_bytes_app in Hb as [Hbh _]. destruct (rtp_hdr_long hdr Hs Hbh) as [H12 _].
  set (body' := protected_body _ _ _ _ _ _). set (tag := packet_tag _ _ _ _ _).
  assert (body' = Rfc3711.encrypt (rfc_keys k ka) (be_val (take 4 (drop 8 hdr))) i body) as Eb.
  { unfold body'. rewrite Hsv. by apply protected_body_rfc. }
  assert (Z.of_nat (length tag) = out_len ai) as Lt.
  { unfold tag, packet_tag. rewrite Hsv. by apply length_obj_tag. }
  assert (pkt = hdr ++ body' ++ tag) as ->.
  { unfold pkt, Rfc3711.srtp_packet. rewrite <-Eb, <-app_assoc. do 2 f_equal.
    unfold tag, packet_tag. rewrite Hsv, est_octets_roc, Z.shiftr_div_pow2 by lia.
    by rewrite <-app_assoc. }
  cbn [heap packet pkt_octet_len streams events]. split_and!; [|done..].
  rewrite <-!app_assoc. by replace n with (length tag) by lia.
Qed.

(** C3: on a stream with AES counter mode and HMAC-SHA1 that provides both services,
    [srtp_protect] makes of every RTP packet (with contributing sources and
    extension or without) exactly the SRTP packet of RFC 3711 for the index the
    replay database gives it, behind which the memory is as before; it reports the
    new length, and records the index. *)
Theorem srtp_protect_rfc3711 w c p s ci ai l l' k ka hdr body room i r' :
  has_stream w c (pkt_ssrc hdr) p → rtp_stream w p s (IcmObj ci) (HmacObj ai) l k ka →
  rtp_packet w hdr body room → rtp_services s = sec_serv_conf_and_auth →
  direction s = dir_srtp_sender ∨ direction s = dir_unknown →
  key_limit_update l = (key_event_normal, l') →
  accepts (rtp_rdbx s) (pkt_seq hdr) i r' → 0 <= i < 2 ^ 48 →
  out_len ai <= Z.of_nat (length room) →
  let n := Z.to_nat (out_len ai) in
  let pkt := Rfc3711.srtp_packet (rfc_keys k ka) n hdr body i in
  ∃ w', srtp_protect c w = Some (inr tt, w') ∧ packet w' = pkt ++ drop n room ∧
    pkt_octet_len w' = Z.of_nat (length pkt) ∧
    streams w' = <[p := set_rtp_rdbx r' (set_direction dir_srtp_sender s)]> (streams w) ∧
    events w' = events w.
Proof. apply protect_rfc. Qed.

Lemma obj_tag_types a a' k m :
  auth_obj_type a' = auth_obj_type a → auth_obj_tag_length a' = auth_obj_tag_length a →
  obj_tag a' k m = obj_tag a k m.
Proof. unfold obj_tag. by intros -> ->. Qed.

Lemma protected_body_type services o o' k hdr body est :
  obj_type o' = obj_type o →
  protected_body services o' k hdr body est = protected_body services o k hdr body est.
Proof. intros Ht. unfold protected_body, rtp_iv. by rewrite Ht. Qed.

(** two streams that are the ends of one connection *)
Record peers (s s' : srtp_stream_ctx_t) (o o' : cipher_obj) (a a' : auth_obj) : Prop := {
  peer_services : rtp_services s' = rtp_services s;
  peer_cipher : obj_type o' = obj_type o;
  peer_auth : auth_obj_type a' = auth_obj_type a;
  peer_tag : auth_obj_tag_length a' = auth_obj_tag_length a }.

(** from one end of a connection to the other *)
Lemma roundtrip_spec w c p s o a l l1 k ka hdr body room i r1 :
  has_stream w c (pkt_ssrc hdr) p → rtp_stream w p s o a l k ka → rtp_packet w hdr body room →
  direction s = dir_srtp_sender ∨ direction s = dir_unknown →
  key_limit_update l = (key_event_normal, l1) →
  accepts (rtp_rdbx s) (pkt_seq hdr) i r1 → auth_obj_tag_length a <= Z.of_nat (length room) →
  auth_on (rtp_services s) = true ∨ auth_obj_tag_length a = 0 →
  ∃ w', srtp_protect c w = Some (inr tt, w') ∧
  ∀ v c' p' s' o' a' m m1 r2,
    packet v = packet w' → pkt_octet_len v = pkt_octet_len w' →
    has_stream v c' (pkt_ssrc hdr) p' → not_template v c' p' → rtp_stream v p' s' o' a' m k ka →
    peers s s' o o' a a' → (12 <= length (stack v))%nat →
    direction s' = dir_srtp_receiver ∨ direction s' = dir_unknown →
    key_limit_update m = (key_event_normal, m1) → accepts (rtp_rdbx s') (pkt_seq hdr) i r2 →
    ∃ v', srtp_unprotect c' v = Some (inr tt, v') ∧
      pkt_octet_len v' = pkt_octet_len w ∧
      take (Z.to_nat (pkt_octet_len w)) (packet v') = hdr ++ body.
Proof.
  intros Hhas Hst Hpk Hdir Hlim Hacc Hroom Hon.
  destruct (protect_spec w c p s o a l l1 k ka hdr body room i r1 Hhas Hst Hpk Hdir Hlim Hacc Hroom)
    as ([] & w' & Hr & o1 & a1 & -> & _). eexists. split; [exact Hr|].
  intros v c' p' s' o' a' m m1 r2 Hpv Hlv Hhas' Hnt Hst' [P1 P2 P3 P4] Hstk Hdir' Hlim' Hacc'.
  cbn [heap packet pkt_octet_len] in Hpv, Hlv.
  set (body' := protected_body _ _ _ _ _ _) in *. set (tag := packet_tag _ _ _ _ _) in *.
  assert (Z.of_nat (length tag) = auth_obj_tag_length a) as Lt.
  { unfold tag, packet_tag. destruct (auth_on (rtp_services s)); [by apply length_obj_tag, Hst|].
    destruct Hon as [|]; [done|simpl; lia]. }
  pose proof Hst as [_ _ _ _ Hk _ _]. destruct Hpk as [Hp Hlen Hb Hs Hbl].
  assert (length body' = length body) as Lb by apply length_protected_body.
  apply is_bytes_app in Hb as [Bh [Bb Br]%is_bytes_app].
  destruct (unprotect_spec v c' p' s' o' a' m m1 k ka hdr body' tag (drop (length tag) room) i r2)
    as ([] & v' & Hr' & o2 & a2 & -> & _); try done.
  { split; [done|done| |done|lia]. apply is_bytes_app; split; [done|].
    apply is_bytes_app; split; [by apply protected_body_bytes|].
    apply is_bytes_app; split; [|by words]. unfold tag, packet_tag.
    destruct (auth_on _); [apply obj_tag_bytes|constructor]. }
  { lia. }
  { rewrite P1. intros Ha. rewrite (obj_tag_types a a') by done. unfold tag, packet_tag.
    by rewrite Ha. }
  eexists. split; [exact Hr'|]. cbn [heap packet pkt_octet_len].
  rewrite P1, (protected_body_type _ o o') by done. unfold body' at 2.
  rewrite protected_body_involutive, Hlen, !length_app, Lb. split; [done|].
  rewrite Nat2Z.id, <-length_app, app_assoc, take_app_length. done.
Qed.

(** C4: what [srtp_protect] sends, [srtp_unprotect] of a peer with the same keys
    gives back: on streams with AES counter mode or no cipher, with HMAC-SHA1 and a tag
    of at most 12 octets or with no authentication and an empty tag, for every packet
    of at most 65535 octets of payload with room for the tag: when both databases
    accept the sequence number with the same index and no key limit is reached, the
    receiver accepts the packet, and header, payload and length are those the sender
    started with. *)
Theorem srtp_roundtrip w c p s o a l l1 k ka hdr body room i r1 :
  has_stream w c (pkt_ssrc hdr) p → rtp_stream w p s o a l k ka → rtp_packet w hdr body room →
  direction s = dir_srtp_sender ∨ direction s = dir_unknown →
  key_limit_update l = (key_event_normal, l1) →
  accepts (rtp_rdbx s) (pkt_seq hdr) i r1 → auth_obj_tag_length a <= Z.of_nat (length room) →
  auth_on (rtp_services s) = true ∨ auth_obj_tag_length a = 0 →
  ∃ w', srtp_protect c w = Some (inr tt, w') ∧
  ∀ v c' p' s' o' a' m m1 r2,
    packet v = packet w' → pkt_octet_len v = pkt_octet_len w' →
    has_stream v c' (pkt_ssrc hdr) p' → not_template v c' p' → rtp_stream v p' s' o' a' m k ka →
    peers s s' o o' a a' → (12 <= length (stack v))%nat →
    direction s' = dir_srtp_receiver ∨ direction s' = dir_unknown →
    key_limit_update m = (key_event_normal, m1) → accepts (rtp_rdbx s') (pkt_seq hdr) i r2 →
    ∃ v', srtp_unprotect c' v = Some (inr tt, v') ∧
      pkt_octet_len v' = pkt_octet_len w ∧
      take (Z.to_nat (pkt_octet_len w)) (packet v') = hdr ++ body.
Proof. apply roundtrip_spec. Qed.

(** where a stream is found does not depend on its database or direction *)
Lemma find_ssrc_insert ss x l q s s' :
  ss !! q = Some s → ssrc s' = ssrc s → find_ssrc (<[q := s']> ss) x l = find_ssrc ss x l.
Proof.
  intros Hq Hs. induction l as [|y l IH]; [done|]. simpl. rewrite IH.
  assert (has_ssrc (<[q := s']> ss) x y = has_ssrc ss x y) as ->; [|done].
  unfold has_ssrc. destruct (decide (y = q)) as [->|Hne].
  - by rewrite lookup_insert_eq, Hq, Hs.
  - by rewrite lookup_insert_ne.
Qed.

Lemma has_stream_update w w' c x p q s s' :
  has_stream w c x p → streams w !! q = Some s → streams w' = <[q := s']> (streams w) →
  sessions w' = sessions w → ssrc s' = ssrc s → next s' = next s → has_stream w' c x p.
Proof.
  intros (ctx & l & Hc & Hch & Hf) Hq Hss Hse Hs Hn. exists ctx, l. rewrite Hss, Hse.
  split_and!; [done|by eapply chain_insert|by erewrite find_ssrc_insert].
Qed.

(** C13: a packet that was received once, ahead of all others, is refused when it is
    received again: [srtp_unprotect] of the same octets returns
    [err_status_replay_fail] and changes nothing. *)
Theorem srtp_replay_refused w c p s o a l l' k ka hdr body tag room i r' :
  has_stream w c (pkt_ssrc hdr) p → not_template w c p → rtp_stream w p s o a l k ka →
  srtp_packet w hdr body tag room → (12 <= length (stack w))%nat →
  direction s = dir_srtp_receiver ∨ direction s = dir_unknown →
  key_limit_update l = (key_event_normal, l') →
  accepts (rtp_rdbx s) (pkt_seq hdr) i r' → rdbx_wf (rtp_rdbx s) →
  is_word 48 (index (rtp_rdbx s)) → index (rtp_rdbx s) < i < 2 ^ 48 →
  Z.of_nat (length tag) = auth_obj_tag_length a →
  (auth_on (rtp_services s) = true → tag = obj_tag a ka ((hdr ++ body) ++ take 4 (est_octets i))) →
  ∃ w', srtp_unprotect c w = Some (inr tt, w') ∧
    let again := put_packet (packet w) (put_len (pkt_octet_len w) w') in
    srtp_unprotect c again = Some (inl err_status_replay_fail, again).
Proof.
  intros Hhas Hnt Hst Hpk Hstk Hdir Hlim Hacc Hwf Hix Hlt Htl Htag.
  destruct (unprotect_spec w c p s o a l l' k ka hdr body tag room i r' Hhas Hnt Hst Hpk Hstk Hdir
    Hlim Hacc Htl Htag) as ([] & w' & Hr & o' & a' & -> & _). eexists. split; [exact Hr|]. cbn zeta.
  destruct Hacc as (delta & st & Hest & Hchk & Hadd), Hpk as [Hp Hlen Hb Hs Hbl].
  pose proof Hb as [Bh _]%is_bytes_app. destruct (rtp_hdr_long hdr Hs Bh) as [H12 _].
  assert (is_word 16 (pkt_seq hdr)) as H16.
  { unfold pkt_seq. pose proof (be_val_range (take 2 (drop 2 hdr))) as Hr2.
    rewrite length_take, length_drop, Nat.min_l in Hr2 by lia. apply Hr2. by words. }
  destruct (accepted_not_again _ _ _ _ _ _ Hwf Hix H16 Hest Hadd Hlt) as (_ & _ & He2 & Hc2).
  eapply (unprotect_replayed _ c p (set_rtp_rdbx r' (set_direction dir_srtp_receiver s)) hdr);
    [exact Hp|done| | |apply lookup_insert_eq|exact He2|exact Hc2|done].
  - cbn. rewrite Hlen, !length_app. lia.
  - by eapply has_stream_update; [done|apply Hst| | | |].
Qed.

(** C14: a packet with a wrong tag: [srtp_unprotect] returns [err_status_auth_fail],
    the packet, its length, the streams (replay databases and directions), the key
    limits and the sessions are as before, no event is reported, and the stream is
    still keyed: a genuine packet with the same sequence number is still accepted. *)
Theorem srtp_forgery_refused w c p s o a l k ka hdr body tag room i r' :
  has_stream w c (pkt_ssrc hdr) p → rtp_stream w p s o a l k ka →
  srtp_packet w hdr body tag room → (12 <= length (stack w))%nat →
  accepts (rtp_rdbx s) (pkt_seq hdr) i r' →
  Z.of_nat (length tag) = auth_obj_tag_length a → auth_on (rtp_services s) = true →
  tag ≠ obj_tag a ka ((hdr ++ body) ++ take 4 (est_octets i)) →
  ∃ w' o' a', srtp_unprotect c w = Some (inl err_status_auth_fail, w') ∧
    packet w' = packet w ∧ pkt_octet_len w' = pkt_octet_len w ∧ streams w' = streams w ∧
    limits w' = limits w ∧ sessions w' = sessions w ∧ events w' = events w ∧
    rtp_stream w' p s o' a' l k ka ∧ peers s s o o' a a'.
Proof.
  intros Hhas Hst Hpk Hstk Hacc Htl Hon Htag.
  destruct (unprotect_forged w c p s o a l k ka hdr body tag room i r' Hhas Hst Hpk Hstk Hacc Htl
    Hon Htag) as (w' & Hr & o' & a' & -> & So & Ko & Sa & Ka).
  destruct Hst as [Hs Ho Ha Hl Hk Hka Hf].
  eexists _, o', a'. split; [exact Hr|]. cbn [heap]. split_and!; try done.
  - split; cbn; try done; [by rewrite lookup_insert_eq..|]. by eapply auth_shape_fits.
  - unfold obj_shape, auth_shape in *. by split; simplify_eq.
Qed.
