(* ===== verification/SrtpSession.v ===== *)
(** * SRTP: sessions, streams and their keys

    Key derivation is that of RFC 3711; a session made by [srtp_create] has streams
    keyed that way, so that two sessions with the same master key talk to each
    other; and what [srtp_remove_stream] and refused policies do to a session. *)

From stdpp Require Import gmap strings.
From S2P Require Import Prelude Datatypes Replay KeyLimit Sha1 Hmac Cipher Aes AesIcm AesCbc.
From S2P Require Import CryptoKernel Rfc3711 Srtp SrtpObjects SrtpPacket.
Import Rdb Rdbx.

#[local] Opaque AesSpec.cipher AesSpec.key_expansion Hmac.HMAC.

(** ** Key derivation *)

(** master key and salt in the memory at the key pointer *)
Definition master_key (key : list Z) : list Z := take 16 key.
Definition master_salt (key : list Z) : list Z := take 14 (drop 16 key).

Definition derived (key : list Z) (label : srtp_prf_label) (n : nat) : list Z :=
  Rfc3711.derive (master_key key) (master_salt key) (label_val label) n.

Lemma label_range l : 0 <= label_val l < 256.
Proof. destruct l; simpl; lia. Qed.

(** the vector with the label in its eighth octet *)
Lemma nonce_value label :
  ∃ nonce, set_v8 (v128_set_to_zero []) 7 (label_val label) = Some nonce ∧
    v8 little nonce = replicate 7 0 ++ [label_val label] ++ replicate 8 0.
Proof. destruct label; (eexists; split; [reflexivity|vm_compute; reflexivity]). Qed.

Lemma be_val_nonce x : be_val (replicate 7 0 ++ [x] ++ replicate 8 0) = x * 2 ^ 64.
Proof. rewrite !be_val_app. simpl. lia. Qed.

Lemma derive_iv key label :
  icm_key_mem key →
  icm_iv0 key (replicate 7 0 ++ [label_val label] ++ replicate 8 0) =
    be_bytes 16 (((label_val label * 2 ^ 48) ^^ be_val (master_salt key)) * 2 ^ 16).
Proof.
  intros Hk. pose proof (label_range label) as Hr.
  set (iv := replicate 7 0 ++ [label_val label] ++ replicate 8 0).
  assert (icm_iv_mem iv) as Hm.
  { split; [|done]. apply is_bytes_app; split; [by apply is_bytes_replicate, word_0|].
    apply is_bytes_app; split; [|by apply is_bytes_replicate, word_0].
    constructor; [unfold is_word; lia|constructor]. }
  destruct (icm_iv0_block key iv Hk Hm) as [L B]. destruct (icm_salt_block key Hk) as [Ls Bs].
  rewrite <-(be_bytes_be_val _ B), L. f_equal. unfold icm_iv0.
  rewrite take_ge, <-be_val_xor by (done || apply Hm). unfold iv at 1. rewrite be_val_nonce.
  unfold icm_salt. rewrite be_val_app. fold (master_salt key).
  change (be_val [0; 0]) with 0. change (8 * Z.of_nat (length [0; 0])) with 16.
  rewrite Z.add_0_r, Z.lxor_comm, <-!Z.shiftl_mul_pow2, Z.shiftl_lxor by lia.
  by rewrite Z.shiftl_shiftl by lia.
Qed.

(** [srtp_kdf_generate] writes the derived key (and clears one octet when none is
    asked for), and leaves the generator ready for the next one *)
Lemma kdf_generate_spec addr kdf key label buf n :
  icm_keyed kdf key → is_bytes buf → buf ≠ [] → 0 <= n <= Z.of_nat (length buf) → n <= 0xffff →
  ∃ kdf', srtp_kdf_generate addr kdf label buf n =
      Some (kdf', derived key label (Z.to_nat n) ++
        replicate (Z.to_nat (Z.max 1 n - n)) 0 ++ drop (Z.to_nat (Z.max 1 n)) buf) ∧
    icm_keyed kdf' key.
Proof.
  intros Hk Hb Hne Hn Hmax. pose proof Hk as [Hkm _].
  destruct (nonce_value label) as (nonce & En & Ev). unfold srtp_kdf_generate.
  rewrite En, Some_bind, Ev.
  set (iv := replicate 7 0 ++ [label_val label] ++ replicate 8 0).
  assert (icm_stream_iv iv) as Hi.
  { split; [|done]. split; [|done]. pose proof (label_range label).
    apply is_bytes_app; split; [by apply is_bytes_replicate, word_0|].
    apply is_bytes_app; split; [|by apply is_bytes_replicate, word_0].
    constructor; [unfold is_word; lia|constructor]. }
  destruct (icm_set_iv_spec kdf key iv Hk (proj1 Hi)) as (c1 & -> & A1). rewrite Some_bind.
  destruct (obj_output_spec addr (IcmObj (mk_cipher c1 30)) key iv 0 n buf (conj A1 Hi) Hb Hn Hne)
    as (o' & E & So & Ao); [unfold max_keystream; lia|].
  assert (∀ c b, obj_output addr (IcmObj (mk_cipher c1 30)) buf n =
      Some (err_status_ok, IcmObj c, b) → aes_icm_output addr c1 buf n =
      Some (err_status_ok, cipher_state c, b)) as Hout.
  { intros c b. unfold obj_output, cipher_output, aes_icm_output.
    destruct (octet_string_set_to_zero buf n) as [z|]; [|done]. rewrite !Some_bind.
    unfold cipher_encrypt, cipher_encrypt_fn, aes_icm. cbn [cipher_state].
    destruct (aes_icm_encrypt addr c1 z (u32 n)) as [[[[? ?] ?] ?]|]; [|done].
    rewrite !Some_bind. by intros [= -> <- ->]. }
  destruct o' as [|c2|]; try done. rewrite (Hout _ _ E), Some_bind.
  exists (cipher_state c2). split; [|apply (obj_at_keyed (IcmObj c2) key iv _ Ao)].
  unfold derived, Rfc3711.derive, Rfc3711.cm_octet. rewrite <-derive_iv by done. done.
Qed.

Lemma length_derived key label n : length (derived key label n) = n.
Proof. unfold derived, Rfc3711.derive. by rewrite length_map, length_seq. Qed.

Lemma derived_bytes key label n : icm_key_mem key → is_bytes (derived key label n).
Proof.
  intros Hk. unfold derived, Rfc3711.derive, Rfc3711.cm_octet. rewrite <-derive_iv by done.
  apply Forall_map, Forall_true. intros j. by apply icm_octet_range.
Qed.

(** a derived key is the start of a longer one *)
Lemma take_derived key label n m : (n <= m)%nat → take n (derived key label m) = derived key label n.
Proof.
  intros Hn. unfold derived, Rfc3711.derive. rewrite firstn_map. f_equal.
  replace m with (n + (m - n))%nat by lia. rewrite seq_app. apply take_app_length'. by rewrite length_seq.
Qed.

(** ** Keying the objects of a stream *)

(** what the allocation of an object leaves: SRTP has no direction to give to
    AES-CBC, so it cannot be keyed *)
Definition obj_fresh (o : cipher_obj) : Prop :=
  match o with
  | NullObj c => 0 <= cipher_key_len c <= 256
  | IcmObj c => cipher_key_len c = 30
  | CbcObj _ => False
  end.

Definition auth_fresh (a : auth_obj) : Prop :=
  match a with
  | NullAuthObj a => 0 <= key_len a <= 256
  | HmacObj a => Hmac.hmac_usable (auth_state a) ∧ 0 <= key_len a <= 20
  end.

(** the session key of a cipher: key and salt, and two octets that do not count *)
Definition session_key (key : list Z) (encryption salt : srtp_prf_label) : list Z :=
  derived key encryption 16 ++ derived key salt 14 ++ [0; 0].

Lemma session_key_parts key e sl :
  icm_key (session_key key e sl) = derived key e 16 ∧
  take 14 (drop 16 (session_key key e sl)) = derived key sl 14.
Proof.
  unfold icm_key, session_key. rewrite take_app_length', drop_app_length' by (by rewrite length_derived).
  by rewrite take_app_length' by (by rewrite length_derived).
Qed.

Lemma session_key_mem key e sl : icm_key_mem key → icm_key_mem (session_key key e sl).
Proof.
  intros Hk. unfold session_key. split; [|rewrite !length_app, !length_derived; simpl; lia].
  apply is_bytes_app; split; [by apply derived_bytes|]. apply is_bytes_app; split; [by apply derived_bytes|].
  by apply (is_bytes_replicate 2 0), word_0.
Qed.

(** a context depends on the key and the salt only *)
Lemma icm_keyed_ext c k k' :
  icm_keyed c k → icm_key_mem k' → icm_key k' = icm_key k →
  take 14 (drop 16 k') = take 14 (drop 16 k) → icm_keyed c k'.
Proof. intros (_ & Ho & He) Hk E1 E2. split; [done|]. unfold icm_salt in *. by rewrite E1, E2. Qed.

(** the local array of keys *)
Definition key_array (tmp : list Z) : Prop := is_bytes tmp ∧ length tmp = 256%nat.

Lemma kdf_array addr kdf key label tmp n :
  icm_keyed kdf key → key_array tmp → 0 <= n <= 256 →
  ∃ kdf' tmp', srtp_kdf_generate addr kdf label tmp n = Some (kdf', tmp') ∧ icm_keyed kdf' key ∧
    key_array tmp' ∧ take (Z.to_nat n) tmp' = derived key label (Z.to_nat n).
Proof.
  intros Hk [Hb Hl] Hn.
  destruct (kdf_generate_spec addr kdf key label tmp n) as (kdf' & E & Hk'); [done|done|by intros ->|lia..|].
  eexists _, _. split; [exact E|]. split; [done|]. split.
  - split; [|rewrite !length_app, length_derived, length_replicate, length_drop; lia].
    apply is_bytes_app; split; [apply derived_bytes, Hk|].
    apply is_bytes_app; split; [by apply is_bytes_replicate, word_0|by words].
  - by rewrite take_app_length' by (by rewrite length_derived).
Qed.

Lemma cipher_keys_spec kdf key tmp e sl o :
  icm_keyed kdf key → key_array tmp → obj_fresh o →
  ∃ kdf' tmp', cipher_keys kdf tmp e sl o = Some (kdf', tmp') ∧ icm_keyed kdf' key ∧
    key_array tmp' ∧
    (obj_type o = Aes_icm → icm_key tmp' = derived key e 16 ∧
                            take 14 (drop 16 tmp') = derived key sl 14).
Proof.
  intros Hk Ht Hf.
  assert (0 <= obj_key_length o <= 256) as Hkl
    by (destruct o; cbn in *; unfold cipher_get_key_length; lia).
  destruct (kdf_array 0 kdf key e tmp (obj_key_length o) Hk Ht Hkl) as (k1 & t1 & E1 & K1 & T1 & D1).
  unfold cipher_keys. rewrite E1, Some_bind. case_decide as Hi; [|exists k1, t1; split_and!; done].
  destruct o as [|c|]; try done. cbn in Hf. unfold obj_key_length, cipher_get_key_length in *.
  rewrite Hf in *. change (30 - 16) with 14. destruct T1 as [B1 L1].
  destruct (kdf_generate_spec 16 k1 key sl (drop 16 t1) 14) as (k2 & E2 & K2); try done.
  { by words. }
  { intros E. apply (f_equal length) in E. rewrite length_drop, L1 in E. simpl in E. lia. }
  { rewrite length_drop, L1. lia. }
  rewrite E2, Some_bind. eexists _, _. split; [done|]. split; [done|].
  assert (length (take 16 t1) = 16%nat) as L16 by (rewrite length_take, L1; lia).
  change (Z.to_nat (Z.max 1 14 - 14)) with 0%nat. cbn [replicate app].
  split; [split|].
  - apply is_bytes_app; split; [by words|]. apply is_bytes_app; split; [apply derived_bytes, Hk|].
    by words.
  - rewrite !length_app, L16, length_derived, !length_drop, L1. lia.
  - intros _. unfold icm_key. rewrite take_app_length' by done. split.
    + change (Z.to_nat 30) with 30%nat in D1.
      rewrite <-(take_derived key e 16 30), <-D1, take_take by lia. done.
    + rewrite drop_app_length' by done. apply take_app_length'. by rewrite length_derived.
Qed.

Lemma obj_init_spec o tmp :
  obj_fresh o → key_array tmp →
  ∃ o', obj_init o tmp direction_any = Some (err_status_ok, o') ∧ obj_shape o' = obj_shape o ∧
    obj_keyed o' tmp.
Proof.
  intros Hf [Hb Hl]. destruct o as [c|c|]; try done; [by eexists|].
  destruct (icm_init_spec (cipher_state c) tmp) as (c' & E & H & _); [split; [done|lia]|].
  unfold obj_init, cipher_init, cipher_init_fn, icm_table, aes_icm. rewrite E, !Some_bind.
  eexists. by split_and!.
Qed.

Lemma init_cipher_spec w p o kdf key tmp e sl :
  ciphers w !! p = Some o → obj_fresh o → icm_keyed kdf key → key_array tmp →
  ∃ kdf' tmp' o', runs (init_cipher p kdf tmp e sl) w (inr (kdf', tmp'))
      (put_ciphers (<[p := o']> (ciphers w)) w) ∧
    icm_keyed kdf' key ∧ key_array tmp' ∧ obj_shape o' = obj_shape o ∧ obj_keyed o' (session_key key e sl).
Proof.
  intros Hp Hf Hk Ht.
  destruct (cipher_keys_spec kdf key tmp e sl o Hk Ht Hf) as (k1 & t1 & E1 & K1 & T1 & D1).
  destruct (obj_init_spec o t1 Hf T1) as (o' & E2 & So & Ko).
  exists k1, t1, o'. split; [|split_and!; try done].
  - unfold init_cipher. step. step by runs_lift. step by runs_lift. step. step. apply runs_ret.
  - destruct o' as [|c|]; [done| |done]. destruct D1 as [E3 E4]; [by unfold obj_shape in So; injection So as <- _|].
    destruct (session_key_parts key e sl) as [E5 E6].
    eapply icm_keyed_ext; [exact Ko|apply session_key_mem, Hk|congruence..].
Qed.

Lemma auth_obj_init_spec a tmp :
  auth_fresh a → key_array tmp →
  ∃ a', auth_obj_init a tmp = Some (err_status_ok, a') ∧ auth_shape a' = auth_shape a ∧
    auth_obj_keyed a' (take (Z.to_nat (auth_obj_key_length a)) tmp).
Proof.
  intros Hf [Hb Hl]. destruct a as [a|a]; [by eexists|]. destruct Hf as [Hu Hk].
  destruct (auth_init_law (AuthSpec := Hmac.hmac_spec) (auth_state a) tmp (key_len a) Hu Hb)
    as (st & E & H); [lia|simpl; lia|].
  unfold auth_obj_init, auth_init. rewrite E, !Some_bind. eexists. split; [done|]. split; [done|].
  by apply (auth_absorbed_keyed (AuthSpec := Hmac.hmac_spec) st _ []).
Qed.

Lemma init_auth_spec w p a kdf key tmp label :
  auths w !! p = Some a → auth_fresh a → icm_keyed kdf key → key_array tmp →
  ∃ kdf' tmp' a', runs (init_auth p kdf tmp label) w (inr (kdf', tmp'))
      (put_auths (<[p := a']> (auths w)) w) ∧
    icm_keyed kdf' key ∧ key_array tmp' ∧ auth_shape a' = auth_shape a ∧
    auth_obj_keyed a' (derived key label (Z.to_nat (auth_obj_key_length a))).
Proof.
  intros Hp Hf Hk Ht.
  assert (0 <= auth_obj_key_length a <= 256) as Hl
    by (destruct a; cbn in *; unfold auth_get_key_length; lia).
  destruct (kdf_array 0 kdf key label tmp _ Hk Ht Hl) as (k1 & t1 & E1 & K1 & T1 & D1).
  destruct (auth_obj_init_spec a t1 Hf T1) as (a' & E2 & Sa & Ka). rewrite D1 in Ka.
  exists k1, t1, a'. split; [|by split_and!].
  unfold init_auth. step. step by runs_lift. step by runs_lift. step. step. apply runs_ret.
Qed.

(** ** srtp_stream_init *)

(** the stream after [srtp_stream_init] *)
Definition fresh_stream (s : srtp_stream_ctx_t) (pol : srtp_policy_t) : srtp_stream_ctx_t :=
  mk_stream (bswap32 (p_ssrc_value pol)) (rtp_cipher s) (rtp_auth s) (snd rdbx_init)
    (p_sec_serv (p_rtp pol)) (rtcp_cipher s) (rtcp_auth s) (snd rdb_init)
    (p_sec_serv (p_rtcp pol)) (limit s) dir_unknown (next s).

Definition fresh_limit : key_limit_ctx_t := mk_key_limit 0xffffffffffff key_state_normal.

(** a stream with its objects as allocated: two ciphers and two authentication
    functions of its own *)
Record allocated (w : world) (p : nat) (s : srtp_stream_ctx_t) (o1 o2 : cipher_obj)
    (a1 a2 : auth_obj) (l : key_limit_ctx_t) : Prop := {
  al_stream : streams w !! p = Some s;
  al_cipher1 : ciphers w !! rtp_cipher s = Some o1;
  al_cipher2 : ciphers w !! rtcp_cipher s = Some o2;
  al_auth1 : auths w !! rtp_auth s = Some a1;
  al_auth2 : auths w !! rtcp_auth s = Some a2;
  al_limit : limits w !! limit s = Some l;
  al_ciphers : rtp_cipher s ≠ rtcp_cipher s;
  al_auths : rtp_auth s ≠ rtcp_auth s }.

Definition stack_ok (w : world) : Prop := is_bytes (stack w) ∧ (256 <= length (stack w))%nat.

(** the objects as keyed from the master key at [key] *)
Record keyed_from (key : list Z) (o1 o2 o1' o2' : cipher_obj) (a1 a2 a1' a2' : auth_obj) : Prop := {
  kf_shape1 : obj_shape o1' = obj_shape o1;
  kf_shape2 : obj_shape o2' = obj_shape o2;
  kf_ashape1 : auth_shape a1' = auth_shape a1;
  kf_ashape2 : auth_shape a2' = auth_shape a2;
  kf_cipher1 : obj_keyed o1' (session_key key label_rtp_encryption label_rtp_salt);
  kf_cipher2 : obj_keyed o2' (session_key key label_rtcp_encryption label_rtcp_salt);
  kf_auth1 : auth_obj_keyed a1' (derived key label_rtp_msg_auth (Z.to_nat (auth_obj_key_length a1)));
  kf_auth2 : auth_obj_keyed a2' (derived key label_rtcp_msg_auth (Z.to_nat (auth_obj_key_length a2))) }.

Lemma stream_init_spec w p s o1 o2 a1 a2 l pol key :
  allocated w p s o1 o2 a1 a2 l → obj_fresh o1 → obj_fresh o2 → auth_fresh a1 → auth_fresh a2 →
  icm_key_mem key → stack_ok w →
  returns (srtp_stream_init p pol key) w (λ _ w', ∃ o1' o2' a1' a2',
    w' = heap w (<[p := fresh_stream s pol]> (streams w))
           (<[rtcp_cipher s := o2']> (<[rtp_cipher s := o1']> (ciphers w)))
           (<[rtcp_auth s := a2']> (<[rtp_auth s := a1']> (auths w)))
           (<[limit s := fresh_limit]> (limits w)) (packet w) (pkt_octet_len w) ∧
    keyed_from key o1 o2 o1' o2' a1 a2 a1' a2').
Proof.
  intros [Hs Hc1 Hc2 Ha1 Ha2 Hl Hnc Hna] F1 F2 G1 G2 Hkey [Hsb Hsl].
  destruct (icm_init_spec (stack_icm w) key Hkey) as (kdf & Ek & Hk & _).
  assert (key_array (take 256 (stack w))) as Ht
    by (split; [by words|rewrite length_take; lia]).
  unfold srtp_stream_init. step. step. step. set (s1 := set_rtp_rdbx _ s). set (w1 := put_streams _ w).
  assert (streams w1 !! p = Some s1) as Hs1 by apply lookup_insert_eq.
  step. step. step_with ltac:(apply runs_lift; exact Hl). step. set (w2 := put_limits _ w1).
  assert (streams w2 !! p = Some s1) as Hs2 by done. step. set (s3 := set_ssrc _ s1). set (w3 := put_streams _ w2).
  assert (streams w3 !! p = Some s3) as Hs3 by apply lookup_insert_eq. step.
  set (s4 := set_rtcp_services _ _). set (w4 := put_streams _ w3).
  assert (streams w4 !! p = Some s4) as Hs4 by apply lookup_insert_eq. step.
  set (s5 := set_direction _ s4). set (w5 := put_streams _ w4).
  assert (streams w5 !! p = Some s5) as Hs5 by apply lookup_insert_eq.
  step_with ltac:(apply runs_lift; unfold srtp_kdf_init; by rewrite Ek).
  destruct (init_cipher_spec w5 (rtp_cipher s) o1 kdf key _ label_rtp_encryption label_rtp_salt Hc1 F1 Hk Ht)
    as (kdf1 & t1 & o1' & R1 & K1 & T1 & S1 & D1).
  step by R1. set (w6 := put_ciphers _ w5).
  destruct (init_auth_spec w6 (rtp_auth s) a1 kdf1 key t1 label_rtp_msg_auth Ha1 G1 K1 T1)
    as (kdf2 & t2 & a1' & R2 & K2 & T2 & S2 & D2).
  step by R2. set (w7 := put_auths _ w6).
  assert (streams w7 !! p = Some s5) as Hs7 by done. step.
  set (w8 := put_streams _ w7).
  destruct (init_cipher_spec w8 (rtcp_cipher s) o2 kdf2 key t2 label_rtcp_encryption label_rtcp_salt)
    as (kdf3 & t3 & o2' & R3 & K3 & T3 & S3 & D3);
    [unfold w8, w7, w6; cbn; by rewrite lookup_insert_ne|done..|].
  step by R3. set (w9 := put_ciphers _ w8).
  destruct (init_auth_spec w9 (rtcp_auth s) a2 kdf3 key t3 label_rtcp_msg_auth)
    as (kdf4 & t4 & a2' & R4 & K4 & T4 & S4 & D4);
    [unfold w9, w8, w7; cbn; by rewrite lookup_insert_ne|done..|].
  step by R4. eapply returns_intro; [apply runs_ret|].
  exists o1', o2', a1', a2'. split; [|by split].
  unfold heap, w9, w8, w7, w6, w5, w4, w3, w2, w1. cbn. by rewrite !insert_insert_eq.
Qed.

(** ** Allocation *)

(** the types a policy can name for SRTP, and the lengths that fit *)
Definition cipher_policy (t : cipher_type) (pol : crypto_policy_t) : Prop :=
  match t with
  | Null_cipher => p_cipher_type pol = NULL_CIPHER ∧ 0 <= p_cipher_key_len pol <= 256
  | Aes_icm => p_cipher_type pol = AES_128_ICM ∧ p_cipher_key_len pol = 30
  | Aes_cbc => False
  end.

Definition auth_policy (t : auth_type) (pol : crypto_policy_t) : Prop :=
  match t with
  | Null_auth => p_auth_type pol = NULL_AUTH ∧ 0 <= p_auth_key_len pol <= 256 ∧ p_auth_tag_len pol = 0
  | Hmac_sha1 => p_auth_type pol = HMAC_SHA1 ∧ 0 <= p_auth_key_len pol <= 20 ∧
                 0 <= p_auth_tag_len pol <= 12
  end.

(** memory in which the arrays of HMAC have their lengths *)
Definition block_ok (b : block) : Prop := Hmac.hmac_usable (j_hmac (b_object b)).

Definition new_cipher (t : cipher_type) (pol : crypto_policy_t) (b : block) : cipher_obj :=
  match t with
  | Null_cipher => NullObj (mk_cipher tt (p_cipher_key_len pol))
  | Aes_icm => IcmObj (mk_cipher (j_icm (b_object b)) (p_cipher_key_len pol))
  | Aes_cbc => CbcObj (mk_cipher (j_cbc (b_object b)) (p_cipher_key_len pol))
  end.

Definition new_auth (t : auth_type) (pol : crypto_policy_t) (b : block) : auth_obj :=
  match t with
  | Null_auth => NullAuthObj (mk_auth (j_null_auth (b_object b)) (p_auth_tag_len pol)
                                (p_auth_key_len pol) (p_auth_tag_len pol))
  | Hmac_sha1 => HmacObj (mk_auth (j_hmac (b_object b)) (p_auth_tag_len pol) (p_auth_key_len pol) 0)
  end.

Lemma new_cipher_fresh t pol b : cipher_policy t pol → obj_fresh (new_cipher t pol b).
Proof. by destruct t; cbn; [intros [_ ?]|intros [_ ?]|]. Qed.

Lemma new_auth_fresh t pol b :
  auth_policy t pol → block_ok b → auth_fresh (new_auth t pol b) ∧ auth_fits (new_auth t pol b).
Proof.
  destruct t; cbn; unfold auth_fits; cbn; unfold auth_get_prefix_length, auth_get_tag_length;
    cbn; intros (_ & Hk & Ht) Hb; split_and!; (done || lia).
Qed.

(** a kernel that was initialised *)
Definition kernel_ready (w : world) : Prop := registered (kernel w).

Lemma alloc_cipher_spec w t pol b rest :
  kernel_ready w → mem w = Some b :: rest → cipher_policy t pol →
  runs (alloc_cipher (p_cipher_type pol) (p_cipher_key_len pol)) w (inr (brk w))
    (put_ciphers (<[brk w := new_cipher t pol b]> (ciphers w))
      (put_kernel (set_cipher_ref t (cipher_refs (kernel w) t + 1) (kernel w)) (next_block w))).
Proof.
  intros (Hst & Hcs & _) Hm Hp. unfold alloc_cipher. step. step. step. step. rewrite Hm. cbn [hd fmap option_fmap option_map].
  unfold crypto_kernel_alloc_cipher, crypto_kernel_get_cipher_type. rewrite decide_False, Hcs by (rewrite Hst; tauto).
  destruct t; try done; destruct Hp as [-> Hk]; cbn [find_type Z.eqb NULL_CIPHER AES_128_ICM AES_128_CBC Pos.eqb type_alloc].
  - cbn. step. step. step. step. apply runs_ret.
  - unfold cipher_alloc_fn, icm_table, aes_icm, aes_icm_alloc, aes_icm_alloc_ismacryp.
    rewrite decide_False by (intros [_ ?]; done). cbn. step. step. step. step. apply runs_ret.
Qed.

Lemma alloc_auth_spec w t pol b rest :
  kernel_ready w → mem w = Some b :: rest → auth_policy t pol →
  runs (alloc_auth (p_auth_type pol) (p_auth_key_len pol) (p_auth_tag_len pol)) w (inr (brk w))
    (put_auths (<[brk w := new_auth t pol b]> (auths w))
      (put_kernel (set_auth_ref t (auth_refs (kernel w) t + 1) (kernel w)) (next_block w))).
Proof.
  intros (Hst & _ & Hcs) Hm Hp. unfold alloc_auth. step. step. step. step. rewrite Hm. cbn [hd fmap option_fmap option_map].
  unfold crypto_kernel_alloc_auth, crypto_kernel_get_auth_type. rewrite decide_False, Hcs by (rewrite Hst; tauto).
  destruct t; destruct Hp as (-> & Hk & Ht); cbn [find_type Z.eqb NULL_AUTH HMAC_SHA1 Pos.eqb auth_type_alloc].
  - cbn. step. step. step. step. apply runs_ret.
  - cbn [auth_alloc_fn Hmac.hmac]. unfold Hmac.hmac_alloc. rewrite !decide_False by lia.
    cbn. step. step. step. step. apply runs_ret.
Qed.

Lemma runs_on_error {A} (m : M A) cleanup w a w' :
  runs m w (inr a) w' → runs (on_error m cleanup) w (inr a) w'.
Proof. unfold runs, on_error. by intros ->. Qed.

Lemma runs_crypto_alloc w b rest :
  mem w = Some b :: rest → runs crypto_alloc w (inr (Some (brk w, b))) (next_block w).
Proof. intros Hm. unfold crypto_alloc. step. step. step. rewrite Hm. apply runs_ret. Qed.

(** the heap [w] after allocations *)
Definition grown (w : world) (k : crypto_kernel_t) st ci au li (n : nat) (rest : list (option block))
  : world :=
  mk_world k ci au li st (sessions w) n rest (stack w) (stack_icm w) (srtp_event_handler w)
    (events w) (packet w) (pkt_octet_len w).

Lemma grown_id w :
  w = grown w (kernel w) (streams w) (ciphers w) (auths w) (limits w) (brk w) (mem w).
Proof. by destruct w. Qed.

Section Grown.
Context (w : world) (k : crypto_kernel_t) (st : gmap nat srtp_stream_ctx_t)
  (ci : gmap nat cipher_obj) (au : gmap nat auth_obj) (li : gmap nat key_limit_ctx_t) (n : nat)
  (rest : list (option block)).
Abbreviation g := (grown w k st ci au li n rest).

Lemma grown_put_streams x : put_streams x g = grown w k x ci au li n rest.
Proof. done. Qed.
Lemma grown_put_ciphers x : put_ciphers x g = grown w k st x au li n rest.
Proof. done. Qed.
Lemma grown_put_auths x : put_auths x g = grown w k st ci x li n rest.
Proof. done. Qed.
Lemma grown_put_limits x : put_limits x g = grown w k st ci au x n rest.
Proof. done. Qed.
Lemma grown_put_kernel x : put_kernel x g = grown w x st ci au li n rest.
Proof. done. Qed.
Lemma grown_next_block : next_block g = grown w k st ci au li (S n) (tl rest).
Proof. done. Qed.
Lemma grown_streams : streams g = st.
Proof. done. Qed.
Lemma grown_ciphers : ciphers g = ci.
Proof. done. Qed.
Lemma grown_auths : auths g = au.
Proof. done. Qed.
Lemma grown_limits : limits g = li.
Proof. done. Qed.
Lemma grown_kernel : kernel g = k.
Proof. done. Qed.
Lemma grown_brk : brk g = n.
Proof. done. Qed.
Lemma grown_mem : mem g = rest.
Proof. done. Qed.
Lemma grown_sessions : sessions g = sessions w.
Proof. done. Qed.
End Grown.

Create Rewrite HintDb grown.
#[export] Hint Rewrite grown_put_streams grown_put_ciphers grown_put_auths grown_put_limits
  grown_put_kernel grown_next_block grown_streams grown_ciphers grown_auths grown_limits
  grown_kernel grown_brk grown_mem grown_sessions : grown.
Ltac norm := autorewrite with grown; cbn [tl].

(** the policies of a stream, with the types they name *)
Record policy_types (pol : srtp_policy_t) (t1 t2 : cipher_type) (u1 u2 : auth_type) : Prop := {
  pt_cipher1 : cipher_policy t1 (p_rtp pol);
  pt_cipher2 : cipher_policy t2 (p_rtcp pol);
  pt_auth1 : auth_policy u1 (p_rtp pol);
  pt_auth2 : auth_policy u2 (p_rtcp pol) }.

Definition alloc_stream (n : nat) (s : srtp_stream_ctx_t) : srtp_stream_ctx_t :=
  set_rtcp_auth (5 + n) (set_rtcp_cipher (4 + n) (set_limit (3 + n)
    (set_rtp_auth (2 + n) (set_rtp_cipher (1 + n) s)))).

Lemma registered_cipher_ref k t n : registered k → registered (set_cipher_ref t n k).
Proof. done. Qed.
Lemma registered_auth_ref k t n : registered k → registered (set_auth_ref t n k).
Proof. done. Qed.

Lemma stream_alloc_grown w k st ci au li n pol t1 t2 u1 u2 b0 b1 b2 b3 b4 b5 rest :
  registered k → policy_types pol t1 t2 u1 u2 →
  returns (srtp_stream_alloc pol) (grown w k st ci au li n (map Some [b0; b1; b2; b3; b4; b5] ++ rest))
    (λ p w', p = n ∧ ∃ k', registered k' ∧
    w' = grown w k' (<[n := alloc_stream n (b_stream b0)]> st)
      (<[(4 + n)%nat := new_cipher t2 (p_rtcp pol) b4]>
        (<[(1 + n)%nat := new_cipher t1 (p_rtp pol) b1]> ci))
      (<[(5 + n)%nat := new_auth u2 (p_rtcp pol) b5]>
        (<[(2 + n)%nat := new_auth u1 (p_rtp pol) b2]> au))
      (<[(3 + n)%nat := b_limit b3]> li) (6 + n) rest).
Proof.
  intros Hk [C1 C2 A1 A2]. cbn [map app]. unfold srtp_stream_alloc.
  step_with ltac:(by eapply runs_crypto_alloc). norm. step. norm.
  step_with ltac:(apply runs_on_error; by eapply (alloc_cipher_spec _ t1 (p_rtp pol) b1)). norm.
  step_with ltac:(by apply runs_set_stream, lookup_insert_eq). norm. rewrite insert_insert_eq.
  step_with ltac:(apply runs_on_error; by eapply (alloc_auth_spec _ u1 (p_rtp pol) b2)). norm.
  step_with ltac:(by apply runs_set_stream, lookup_insert_eq). norm. rewrite insert_insert_eq.
  step_with ltac:(by eapply runs_crypto_alloc). norm. step. norm.
  step_with ltac:(by apply runs_set_stream, lookup_insert_eq). norm. rewrite insert_insert_eq.
  step_with ltac:(apply runs_on_error; by eapply (alloc_cipher_spec _ t2 (p_rtcp pol) b4)). norm.
  step_with ltac:(by apply runs_set_stream, lookup_insert_eq). norm. rewrite insert_insert_eq.
  step_with ltac:(apply runs_on_error; by eapply (alloc_auth_spec _ u2 (p_rtcp pol) b5)). norm.
  step_with ltac:(by apply runs_set_stream, lookup_insert_eq). norm. rewrite insert_insert_eq.
  eapply returns_intro; [apply runs_ret|]. split; [done|]. eexists. split; [|done]. exact Hk.
Qed.

(** ** A stream that was opened with a policy *)

Record opened (w : world) (p : nat) (pol : srtp_policy_t) (key : list Z) (t1 t2 : cipher_type)
    (u1 u2 : auth_type) (s : srtp_stream_ctx_t) (o1 o2 : cipher_obj) (a1 a2 : auth_obj) : Prop := {
  op_stream : streams w !! p = Some s;
  op_cipher1 : ciphers w !! rtp_cipher s = Some o1;
  op_cipher2 : ciphers w !! rtcp_cipher s = Some o2;
  op_auth1 : auths w !! rtp_auth s = Some a1;
  op_auth2 : auths w !! rtcp_auth s = Some a2;
  op_limit : limits w !! limit s = Some fresh_limit;
  op_ciphers : rtp_cipher s ≠ rtcp_cipher s;
  op_auths : rtp_auth s ≠ rtcp_auth s;
  op_ssrc : ssrc s = bswap32 (p_ssrc_value pol);
  op_rdbx : rtp_rdbx s = snd rdbx_init;
  op_rdb : rtcp_rdb s = snd rdb_init;
  op_services : rtp_services s = p_sec_serv (p_rtp pol);
  op_rtcp_services : rtcp_services s = p_sec_serv (p_rtcp pol);
  op_types : obj_type o1 = t1 ∧ obj_type o2 = t2 ∧ auth_obj_type a1 = u1 ∧ auth_obj_type a2 = u2;
  op_tags : auth_obj_tag_length a1 = p_auth_tag_len (p_rtp pol) ∧
            auth_obj_tag_length a2 = p_auth_tag_len (p_rtcp pol);
  op_fits : auth_fits a1 ∧ auth_fits a2;
  op_key1 : obj_keyed o1 (session_key key label_rtp_encryption label_rtp_salt);
  op_key2 : obj_keyed o2 (session_key key label_rtcp_encryption label_rtcp_salt);
  op_mac1 : auth_obj_keyed a1 (derived key label_rtp_msg_auth (Z.to_nat (p_auth_key_len (p_rtp pol))));
  op_mac2 : auth_obj_keyed a2 (derived key label_rtcp_msg_auth (Z.to_nat (p_auth_key_len (p_rtcp pol)))) }.

(** objects at the pointers in use are left alone *)
Definition keeps (w w' : world) : Prop :=
  ∀ q, (q < brk w)%nat → ciphers w' !! q = ciphers w !! q ∧ auths w' !! q = auths w !! q ∧
    limits w' !! q = limits w !! q.

(** the pointers of a stream are in use *)
Definition in_use (w : world) (s : srtp_stream_ctx_t) : Prop :=
  (rtp_cipher s < brk w ∧ rtcp_cipher s < brk w ∧ rtp_auth s < brk w ∧ rtcp_auth s < brk w ∧
   limit s < brk w)%nat.

(** ... and new since the heap was [w] *)
Definition since (w : world) (s : srtp_stream_ctx_t) : Prop :=
  (brk w <= rtp_cipher s ∧ brk w <= rtcp_cipher s ∧ brk w <= rtp_auth s ∧ brk w <= rtcp_auth s ∧
   brk w <= limit s)%nat.

(** opening a stream up to the choice of its place in the session *)
Lemma open_stream w pol t1 t2 u1 u2 b0 b1 b2 b3 b4 b5 rest key :
  kernel_ready w → stack_ok w → mem w = map Some [b0; b1; b2; b3; b4; b5] ++ rest →
  block_ok b2 → block_ok b5 → policy_types pol t1 t2 u1 u2 → icm_key_mem key →
  returns (tmp ← srtp_stream_alloc pol;
           on_error (srtp_stream_init tmp pol key) (free_stream tmp);; mret tmp) w
    (λ p w', p = brk w ∧ ∃ k' s o1 o2 a1 a2 ci au li, registered k' ∧
      w' = grown w k' (<[p := s]> (streams w)) ci au li (6 + p) rest ∧
      opened w' p pol key t1 t2 u1 u2 s o1 o2 a1 a2 ∧ direction s = dir_unknown ∧
      keeps w w' ∧ in_use w' s ∧ since w s).
Proof.
  intros Hk Hst Hm B2 B5 Hpt Hkey.
  destruct (stream_alloc_grown w (kernel w) (streams w) (ciphers w) (auths w) (limits w) (brk w) pol
    t1 t2 u1 u2 b0 b1 b2 b3 b4 b5 rest Hk Hpt) as (p & w1 & R1 & -> & k' & Hk' & ->).
  rewrite <-Hm, <-grown_id in R1. set (n := brk w) in *. step_with ltac:(exact R1).
  set (s := alloc_stream n (b_stream b0)). set (w1 := grown w k' _ _ _ _ _ _).
  set (o1 := new_cipher t1 (p_rtp pol) b1). set (o2 := new_cipher t2 (p_rtcp pol) b4).
  set (a1 := new_auth u1 (p_rtp pol) b2). set (a2 := new_auth u2 (p_rtcp pol) b5).
  destruct Hpt as [C1 C2 A1 A2].
  destruct (new_auth_fresh u1 (p_rtp pol) b2 A1 B2) as [F1 T1].
  destruct (new_auth_fresh u2 (p_rtcp pol) b5 A2 B5) as [F2 T2].
  assert (allocated w1 n s o1 o2 a1 a2 (b_limit b3)) as Hal.
  { split; unfold w1; norm; cbn [s alloc_stream set_rtcp_auth set_rtcp_cipher set_limit set_rtp_auth
      set_rtp_cipher rtp_cipher rtcp_cipher rtp_auth rtcp_auth limit];
      rewrite ?lookup_insert_eq; try done; try lia.
    - rewrite lookup_insert_ne by lia. apply lookup_insert_eq.
    - rewrite lookup_insert_ne by lia. apply lookup_insert_eq. }
  destruct (stream_init_spec w1 n s o1 o2 a1 a2 (b_limit b3) pol key Hal (new_cipher_fresh _ _ _ C1)
    (new_cipher_fresh _ _ _ C2) F1 F2 Hkey Hst)
    as ([] & w2 & R2 & o1' & o2' & a1' & a2' & -> & [So1 So2 Sa1 Sa2 D1 D2 K1 K2]).
  step_with ltac:(apply runs_on_error; exact R2). eapply returns_intro; [apply runs_ret|].
  split; [done|].
  eexists k', (fresh_stream s pol), o1', o2', a1', a2', _, _, _. split; [done|]. split.
  { unfold w1, heap, grown. cbn. rewrite (insert_insert_eq (streams w)). reflexivity. }
  unfold obj_shape, auth_shape in So1, So2, Sa1, Sa2. injection So1 as E1 E1'. injection So2 as E2 E2'.
  injection Sa1 as E3 E5 E7 E9. injection Sa2 as E4 E6 E8 E10.
  split; [|split; [done|split]].
  2: { intros q Hq. unfold w1, heap. cbn. rewrite !lookup_insert_ne by (simpl; lia). done. }
  2: { unfold in_use, since. cbn. lia. }
  split; try done; unfold w1, heap; cbn.
  - apply lookup_insert_eq.
  - rewrite lookup_insert_ne by (simpl; lia). apply lookup_insert_eq.
  - apply lookup_insert_eq.
  - rewrite lookup_insert_ne by (simpl; lia). apply lookup_insert_eq.
  - apply lookup_insert_eq.
  - apply lookup_insert_eq.
  - lia.
  - lia.
  - rewrite E1, E2, E3, E4. unfold o1, o2, a1, a2. by destruct t1, t2, u1, u2.
  - rewrite E7, E8. unfold a1, a2. by destruct u1, u2.
  - unfold auth_fits in *. rewrite E3, E7, E9, E4, E8, E10. done.
  - replace (p_auth_key_len (p_rtp pol)) with (auth_obj_key_length a1); [done|].
    unfold a1. by destruct u1.
  - replace (p_auth_key_len (p_rtcp pol)) with (auth_obj_key_length a2); [done|].
    unfold a2. by destruct u2.
Qed.

Lemma runs_seq {A B} (m : M A) (g : A → M unit) (f : A → M B) w a w1 r w2 :
  runs (x ← m; g x;; mret x) w (inr a) w1 → runs (f a) w1 r w2 → runs (x ← m; g x;; f x) w r w2.
Proof.
  unfold runs, mbind, M_bind. destruct (m w) as [[[e|x] w']|]; try done.
  destruct (g x w') as [[[e|[]] w'']|]; try done. cbn. by intros [= -> ->].
Qed.

Lemma add_specific w c ctx pol t1 t2 u1 u2 b0 b1 b2 b3 b4 b5 rest key :
  kernel_ready w → stack_ok w → mem w = map Some [b0; b1; b2; b3; b4; b5] ++ rest →
  block_ok b2 → block_ok b5 → policy_types pol t1 t2 u1 u2 → icm_key_mem key →
  p_key pol = Some key → p_ssrc_type pol = ssrc_specific → sessions w !! c = Some ctx →
  returns (srtp_add_stream c pol) w (λ _ w', let p := brk w in
    ∃ k' s o1 o2 a1 a2 ci au li, registered k' ∧
      w' = put_sessions (<[c := set_list (Some p) ctx]> (sessions w))
             (grown w k' (<[p := s]> (streams w)) ci au li (6 + p) rest) ∧
      opened w' p pol key t1 t2 u1 u2 s o1 o2 a1 a2 ∧ direction s = dir_unknown ∧
      next s = stream_list ctx ∧ keeps w w' ∧ in_use w' s ∧ since w s).
Proof.
  intros Hk Hst Hm B2 B5 Hpt Hkey Ek Et Hc.
  destruct (open_stream w pol t1 t2 u1 u2 b0 b1 b2 b3 b4 b5 rest key Hk Hst Hm B2 B5 Hpt Hkey)
    as (p & w1 & R & -> & k' & s & o1 & o2 & a1 & a2 & ci & au & li & Hk' & -> & Hop & Hd & Hkeep & Huse & Hsince).
  eapply returns_intro.
  - unfold srtp_add_stream. rewrite Ek. eapply runs_seq; [exact R|]. rewrite Et.
    step_with ltac:(by apply runs_get_ctx).
    step_with ltac:(apply runs_set_stream, lookup_insert_eq). norm.
    by apply runs_set_ctx.
  - cbn zeta. rewrite insert_insert_eq. norm.
    exists k', (set_next (stream_list ctx) s), o1, o2, a1, a2, ci, au, li.
    split; [done|]. split; [done|]. split; [|done]. destruct Hop. split; try done. apply lookup_insert_eq.
Qed.

(** the session of one stream that [srtp_create] makes *)
Lemma create_specific w pol t1 t2 u1 u2 b b0 b1 b2 b3 b4 b5 rest key :
  kernel_ready w → stack_ok w → mem w = map Some [b; b0; b1; b2; b3; b4; b5] ++ rest →
  block_ok b2 → block_ok b5 → policy_types pol t1 t2 u1 u2 → icm_key_mem key →
  p_key pol = Some key → p_ssrc_type pol = ssrc_specific →
  returns (srtp_create [pol]) w (λ c w', ∃ p s o1 o2 a1 a2,
    opened w' p pol key t1 t2 u1 u2 s o1 o2 a1 a2 ∧ direction s = dir_unknown ∧
    sessions w' !! c = Some (mk_ctx (Some p) None) ∧ next s = None ∧ in_use w' s ∧
    (p < brk w')%nat ∧ mem w' = rest ∧ kernel_ready w' ∧
    stack w' = stack w ∧ packet w' = packet w ∧ pkt_octet_len w' = pkt_octet_len w).
Proof.
  intros Hk Hst Hm B2 B5 Hpt Hkey Ek Et. cbn [map app] in Hm. unfold srtp_create.
  step_with ltac:(by eapply runs_crypto_alloc). step.
  set (c := brk w). set (w1 := put_sessions _ _).
  step_with ltac:(apply runs_set_ctx, lookup_insert_eq).
  step_with ltac:(apply runs_set_ctx, lookup_insert_eq). set (w2 := put_sessions _ _).
  destruct (add_specific w2 c (mk_ctx None None) pol t1 t2 u1 u2 b0 b1 b2 b3 b4 b5 rest key)
    as ([] & w3 & R & k' & s & o1 & o2 & a1 & a2 & ci & au & li & Hk' & -> & Hop & Hd & Hn & _ & Huse & _);
    try done.
  { unfold w2, w1. cbn. by rewrite Hm. }
  { apply lookup_insert_eq. }
  eapply returns_bind.
  { cbn [add_streams]. eapply runs_bind; [apply runs_on_error; exact R|]. apply runs_ret. }
  eapply returns_intro; [apply runs_ret|].
  eexists _, s, o1, o2, a1, a2. split; [exact Hop|]. split_and!; try done; cbn.
  - apply lookup_insert_eq.
  - lia.
Qed.

(** what an opened stream is for RTP *)
Lemma opened_rtp w p pol key t1 t2 u1 u2 s o1 o2 a1 a2 :
  opened w p pol key t1 t2 u1 u2 s o1 o2 a1 a2 →
  rtp_stream w p s o1 a1 fresh_limit (session_key key label_rtp_encryption label_rtp_salt)
    (derived key label_rtp_msg_auth (Z.to_nat (p_auth_key_len (p_rtp pol)))).
Proof. intros H. split; apply H. Qed.

Lemma opened_allocated w p pol key t1 t2 u1 u2 s o1 o2 a1 a2 :
  opened w p pol key t1 t2 u1 u2 s o1 o2 a1 a2 → allocated w p s o1 o2 a1 a2 fresh_limit.
Proof. intros H. split; apply H. Qed.

(** every sequence number is accepted by a new database *)
Lemma fresh_accepts seq : is_word 16 seq → ∃ r', accepts (snd rdbx_init) seq seq r'.
Proof.
  intros Hs. unfold is_word in Hs. set (r := snd rdbx_init).
  assert (rdbx_estimate_index r seq = (seq, seq)) as E.
  { unfold r, rdbx_estimate_index. rewrite decide_False by done. cbn. f_equal. apply Z.sub_0_r. }
  destruct (decide (0 < seq)) as [Hpos|Hz].
  - destruct (rdbx_add_forward r seq rdbx_init_wf) as (r' & Ea & _);
      [change seq_num_max with 65536; lia|change (index r) with 0; lia|].
    exists r', seq, err_status_ok. split_and!; [done| |done]. unfold rdbx_check. by rewrite decide_True by lia.
  - assert (seq = 0) as -> by lia. eexists _, 0, err_status_ok. split; [done|]. split; reflexivity.
Qed.

(** ** Properties *)

(** several keys, one after the other, each in an array of its own *)
Fixpoint kdf_all (kdf : aes_icm_ctx_t) (reqs : list (srtp_prf_label * list Z * Z))
  : option (list (list Z)) :=
  match reqs with
  | [] => Some []
  | (label, buf, n) :: reqs =>
      '(kdf, out) ← srtp_kdf_generate 0 kdf label buf n;
      outs ← kdf_all kdf reqs;
      Some (take (Z.to_nat n) out :: outs)
  end.

(** C21: key derivation: after [srtp_kdf_init] with a master key and a master salt, any
    sequence of calls of [srtp_kdf_generate] gives for each label and length the
    session key RFC 3711 derives (section 4.3), whatever the context and the arrays
    held before and in whatever order the keys are asked for. *)
Theorem srtp_kdf_rfc3711 kdf key reqs :
  icm_key_mem key →
  Forall (λ '(label, buf, n), is_bytes buf ∧ 0 < n <= Z.of_nat (length buf) ∧ n <= 0xffff) reqs →
  ∃ kdf', srtp_kdf_init kdf key = Some kdf' ∧
    kdf_all kdf' reqs = Some (map (λ '(label, _, n),
      Rfc3711.derive (master_key key) (master_salt key) (label_val label) (Z.to_nat n)) reqs).
Proof.
  intros Hk Hr. destruct (icm_init_spec kdf key Hk) as (kdf' & E & H & _). exists kdf'.
  unfold srtp_kdf_init. rewrite E. split; [done|]. clear E kdf. revert kdf' H.
  induction Hr as [|[[label buf] n] reqs (Hb & Hn & Hm) _ IH]; intros kdf H; [done|].
  destruct (kdf_generate_spec 0 kdf key label buf n H Hb) as (kdf' & E & H'); [by intros ->; simpl in *; lia|lia..|].
  cbn [kdf_all map]. rewrite E, Some_bind, (IH kdf' H'), Some_bind.
  by rewrite take_app_length' by (by rewrite length_derived).
Qed.

(** the example of RFC 3711, appendix B.3; two octets of memory follow the key *)
Definition rfc_master : list Z := [
  0xe1; 0xf9; 0x7a; 0x0d; 0x3e; 0x01; 0x8b; 0xe0; 0xd6; 0x4f; 0xa3; 0x2c; 0x06; 0xde; 0x41; 0x39;
  0x0e; 0xc6; 0x75; 0xad; 0x49; 0x8a; 0xfe; 0xeb; 0xb6; 0x96; 0x0b; 0x3a; 0xab; 0xe6; 17; 18].

Lemma srtp_kdf_rfc3711_witness :
  ∃ kdf, srtp_kdf_init zero_icm rfc_master = Some kdf ∧
    kdf_all kdf [(label_rtp_encryption, replicate 16 7, 16); (label_rtp_salt, replicate 14 7, 14)] =
    Some [[0xc6; 0x1e; 0x7a; 0x93; 0x74; 0x4f; 0x39; 0xee; 0x10; 0x73; 0x4a; 0xfe; 0x3f; 0xf7; 0xa0; 0x87];
          [0x30; 0xcb; 0xbc; 0x08; 0x86; 0x3d; 0x8c; 0x85; 0xd4; 0x9d; 0xb3; 0x4a; 0x9a; 0xe1]].
Proof.
  destruct (srtp_kdf_rfc3711 zero_icm rfc_master
    [(label_rtp_encryption, replicate 16 7, 16); (label_rtp_salt, replicate 14 7, 14)])
    as (kdf & E1 & E2).
  - split; [eval_dec|vm_compute; lia].
  - repeat apply Forall_cons; try apply Forall_nil; (split; [eval_dec|vm_compute; done]).
  - exists kdf. split; [exact E1|]. rewrite E2. vm_compute. reflexivity.
Defined.

(** the seven blocks a session of one stream takes *)
Definition memory_for_session (w : world) : Prop :=
  ∃ b b0 b1 b2 b3 b4 b5 rest, mem w = map Some [b; b0; b1; b2; b3; b4; b5] ++ rest ∧
    block_ok b2 ∧ block_ok b5.

(** a heap in which SRTP was initialised and there is memory *)
Definition ready (w : world) : Prop := kernel_ready w ∧ stack_ok w ∧ memory_for_session w.

(** the only stream of a session *)
Lemma single_has_stream w c p s :
  sessions w !! c = Some (mk_ctx (Some p) None) → streams w !! p = Some s → next s = None →
  has_stream w c (ssrc s) p ∧ not_template w c p.
Proof.
  intros Hc Hs Hn. split; [|by exists (mk_ctx (Some p) None)].
  exists (mk_ctx (Some p) None), [p]. split; [done|]. split.
  - simpl. split; [done|]. exists s. by rewrite Hn.
  - simpl. unfold has_ssrc. by rewrite Hs, bool_decide_true.
Qed.

Lemma fresh_limit_normal : ∃ l', key_limit_update fresh_limit = (key_event_normal, l').
Proof. by eexists. Qed.

(** the keys of a stream with the default lengths *)
Lemma rfc_session_keys key :
  rfc_keys (session_key key label_rtp_encryption label_rtp_salt) (derived key label_rtp_msg_auth 20) =
  Rfc3711.rtp_keys (master_key key) (master_salt key).
Proof.
  unfold rfc_keys, Rfc3711.rtp_keys.
  by destruct (session_key_parts key label_rtp_encryption label_rtp_salt) as [-> ->].
Qed.

Lemma default_policy_types pol :
  p_rtp pol = crypto_policy_set_rtp_default → p_rtcp pol = crypto_policy_set_rtcp_default →
  policy_types pol Aes_icm Aes_icm Hmac_sha1 Hmac_sha1.
Proof. intros E1 E2. split; rewrite ?E1, ?E2; cbn; split_and!; (done || lia). Qed.

Definition default_policy (pol : srtp_policy_t) (key : list Z) : Prop :=
  p_rtp pol = crypto_policy_set_rtp_default ∧ p_rtcp pol = crypto_policy_set_rtcp_default ∧
  p_ssrc_type pol = ssrc_specific ∧ p_key pol = Some key.

(** the one stream of a session made from the default policy *)
Record default_stream (w : world) (c : nat) (pol : srtp_policy_t) (key : list Z) (p : nat)
    (s : srtp_stream_ctx_t) (ci : cipher_t aes_icm_ctx_t) (ai : auth_t Hmac.hmac_ctx_t) : Prop := {
  ds_stream : rtp_stream w p s (IcmObj ci) (HmacObj ai) fresh_limit
    (session_key key label_rtp_encryption label_rtp_salt) (derived key label_rtp_msg_auth 20);
  ds_has : has_stream w c (bswap32 (p_ssrc_value pol)) p;
  ds_listed : not_template w c p;
  ds_direction : direction s = dir_unknown;
  ds_rdbx : rtp_rdbx s = snd rdbx_init;
  ds_services : rtp_services s = sec_serv_conf_and_auth;
  ds_tag : out_len ai = 10 }.

Lemma create_default w pol key :
  ready w → default_policy pol key → icm_key_mem key →
  ∃ c w' p s ci ai, srtp_create [pol] w = Some (inr c, w') ∧ default_stream w' c pol key p s ci ai ∧
    stack w' = stack w ∧ packet w' = packet w ∧ pkt_octet_len w' = pkt_octet_len w.
Proof.
  intros (Hk & Hst & b & b0 & b1 & b2 & b3 & b4 & b5 & rest & Hm & B2 & B5) (E1 & E2 & Et & Ek) Hkey.
  destruct (create_specific w pol Aes_icm Aes_icm Hmac_sha1 Hmac_sha1 b b0 b1 b2 b3 b4 b5 rest key)
    as (c & w' & R & p & s & o1 & o2 & a1 & a2 & Hop & Hd & Hc & Hn & _ & _ & _ & _ & Hs & Hp & Hl);
    try done; [by apply default_policy_types|].
  destruct (single_has_stream w' c p s Hc) as [H1 H2]; [apply Hop|done|].
  pose proof (opened_rtp _ _ _ _ _ _ _ _ _ _ _ _ _ Hop) as Hr.
  destruct Hop as [_ _ _ _ _ _ _ _ Hss Hrx _ Hsv _ (T1 & _ & T3 & _) (Ht & _) _ _ _ _ _].
  rewrite E1 in Hr, Hsv, Ht. destruct o1 as [|ci|]; try done. destruct a1 as [|ai]; try done.
  exists c, w', p, s, ci, ai. split; [exact R|]. split; [|done]. split; try done. by rewrite <-Hss.
Qed.

Lemma pkt_seq_word w hdr body room : rtp_packet w hdr body room → is_word 16 (pkt_seq hdr).
Proof.
  intros [_ _ Hb Hs _]. apply is_bytes_app in Hb as [Hb _].
  destruct (rtp_hdr_long hdr Hs Hb) as [H12 _]. unfold pkt_seq.
  pose proof (be_val_range (take 2 (drop 2 hdr))) as Hr2.
  rewrite length_take, length_drop, Nat.min_l in Hr2 by lia. apply Hr2. by words.
Qed.

(** C1: two applications with a fresh session each, made by [srtp_create] from the
    default policy with the same master key: the first packet the one sends with
    [srtp_protect] is on the wire the SRTP packet RFC 3711 defines for the session keys
    it derives from the master key, and the other one's [srtp_unprotect] gives back
    header, payload and length. *)
Theorem srtp_end_to_end w v pol key hdr body room :
  ready w → ready v → default_policy pol key → icm_key_mem key →
  rtp_packet w hdr body room → pkt_ssrc hdr = bswap32 (p_ssrc_value pol) →
  (10 <= length room)%nat →
  let wire := Rfc3711.srtp_packet (Rfc3711.rtp_keys (master_key key) (master_salt key)) 10 hdr body
                (pkt_seq hdr) in
  ∃ w' c, (c ← srtp_create [pol]; srtp_protect c;; mret c) w = Some (inr c, w') ∧
    packet w' = wire ++ drop 10 room ∧ pkt_octet_len w' = Z.of_nat (length wire) ∧
    ∃ v' c', (c ← srtp_create [pol]; srtp_unprotect c;; mret c)
               (put_packet (packet w') (put_len (pkt_octet_len w') v)) = Some (inr c', v') ∧
      pkt_octet_len v' = pkt_octet_len w ∧
      take (Z.to_nat (pkt_octet_len w)) (packet v') = hdr ++ body.
Proof.
  intros Hw Hv Hpol Hkey Hpk Hssrc Hroom wire.
  destruct (create_default w pol key Hw Hpol Hkey)
    as (c & w1 & p & s & ci & ai & R1 & [Hst Hhas Hnt Hd Hr Hsv Ht] & _ & Hp1 & Hl1).
  assert (rtp_packet w1 hdr body room) as Hpk1 by (destruct Hpk; split; rewrite ?Hp1, ?Hl1; done).
  pose proof (pkt_seq_word _ _ _ _ Hpk) as H16.
  destruct (fresh_accepts _ H16) as (r' & Hacc). destruct fresh_limit_normal as (l' & Hlim).
  rewrite <-Hssrc in Hhas. rewrite <-Hr in Hacc.
  assert (0 <= pkt_seq hdr < 2 ^ 48) as Hi by (unfold is_word in H16; lia).
  destruct (roundtrip_spec w1 c p s _ _ _ l' _ _ hdr body room _ r' Hhas Hst Hpk1 (or_intror Hd)
    Hlim Hacc) as (w2 & R2 & Hback);
    [cbn; unfold auth_get_tag_length; lia|left; by rewrite Hsv|].
  destruct (protect_rfc w1 c p s ci ai _ l' _ _ hdr body room _ r' Hhas Hst Hpk1 Hsv (or_intror Hd)
    Hlim Hacc Hi) as (w2' & R2' & Ep & El & _); [lia|].
  rewrite R2 in R2'. injection R2' as <-. rewrite Ht, rfc_session_keys in Ep, El.
  exists w2, c. split; [by repeat (eapply runs_bind; [done|])|]. split; [done|]. split; [done|].
  set (v0 := put_packet _ _).
  destruct (create_default v0 pol key Hv Hpol Hkey)
    as (c' & v1 & p' & s' & ci' & ai' & R3 & [Hst' Hhas' Hnt' Hd' Hr' Hsv' Ht'] & Hs' & Hp' & Hl').
  destruct (Hback v1 c' p' s' (IcmObj ci') (HmacObj ai') fresh_limit l' r' Hp' Hl') as (v2 & R4 & E5 & E6); try done.
  - by rewrite Hssrc.
  - split; [congruence|done|done|]. cbn. unfold auth_get_tag_length. congruence.
  - rewrite Hs'. destruct Hv as (_ & [_ Hsl] & _). cbn. lia.
  - by right.
  - by rewrite Hr', <-Hr.
  - exists v2, c'. rewrite <-Hl1. split; [|done]. by repeat (eapply runs_bind; [done|]).
Qed.

(** a heap to try the functions on: the kernel is initialised, there is memory for
    two sessions, and local variables hold some octets *)
Definition demo_kernel : crypto_kernel_t :=
  mk_kernel crypto_kernel_state_secure
    [(AES_128_CBC, Aes_cbc); (AES_128_ICM, Aes_icm); (NULL_CIPHER, Null_cipher)]
    [(HMAC_SHA1, Hmac_sha1); (NULL_AUTH, Null_auth)] [] (λ _, false) (λ _, 0) (λ _, 0).

Definition demo_block : block :=
  mk_block (mk_junk zero_icm zero_cbc junk_block (NullAuth.mk_null_auth 0))
    (mk_key_limit 0 key_state_normal)
    (mk_stream 0 0 0 (snd rdbx_init) 0 0 0 (snd rdb_init) 0 0 dir_unknown None) (mk_ctx None None).

Definition demo_world (pkt : list Z) (len : Z) : world :=
  mk_world demo_kernel ∅ ∅ ∅ ∅ ∅ 1 (replicate 14 (Some demo_block)) (replicate 256 7) zero_icm true []
    pkt len.

Lemma demo_block_ok : block_ok demo_block.
Proof. split; [done|]. split; [eval_dec|done]. Qed.

Lemma demo_ready pkt len : ready (demo_world pkt len).
Proof.
  split; [done|]. split; [split; [eval_dec|vm_compute; lia]|].
  exists demo_block, demo_block, demo_block, demo_block, demo_block, demo_block, demo_block,
    (replicate 7 (Some demo_block)).
  split; [done|]. split; apply demo_block_ok.
Qed.

(** the policy and the packet of the validation test [srtp_validate] in
    [test/srtp_driver.c], and what it expects *)
Definition demo_policy : srtp_policy_t :=
  mk_srtp_policy ssrc_specific 0xcafebabe crypto_policy_set_rtp_default
    crypto_policy_set_rtcp_default (Some rfc_master).

Definition srtp_plaintext_hdr : list Z :=
  [0x80; 0x0f; 0x12; 0x34; 0xde; 0xca; 0xfb; 0xad; 0xca; 0xfe; 0xba; 0xbe].

Definition srtp_ciphertext : list Z :=
  srtp_plaintext_hdr ++
  [0x4e; 0x55; 0xdc; 0x4c; 0xe7; 0x99; 0x78; 0xd8; 0x8c; 0xa4; 0xd2; 0x15; 0x94; 0x9d; 0x24; 0x02;
   0xb7; 0x8d; 0x6a; 0xcc; 0x99; 0xea; 0x17; 0x9b; 0x8d; 0xbb].

Lemma demo_packet n :
  rtp_packet (demo_world (srtp_plaintext_hdr ++ replicate 16 0xab ++ replicate n 0) 28)
    srtp_plaintext_hdr (replicate 16 0xab) (replicate n 0).
Proof.
  split; [done|done| |done|vm_compute; done]. apply is_bytes_app; split; [eval_dec|].
  apply is_bytes_app; split; [eval_dec|]. by apply is_bytes_replicate, word_0.
Qed.

Lemma rfc_master_mem : icm_key_mem rfc_master.
Proof. split; [eval_dec|vm_compute; lia]. Qed.

Lemma srtp_end_to_end_witness :
  let pkt := srtp_plaintext_hdr ++ replicate 16 0xab ++ replicate 10 0 in
  ∃ w' c, (c ← srtp_create [demo_policy]; srtp_protect c;; mret c) (demo_world pkt 28) =
      Some (inr c, w') ∧ packet w' = srtp_ciphertext ∧ pkt_octet_len w' = 38 ∧
    ∃ v' c', (c ← srtp_create [demo_policy]; srtp_unprotect c;; mret c)
               (put_packet (packet w') (put_len (pkt_octet_len w') (demo_world [] 0))) = Some (inr c', v') ∧
      pkt_octet_len v' = 28 ∧ take 28 (packet v') = srtp_plaintext_hdr ++ replicate 16 0xab.
Proof.
  intros pkt.
  destruct (srtp_end_to_end (demo_world pkt 28) (demo_world [] 0) demo_policy rfc_master
    srtp_plaintext_hdr (replicate 16 0xab) (replicate 10 0))
    as (w' & c & R & Ep & El & v' & c' & R' & Ev & Et).
  - apply demo_ready.
  - apply demo_ready.
  - by repeat split.
  - apply rfc_master_mem.
  - apply demo_packet.
  - vm_compute. reflexivity.
  - simpl. lia.
  - exists w', c. split; [exact R|]. split; [rewrite Ep; vm_compute; reflexivity|].
    split; [rewrite El; vm_compute; reflexivity|].
    exists v', c'. split; [exact R'|]. split; [exact Ev|exact Et].
Defined.

(** the same heap with its session, for the properties of single packets *)
Lemma demo_session pkt len :
  ∃ c w p s ci ai, srtp_create [demo_policy] (demo_world pkt len) = Some (inr c, w) ∧
    default_stream w c demo_policy rfc_master p s ci ai ∧ (12 <= length (stack w))%nat ∧
    packet w = pkt ∧ pkt_octet_len w = len.
Proof.
  destruct (create_default (demo_world pkt len) demo_policy rfc_master (demo_ready _ _))
    as (c & w & p & s & ci & ai & R & H & Hs & Hp & Hl); [by repeat split|apply rfc_master_mem|].
  exists c, w, p, s, ci, ai. split; [exact R|]. split; [exact H|]. clear R H. split; [|by rewrite Hp, Hl].
  rewrite Hs. vm_compute. lia.
Qed.

Lemma demo_accepts : ∃ r', accepts (snd rdbx_init) (pkt_seq srtp_plaintext_hdr) 0x1234 r'.
Proof.
  assert (pkt_seq srtp_plaintext_hdr = 0x1234) as -> by (vm_compute; reflexivity).
  apply fresh_accepts. unfold is_word. lia.
Qed.

Lemma demo_packet_in w n :
  packet w = srtp_plaintext_hdr ++ replicate 16 0xab ++ replicate n 0 → pkt_octet_len w = 28 →
  rtp_packet w srtp_plaintext_hdr (replicate 16 0xab) (replicate n 0).
Proof. intros Hp Hl. destruct (demo_packet n). by split; rewrite ?Hp, ?Hl. Qed.

Lemma srtp_protect_rfc3711_witness :
  ∃ c w w', srtp_create [demo_policy]
      (demo_world (srtp_plaintext_hdr ++ replicate 16 0xab ++ replicate 10 0) 28) = Some (inr c, w) ∧
    srtp_protect c w = Some (inr tt, w') ∧ packet w' = srtp_ciphertext ∧ pkt_octet_len w' = 38.
Proof.
  destruct (demo_session (srtp_plaintext_hdr ++ replicate 16 0xab ++ replicate 10 0) 28)
    as (c & w & p & s & ci & ai & R & [Hst Hhas Hnt Hd Hr Hsv Ht] & Hs & Hp & Hl).
  destruct demo_accepts as (r' & Hacc). destruct fresh_limit_normal as (l' & Hlim).
  destruct (srtp_protect_rfc3711 w c p s ci ai fresh_limit l'
    (session_key rfc_master label_rtp_encryption label_rtp_salt) (derived rfc_master label_rtp_msg_auth 20)
    srtp_plaintext_hdr (replicate 16 0xab) (replicate 10 0) 0x1234 r') as (w' & R' & Ep & El & _).
  - exact Hhas.
  - exact Hst.
  - by apply demo_packet_in.
  - exact Hsv.
  - by right.
  - exact Hlim.
  - by rewrite Hr.
  - lia.
  - rewrite Ht. vm_compute. discriminate.
  - exists c, w, w'. split; [exact R|]. split; [exact R'|]. rewrite Ep, El, Ht.
    split; vm_compute; reflexivity.
Defined.

Lemma srtp_roundtrip_witness :
  ∃ c w w' v', srtp_create [demo_policy]
      (demo_world (srtp_plaintext_hdr ++ replicate 16 0xab ++ replicate 10 0) 28) = Some (inr c, w) ∧
    srtp_protect c w = Some (inr tt, w') ∧
    srtp_unprotect c (put_packet (packet w') (put_len (pkt_octet_len w') w)) = Some (inr tt, v') ∧
    pkt_octet_len v' = 28 ∧ take 28 (packet v') = srtp_plaintext_hdr ++ replicate 16 0xab.
Proof.
  destruct (demo_session (srtp_plaintext_hdr ++ replicate 16 0xab ++ replicate 10 0) 28)
    as (c & w & p & s & ci & ai & R & [Hst Hhas Hnt Hd Hr Hsv Ht] & Hs & Hp & Hl).
  apply (conj I) in R.
  destruct demo_accepts as (r' & Hacc). destruct fresh_limit_normal as (l' & Hlim).
  destruct (srtp_roundtrip w c p s (IcmObj ci) (HmacObj ai) fresh_limit l'
    (session_key rfc_master label_rtp_encryption label_rtp_salt) (derived rfc_master label_rtp_msg_auth 20)
    srtp_plaintext_hdr (replicate 16 0xab) (replicate 10 0) 0x1234 r') as (w' & R' & Hback).
  - exact Hhas.
  - exact Hst.
  - by apply demo_packet_in.
  - by right.
  - exact Hlim.
  - by rewrite Hr.
  - cbn. unfold auth_get_tag_length. lia.
  - left. by rewrite Hsv.
  - apply (conj I) in R'. destruct (Hback (put_packet (packet w') (put_len (pkt_octet_len w') w)) c p s (IcmObj ci)
      (HmacObj ai) fresh_limit l' r') as (v' & R2 & E1 & E2); try done.
    + by destruct Hst; split.
    + by right.
    + by rewrite Hr.
    + rewrite Hl in E1, E2. exists c, w, w', v'. split; [exact (proj2 R)|]. split; [exact (proj2 R')|].
      split; [exact R2|]. split; [exact E1|exact E2].
Defined.

(** the packet of the validation test as it is received, and one with another tag *)
Definition demo_body : list Z :=
  [0x4e; 0x55; 0xdc; 0x4c; 0xe7; 0x99; 0x78; 0xd8; 0x8c; 0xa4; 0xd2; 0x15; 0x94; 0x9d; 0x24; 0x02].
Definition demo_tag : list Z := [0xb7; 0x8d; 0x6a; 0xcc; 0x99; 0xea; 0x17; 0x9b; 0x8d; 0xbb].
Definition forged_tag : list Z := [0xb7; 0x8d; 0x6a; 0xcc; 0x99; 0xea; 0x17; 0x9b; 0x8d; 0xba].

Lemma demo_received w tag :
  packet w = srtp_plaintext_hdr ++ demo_body ++ tag → pkt_octet_len w = 38 → is_bytes tag →
  length tag = 10%nat → srtp_packet w srtp_plaintext_hdr demo_body tag [].
Proof.
  intros Hp Hl Hb Ht. split; [by rewrite app_nil_r| | |done|vm_compute; done].
  - rewrite Hl, !length_app, Ht. done.
  - rewrite app_nil_r. apply is_bytes_app; split; [eval_dec|]. apply is_bytes_app; split; [eval_dec|done].
Qed.

(** the right tag, as the object computes it *)
Lemma demo_obj_tag ai :
  out_len ai = 10 →
  obj_tag (HmacObj ai) (derived rfc_master label_rtp_msg_auth 20)
    ((srtp_plaintext_hdr ++ demo_body) ++ take 4 (est_octets 0x1234)) = demo_tag.
Proof.
  intros Ht. unfold obj_tag. cbn [auth_obj_tag_length auth_obj_type type_mac].
  unfold auth_get_tag_length. rewrite Ht. vm_compute. reflexivity.
Qed.

Lemma srtp_replay_refused_witness :
  ∃ c w w', srtp_create [demo_policy] (demo_world (srtp_plaintext_hdr ++ demo_body ++ demo_tag) 38) =
      Some (inr c, w) ∧
    srtp_unprotect c w = Some (inr tt, w') ∧
    let again := put_packet (packet w) (put_len (pkt_octet_len w) w') in
    srtp_unprotect c again = Some (inl err_status_replay_fail, again).
Proof.
  destruct (demo_session (srtp_plaintext_hdr ++ demo_body ++ demo_tag) 38)
    as (c & w & p & s & ci & ai & R & [Hst Hhas Hnt Hd Hr Hsv Ht] & Hs & Hp & Hl).
  apply (conj I) in R.
  destruct demo_accepts as (r' & Hacc). destruct fresh_limit_normal as (l' & Hlim).
  destruct (srtp_replay_refused w c p s (IcmObj ci) (HmacObj ai) fresh_limit l'
    (session_key rfc_master label_rtp_encryption label_rtp_salt) (derived rfc_master label_rtp_msg_auth 20)
    srtp_plaintext_hdr demo_body demo_tag [] 0x1234 r') as (w' & R1 & R2).
  - exact Hhas.
  - exact Hnt.
  - exact Hst.
  - by apply demo_received; [| |eval_dec|].
  - exact Hs.
  - by right.
  - exact Hlim.
  - by rewrite Hr.
  - rewrite Hr. apply rdbx_init_wf.
  - rewrite Hr. eval_dec.
  - rewrite Hr. vm_compute. done.
  - cbn [auth_obj_tag_length]. unfold auth_get_tag_length. by rewrite Ht.
  - intros _. by rewrite demo_obj_tag.
  - exists c, w, w'. split; [exact (proj2 R)|]. split; [exact R1|exact R2].
Defined.

Lemma srtp_forgery_refused_witness :
  ∃ c w w', srtp_create [demo_policy] (demo_world (srtp_plaintext_hdr ++ demo_body ++ forged_tag) 38) =
      Some (inr c, w) ∧
    srtp_unprotect c w = Some (inl err_status_auth_fail, w') ∧ streams w' = streams w.
Proof.
  destruct (demo_session (srtp_plaintext_hdr ++ demo_body ++ forged_tag) 38)
    as (c & w & p & s & ci & ai & R & [Hst Hhas Hnt Hd Hr Hsv Ht] & Hs & Hp & Hl).
  apply (conj I) in R. destruct demo_accepts as (r' & Hacc).
  destruct (srtp_forgery_refused w c p s (IcmObj ci) (HmacObj ai) fresh_limit
    (session_key rfc_master label_rtp_encryption label_rtp_salt) (derived rfc_master label_rtp_msg_auth 20)
    srtp_plaintext_hdr demo_body forged_tag [] 0x1234 r')
    as (w' & o' & a' & R1 & _ & _ & E & _).
  - exact Hhas.
  - exact Hst.
  - by apply demo_received; [| |eval_dec|].
  - exact Hs.
  - by rewrite Hr.
  - cbn [auth_obj_tag_length]. unfold auth_get_tag_length. by rewrite Ht.
  - by rewrite Hsv.
  - rewrite demo_obj_tag by done. discriminate.
  - exists c, w, w'. split; [exact (proj2 R)|]. split; [exact R1|exact E].
Defined.
