(* ===== verification/Srtcp.v ===== *)
(** * SRTP: protected RTCP packets

    What [srtp_protect_rtcp] and [srtp_unprotect_rtcp] do to a packet and to the
    heap: the packet format of RFC 3711 with its index and E flag, the way back,
    replayed and forged packets, and the last index of a key. *)

From stdpp Require Import gmap strings.
From S2P Require Import Prelude Datatypes Replay KeyLimit Sha1 Hmac Cipher Aes AesIcm AesCbc.
From S2P Require Import CryptoKernel Rfc3711 Srtp SrtpObjects SrtpPacket SrtpSession.
Import Rdb Rdbx.

#[local] Opaque AesSpec.cipher AesSpec.key_expansion Hmac.HMAC.

(** ** Views *)

(** a stream with its objects, keyed for RTCP with [k] and [ka] *)
Record rtcp_stream (w : world) (p : nat) (s : srtp_stream_ctx_t) (o : cipher_obj) (a : auth_obj)
    (k ka : list Z) : Prop := {
  cs_stream : streams w !! p = Some s;
  cs_cipher : ciphers w !! rtcp_cipher s = Some o;
  cs_auth : auths w !! rtcp_auth s = Some a;
  cs_keyed : obj_keyed o k;
  cs_auth_keyed : auth_obj_keyed a ka;
  cs_fits : auth_fits a }.

(** the packet of the caller: the fixed header, the rest, and room for the trailer *)
Record rtcp_packet (w : world) (hdr body room : list Z) : Prop := {
  cp_packet : packet w = hdr ++ body ++ room;
  cp_len : pkt_octet_len w = Z.of_nat (length (hdr ++ body));
  cp_bytes : is_bytes (hdr ++ body ++ room);
  cp_hdr : length hdr = 8%nat;
  cp_body : Z.of_nat (length body) <= max_keystream }.

(** the word behind the packet: the E flag and the index *)
Definition trailer_word (conf : bool) (i : Z) : Z := (if conf then SRTCP_E_BIT else 0) ||| i.
Definition trailer (conf : bool) (i : Z) : list Z := be_bytes 4 (trailer_word conf i).

Definition rtcp_body (conf : bool) (o : cipher_obj) (k hdr body : list Z) (i : Z) : list Z :=
  if conf then xor_stream (type_octet (obj_type o) k (rtcp_iv o (pkt_rtcp_ssrc hdr) i)) 0 body
  else body.

(** ** Lemmas on trailers and vectors *)

Lemma trailer_word_range conf i : is_word 32 i → is_word 32 (trailer_word conf i).
Proof.
  intros Hi. unfold trailer_word. destruct conf; [|done]. by apply word_lor.
Qed.

Lemma trailer_word_add conf i :
  0 <= i < 2 ^ 31 → trailer_word conf i = (if conf then SRTCP_E_BIT else 0) + i.
Proof.
  intros Hi. unfold trailer_word, SRTCP_E_BIT. destruct conf; [|done].
  change 0x80000000 with (Z.shiftl 1 31). by rewrite (lor_shiftl_add 31) by (done || lia).
Qed.

Lemma length_srtcp_trailer conf i : length (trailer conf i) = 4%nat.
Proof. apply length_be_bytes. Qed.

Lemma trailer_bytes conf i : is_bytes (trailer conf i).
Proof. apply be_bytes_range. Qed.

(** the octet with the flag *)
Lemma trailer_flag conf i :
  0 <= i < 2 ^ 31 → ∃ e l, trailer conf i = e :: l ∧ bool_decide (e & SRTCP_E_BYTE_BIT ≠ 0) = conf.
Proof.
  intros Hi. eexists _, _. split; [reflexivity|].
  assert (u8 (trailer_word conf i >> 24) & 2 ^ 7 = Z.shiftl (Z.b2z (Z.testbit (trailer_word conf i) 31)) 7)
    as E.
  { apply Z.bits_inj'. intros n Hn. rewrite Z.land_spec, Z.pow2_bits_eqb, wrap_testbit, testbit_shiftr by lia.
    rewrite testbit_shiftl by lia. destruct (Z.eqb_spec 7 n) as [<-|Hne].
    - rewrite Z.sub_diag, Z.b2z_bit0, andb_true_r. reflexivity.
    - rewrite andb_false_r. generalize (Z.testbit (trailer_word conf i) 31). intros b.
      destruct (Z.leb_spec 7 n); [|done]. rewrite andb_true_l. symmetry.
      destruct b; cbn [Z.b2z]; [|apply Z.bits_0].
      apply Z.bits_above_log2; [lia|]. change (Z.log2 1) with 0. lia. }
  change SRTCP_E_BYTE_BIT with (2 ^ 7). cbn [Nat.sub Z.of_nat Z.mul]. 
  change (8 * Z.of_nat 3) with 24. rewrite E.
  assert (Z.testbit (trailer_word conf i) 31 = conf) as ->.
  { rewrite trailer_word_add by done. unfold SRTCP_E_BIT. rewrite Z.testbit_eqb by lia. destruct conf.
    - replace ((0x80000000 + i) / 2 ^ 31) with 1; [done|].
      apply (Z.div_unique _ _ _ i); lia.
    - rewrite Z.div_small by lia. done. }
  by destruct conf.
Qed.

Lemma trailer_index conf i :
  0 <= i < 2 ^ 31 → bswap32 (le_val (trailer conf i)) & SRTCP_INDEX_MASK = i.
Proof.
  intros Hi. assert (is_word 32 (trailer_word conf i)) as Hw
    by (apply trailer_word_range; unfold is_word; lia).
  assert (bswap32 (le_val (trailer conf i)) = trailer_word conf i) as ->.
  { unfold bswap32. rewrite (le_bytes_word _ (trailer_bytes conf i) (length_srtcp_trailer conf i)).
    unfold trailer. rewrite be_val_be_bytes. by apply wrap_small. }
  change SRTCP_INDEX_MASK with (Z.ones 31). rewrite Z.land_ones by lia.
  rewrite trailer_word_add by done. unfold SRTCP_E_BIT. symmetry. apply (Z.mod_unique _ _ (if conf then 1 else 0)).
  - left. lia.
  - destruct conf; lia.
Qed.

(** the two words of the index are the index of RTP in place *)
Lemma rtcp_iv_octets i :
  is_word 32 i → be_bytes 4 (i >> 16) ++ be_bytes 4 (i <<32 16) = est_octets i.
Proof.
  intros Hi. unfold est_octets. rewrite (be_bytes_app 4 4).
  assert (u64 (Z.shiftl i 16) = Z.shiftl i 16) as ->.
  { rewrite wrap_small; [done|]. unfold is_word in *. rewrite Z.shiftl_mul_pow2 by lia. lia. }
  f_equal; [by rewrite Z.shiftr_shiftl_r by lia|].
  rewrite <-(be_bytes_be_val (be_bytes 4 (Z.shiftl i 16))) by apply be_bytes_range.
  by rewrite length_be_bytes, be_val_be_bytes.
Qed.

Lemma rtcp_iv_icm c x i : is_word 32 i → rtcp_iv (IcmObj c) x i = rtp_iv (IcmObj c) x i.
Proof.
  intros Hi. unfold rtcp_iv, rtp_iv. rewrite !decide_True by done. by rewrite rtcp_iv_octets.
Qed.

Lemma rtcp_iv_ok o x i : is_word 32 i → obj_iv_ok o (rtcp_iv o x i).
Proof. intros Hi. destruct o; [done| |done]. rewrite rtcp_iv_icm by done. apply rtp_iv_ok. Qed.

Lemma length_rtcp_body conf o k hdr body i : length (rtcp_body conf o k hdr body i) = length body.
Proof. unfold rtcp_body. destruct conf; [apply length_xor_stream|done]. Qed.

Lemma rtcp_body_bytes conf o k hdr body i :
  obj_keyed o k → is_bytes body → is_bytes (rtcp_body conf o k hdr body i).
Proof.
  intros Hk Hb. unfold rtcp_body. destruct conf; [|done].
  apply xor_stream_bytes; [|done]. intros j. by apply type_octet_range.
Qed.

Lemma rtcp_body_involutive conf o k hdr body i :
  rtcp_body conf o k hdr (rtcp_body conf o k hdr body i) i = body.
Proof. unfold rtcp_body. destruct conf; [apply xor_stream_involutive|done]. Qed.

Lemma rtcp_body_type conf o o' k hdr body i :
  obj_type o' = obj_type o → rtcp_body conf o' k hdr body i = rtcp_body conf o k hdr body i.
Proof. intros Ht. unfold rtcp_body, rtcp_iv. by rewrite Ht. Qed.

(** ** Words of the packet *)

Lemma runs_store_trailer w pre old post off x :
  packet w = pre ++ old ++ post → length old = 4%nat → off = Z.of_nat (length pre) →
  runs (store_trailer off x) w (inr tt) (put_packet (pre ++ be_bytes 4 x ++ post) w).
Proof.
  intros Hp Ho ->. destruct old as [|a [|b [|c [|d [|]]]]]; try done. unfold store_trailer. step.
  rewrite Hp. cbn [app]. rewrite store32_mid. step by runs_lift. rewrite le_bytes_bswap32. done.
Qed.

Lemma runs_trailer w pre x post off :
  packet w = pre ++ x ++ post → length x = 4%nat → off = Z.of_nat (length pre) →
  runs (word32 off) w (inr (le_val x)) w.
Proof.
  intros Hp Hx ->. destruct x as [|a [|b [|c [|d [|]]]]]; try done. by apply (runs_word32 w pre a b c d post).
Qed.

Lemma bswap_be_bytes x : is_word 32 x → bswap32 (le_val (be_bytes 4 x)) = x.
Proof.
  intros Hx. unfold bswap32. rewrite le_bytes_word by (apply be_bytes_range || apply length_be_bytes).
  rewrite be_val_be_bytes. by apply wrap_small.
Qed.

Lemma runs_rtcp_sender w c p hdr x :
  packet w = hdr ++ x → length hdr = 8%nat → has_stream w c (pkt_rtcp_ssrc hdr) p →
  runs (rtcp_sender_stream c) w (inr p) w.
Proof.
  intros Hp Hl (ctx & l & Hc & Hch & Hf). unfold rtcp_sender_stream. step by (runs_rtcp_ssrc w hdr); [lia|].
  step by runs_get_stream_list. rewrite Hf. apply runs_ret.
Qed.

(** ** srtp_protect_rtcp *)

(** the tag over the whole of the packet that was made *)
Lemma runs_rtcp_tag w p a ka m rest tag_len :
  auths w !! p = Some a → auth_obj_keyed a ka → auth_fits a → packet w = m ++ rest →
  is_bytes (m ++ rest) → Z.of_nat (length m) < 2 ^ 27 → tag_len = auth_obj_tag_length a →
  tag_len <= Z.of_nat (length rest) →
  ∃ a', runs (call_auth_start p;; msg ← gets packet;
      call_auth_compute p msg (Z.of_nat (length m)) (Z.of_nat (length m))) w (inr err_status_ok)
      (put_auths (<[p := a']> (auths w))
        (put_packet (m ++ obj_tag a ka m ++ drop (Z.to_nat tag_len) rest) w)) ∧
    auth_shape a' = auth_shape a ∧ auth_obj_keyed a' ka.
Proof.
  intros Ha Hka Hf Hp Hb Hm -> Hr.
  destruct (runs_call_auth_start w p a ka Ha Hka) as (a1 & R1 & S1 & A1).
  set (w1 := put_auths _ w) in R1.
  assert (auth_obj_tag_length a1 = auth_obj_tag_length a) as E1
    by (by unfold auth_shape in S1; injection S1 as _ _ -> _).
  destruct (runs_call_auth_compute w1 p a1 ka [] (packet w1) (Z.of_nat (length m)) m rest)
    as (a2 & R2 & S2 & K2).
  { apply lookup_insert_eq. }
  { done. }
  { by eapply auth_shape_fits. }
  { cbn. by rewrite Hp. }
  { cbn. rewrite Hp, length_app. lia. }
  { simpl. lia. }
  { done. }
  { lia. }
  exists a2. split; [|split; [congruence|done]]. step by R1. step.
  rewrite E1, (auth_shape_tag _ _ _ _ S1) in R2. change (packet w1) with (packet w) in *.
  assert (take (Z.to_nat (Z.of_nat (length m))) (packet w) = m) as Et
    by (by rewrite Nat2Z.id, Hp, take_app_length).
  cbn [app] in R2. rewrite Et in R2. unfold runs in *. rewrite R2. unfold w1. cbn.
  by rewrite insert_insert_eq.
Qed.

Lemma returns_seq3 {A B C D} (m1 : M A) (m2 : M B) (f : B → M C) (g : C → M D) w a w' Q :
  runs (m1;; x ← m2; f x) w (inr a) w' → returns (g a) w' Q →
  returns (m1;; x ← m2; y ← f x; g y) w Q.
Proof.
  intros Hm (d & w'' & Hg & HQ). exists d, w''. split; [|done]. revert Hm Hg. unfold runs, mbind, M_bind.
  destruct (m1 w) as [[[e|x] w1]|]; try done. destruct (m2 w1) as [[[e|y] w2]|]; try done.
  destruct (f y w2) as [[[e|z] w3]|]; try done. by intros [= -> ->].
Qed.

Lemma protect_rtcp_spec w c p s o a k ka hdr body room i r :
  has_stream w c (pkt_rtcp_ssrc hdr) p → rtcp_stream w p s o a k ka → rtcp_packet w hdr body room →
  direction s = dir_srtp_sender ∨ direction s = dir_unknown →
  rdb_increment (rtcp_rdb s) = (err_status_ok, r) → i = rdb_get_value r → is_word 32 i →
  4 + Z.max 1 (auth_obj_tag_length a) <= Z.of_nat (length room) →
  returns (srtp_protect_rtcp c) w (λ _ w',
    let conf := conf_on (rtcp_services s) in
    let m := hdr ++ rtcp_body conf o k hdr body i ++ trailer conf i in
    let tag := obj_tag a ka m in
    ∃ o' a', w' = heap w (<[p := set_rtcp_rdb r (set_direction dir_srtp_sender s)]> (streams w))
         (<[rtcp_cipher s := o']> (ciphers w)) (<[rtcp_auth s := a']> (auths w)) (limits w)
         (m ++ tag ++ drop (length tag) (0 :: drop 5 room)) (Z.of_nat (length (m ++ tag))) ∧
    obj_shape o' = obj_shape o ∧ obj_keyed o' k ∧ auth_shape a' = auth_shape a ∧
    auth_obj_keyed a' ka).
Proof.
  intros Hhas [Hs Ho Ha Hk Hka Hf] [Hp Hlen Hb Hh Hbody] Hdir Hinc Hi Hi32 Hroom.
  pose proof Hb as [Hbh [Hbb Hbr]%is_bytes_app]%is_bytes_app. pose proof Hf as [Hpre Htl].
  destruct (list_split 4 room) as (old & room1 & -> & Hold); [lia|].
  rewrite length_app, Hold in Hroom.
  destruct room1 as [|z room2]; [simpl in Hroom; lia|].
  assert (drop 5 (old ++ z :: room2) = room2) as E5.
  { rewrite drop_app_ge, Hold by lia. done. }
  assert (u32 (Z.of_nat (length (hdr ++ body)) - octets_in_rtcp_header) = Z.of_nat (length body)) as El.
  { rewrite length_app, Hh, wrap_small; unfold is_word, octets_in_rtcp_header, max_keystream in *; lia. }
  assert (4 * uint32s_in_rtcp_header + Z.of_nat (length body) = Z.of_nat (length (hdr ++ body))) as Et
    by (rewrite length_app, Hh; unfold uint32s_in_rtcp_header; lia).
  unfold srtp_protect_rtcp. step. rewrite Hlen, El, Et.
  step by runs_rtcp_sender. step by (runs_check_direction w c p).
  set (s1 := set_direction _ s). set (w1 := put_streams _ w).
  assert (streams w1 !! p = Some s1) as Hs1 by apply lookup_insert_eq. step.
  assert (auths w1 !! rtcp_auth s1 = Some a) as Ha1 by done. step.
  fold (conf_on (rtcp_services s1)). change (rtcp_services s1) with (rtcp_services s).
  set (conf := conf_on (rtcp_services s)).
  step_with ltac:(apply (runs_store_trailer w1 (hdr ++ body) old (z :: room2)); [|done|done];
    by rewrite <-app_assoc). set (w2 := put_packet _ w1).
  change (rtcp_rdb s1) with (rtcp_rdb s). rewrite Hinc.
  assert (streams w2 !! p = Some s1) as Hs2 by done. step. set (w3 := put_streams _ w2). step.
  step_with ltac:(apply (runs_trailer w3 (hdr ++ body) (be_bytes 4 (if conf then SRTCP_E_BIT else 0))
    (z :: room2)); [done|apply length_be_bytes|done]).
  rewrite bswap_be_bytes by (destruct conf; unfold is_word, SRTCP_E_BIT; lia).
  rewrite <-Hi. fold (trailer_word conf i).
  step_with ltac:(apply (runs_store_trailer w3 (hdr ++ body) (be_bytes 4 (if conf then SRTCP_E_BIT else 0))
    (z :: room2)); [done|apply length_be_bytes|done]). set (w4 := put_packet _ w3).
  fold (trailer conf i) in w4.
  assert (packet w4 = hdr ++ body ++ trailer conf i ++ z :: room2) as Hp4 by (by rewrite app_assoc).
  step_with ltac:(eapply (runs_rtcp_ssrc w4 hdr); [done|lia]).
  assert (ciphers w4 !! rtcp_cipher s1 = Some o) as Ho4 by done. step.
  destruct (runs_call_set_iv w4 _ o k _ Ho4 Hk (rtcp_iv_ok o (pkt_rtcp_ssrc hdr) i Hi32))
    as (o1 & R1 & S1 & A1).
  step by R1. step. set (w5 := put_ciphers _ w4). rewrite Hpre.
  destruct (runs_call_output w5 (rtcp_cipher s1) o1 k (rtcp_iv o (pkt_rtcp_ssrc hdr) i) 0
    ((hdr ++ body) ++ trailer conf i) (z :: room2) 0 (lookup_insert_eq _ _ _) A1)
    as (o2 & R2 & S2 & A2).
  { change (packet w5) with (packet w4). by rewrite Hp4, <-!app_assoc. }
  { apply is_bytes_app in Hbr. apply Hbr. }
  { simpl. lia. }
  { done. }
  { unfold max_keystream. lia. }
  assert (Z.of_nat (length ((hdr ++ body) ++ trailer conf i)) =
    Z.of_nat (length (hdr ++ body)) + sizeof_srtcp_trailer) as Em
    by (rewrite (length_app (hdr ++ body)), length_srtcp_trailer; unfold sizeof_srtcp_trailer; lia).
  rewrite Em in R2. step by R2. step. cbn [seq map app Z.to_nat Z.max replicate drop].
  set (w6 := put_ciphers _ _).
  assert (packet w6 = hdr ++ body ++ trailer conf i ++ 0 :: room2) as Hp6
    by (unfold w6; cbn; by rewrite <-!app_assoc).
  assert (is_bytes (0 :: room2)) as Hb2.
  { apply is_bytes_app in Hbr as [_ Hz]. apply Forall_cons_iff in Hz as [_ Hz].
    constructor; [by apply word_0|done]. }
  assert (is_bytes (body ++ trailer conf i ++ 0 :: room2)) as Hb6.
  { apply is_bytes_app; split; [done|]. apply is_bytes_app; split; [apply trailer_bytes|done]. }
  destruct (runs_encrypt_if conf w6 (rtcp_cipher s1) o2 k (rtcp_iv o (pkt_rtcp_ssrc hdr) i) hdr body
    (trailer conf i ++ 0 :: room2) (4 * uint32s_in_rtcp_header) (Z.of_nat (length body))
    (lookup_insert_eq _ _ _) A2 Hp6 Hb6 Hbody) as (o3 & R3 & S3 & K3).
  { intros _. by rewrite Hh. }
  assert (obj_type o2 = obj_type o) as To2
    by (unfold obj_shape in S1, S2; injection S1; injection S2; congruence).
  rewrite To2 in R3. fold (rtcp_body conf o k hdr body i) in R3. set (body' := rtcp_body _ _ _ _ _ _) in *.
  step by R3. set (w7 := put_ciphers _ _).
  assert (packet w7 = (hdr ++ body' ++ trailer conf i) ++ 0 :: room2) as Hp7
    by (unfold w7; cbn; by rewrite <-!app_assoc).
  set (m := hdr ++ body' ++ trailer conf i) in *.
  assert (Z.of_nat (length m) = Z.of_nat (length (hdr ++ body)) + sizeof_srtcp_trailer) as Lm.
  { unfold m. rewrite !length_app, length_srtcp_trailer. unfold body'. rewrite length_rtcp_body.
    unfold sizeof_srtcp_trailer. lia. }
  destruct (runs_rtcp_tag w7 (rtcp_auth s1) a ka m (0 :: room2) (auth_obj_tag_length a) Ha1 Hka Hf Hp7)
    as (a2 & R4 & S4 & K4).
  { apply is_bytes_app; split; [|done]. apply is_bytes_app; split; [done|].
    apply is_bytes_app; split; [by apply rtcp_body_bytes|apply trailer_bytes]. }
  { rewrite Lm, length_app. unfold max_keystream, sizeof_srtcp_trailer in *. lia. }
  { done. }
  { simpl in *. lia. }
  rewrite Lm in R4. eapply returns_seq3; [exact R4|]. step.
  eapply returns_intro; [apply runs_modify|]. exists o3, a2.
  split; [|split_and!; congruence || done].
  assert (Z.of_nat (length (obj_tag a ka m)) = auth_obj_tag_length a) as Lt by (by apply length_obj_tag).
  rewrite E5. replace (Z.to_nat (auth_obj_tag_length a)) with (length (obj_tag a ka m)) by lia.
  assert (Z.of_nat (length (hdr ++ body)) + (auth_obj_tag_length a + sizeof_srtcp_trailer) =
    Z.of_nat (length (m ++ obj_tag a ka m))) as -> by (rewrite (length_app m); lia).
  unfold heap, w7, w6, w5, w4, w3, w2, w1. cbn. by rewrite !insert_insert_eq.
Qed.

(** ** srtp_unprotect_rtcp *)

(** a received packet: header, the rest, the trailer with flag and index, the tag *)
Record srtcp_packet (w : world) (hdr body : list Z) (conf : bool) (i : Z) (tag room : list Z) : Prop := {
  rc_packet : packet w = hdr ++ body ++ trailer conf i ++ tag ++ room;
  rc_len : pkt_octet_len w = Z.of_nat (length (hdr ++ body ++ trailer conf i ++ tag));
  rc_bytes : is_bytes (hdr ++ body ++ trailer conf i ++ tag ++ room);
  rc_hdr : length hdr = 8%nat;
  rc_body : Z.of_nat (length body) <= max_keystream;
  rc_index : 0 <= i < 2 ^ 31 }.

Lemma runs_rtcp_receiver w c p hdr x :
  packet w = hdr ++ x → length hdr = 8%nat → has_stream w c (pkt_rtcp_ssrc hdr) p →
  runs (rtcp_receiver_stream c) w (inr p) w.
Proof.
  intros Hp Hl (ctx & l & Hc & Hch & Hf). unfold rtcp_receiver_stream. step by (runs_rtcp_ssrc w hdr); [lia|].
  step by runs_get_stream_list. rewrite Hf. apply runs_ret.
Qed.

(** the flag is read from the first octet of the trailer *)
Lemma runs_flag w pre conf i post off :
  packet w = pre ++ trailer conf i ++ post → off = Z.of_nat (length pre) → 0 <= i < 2 ^ 31 →
  ∃ e, runs (octet off) w (inr e) w ∧ bool_decide (e & SRTCP_E_BYTE_BIT ≠ 0) = conf.
Proof.
  intros Hp -> Hi. destruct (trailer_flag conf i Hi) as (e & l & E & He). exists e. split; [|done].
  unfold octet. step. apply runs_lift. rewrite Hp, E. unfold aget.
  rewrite (proj2 (Z.leb_le _ _)), Nat2Z.id by lia. by rewrite lookup_app_r, Nat.sub_diag by lia.
Qed.

(** the comparison of the tag, which is over header, data and trailer *)
Lemma runs_rtcp_authenticate w s a ka m tag room len tag_len :
  auths w !! rtcp_auth s = Some a → auth_obj_keyed a ka → auth_fits a → packet w = m ++ tag ++ room →
  is_bytes (m ++ tag ++ room) → Z.of_nat (length m) < 2 ^ 27 →
  tag_len = auth_obj_tag_length a → Z.of_nat (length tag) = tag_len → (12 <= length (stack w))%nat →
  len - tag_len = Z.of_nat (length m) →
  ∃ a', runs (rtcp_authenticate s len tag_len) w
      (if decide (tag = obj_tag a ka m) then inr tt else inl err_status_auth_fail)
      (put_auths (<[rtcp_auth s := a']> (auths w)) w) ∧
    auth_shape a' = auth_shape a ∧ auth_obj_keyed a' ka.
Proof.
  intros Ha Hka Hf Hp Hb Hm -> Ht Hst Hlen. pose proof Hf as [_ Htl].
  unfold rtcp_authenticate. rewrite Hlen. set (p := rtcp_auth s) in *.
  destruct (runs_call_auth_start w p a ka Ha Hka) as (a1 & R1 & S1 & A1).
  set (w1 := put_auths _ w) in R1. set (tmp := take (Z.to_nat SRTP_MAX_TAG_LEN) (stack w1)).
  destruct (runs_call_auth_tag w1 p a1 ka [] (packet w1) (Z.of_nat (length m)) tmp) as (a2 & R2 & S2 & K2).
  { apply lookup_insert_eq. }
  { done. }
  { by eapply auth_shape_fits. }
  { cbn. by rewrite Hp. }
  { cbn. rewrite Hp, length_app. lia. }
  { simpl. lia. }
  { unfold tmp. rewrite length_take. change (Z.to_nat SRTP_MAX_TAG_LEN) with 12%nat.
    change (stack w1) with (stack w). lia. }
  assert (take (Z.to_nat (Z.of_nat (length m))) (packet w1) = m) as Et
    by (cbn; by rewrite Nat2Z.id, Hp, take_app_length).
  cbn [app] in R2. rewrite Et, (auth_shape_tag _ _ _ _ S1) in R2. set (good := obj_tag a ka m) in *.
  assert (Z.of_nat (length good) = auth_obj_tag_length a) as Lg by (by apply length_obj_tag).
  exists a2. split; [|split; [congruence|done]]. step by R1. step. step. step by R2. step.
  set (w2 := put_auths _ w1).
  assert (w2 = put_auths (<[p := a2]> (auths w)) w) as <-.
  { unfold w2, w1. cbn. by rewrite !insert_insert_eq. }
  assert (length tag = length good) as Lt by lia.
  pose proof (runs_check_tag w2 m tag room (good ++ drop (Z.to_nat (auth_obj_tag_length a1)) tmp)
    (Z.of_nat (length m)) (auth_obj_tag_length a) Hp eq_refl (eq_sym Ht)) as R3.
  rewrite Lt, take_app_length, length_app in R3. specialize (R3 ltac:(lia)).
  destruct (decide (tag = good)) as [E|E].
  - by rewrite decide_True in R3.
  - by rewrite decide_False in R3 by done.
Qed.

(** what the trailer says of a packet, and where it is *)
Lemma srtcp_packet_places w hdr body conf i tag room tag_len :
  srtcp_packet w hdr body conf i tag room → Z.of_nat (length tag) = tag_len →
  pkt_octet_len w - (tag_len + sizeof_srtcp_trailer) = Z.of_nat (length (hdr ++ body)) ∧
  pkt_octet_len w - tag_len = Z.of_nat (length (hdr ++ body ++ trailer conf i)) ∧
  u32 (pkt_octet_len w - (octets_in_rtcp_header + tag_len + sizeof_srtcp_trailer)) =
    Z.of_nat (length body).
Proof.
  intros [_ Hl _ Hh Hb _] <-. rewrite Hl, !length_app, Hh, length_srtcp_trailer.
  unfold sizeof_srtcp_trailer, octets_in_rtcp_header, max_keystream in *.
  split; [lia|]. split; [lia|]. rewrite wrap_small; unfold is_word; lia.
Qed.

(** the steps of [srtp_unprotect_rtcp] up to the check of the index *)
Ltac rtcp_front w c hdr body Hpk Htl conf i tag room :=
  destruct (srtcp_packet_places _ _ _ _ _ _ _ _ Hpk Htl) as (E1 & E2 & E3);
  pose proof Hpk as [Hp Hlen Hb Hh Hbody Hi];
  unfold srtp_unprotect_rtcp; step; step by runs_rtcp_receiver; step; step;
  rewrite E1, E2, E3;
  destruct (runs_flag w (hdr ++ body) conf i (tag ++ room) (Z.of_nat (length (hdr ++ body))))
    as (flag & Re & He); [by rewrite Hp, <-app_assoc|done|done|]; step by Re; rewrite He;
  step_with ltac:(eapply (runs_trailer w (hdr ++ body) (trailer conf i) (tag ++ room));
    [by rewrite Hp, <-app_assoc|apply length_srtcp_trailer|done]);
  rewrite trailer_index by done.

Lemma unprotect_rtcp_spec w c p s o a k ka hdr body conf i tag room st r' :
  has_stream w c (pkt_rtcp_ssrc hdr) p → not_template w c p → rtcp_stream w p s o a k ka →
  srtcp_packet w hdr body conf i tag room → (12 <= length (stack w))%nat →
  direction s = dir_srtp_receiver ∨ direction s = dir_unknown →
  rdb_check (rtcp_rdb s) i = Some err_status_ok → rdb_add_index (rtcp_rdb s) i = Some (st, r') →
  Z.of_nat (length tag) = auth_obj_tag_length a →
  tag = obj_tag a ka (hdr ++ body ++ trailer conf i) →
  returns (srtp_unprotect_rtcp c) w (λ _ w',
    ∃ o' a', w' = heap w (<[p := set_rtcp_rdb r' (set_direction dir_srtp_receiver s)]> (streams w))
         (<[rtcp_cipher s := o']> (ciphers w)) (<[rtcp_auth s := a']> (auths w)) (limits w)
         (hdr ++ rtcp_body conf o k hdr body i ++ trailer conf i ++ tag ++ room)
         (Z.of_nat (length (hdr ++ body))) ∧
    obj_shape o' = obj_shape o ∧ obj_keyed o' k ∧ auth_shape a' = auth_shape a ∧
    auth_obj_keyed a' ka).
Proof.
  intros Hhas Hnt [Hs Ho Ha Hk Hka Hf] Hpk Hstk Hdir Hchk Hadd Htl Htag.
  rtcp_front w c hdr body Hpk Htl conf i tag room.
  pose proof Hb as [_ Hb2]%is_bytes_app.
  assert (is_word 32 i) as Hi32 by (unfold is_word; lia).
  step. step. step_with ltac:(eapply (runs_rtcp_ssrc w hdr); [done|lia]). step.
  destruct (runs_call_set_iv w _ o k _ Ho Hk (rtcp_iv_ok o (pkt_rtcp_ssrc hdr) i Hi32))
    as (o1 & R1 & S1 & A1). step by R1. step. set (w1 := put_ciphers _ w).
  destruct (runs_rtcp_authenticate w1 s a ka (hdr ++ body ++ trailer conf i) tag room (pkt_octet_len w)
    (auth_obj_tag_length a)) as (a2 & R2 & S2 & K2); try done.
  { change (packet w1) with (packet w). by rewrite Hp, <-!app_assoc. }
  { by rewrite <-!app_assoc. }
  { rewrite !length_app, length_srtcp_trailer. unfold max_keystream in *. lia. }
  rewrite decide_True in R2 by done. step by R2. set (w2 := put_auths _ w1).
  destruct Hf as [Hpre _]. rewrite Hpre. step_with ltac:(rewrite decide_False by tauto; apply runs_ret).
  destruct (runs_encrypt_if conf w2 (rtcp_cipher s) o1 k _ hdr body (trailer conf i ++ tag ++ room)
    (4 * uint32s_in_rtcp_header) (Z.of_nat (length body)) (lookup_insert_eq _ _ _) A1 Hp)
    as (o2 & R3 & S3 & K3); [done|done|intros _; by rewrite Hh|].
  step by R3. set (w3 := put_ciphers _ _). step. set (w4 := put_len _ w3).
  step by (runs_check_direction w4 c p s). set (w5 := put_streams _ w4).
  step by (runs_settle_listed w5 c p). set (s1 := set_direction _ s).
  assert (streams w5 !! p = Some s1) as Hs5 by apply lookup_insert_eq. step.
  step by (runs_lift (rdb_add_index (rtcp_rdb s1) i)).
  eapply returns_intro; [by eapply runs_set_stream|]. exists o2, a2.
  split; [|split_and!; congruence || done].
  assert (rtcp_body conf o k hdr body i =
    if conf then xor_stream (type_octet (obj_type o1) k (rtcp_iv o (pkt_rtcp_ssrc hdr) i)) 0 body
    else body) as ->.
  { unfold rtcp_body, obj_shape in *. by injection S1 as -> _. }
  unfold heap, w5, w4, w3, w2, w1. cbn. by rewrite !insert_insert_eq.
Qed.

(** a wrong tag: nothing changes but the working state of the two objects *)
Lemma unprotect_rtcp_forged w c p s o a k ka hdr body conf i tag room :
  has_stream w c (pkt_rtcp_ssrc hdr) p → rtcp_stream w p s o a k ka →
  srtcp_packet w hdr body conf i tag room → (12 <= length (stack w))%nat →
  rdb_check (rtcp_rdb s) i = Some err_status_ok →
  Z.of_nat (length tag) = auth_obj_tag_length a →
  tag ≠ obj_tag a ka (hdr ++ body ++ trailer conf i) →
  refuses (srtp_unprotect_rtcp c) w err_status_auth_fail (λ w',
    ∃ o' a', w' = heap w (streams w) (<[rtcp_cipher s := o']> (ciphers w))
         (<[rtcp_auth s := a']> (auths w)) (limits w) (packet w) (pkt_octet_len w) ∧
    obj_shape o' = obj_shape o ∧ obj_keyed o' k ∧ auth_shape a' = auth_shape a ∧
    auth_obj_keyed a' ka).
Proof.
  intros Hhas [Hs Ho Ha Hk Hka Hf] Hpk Hstk Hchk Htl Htag.
  rtcp_front w c hdr body Hpk Htl conf i tag room.
  assert (is_word 32 i) as Hi32 by (unfold is_word; lia).
  step. step. step_with ltac:(eapply (runs_rtcp_ssrc w hdr); [done|lia]). step.
  destruct (runs_call_set_iv w _ o k _ Ho Hk (rtcp_iv_ok o (pkt_rtcp_ssrc hdr) i Hi32))
    as (o1 & R1 & S1 & A1). step by R1. step. set (w1 := put_ciphers _ w).
  destruct (runs_rtcp_authenticate w1 s a ka (hdr ++ body ++ trailer conf i) tag room (pkt_octet_len w)
    (auth_obj_tag_length a)) as (a2 & R2 & S2 & K2); try done.
  { change (packet w1) with (packet w). by rewrite Hp, <-!app_assoc. }
  { by rewrite <-!app_assoc. }
  { rewrite !length_app, length_srtcp_trailer. unfold max_keystream in *. lia. }
  rewrite decide_False in R2 by done. eapply refuses_intro; [by apply runs_bind_err|].
  exists o1, a2. split_and!; try done. by eapply obj_at_keyed.
Qed.

(** an index the database does not accept: nothing changes at all *)
Lemma unprotect_rtcp_replayed w c p s a hdr body conf i tag room e :
  has_stream w c (pkt_rtcp_ssrc hdr) p → streams w !! p = Some s →
  auths w !! rtcp_auth s = Some a → srtcp_packet w hdr body conf i tag room →
  Z.of_nat (length tag) = auth_obj_tag_length a →
  rdb_check (rtcp_rdb s) i = Some e → e ≠ err_status_ok →
  runs (srtp_unprotect_rtcp c) w (inl e) w.
Proof.
  intros Hhas Hs Ha Hpk Htl Hchk Hne.
  rtcp_front w c hdr body Hpk Htl conf i tag room.
  step by runs_lift. apply runs_bind_err. by apply runs_check_err.
Qed.

(** ** Properties *)

Lemma rtcp_body_rfc ci k ka hdr body i :
  icm_key_mem k → is_bytes hdr → length hdr = 8%nat → 0 <= i < 2 ^ 31 →
  rtcp_body true (IcmObj ci) k hdr body i =
    Rfc3711.encrypt (rfc_keys k ka) (be_val (take 4 (drop 4 hdr))) i body.
Proof.
  intros Hk Hb Hl Hi. unfold rtcp_body, Rfc3711.encrypt, Rfc3711.cm_octet.
  cbn [obj_type rfc_keys Rfc3711.k_e Rfc3711.k_s]. unfold type_octet.
  rewrite rtcp_iv_icm by (unfold is_word; lia).
  assert (length (take 4 (drop 4 hdr)) = 4%nat) as L4 by (rewrite length_take, length_drop; lia).
  assert (rtp_iv (IcmObj ci) (pkt_rtcp_ssrc hdr) i =
    le_bytes 4 0 ++ take 4 (drop 4 hdr) ++ est_octets i) as ->.
  { unfold rtp_iv. rewrite decide_True by done. do 2 f_equal. apply le_bytes_word; [by words|done]. }
  by rewrite (icm_iv0_rfc k _ i) by
    (done || by words || apply est_octets_bytes || apply length_est_octets || (apply be_val_est; lia) || lia).
Qed.

(** the index an RTCP stream gives to its next packet *)
Lemma rdb_next r :
  0 <= window_start r < 0x7fffffff →
  rdb_increment r = (err_status_ok, mk_rdb (window_start r + 1) (Rdb.bitmask r)) ∧
  0 <= window_start r + 1 < 2 ^ 31.
Proof.
  intros Hr. unfold rdb_increment. rewrite decide_False by lia.
  rewrite wrap_small by (unfold is_word; lia). split; [done|lia].
Qed.

(** an index of the window can always be recorded *)
Lemma rdb_add_in_window r i :
  rdb_wf r → window_start r <= i < window_start r + 128 →
  ∃ st r', rdb_add_index r i = Some (st, r').
Proof.
  intros Hr Hi. pose proof Hr as [Hw Hm]. unfold is_word in Hw. unfold rdb_add_index.
  replace (s32 (u32 (i - window_start r))) with (i - window_start r).
  2: { unfold swrap. rewrite wrap_small by (unfold is_word; lia). rewrite Z.mod_small by lia. lia. }
  rewrite wrap_small, decide_True by (unfold is_word, rdb_bits_in_bitmask; lia).
  destruct (v128_set_bit_val (Rdb.bitmask r) (i - window_start r) Hm) as (m & -> & _); [lia|].
  by eexists _, _.
Qed.

(** the packet that is made, in the terms of RFC 3711 *)
Lemma protect_rtcp_rfc w c p s ci ai k ka hdr body room :
  has_stream w c (pkt_rtcp_ssrc hdr) p → rtcp_stream w p s (IcmObj ci) (HmacObj ai) k ka →
  rtcp_packet w hdr body room → rtcp_services s = sec_serv_conf_and_auth →
  direction s = dir_srtp_sender ∨ direction s = dir_unknown →
  0 <= window_start (rtcp_rdb s) < 0x7fffffff → 1 <= out_len ai →
  4 + out_len ai <= Z.of_nat (length room) →
  let i := window_start (rtcp_rdb s) + 1 in
  let n := Z.to_nat (out_len ai) in
  let pkt := Rfc3711.srtcp_packet (rfc_keys k ka) n hdr body i in
  ∃ w', srtp_protect_rtcp c w = Some (inr tt, w') ∧ packet w' = pkt ++ drop (4 + n) room ∧
    pkt_octet_len w' = Z.of_nat (length pkt) ∧
    streams w' = <[p := set_rtcp_rdb (mk_rdb i (Rdb.bitmask (rtcp_rdb s)))
                          (set_direction dir_srtp_sender s)]> (streams w) ∧
    events w' = events w.
Proof.
  intros Hhas Hst Hpk Hsv Hdir Hws Hn1 Hroom i n pkt.
  destruct (rdb_next _ Hws) as [Hinc Hi].
  destruct (protect_rtcp_spec w c p s _ _ k ka hdr body room i _ Hhas Hst Hpk Hdir Hinc eq_refl)
    as ([] & w' & Hr & o' & a' & -> & _).
  { unfold is_word. lia. }
  { cbn. unfold auth_get_tag_length. lia. }
  eexists. split; [exact Hr|]. cbn [heap packet pkt_octet_len streams events].
  destruct Hst as [_ _ _ [Hk _] _ Hf], Hpk as [_ _ Hb Hh _].
  apply is_bytes_app in Hb as [Hbh _]. rewrite Hsv.
  set (m := hdr ++ rtcp_body _ _ _ _ _ _ ++ _). set (tag := obj_tag _ _ _).
  assert (Z.of_nat (length tag) = out_len ai) as Lt by (by apply length_obj_tag).
  assert (pkt = m ++ tag) as ->.
  { unfold pkt, Rfc3711.srtcp_packet. rewrite <-(rtcp_body_rfc ci k ka hdr body i) by done.
    assert (be_bytes 4 (2 ^ 31 + i) = trailer true i) as ->; [|done].
    unfold trailer. rewrite trailer_word_add by done. done. }
  split_and!; [|done..]. rewrite <-app_assoc. do 2 f_equal. replace n with (length tag) by lia.
  destruct (length tag) as [|j] eqn:Ej; [lia|]. simpl. rewrite drop_drop. done.
Qed.

(** C16: SRTCP: on a stream with AES counter mode and HMAC-SHA1, a tag of at least one
    octet and both services, whose last index is below 2^31 - 1, [srtp_protect_rtcp]
    makes of every RTCP packet of at most 65535 octets behind the header exactly the
    SRTCP packet of RFC 3711 for the next index, with its E flag, index and tag, behind
    which the memory is as before; it reports the new length and moves the stream to
    that index. *)
Theorem srtcp_protect_rfc3711 w c p s ci ai k ka hdr body room :
  has_stream w c (pkt_rtcp_ssrc hdr) p → rtcp_stream w p s (IcmObj ci) (HmacObj ai) k ka →
  rtcp_packet w hdr body room → rtcp_services s = sec_serv_conf_and_auth →
  direction s = dir_srtp_sender ∨ direction s = dir_unknown →
  0 <= window_start (rtcp_rdb s) < 0x7fffffff → 1 <= out_len ai →
  4 + out_len ai <= Z.of_nat (length room) →
  let i := window_start (rtcp_rdb s) + 1 in
  let n := Z.to_nat (out_len ai) in
  let pkt := Rfc3711.srtcp_packet (rfc_keys k ka) n hdr body i in
  ∃ w', srtp_protect_rtcp c w = Some (inr tt, w') ∧ packet w' = pkt ++ drop (4 + n) room ∧
    pkt_octet_len w' = Z.of_nat (length pkt) ∧
    streams w' = <[p := set_rtcp_rdb (mk_rdb i (Rdb.bitmask (rtcp_rdb s)))
                          (set_direction dir_srtp_sender s)]> (streams w) ∧
    events w' = events w.
Proof. apply protect_rtcp_rfc. Qed.

(** C17: what [srtp_protect_rtcp] sends, with an index up to 2^31 - 1,
    [srtp_unprotect_rtcp] of a peer with the same keys gives back, header, data and
    length: with AES counter mode or no cipher, HMAC-SHA1 (a tag of at most 12 octets) or
    no authentication, with or without encryption, when the index was not received and
    lies in the 128 positions of the peer's window. *)
Theorem srtcp_roundtrip w c p s o a k ka hdr body room :
  has_stream w c (pkt_rtcp_ssrc hdr) p → rtcp_stream w p s o a k ka → rtcp_packet w hdr body room →
  direction s = dir_srtp_sender ∨ direction s = dir_unknown →
  0 <= window_start (rtcp_rdb s) < 0x7fffffff →
  4 + Z.max 1 (auth_obj_tag_length a) <= Z.of_nat (length room) →
  let i := window_start (rtcp_rdb s) + 1 in
  ∃ w', srtp_protect_rtcp c w = Some (inr tt, w') ∧
  ∀ v c' p' s' o' a',
    packet v = packet w' → pkt_octet_len v = pkt_octet_len w' →
    has_stream v c' (pkt_rtcp_ssrc hdr) p' → not_template v c' p' → rtcp_stream v p' s' o' a' k ka →
    obj_type o' = obj_type o → auth_obj_type a' = auth_obj_type a →
    auth_obj_tag_length a' = auth_obj_tag_length a → (12 <= length (stack v))%nat →
    direction s' = dir_srtp_receiver ∨ direction s' = dir_unknown →
    rdb_wf (rtcp_rdb s') → rdb_seen (rtcp_rdb s') i = false →
    window_start (rtcp_rdb s') <= i < window_start (rtcp_rdb s') + 128 →
    ∃ v', srtp_unprotect_rtcp c' v = Some (inr tt, v') ∧
      pkt_octet_len v' = pkt_octet_len w ∧
      take (Z.to_nat (pkt_octet_len w)) (packet v') = hdr ++ body.
Proof.
  intros Hhas Hst Hpk Hdir Hws Hroom i. destruct (rdb_next _ Hws) as [Hinc Hi].
  destruct (protect_rtcp_spec w c p s o a k ka hdr body room i _ Hhas Hst Hpk Hdir Hinc eq_refl)
    as ([] & w' & Hr & o1 & a1 & -> & _); [unfold is_word; lia|done|].
  eexists. split; [exact Hr|].
  intros v c' p' s' o' a' Hpv Hlv Hhas' Hnt Hst' Ho Ha Ht Hstk Hdir' Hwf Hseen Hwin.
  cbn [heap packet pkt_octet_len] in Hpv, Hlv. set (conf := conf_on _) in *.
  set (body' := rtcp_body _ _ _ _ _ _) in *. set (tag := obj_tag _ _ _) in *.
  assert (Z.of_nat (length tag) = auth_obj_tag_length a) as Lt by (by apply length_obj_tag, Hst).
  pose proof Hst as [_ _ _ Hk _ _]. destruct Hpk as [Hp Hlen Hb Hh Hbl].
  assert (length body' = length body) as Lb by apply length_rtcp_body.
  apply is_bytes_app in Hb as [Bh [Bb Br]%is_bytes_app].
  destruct (rdb_add_in_window (rtcp_rdb s') i Hwf Hwin) as (st & r' & Hadd).
  pose proof (rdb_check_window _ _ Hwf Hwin) as Hchk. rewrite Hseen in Hchk.
  set (room' := drop (length tag) (0 :: drop 5 room)) in *.
  destruct (unprotect_rtcp_spec v c' p' s' o' a' k ka hdr body' conf i tag room' st r')
    as ([] & v' & Hr' & o2 & a2 & -> & _); try done.
  { split; [by rewrite Hpv, <-!app_assoc|by rewrite Hlv, <-!app_assoc| |done|lia|done].
    apply is_bytes_app; split; [done|]. apply is_bytes_app; split; [by apply rtcp_body_bytes|].
    apply is_bytes_app; split; [apply trailer_bytes|].
    apply is_bytes_app; split; [apply obj_tag_bytes|]. unfold room'. apply is_bytes_drop.
    constructor; [by apply word_0|by apply is_bytes_drop]. }
  { lia. }
  { by rewrite (obj_tag_types a a') by done. }
  eexists. split; [exact Hr'|]. cbn [heap packet pkt_octet_len].
  rewrite (rtcp_body_type _ o o') by done. unfold body' at 2.
  rewrite rtcp_body_involutive, Hlen, !length_app, Lb. split; [done|].
  by rewrite Nat2Z.id, <-length_app, app_assoc, take_app_length.
Qed.

(** SRTCP packets that are refused: an index the database does not accept is
    reported with nothing changed; a packet with a wrong tag is reported with
    [err_status_auth_fail], and the packet, its length, the streams with their
    databases and directions and the sessions are as before, no event is reported,
    and the stream is still keyed. *)
Theorem srtcp_refused w c p s o a k ka hdr body conf i tag room e :
  has_stream w c (pkt_rtcp_ssrc hdr) p → rtcp_stream w p s o a k ka →
  srtcp_packet w hdr body conf i tag room → (12 <= length (stack w))%nat →
  Z.of_nat (length tag) = auth_obj_tag_length a → rdb_check (rtcp_rdb s) i = Some e →
  (e ≠ err_status_ok → srtp_unprotect_rtcp c w = Some (inl e, w)) ∧
  (e = err_status_ok → tag ≠ obj_tag a ka (hdr ++ body ++ trailer conf i) →
   ∃ w' o' a', srtp_unprotect_rtcp c w = Some (inl err_status_auth_fail, w') ∧
     packet w' = packet w ∧ pkt_octet_len w' = pkt_octet_len w ∧ streams w' = streams w ∧
     sessions w' = sessions w ∧ events w' = events w ∧
     rtcp_stream w' p s o' a' k ka ∧ obj_type o' = obj_type o ∧ auth_shape a' = auth_shape a).
Proof.
  intros Hhas Hst Hpk Hstk Htl Hchk. split.
  - intros Hne. by eapply unprotect_rtcp_replayed; [|apply Hst|apply Hst| | | |].
  - intros -> Htag.
    destruct (unprotect_rtcp_forged w c p s o a k ka hdr body conf i tag room Hhas Hst Hpk Hstk Hchk Htl
      Htag) as (w' & Hr & o' & a' & -> & So & Ko & Sa & Ka).
    destruct Hst as [Hs Ho Ha Hk Hka Hf].
    eexists _, o', a'. split; [exact Hr|]. cbn [heap]. split_and!; try done.
    + split; cbn; try done; [by rewrite lookup_insert_eq..|]. by eapply auth_shape_fits.
    + unfold obj_shape in So. by injection So.
Qed.

(** C37: the last packet of a key: after 2^31 - 1 packets [srtp_protect_rtcp] still
    succeeds, though the index has no room in its 31 bits: the packet is sent with
    the index 0 and marked as encrypted, also when the stream does not encrypt. *)
Theorem srtcp_last_index_wraps w c p s o a k ka hdr body room :
  has_stream w c (pkt_rtcp_ssrc hdr) p → rtcp_stream w p s o a k ka → rtcp_packet w hdr body room →
  direction s = dir_srtp_sender ∨ direction s = dir_unknown →
  window_start (rtcp_rdb s) = 0x7fffffff →
  4 + Z.max 1 (auth_obj_tag_length a) <= Z.of_nat (length room) →
  let m := hdr ++ rtcp_body (conf_on (rtcp_services s)) o k hdr body (2 ^ 31) ++ trailer true 0 in
  ∃ w' rest, srtp_protect_rtcp c w = Some (inr tt, w') ∧
    packet w' = m ++ obj_tag a ka m ++ rest ∧
    pkt_octet_len w' = Z.of_nat (length (m ++ obj_tag a ka m)).
Proof.
  intros Hhas Hst Hpk Hdir Hws Hroom m.
  assert (rdb_increment (rtcp_rdb s) = (err_status_ok, mk_rdb (2 ^ 31) (Rdb.bitmask (rtcp_rdb s)))) as Hinc.
  { unfold rdb_increment. rewrite Hws. done. }
  destruct (protect_rtcp_spec w c p s o a k ka hdr body room (2 ^ 31) _ Hhas Hst Hpk Hdir Hinc eq_refl)
    as ([] & w' & Hr & o1 & a1 & -> & _); [unfold is_word; lia|done|].
  eexists _, _. split; [exact Hr|]. cbn [heap packet pkt_octet_len].
  assert (trailer (conf_on (rtcp_services s)) (2 ^ 31) = trailer true 0) as ->; [|done].
  unfold trailer, trailer_word. by destruct (conf_on _).
Qed.

(** ** The properties on a session *)

Lemma opened_rtcp w p pol key t1 t2 u1 u2 s o1 o2 a1 a2 :
  opened w p pol key t1 t2 u1 u2 s o1 o2 a1 a2 →
  rtcp_stream w p s o2 a2 (session_key key label_rtcp_encryption label_rtcp_salt)
    (derived key label_rtcp_msg_auth (Z.to_nat (p_auth_key_len (p_rtcp pol)))).
Proof. intros H. split; apply H. Qed.

(** a session made with the policy of the validation test, for RTCP *)
Record demo_rtcp (w : world) (c p : nat) (s : srtp_stream_ctx_t) (ci : cipher_t aes_icm_ctx_t)
    (ai : auth_t Hmac.hmac_ctx_t) : Prop := {
  dr_stream : rtcp_stream w p s (IcmObj ci) (HmacObj ai)
    (session_key rfc_master label_rtcp_encryption label_rtcp_salt) (derived rfc_master label_rtcp_msg_auth 20);
  dr_has : has_stream w c (bswap32 0xcafebabe) p;
  dr_listed : not_template w c p;
  dr_direction : direction s = dir_unknown;
  dr_rdb : rtcp_rdb s = snd rdb_init;
  dr_services : rtcp_services s = sec_serv_conf_and_auth;
  dr_tag : out_len ai = 10;
  dr_stack : (12 <= length (stack w))%nat }.

Lemma demo_rtcp_session pkt len :
  ∃ c w p s ci ai, srtp_create [demo_policy] (demo_world pkt len) = Some (inr c, w) ∧
    demo_rtcp w c p s ci ai ∧ packet w = pkt ∧ pkt_octet_len w = len.
Proof.
  destruct (demo_ready pkt len) as (Hk & Hst & b & b0 & b1 & b2 & b3 & b4 & b5 & rest & Hm & B2 & B5).
  destruct (create_specific (demo_world pkt len) demo_policy Aes_icm Aes_icm Hmac_sha1 Hmac_sha1
    b b0 b1 b2 b3 b4 b5 rest rfc_master Hk Hst Hm B2 B5)
    as (c & w & R & p & s & o1 & o2 & a1 & a2 & Hop & Hd & Hc & Hn & _ & _ & _ & _ & Hs & Hp & Hl);
    [by apply default_policy_types|apply rfc_master_mem|reflexivity|reflexivity|].
  exists c, w, p, s. apply (conj I) in R.
  destruct (single_has_stream w c p s Hc) as [H1 H2]; [apply Hop|done|].
  pose proof (opened_rtcp _ _ _ _ _ _ _ _ _ _ _ _ _ Hop) as Hr.
  destruct Hop as [_ _ _ _ _ _ _ _ Hss _ Hrx _ Hsv (_ & T2 & _ & T4) (_ & Ht) _ _ _ _ _].
  destruct o2 as [|ci|]; try done. destruct a2 as [|ai]; try done.
  exists ci, ai. split; [exact (proj2 R)|]. clear R. split; [|done].
  split; try done; [by rewrite Hss in H1|]. rewrite Hs. vm_compute. lia.
Qed.

(** a sender report of 28 octets, with room behind it, and what is sent *)
Definition rtcp_hdr : list Z := [0x80; 0xc8; 0; 6; 0xca; 0xfe; 0xba; 0xbe].

Lemma demo_rtcp_packet w :
  packet w = rtcp_hdr ++ replicate 20 0xab ++ replicate 16 0 → pkt_octet_len w = 28 →
  rtcp_packet w rtcp_hdr (replicate 20 0xab) (replicate 16 0).
Proof. intros Hp Hl. split; [done|by rewrite Hl|eval_dec|done|vm_compute; done]. Qed.

Lemma srtcp_protect_rfc3711_witness :
  ∃ c w w', srtp_create [demo_policy]
      (demo_world (rtcp_hdr ++ replicate 20 0xab ++ replicate 16 0) 28) = Some (inr c, w) ∧
    srtp_protect_rtcp c w = Some (inr tt, w') ∧ pkt_octet_len w' = 42 ∧
    take 42 (packet w') = Rfc3711.srtcp_packet
      (Rfc3711.rtcp_keys (master_key rfc_master) (master_salt rfc_master)) 10 rtcp_hdr (replicate 20 0xab) 1.
Proof.
  destruct (demo_rtcp_session (rtcp_hdr ++ replicate 20 0xab ++ replicate 16 0) 28)
    as (c & w & p & s & ci & ai & R & [Hst Hhas Hnt Hd Hr Hsv Ht Hs] & Hp & Hl).
  destruct (srtcp_protect_rfc3711 w c p s ci ai
    (session_key rfc_master label_rtcp_encryption label_rtcp_salt) (derived rfc_master label_rtcp_msg_auth 20)
    rtcp_hdr (replicate 20 0xab) (replicate 16 0)) as (w' & R' & Ep & El & _).
  - exact Hhas.
  - exact Hst.
  - exact (demo_rtcp_packet w Hp Hl).
  - exact Hsv.
  - right. exact Hd.
  - rewrite Hr. vm_compute. split; [discriminate|reflexivity].
  - lia.
  - rewrite Ht. vm_compute. discriminate.
  - exists c, w, w'. split; [exact R|]. split; [exact R'|]. rewrite Ep, El, Hr, Ht.
    split; vm_compute; reflexivity.
Defined.

Lemma srtcp_roundtrip_witness :
  ∃ c w w' v', srtp_create [demo_policy]
      (demo_world (rtcp_hdr ++ replicate 20 0xab ++ replicate 16 0) 28) = Some (inr c, w) ∧
    srtp_protect_rtcp c w = Some (inr tt, w') ∧
    srtp_unprotect_rtcp c (put_packet (packet w') (put_len (pkt_octet_len w') w)) = Some (inr tt, v') ∧
    pkt_octet_len v' = 28 ∧ take 28 (packet v') = rtcp_hdr ++ replicate 20 0xab.
Proof.
  destruct (demo_rtcp_session (rtcp_hdr ++ replicate 20 0xab ++ replicate 16 0) 28)
    as (c & w & p & s & ci & ai & R & [Hst Hhas Hnt Hd Hr Hsv Ht Hs] & Hp & Hl).
  apply (conj I) in R.
  destruct (srtcp_roundtrip w c p s (IcmObj ci) (HmacObj ai)
    (session_key rfc_master label_rtcp_encryption label_rtcp_salt) (derived rfc_master label_rtcp_msg_auth 20)
    rtcp_hdr (replicate 20 0xab) (replicate 16 0)) as (w' & R' & Hback).
  - exact Hhas.
  - exact Hst.
  - exact (demo_rtcp_packet w Hp Hl).
  - right. exact Hd.
  - rewrite Hr. vm_compute. split; [discriminate|reflexivity].
  - cbn. unfold auth_get_tag_length. rewrite Ht. vm_compute. discriminate.
  - apply (conj I) in R'.
    destruct (Hback (put_packet (packet w') (put_len (pkt_octet_len w') w)) c p s (IcmObj ci) (HmacObj ai))
      as (v' & R2 & E1 & E2); try reflexivity.
    + exact Hhas.
    + exact Hnt.
    + destruct Hst. split; assumption.
    + exact Hs.
    + right. exact Hd.
    + rewrite Hr. apply rdb_init_wf.
    + rewrite Hr. vm_compute. reflexivity.
    + rewrite Hr. vm_compute. split; [discriminate|reflexivity].
    + rewrite Hl in E1, E2. exists c, w, w', v'. split; [exact (proj2 R)|]. split; [exact (proj2 R')|].
      split; [exact R2|]. split; [exact E1|exact E2].
Defined.

Lemma srtcp_refused_witness :
  ∃ c w w', srtp_create [demo_policy]
      (demo_world (rtcp_hdr ++ replicate 20 0xab ++ [0x80; 0; 0; 1] ++ replicate 10 0) 42) = Some (inr c, w) ∧
    srtp_unprotect_rtcp c w = Some (inl err_status_auth_fail, w') ∧ streams w' = streams w.
Proof.
  destruct (demo_rtcp_session (rtcp_hdr ++ replicate 20 0xab ++ [0x80; 0; 0; 1] ++ replicate 10 0) 42)
    as (c & w & p & s & ci & ai & R & [Hst Hhas Hnt Hd Hr Hsv Ht Hs] & Hp & Hl).
  apply (conj I) in R.
  destruct (srtcp_refused w c p s (IcmObj ci) (HmacObj ai)
    (session_key rfc_master label_rtcp_encryption label_rtcp_salt) (derived rfc_master label_rtcp_msg_auth 20)
    rtcp_hdr (replicate 20 0xab) true 1 (replicate 10 0) [] err_status_ok) as [_ H].
  - exact Hhas.
  - exact Hst.
  - split; [by rewrite Hp|by rewrite Hl|eval_dec|done|vm_compute; done|lia].
  - exact Hs.
  - cbn. unfold auth_get_tag_length. rewrite Ht. reflexivity.
  - rewrite Hr. vm_compute. reflexivity.
  - destruct H as (w' & o' & a' & R1 & _ & _ & E & _).
    + reflexivity.
    + unfold obj_tag. cbn [auth_obj_tag_length auth_obj_type type_mac]. unfold auth_get_tag_length.
      rewrite Ht. vm_compute. discriminate.
    + exists c, w, w'. split; [exact (proj2 R)|]. split; [exact R1|exact E].
Defined.

Lemma srtcp_last_index_wraps_witness :
  ∃ c w p s w' rest, srtp_create [demo_policy]
      (demo_world (rtcp_hdr ++ replicate 20 0xab ++ replicate 16 0) 28) = Some (inr c, w) ∧
    streams w !! p = Some s ∧
    srtp_protect_rtcp c (put_streams (<[p := set_rtcp_rdb (mk_rdb 0x7fffffff (v128_set_to_zero [])) s]>
                                        (streams w)) w) = Some (inr tt, w') ∧
    drop 28 (packet w') = [0x80; 0; 0; 0] ++ rest.
Proof.
  destruct (demo_rtcp_session (rtcp_hdr ++ replicate 20 0xab ++ replicate 16 0) 28)
    as (c & w & p & s & ci & ai & R & [Hst Hhas Hnt Hd Hr Hsv Ht Hs] & Hp & Hl).
  apply (conj I) in R.
  set (s1 := set_rtcp_rdb (mk_rdb 0x7fffffff (v128_set_to_zero [])) s).
  set (v := put_streams (<[p := s1]> (streams w)) w).
  destruct (srtcp_last_index_wraps v c p s1 (IcmObj ci) (HmacObj ai)
    (session_key rfc_master label_rtcp_encryption label_rtcp_salt) (derived rfc_master label_rtcp_msg_auth 20)
    rtcp_hdr (replicate 20 0xab) (replicate 16 0)) as (w' & rest & R' & Ep & _).
  - by eapply (has_stream_update w v c _ p p s s1); [exact Hhas|apply Hst| | | |].
  - destruct Hst. split; try assumption. apply lookup_insert_eq.
  - exact (demo_rtcp_packet v Hp Hl).
  - right. exact Hd.
  - reflexivity.
  - cbn. unfold auth_get_tag_length. rewrite Ht. vm_compute. discriminate.
  - eexists c, w, p, s, w', _. split; [exact (proj2 R)|]. split; [apply Hst|]. split; [exact R'|].
    rewrite Ep. set (b := rtcp_body _ _ _ _ _ _).
    assert (length (rtcp_hdr ++ b) = 28%nat) as L by (rewrite length_app; unfold b; by rewrite length_rtcp_body).
    rewrite (app_assoc rtcp_hdr), <-app_assoc, drop_app_length' by (symmetry; exact L). reflexivity.
Defined.
