(* ===== verification/SrtpTemplate.v ===== *)
(** * SRTP: sources that are not known yet

    A session with a template accepts packets of any source: the template serves the
    first packet, and when that passes a stream for the source is cloned from it
    ([srtp_stream_clone]), which shares the template's ciphers, authentication
    functions and key limit. *)

From stdpp Require Import gmap strings.
From S2P Require Import Prelude Datatypes Replay KeyLimit Sha1 Hmac Cipher Aes AesIcm AesCbc.
From S2P Require Import CryptoKernel Rfc3711 Srtp SrtpObjects SrtpPacket SrtpSession.
Import Rdb Rdbx.

#[local] Opaque AesSpec.cipher AesSpec.key_expansion Hmac.HMAC.

(** the clone of a template for a source *)
Definition clone_of (t : srtp_stream_ctx_t) (x : Z) (nx : option nat) : srtp_stream_ctx_t :=
  mk_stream x (rtp_cipher t) (rtp_auth t) (snd rdbx_init) (rtp_services t) (rtcp_cipher t)
    (rtcp_auth t) (snd rdb_init) (rtcp_services t) (limit t) (direction t) nx.

Lemma stream_clone_spec w t ts x b rest :
  streams w !! t = Some ts → t ≠ brk w → mem w = Some b :: rest →
  runs (srtp_stream_clone t x) w (inr (brk w))
    (put_streams (<[brk w := clone_of ts x None]> (streams w)) (next_block w)).
Proof.
  intros Ht Hne Hm. unfold srtp_stream_clone. step by runs_crypto_alloc. step.
  set (w1 := put_streams _ _).
  assert (streams w1 !! t = Some ts) as Ht1 by (unfold w1; cbn; by rewrite lookup_insert_ne). step.
  step_with ltac:(apply runs_set_stream, lookup_insert_eq). cbn [key_limit_clone]. step. step.
  step_with ltac:(apply runs_set_stream, lookup_insert_eq).
  step_with ltac:(apply runs_set_stream, lookup_insert_eq).
  step_with ltac:(apply runs_set_stream, lookup_insert_eq).
  step_with ltac:(apply runs_set_stream, lookup_insert_eq).
  step_with ltac:(apply runs_set_stream, lookup_insert_eq).
  unfold runs, mret, M_ret, w1. cbn. do 2 f_equal. by rewrite !insert_insert_eq.
Qed.

(** ... at the head of the list *)
Lemma clone_template_spec w c ctx t ts x b rest :
  sessions w !! c = Some ctx → stream_template ctx = Some t → streams w !! t = Some ts →
  t ≠ brk w → mem w = Some b :: rest →
  runs (clone_template c x) w (inr (brk w))
    (put_sessions (<[c := set_list (Some (brk w)) ctx]> (sessions w))
      (put_streams (<[brk w := clone_of ts x (stream_list ctx)]> (streams w)) (next_block w))).
Proof.
  intros Hc Ht Hs Hne Hm. unfold clone_template. step. rewrite Ht. step by stream_clone_spec.
  set (w1 := put_streams _ _). unfold push_stream.
  assert (sessions w1 !! c = Some ctx) as Hc1 by done.
  eapply runs_bind; [|apply runs_ret]. step.
  step_with ltac:(apply runs_set_stream, lookup_insert_eq). set (w2 := put_streams _ w1).
  assert (sessions w2 !! c = Some ctx) as Hc2 by done.
  assert (w2 = put_streams (<[brk w := clone_of ts x (stream_list ctx)]> (streams w)) (next_block w)) as E2.
  { unfold w2, w1. cbn. by rewrite insert_insert_eq. }
  rewrite <-E2. exact (runs_set_ctx c (set_list (Some (brk w))) ctx w2 Hc2).
Qed.

(** a session with a template and no stream for a source *)
Definition unknown_source (w : world) (c : nat) (x : Z) (ctx : srtp_ctx_t) (t : nat) : Prop :=
  sessions w !! c = Some ctx ∧ stream_template ctx = Some t ∧
  ∃ l, chain (streams w) (stream_list ctx) l ∧ find_ssrc (streams w) x l = None.

Lemma runs_receiver_template w c hdr x ctx t :
  packet w = hdr ++ x → (12 <= length hdr)%nat → unknown_source w c (pkt_ssrc hdr) ctx t →
  runs (rtp_receiver_stream c) w (inr (t, pkt_seq hdr, pkt_seq hdr)) w.
Proof.
  intros Hp Hl (Hc & Ht & l & Hch & Hf). unfold rtp_receiver_stream. step.
  step by runs_get_stream_list. rewrite Hf. step. rewrite Ht. step. apply runs_ret.
Qed.

Lemma fresh_estimate seq : is_word 16 seq → rdbx_estimate_index (snd rdbx_init) seq = (seq, seq).
Proof.
  intros Hs. unfold rdbx_estimate_index. rewrite decide_False by done. cbn. f_equal. apply Z.sub_0_r.
Qed.

(** the index of the first packet is the sequence number, and can be recorded *)
Lemma fresh_records seq :
  is_word 16 seq → ∃ st r', rdbx_add_index (snd rdbx_init) seq = Some (st, r') ∧
    accepts (snd rdbx_init) seq seq r'.
Proof.
  intros Hs. destruct (fresh_accepts seq Hs) as (r' & delta & st & He & Hc & Ha).
  rewrite (fresh_estimate seq Hs) in He. injection He as <-. exists st, r'. split; [done|].
  exists seq, st. by rewrite fresh_estimate.
Qed.

(** the heap after the first packet of a new source *)
Definition new_source_heap (w : world) (c t : nat) (ctx : srtp_ctx_t) (ts : srtp_stream_ctx_t) (x : Z)
    (r' : rdbx_t) ci au li pk n : world :=
  let ts := set_direction dir_srtp_receiver ts in
  let p := brk w in
  put_sessions (<[c := set_list (Some p) ctx]> (sessions w))
    (next_block (heap w (<[p := set_rtp_rdbx r' (clone_of ts x (stream_list ctx))]>
                           (<[t := ts]> (streams w))) ci au li pk n)).

Lemma unprotect_new_source w c ctx t ts o a l l' k ka hdr body tag room b rest :
  unknown_source w c (pkt_ssrc hdr) ctx t → rtp_stream w t ts o a l k ka →
  srtp_packet w hdr body tag room → (12 <= length (stack w))%nat → is_word 16 (pkt_seq hdr) →
  direction ts = dir_srtp_receiver ∨ direction ts = dir_unknown →
  key_limit_update l = (key_event_normal, l') → t ≠ brk w → mem w = Some b :: rest →
  Z.of_nat (length tag) = auth_obj_tag_length a →
  (auth_on (rtp_services ts) = true →
   tag = obj_tag a ka ((hdr ++ body) ++ take 4 (est_octets (pkt_seq hdr)))) →
  returns (srtp_unprotect c) w (λ _ w', ∃ r' o' a',
    accepts (snd rdbx_init) (pkt_seq hdr) (pkt_seq hdr) r' ∧
    w' = new_source_heap w c t ctx ts (pkt_ssrc hdr) r' (<[rtp_cipher ts := o']> (ciphers w))
           (<[rtp_auth ts := a']> (auths w)) (<[limit ts := l']> (limits w))
           (hdr ++ protected_body (rtp_services ts) o k hdr body (pkt_seq hdr) ++ tag ++ room)
           (Z.of_nat (length (hdr ++ body))) ∧
    obj_shape o' = obj_shape o ∧ obj_keyed o' k ∧ auth_shape a' = auth_shape a ∧
    auth_obj_keyed a' ka).
Proof.
  intros Hsrc Hst Hpk Hstk H16 Hdir Hlim Hne Hm Htl Htag.
  pose proof Hpk as [Hp _ [Bh _]%is_bytes_app Hs _]. destruct (rtp_hdr_long hdr Hs Bh) as [H12 _].
  pose proof (runs_receiver_template w c hdr _ ctx t Hp H12 Hsrc) as Hrecv.
  destruct (unprotect_passes w c t ts o a l l' k ka hdr body tag room _ _ Hrecv Hst Hpk Hstk Hdir
    Hlim Htl Htag) as (o' & a' & S1 & K1 & S2 & K2 & HQ). apply HQ. clear HQ.
  set (w1 := heap _ _ _ _ _ _ _). set (s1 := set_direction _ ts) in *.
  destruct Hsrc as (Hc & Ht & _). assert (sessions w1 !! c = Some ctx) as Hc1 by done.
  destruct (fresh_records _ H16) as (st & r' & Hadd & Hacc).
  step_with ltac:(unfold settle_stream; eapply runs_bind; [by apply runs_get_ctx|];
    rewrite decide_True by done; eapply runs_bind; [by eapply (runs_hdr_ssrc w1 hdr)|];
    eapply (clone_template_spec w1 c ctx t s1); [done|done|apply lookup_insert_eq|done|done]).
  set (w2 := put_sessions _ _). set (s2 := clone_of s1 (pkt_ssrc hdr) (stream_list ctx)).
  assert (streams w2 !! brk w1 = Some s2) as Hs2 by apply lookup_insert_eq. step.
  step by (runs_lift (rdbx_add_index (rtp_rdbx s2) (pkt_seq hdr))). step.
  eapply returns_intro; [apply runs_modify|]. exists r', o', a'. split; [done|]. split; [|done].
  unfold new_source_heap, w2, w1, heap. cbn. by rewrite insert_insert_eq.
Qed.

(** ** Properties *)

(** C20: the first packet of a source the session does not know, under a template: it
    passes when its tag is right for its sequence number and no key limit is reached,
    payload and length are those that were protected, and the session has a stream for
    the source at the head of its list, with the template's keys and a database of its
    own that has recorded the packet.  If the sequence number is not 0 a second copy of
    it is refused; for 0 the database sets bit 0 and the check reads bit 127. *)
Theorem srtp_new_source w c ctx t ts o a l l' k ka hdr body tag room b rest :
  unknown_source w c (pkt_ssrc hdr) ctx t → rtp_stream w t ts o a l k ka →
  srtp_packet w hdr body tag room → (12 <= length (stack w))%nat →
  direction ts = dir_srtp_receiver ∨ direction ts = dir_unknown →
  key_limit_update l = (key_event_normal, l') →
  streams w !! brk w = None → mem w = Some b :: rest →
  Z.of_nat (length tag) = auth_obj_tag_length a →
  (auth_on (rtp_services ts) = true →
   tag = obj_tag a ka ((hdr ++ body) ++ take 4 (est_octets (pkt_seq hdr)))) →
  let p := brk w in
  ∃ w' s' o' a', srtp_unprotect c w = Some (inr tt, w') ∧
    packet w' = hdr ++ protected_body (rtp_services ts) o k hdr body (pkt_seq hdr) ++ tag ++ room ∧
    pkt_octet_len w' = Z.of_nat (length (hdr ++ body)) ∧
    sessions w' !! c = Some (set_list (Some p) ctx) ∧ has_stream w' c (pkt_ssrc hdr) p ∧
    rtp_stream w' p s' o' a' l' k ka ∧ ssrc s' = pkt_ssrc hdr ∧ direction s' = dir_srtp_receiver ∧
    accepts (snd rdbx_init) (pkt_seq hdr) (pkt_seq hdr) (rtp_rdbx s') ∧
    (0 < pkt_seq hdr →
     let again := put_packet (packet w) (put_len (pkt_octet_len w) w') in
     srtp_unprotect c again = Some (inl err_status_replay_fail, again)).
Proof.
  intros Hsrc Hst Hpk Hstk Hdir Hlim Hnew Hm Htl Htag p.
  pose proof Hpk as [Hp Hlen Hb Hs _]. pose proof Hb as [Bh _]%is_bytes_app.
  destruct (rtp_hdr_long hdr Hs Bh) as [H12 _].
  assert (is_word 16 (pkt_seq hdr)) as H16.
  { unfold pkt_seq. pose proof (be_val_range (take 2 (drop 2 hdr))) as Hr2.
    rewrite length_take, length_drop, Nat.min_l in Hr2 by lia. apply Hr2. by words. }
  destruct Hst as [St Sc Sa Sl Sk Ska Sf].
  assert (t ≠ brk w) as Hne by congruence.
  destruct (unprotect_new_source w c ctx t ts o a l l' k ka hdr body tag room b rest Hsrc
    ltac:(by split) Hpk Hstk H16 Hdir Hlim Hne Hm Htl Htag)
    as ([] & w' & R & r' & o' & a' & Hacc & E & So & Ko & Sa' & Ka).
  set (s' := set_rtp_rdbx r' (clone_of (set_direction dir_srtp_receiver ts) (pkt_ssrc hdr) (stream_list ctx))).
  destruct Hsrc as (Hc & Ht & lst & Hch & Hf).
  assert (streams w' !! p = Some s') as Hs' by (rewrite E; apply lookup_insert_eq).
  assert (has_stream w' c (pkt_ssrc hdr) p) as Hhas.
  { exists (set_list (Some p) ctx), (p :: lst). rewrite E. split; [apply lookup_insert_eq|]. split.
    - cbn. split; [done|]. exists s'. split; [apply lookup_insert_eq|]. cbn.
      apply chain_insert_new; [by eapply chain_insert|]. by rewrite lookup_insert_ne.
    - cbn. unfold has_ssrc. rewrite lookup_insert_eq. by rewrite bool_decide_true. }
  exists w', s', o', a'. split; [exact R|].
  split; [by rewrite E|]. split; [by rewrite E|]. split; [rewrite E; apply lookup_insert_eq|].
  split; [done|]. split.
  { rewrite E in Hs' |- *. split; try done; cbn; rewrite ?lookup_insert_eq; try done.
    by eapply auth_shape_fits. }
  split; [done|]. split; [done|]. split; [done|]. intros Hpos again.
  destruct Hacc as (delta & st & Hest & Hchk & Hadd).
  destruct (accepted_not_again _ _ _ _ _ _ rdbx_init_wf ltac:(eval_dec) H16 Hest Hadd) as (_ & _ & He2 & Hc2).
  { unfold is_word in H16. change (index (snd rdbx_init)) with 0. lia. }
  eapply (unprotect_replayed again c p s' hdr); [exact Hp|done| | |exact Hs'|exact He2|exact Hc2|done].
  - unfold again. cbn. rewrite Hlen, length_app. lia.
  - done.
Qed.

(** a session with an inbound template, as [srtp_create] makes it *)
Lemma create_inbound w pol t1 t2 u1 u2 b b0 b1 b2 b3 b4 b5 rest key :
  kernel_ready w → stack_ok w → mem w = map Some [b; b0; b1; b2; b3; b4; b5] ++ rest →
  block_ok b2 → block_ok b5 → policy_types pol t1 t2 u1 u2 → icm_key_mem key →
  p_key pol = Some key → p_ssrc_type pol = ssrc_any_inbound →
  (∀ q, (brk w <= q)%nat → streams w !! q = None) →
  returns (srtp_create [pol]) w (λ c w', ∃ p s o1 o2 a1 a2,
    opened w' p pol key t1 t2 u1 u2 s o1 o2 a1 a2 ∧ direction s = dir_srtp_receiver ∧
    sessions w' !! c = Some (mk_ctx None (Some p)) ∧ streams w' !! brk w' = None ∧ mem w' = rest ∧
    stack w' = stack w ∧ packet w' = packet w ∧ pkt_octet_len w' = pkt_octet_len w).
Proof.
  intros Hk Hst Hm B2 B5 Hpt Hkey Ek Et Hfree. cbn [map app] in Hm. unfold srtp_create.
  step_with ltac:(by eapply runs_crypto_alloc). step.
  set (c := brk w). set (w1 := put_sessions _ _).
  step_with ltac:(apply runs_set_ctx, lookup_insert_eq).
  step_with ltac:(apply runs_set_ctx, lookup_insert_eq). set (w2 := put_sessions _ _).
  destruct (open_stream w2 pol t1 t2 u1 u2 b0 b1 b2 b3 b4 b5 rest key)
    as (p & w3 & R & -> & k' & s & o1 & o2 & a1 & a2 & ci & au & li & Hk' & -> & Hop & Hd & _);
    try done; [unfold w2, w1; cbn; by rewrite Hm|].
  set (p := brk w2) in *. set (w3 := grown _ _ _ _ _ _ _ _) in *.
  assert (sessions w3 !! c = Some (mk_ctx None None)) as Hc3 by apply lookup_insert_eq.
  set (w4 := put_sessions (<[c := mk_ctx None (Some p)]> (sessions w3)) w3).
  assert (streams w4 !! p = Some s) as Hs4 by apply Hop.
  assert (runs (srtp_add_stream c pol) w2 (inr tt)
    (put_streams (<[p := set_direction dir_srtp_receiver s]> (streams w4)) w4)) as Radd.
  { unfold srtp_add_stream. rewrite Ek. eapply runs_seq; [exact R|]. rewrite Et. unfold add_template.
    eapply runs_bind; [by apply runs_get_ctx|]. cbn [stream_template].
    eapply runs_bind; [by apply runs_set_ctx|]. by apply runs_set_stream. }
  eapply returns_bind.
  { cbn [add_streams]. eapply runs_bind; [apply runs_on_error; exact Radd|]. apply runs_ret. }
  eapply returns_intro; [apply runs_ret|].
  exists p, (set_direction dir_srtp_receiver s), o1, o2, a1, a2. split; [|split_and!; try done].
  - destruct Hop. split; try done. apply lookup_insert_eq.
  - apply lookup_insert_eq.
  - cbn. rewrite !lookup_insert_ne by (unfold p; simpl; lia). apply Hfree. simpl. lia.
Qed.

(** the validation test with a template for any source *)
Definition any_policy : srtp_policy_t :=
  mk_srtp_policy ssrc_any_inbound 0 crypto_policy_set_rtp_default crypto_policy_set_rtcp_default
    (Some rfc_master).

Lemma demo_template pkt len :
  ∃ c w p s ci ai, srtp_create [any_policy] (demo_world pkt len) = Some (inr c, w) ∧
    rtp_stream w p s (IcmObj ci) (HmacObj ai) fresh_limit
      (session_key rfc_master label_rtp_encryption label_rtp_salt) (derived rfc_master label_rtp_msg_auth 20) ∧
    sessions w !! c = Some (mk_ctx None (Some p)) ∧ streams w !! brk w = None ∧
    mem w = replicate 7 (Some demo_block) ∧ direction s = dir_srtp_receiver ∧
    rtp_services s = sec_serv_conf_and_auth ∧ out_len ai = 10 ∧ (12 <= length (stack w))%nat ∧
    packet w = pkt ∧ pkt_octet_len w = len.
Proof.
  destruct (demo_ready pkt len) as (Hk & Hst & _).
  destruct (create_inbound (demo_world pkt len) any_policy Aes_icm Aes_icm Hmac_sha1 Hmac_sha1
    demo_block demo_block demo_block demo_block demo_block demo_block demo_block
    (replicate 7 (Some demo_block)) rfc_master Hk Hst)
    as (c & w & R & p & s & o1 & o2 & a1 & a2 & Hop & Hd & Hc & Hb & Hm & Hs & Hp & Hl);
    [reflexivity|apply demo_block_ok|apply demo_block_ok|by apply default_policy_types|
     apply rfc_master_mem|reflexivity|reflexivity|done|].
  apply (conj I) in R. pose proof (opened_rtp _ _ _ _ _ _ _ _ _ _ _ _ _ Hop) as Hr.
  destruct Hop as [_ _ _ _ _ _ _ _ _ _ _ Hsv _ (T1 & _ & T3 & _) (Ht & _) _ _ _ _ _].
  destruct o1 as [|ci|]; try done. destruct a1 as [|ai]; try done.
  exists c, w, p, s, ci, ai. split; [exact (proj2 R)|]. clear R. split_and!; try done.
  rewrite Hs. vm_compute. lia.
Qed.

Lemma srtp_new_source_witness :
  ∃ c w w', srtp_create [any_policy] (demo_world (srtp_plaintext_hdr ++ demo_body ++ demo_tag) 38) =
      Some (inr c, w) ∧
    srtp_unprotect c w = Some (inr tt, w') ∧ pkt_octet_len w' = 28 ∧
    take 28 (packet w') = srtp_plaintext_hdr ++ replicate 16 0xab ∧
    let again := put_packet (packet w) (put_len (pkt_octet_len w) w') in
    srtp_unprotect c again = Some (inl err_status_replay_fail, again).
Proof.
  destruct (demo_template (srtp_plaintext_hdr ++ demo_body ++ demo_tag) 38)
    as (c & w & t & ts & ci & ai & R & Hst & Hc & Hnew & Hm & Hd & Hsv & Ht & Hs & Hp & Hl).
  apply (conj I) in R. destruct fresh_limit_normal as (l' & Hlim).
  assert (pkt_seq srtp_plaintext_hdr = 0x1234) as Eseq by (vm_compute; reflexivity).
  destruct (srtp_new_source w c (mk_ctx None (Some t)) t ts (IcmObj ci) (HmacObj ai) fresh_limit l'
    (session_key rfc_master label_rtp_encryption label_rtp_salt) (derived rfc_master label_rtp_msg_auth 20)
    srtp_plaintext_hdr demo_body demo_tag [] demo_block (replicate 6 (Some demo_block)))
    as (w' & s' & o' & a' & R1 & Ep & El & _ & _ & _ & _ & _ & _ & R2).
  - split; [exact Hc|]. split; [reflexivity|]. exists []. by split.
  - exact Hst.
  - by apply demo_received; [| |eval_dec|].
  - exact Hs.
  - left. exact Hd.
  - exact Hlim.
  - exact Hnew.
  - exact Hm.
  - cbn [auth_obj_tag_length]. unfold auth_get_tag_length. by rewrite Ht.
  - intros _. rewrite Eseq, demo_obj_tag by exact Ht. reflexivity.
  - apply (conj I) in R1. rewrite Eseq, Hsv in Ep.
    exists c, w, w'. split; [exact (proj2 R)|]. split; [exact (proj2 R1)|]. split; [exact El|].
    split; [rewrite Ep; vm_compute; reflexivity|]. apply R2. rewrite Eseq. lia.
Defined.
