(* ===== verification/SrtpRemove.v ===== *)
(** * SRTP: streams that are removed

    [srtp_remove_stream] takes a stream out of the middle of the list and gives its
    objects back; at the head of the list it leaves the session with a pointer to
    memory it has given back.  [srtp_dealloc] gives a whole session back: its streams,
    the objects they own, and the template with the objects the streams cloned from it
    share. *)

From stdpp Require Import gmap strings.
From S2P Require Import Prelude Datatypes Replay KeyLimit Sha1 Hmac Cipher Aes AesIcm AesCbc.
From S2P Require Import CryptoKernel Rfc3711 Srtp SrtpObjects SrtpPacket SrtpSession SrtpTemplate.
Import Rdb Rdbx.

#[local] Opaque AesSpec.cipher AesSpec.key_expansion Hmac.HMAC.

(** ** Deallocation *)

Lemma runs_cipher_dealloc w q o :
  ciphers w !! q = Some o →
  ∃ k', runs (cipher_dealloc q) w (inr tt) (put_ciphers (delete q (ciphers w)) (put_kernel k' w)).
Proof.
  intros Hq. destruct (obj_dealloc o (cipher_refs (kernel w) (obj_type o))) as [st ref] eqn:E.
  assert (st = err_status_ok) as -> by (destruct o; cbn in E; by injection E).
  eexists. unfold cipher_dealloc. step. step. rewrite E. step. step. apply runs_check_ok.
Qed.

Lemma runs_auth_dealloc w q a :
  auths w !! q = Some a →
  ∃ k', runs (auth_dealloc q) w (inr tt) (put_auths (delete q (auths w)) (put_kernel k' w)).
Proof.
  intros Hq. destruct (auth_obj_dealloc a (auth_refs (kernel w) (auth_obj_type a))) as [st ref] eqn:E.
  assert (st = err_status_ok) as -> by (destruct a; cbn in E; by injection E).
  eexists. unfold auth_dealloc. step. step. rewrite E. step. step. apply runs_check_ok.
Qed.

Lemma runs_free_limit w q l :
  limits w !! q = Some l → runs (free_limit q) w (inr tt) (put_limits (delete q (limits w)) w).
Proof. intros Hq. unfold free_limit. step. by step by runs_lift. Qed.

Lemma runs_free_stream w q s :
  streams w !! q = Some s → runs (free_stream q) w (inr tt) (put_streams (delete q (streams w)) w).
Proof. intros Hq. unfold free_stream. by step. Qed.

(** the template of a session, where it is and what it holds *)
Abbreviation template_t := (option (nat * srtp_stream_ctx_t)).

Definition template_at (w : world) (ctx : srtp_ctx_t) (tm : template_t) : Prop :=
  stream_template ctx = fst <$> tm ∧
  match tm with None => True | Some (t, ts) => streams w !! t = Some ts end.

(** a stream has the objects of the template, as a clone of it has *)
Definition shares (tm : template_t) (s : srtp_stream_ctx_t) : Prop :=
  match tm with
  | None => False
  | Some (_, t) =>
      rtp_cipher s = rtp_cipher t ∧ rtp_auth s = rtp_auth t ∧ limit s = limit t ∧
      rtcp_cipher s = rtcp_cipher t ∧ rtcp_auth s = rtcp_auth t
  end.

#[local] Instance shares_dec tm s : Decision (shares tm s).
Proof. destruct tm as [[? ?]|]; apply _. Defined.

(** ... or none of them *)
Definition apart (tm : template_t) (s : srtp_stream_ctx_t) : Prop :=
  match tm with
  | None => True
  | Some (_, t) =>
      rtp_cipher s ≠ rtp_cipher t ∧ rtp_auth s ≠ rtp_auth t ∧ limit s ≠ limit t ∧
      rtcp_cipher s ≠ rtcp_cipher t ∧ rtcp_auth s ≠ rtcp_auth t
  end.

(** what the template has not is given back *)
Lemma runs_unshared w c ctx tm p s field free w' :
  sessions w !! c = Some ctx → template_at w ctx tm → streams w !! p = Some s →
  match tm with None => True | Some (_, t) => field s ≠ field t end →
  runs (free (field s)) w (inr tt) w' → runs (unless_shared c p field free) w (inr tt) w'.
Proof.
  intros Hc [Ht Htm] Hp Hne Hf. unfold unless_shared. step.
  apply runs_bind with (a := false) (w1 := w).
  - unfold in_template. step. rewrite Ht. destruct tm as [[t ts]|]; cbn; [|apply runs_ret].
    step. rewrite bool_decide_eq_false_2 by done. apply runs_ret.
  - done.
Qed.

(** ... and what it has stays *)
Lemma runs_shared w c ctx t ts p s field free :
  sessions w !! c = Some ctx → template_at w ctx (Some (t, ts)) → streams w !! p = Some s →
  field s = field ts → runs (unless_shared c p field free) w (inr tt) w.
Proof.
  intros Hc [Ht Htm] Hp He. unfold unless_shared. step.
  apply runs_bind with (a := true) (w1 := w); [|apply runs_ret].
  unfold in_template. step. rewrite Ht. cbn. step. rewrite bool_decide_eq_true_2 by done. apply runs_ret.
Qed.

(** all of a stream is given back: itself, its ciphers, functions and limit *)
Lemma stream_dealloc_spec w c ctx tm p s o1 o2 a1 a2 l :
  sessions w !! c = Some ctx → template_at w ctx tm → apart tm s → allocated w p s o1 o2 a1 a2 l →
  returns (srtp_stream_dealloc c p) w (λ _ w', ∃ k',
    w' = put_kernel k' (heap w (delete p (streams w))
      (delete (rtcp_cipher s) (delete (rtp_cipher s) (ciphers w)))
      (delete (rtcp_auth s) (delete (rtp_auth s) (auths w)))
      (delete (limit s) (limits w)) (packet w) (pkt_octet_len w))).
Proof.
  intros Hc Ht Hap [Hs Hc1 Hc2 Ha1 Ha2 Hl Hnc Hna]. unfold srtp_stream_dealloc.
  destruct (runs_cipher_dealloc w (rtp_cipher s) o1 Hc1) as (k1 & R1).
  step_with ltac:(apply (runs_unshared w c ctx tm p s rtp_cipher _ _ Hc Ht Hs); [by destruct tm as [[??]|]; [apply Hap|]|exact R1]).
  set (w1 := put_ciphers _ _).
  destruct (runs_auth_dealloc w1 (rtp_auth s) a1 Ha1) as (k2 & R2).
  step_with ltac:(apply (runs_unshared w1 c ctx tm p s rtp_auth _ _ Hc Ht Hs); [by destruct tm as [[??]|]; [apply Hap|]|exact R2]).
  set (w2 := put_auths _ _).
  step_with ltac:(apply (runs_unshared w2 c ctx tm p s limit free_limit _ Hc Ht Hs);
    [by destruct tm as [[??]|]; [apply Hap|]|apply (runs_free_limit w2 _ l Hl)]).
  set (w3 := put_limits _ _).
  destruct (runs_cipher_dealloc w3 (rtcp_cipher s) o2) as (k4 & R4);
    [unfold w3, w2, w1; cbn; by rewrite lookup_delete_ne|].
  step_with ltac:(apply (runs_unshared w3 c ctx tm p s rtcp_cipher _ _ Hc Ht Hs); [by destruct tm as [[??]|]; [apply Hap|]|exact R4]).
  set (w4 := put_ciphers _ _).
  destruct (runs_auth_dealloc w4 (rtcp_auth s) a2) as (k5 & R5);
    [unfold w4, w3, w2; cbn; by rewrite lookup_delete_ne|].
  step_with ltac:(apply (runs_unshared w4 c ctx tm p s rtcp_auth _ _ Hc Ht Hs); [by destruct tm as [[??]|]; [apply Hap|]|exact R5]).
  set (w5 := put_auths _ _).
  eapply returns_intro; [by apply (runs_free_stream w5 p s)|]. by exists k5.
Qed.

(** of a clone of the template, the stream alone *)
Lemma clone_dealloc_spec w c ctx tm p s :
  sessions w !! c = Some ctx → template_at w ctx tm → shares tm s → streams w !! p = Some s →
  runs (srtp_stream_dealloc c p) w (inr tt) (put_streams (delete p (streams w)) w).
Proof.
  destruct tm as [[t ts]|]; [|done]. intros Hc Ht (E1 & E2 & E3 & E4 & E5) Hs. unfold srtp_stream_dealloc.
  do 5 (eapply runs_bind; [by apply (runs_shared w c ctx t ts p s)|]). by apply (runs_free_stream w p s).
Qed.

(** ** The list without a stream *)

Lemma chain_delete ss p l q : chain ss p l → q ∉ l → chain (delete q ss) p l.
Proof.
  revert p. induction l as [|x l IH]; intros p; [done|]. intros [-> (t & Ht & Hc)] Hq.
  apply not_elem_of_cons in Hq as [Hne Hq]. split; [done|]. exists t.
  rewrite lookup_delete_ne by done. split; [done|by apply IH].
Qed.

Lemma chain_insert_out ss p l q s : chain ss p l → q ∉ l → chain (<[q := s]> ss) p l.
Proof.
  revert p. induction l as [|x l IH]; intros p; [done|]. intros [-> (t & Ht & Hc)] Hq.
  apply not_elem_of_cons in Hq as [Hne Hq]. split; [done|]. exists t.
  rewrite lookup_insert_ne by done. split; [done|by apply IH].
Qed.

(** linking the stream before to the stream behind *)
Lemma chain_unlink ss p l1 last q l2 slast sq :
  chain ss p (l1 ++ last :: q :: l2) → ss !! last = Some slast → ss !! q = Some sq →
  chain (delete q (<[last := set_next (next sq) slast]> ss)) p (l1 ++ last :: l2).
Proof.
  intros Hc Hl Hq. pose proof (chain_nodup _ _ _ Hc) as Hn. revert p Hc Hn.
  induction l1 as [|x l1 IH]; intros p Hc Hn.
  - destruct Hc as [-> (t & Ht & [E (t' & Ht' & Hc)])].
    rewrite Hl in Ht. injection Ht as <-. rewrite Hq in Ht'. injection Ht' as <-.
    apply list.NoDup_cons in Hn as [Hn1 [Hn2 _]%list.NoDup_cons].
    rewrite elem_of_cons in Hn1. cbn [app chain]. split; [done|].
    exists (set_next (next sq) slast). rewrite lookup_delete_ne, lookup_insert_eq by naive_solver.
    split; [done|]. apply chain_delete; [|done]. apply chain_insert_out; [done|naive_solver].
  - destruct Hc as [-> (t & Ht & Hc)]. apply list.NoDup_cons in Hn as [Hx Hn].
    rewrite elem_of_app, !elem_of_cons in Hx. cbn [app chain]. split; [done|]. exists t.
    rewrite lookup_delete_ne, lookup_insert_ne by naive_solver. split; [done|by apply IH].
Qed.

(** the search ends at the first stream with the SSRC, with the one before it *)
Lemma walk_last_chain w p l1 last q l2 x fuel y :
  chain (streams w) p (l1 ++ last :: q :: l2) → (length (l1 ++ last :: q :: l2) <= fuel)%nat →
  find_ssrc (streams w) x (l1 ++ last :: q :: l2) = Some q →
  Forall (λ z, has_ssrc (streams w) x z = false) (l1 ++ [last]) →
  runs (walk_last fuel y p x) w (inr (last, Some q)) w.
Proof.
  revert p fuel y. induction l1 as [|z l1 IH]; intros p fuel y Hc Hf Hfind Hno.
  - cbn [app] in *. destruct Hc as [-> (s & Hs & [Hn (s' & Hs' & _)])].
    apply Forall_cons_iff in Hno as [Hno _].
    destruct fuel as [|[|fuel]]; [simpl in Hf; lia..|]. cbn [walk_last]. step.
    cbn [find_ssrc] in Hfind. rewrite Hno in Hfind. unfold has_ssrc in Hno, Hfind.
    rewrite Hs in Hno. apply bool_decide_eq_false in Hno. rewrite decide_False by congruence.
    rewrite Hn. cbn [walk_last]. step. rewrite Hs' in Hfind. rewrite decide_True; [apply runs_ret|].
    case_bool_decide; [done|]. exfalso.
    apply find_ssrc_in in Hfind as [_ (t & Ht & Hx)]. congruence.
  - destruct Hc as [-> (s & Hs & Hc)]. cbn [app] in *. apply Forall_cons_iff in Hno as [Hz Hno].
    destruct fuel as [|fuel]; [simpl in Hf; lia|]. cbn [walk_last]. step.
    cbn [find_ssrc] in Hfind. rewrite Hz in Hfind. unfold has_ssrc in Hz. rewrite Hs in Hz.
    apply bool_decide_eq_false in Hz. rewrite decide_False by congruence.
    apply IH; [done|simpl in Hf; lia|done|done].
Qed.

(** ** A whole session *)

(** the pointers streams hold *)
Definition cipher_ptrs (ss : list srtp_stream_ctx_t) : list nat :=
  concat (map (λ s, [rtp_cipher s; rtcp_cipher s]) ss).
Definition auth_ptrs (ss : list srtp_stream_ctx_t) : list nat :=
  concat (map (λ s, [rtp_auth s; rtcp_auth s]) ss).

(** the streams [ss] own objects: each pointer is to an object, and no two pointers are
    the same *)
Record objects (w : world) (ss : list srtp_stream_ctx_t) : Prop := {
  ob_ciphers : Forall (λ q, is_Some (ciphers w !! q)) (cipher_ptrs ss) ∧ NoDup (cipher_ptrs ss);
  ob_auths : Forall (λ q, is_Some (auths w !! q)) (auth_ptrs ss) ∧ NoDup (auth_ptrs ss);
  ob_limits : Forall (λ q, is_Some (limits w !! q)) (map limit ss) ∧ NoDup (map limit ss) }.

(** the owners of the objects of a session: the streams that do not share those of the
    template, and the template *)
Definition owning (tm : template_t) (ss : list srtp_stream_ctx_t) : list srtp_stream_ctx_t :=
  filter (λ s, ¬ shares tm s) ss.
Definition owners (tm : template_t) (ss : list srtp_stream_ctx_t) : list srtp_stream_ctx_t :=
  owning tm ss ++ from_option (λ t, [snd t]) [] tm.

(** the streams of a session, in the list [l] and, the template, out of it *)
Definition stream_ptrs (l : list nat) (tm : template_t) : list nat :=
  l ++ from_option (λ t, [fst t]) [] tm.

(** a session holds the streams [ss] at [l] and the template [tm], and they own their
    objects, but for the streams that share all of those of the template *)
Record own (w : world) (l : list nat) (ss : list srtp_stream_ctx_t) (tm : template_t) : Prop := {
  own_streams : Forall2 (λ q s, streams w !! q = Some s) l ss;
  own_template : match tm with None => True | Some (t, ts) => streams w !! t = Some ts ∧ t ∉ l end;
  own_objects : objects w (owners tm ss) }.

(** a map without the pointers of a list *)
Definition without {A} (l : list nat) (m m' : gmap nat A) : Prop :=
  ∀ q, m' !! q = if decide (q ∈ l) then None else m !! q.

(** [w'] is [w] with these streams and their objects given back *)
Record given_back (w w' : world) (l : list nat) (ss : list srtp_stream_ctx_t) : Prop := {
  gb_streams : without l (streams w) (streams w');
  gb_ciphers : without (cipher_ptrs ss) (ciphers w) (ciphers w');
  gb_auths : without (auth_ptrs ss) (auths w) (auths w');
  gb_limits : without (map limit ss) (limits w) (limits w') }.

Lemma without_delete {A} x l (m m' : gmap nat A) : without l (delete x m) m' → without (x :: l) m m'.
Proof.
  intros H q. rewrite H. destruct (decide (q ∈ l)) as [Hq|Hq].
  - by rewrite decide_True by (by right).
  - destruct (decide (q = x)) as [->|Hne].
    + by rewrite lookup_delete_eq, decide_True by (by left).
    + rewrite lookup_delete_ne by done. rewrite decide_False; [done|]. by apply not_elem_of_cons.
Qed.

Lemma without_nil {A} (m : gmap nat A) : without [] m m.
Proof. intros q. by rewrite decide_False by apply not_elem_of_nil. Qed.

Lemma live_delete {A} x l (m : gmap nat A) :
  Forall (λ q, is_Some (m !! q)) l → x ∉ l → Forall (λ q, is_Some (delete x m !! q)) l.
Proof.
  intros Hl Hx. induction Hl as [|q l Hq _ IH]; [constructor|].
  apply not_elem_of_cons in Hx as [Hne Hx]. constructor; [by rewrite lookup_delete_ne|by apply IH].
Qed.

Lemma given_back_one w p s k :
  given_back w (put_kernel k (heap w (delete p (streams w))
      (delete (rtcp_cipher s) (delete (rtp_cipher s) (ciphers w)))
      (delete (rtcp_auth s) (delete (rtp_auth s) (auths w)))
      (delete (limit s) (limits w)) (packet w) (pkt_octet_len w))) [p] [s].
Proof. split; repeat apply without_delete; apply without_nil. Qed.

(** the pointers of a stream of the list are among those of the list *)
Lemma ptrs_of ss s :
  s ∈ ss → rtp_cipher s ∈ cipher_ptrs ss ∧ rtcp_cipher s ∈ cipher_ptrs ss ∧
    rtp_auth s ∈ auth_ptrs ss ∧ rtcp_auth s ∈ auth_ptrs ss ∧ limit s ∈ map limit ss.
Proof.
  induction ss as [|x ss IH]; [by intros ?%not_elem_of_nil|]. cbn [cipher_ptrs auth_ptrs map concat app].
  rewrite !elem_of_cons. intros [->|Hin]; [tauto|]. specialize (IH Hin). tauto.
Qed.

Lemma without_trans {A} l l' (m m1 m2 : gmap nat A) :
  without l m m1 → without l' m1 m2 → without (l ++ l') m m2.
Proof.
  intros H1 H2 q. rewrite H2, H1. destruct (decide (q ∈ l ++ l')) as [Hq|Hq]; rewrite elem_of_app in Hq;
    destruct (decide (q ∈ l')), (decide (q ∈ l)); tauto.
Qed.

Lemma given_back_trans w w1 w2 l l' ss ss' :
  given_back w w1 l ss → given_back w1 w2 l' ss' → given_back w w2 (l ++ l') (ss ++ ss').
Proof.
  intros [A1 A2 A3 A4] [B1 B2 B3 B4]. unfold cipher_ptrs, auth_ptrs in *.
  split; unfold cipher_ptrs, auth_ptrs; rewrite ?map_app, ?concat_app; by eapply without_trans.
Qed.

Lemma lookups_delete {A} (m : gmap nat A) q l ss :
  Forall2 (λ x s, m !! x = Some s) l ss → q ∉ l → Forall2 (λ x s, delete q m !! x = Some s) l ss.
Proof.
  induction 1 as [|x s l ss Hx _ IH]; [constructor|]. intros [Hne Hq]%not_elem_of_cons.
  constructor; [by rewrite lookup_delete_ne|by apply IH].
Qed.

(** the first of several that own their objects, and the others after it is gone *)
Lemma objects_cons w q s ss :
  streams w !! q = Some s → objects w (s :: ss) →
  (∃ o1 o2 a1 a2 lim, allocated w q s o1 o2 a1 a2 lim) ∧
  (∀ t ts, ts ∈ ss → apart (Some (t, ts)) s) ∧
  ∀ k st, objects (put_kernel k (heap w st
      (delete (rtcp_cipher s) (delete (rtp_cipher s) (ciphers w)))
      (delete (rtcp_auth s) (delete (rtp_auth s) (auths w)))
      (delete (limit s) (limits w)) (packet w) (pkt_octet_len w))) ss.
Proof.
  intros Hs [[Hc Nc] [Ha Na] [Hl Nl]]. cbn [cipher_ptrs auth_ptrs map concat app] in *.
  apply Forall_cons_iff in Hc as [[o1 C1] Hc]. apply Forall_cons_iff in Hc as [[o2 C2] Hc].
  apply Forall_cons_iff in Ha as [[a1 A1] Ha]. apply Forall_cons_iff in Ha as [[a2 A2] Ha].
  apply Forall_cons_iff in Hl as [[lim L1] Hl].
  apply list.NoDup_cons in Nc as [Nc1 [Nc2 Nc]%list.NoDup_cons].
  apply list.NoDup_cons in Na as [Na1 [Na2 Na]%list.NoDup_cons].
  apply list.NoDup_cons in Nl as [Nl1 Nl]. rewrite elem_of_cons in Nc1, Na1. split_and!.
  - exists o1, o2, a1, a2, lim. split; naive_solver.
  - intros t ts Hin. pose proof (ptrs_of ss ts Hin) as (P1 & P2 & P3 & P4 & P5).
    split_and!; intros E; rewrite <-E in *; naive_solver.
  - intros k st. split; cbn; (split; [|done]);
      repeat (apply live_delete; [|first [done|naive_solver]]); done.
Qed.

(** one stream, whether it shares the objects of the template or has its own *)
Lemma dealloc_one w c ctx tm q s ss :
  sessions w !! c = Some ctx → template_at w ctx tm → streams w !! q = Some s →
  objects w (owners tm (s :: ss)) →
  ∃ w1, runs (srtp_stream_dealloc c q) w (inr tt) w1 ∧ sessions w1 = sessions w ∧
    streams w1 = delete q (streams w) ∧ objects w1 (owners tm ss) ∧ given_back w w1 [q] (owning tm [s]).
Proof.
  intros Hc Ht Hs. unfold owners, owning. rewrite !filter_cons, filter_nil.
  destruct (decide (shares tm s)) as [Hsh|Hsh].
  - rewrite !decide_False by tauto. intros Hob.
    eexists. split; [by eapply clone_dealloc_spec|]. split; [done|]. split; [done|]. split.
    + by destruct Hob; split.
    + split; [by apply without_delete, without_nil|by apply without_nil..].
  - rewrite !decide_True by done. cbn [app]. intros Hob.
    destruct (objects_cons w q s _ Hs Hob) as [(o1 & o2 & a1 & a2 & lim & Hal) [Hap Hob']].
    assert (apart tm s) as Ha.
    { destruct tm as [[t ts]|]; [|done]. apply (Hap t ts), elem_of_app. right. by left. }
    destruct (stream_dealloc_spec w c ctx tm q s o1 o2 a1 a2 lim Hc Ht Ha Hal) as ([] & w1 & R & k' & ->).
    eexists. split; [exact R|]. split; [done|]. split; [done|]. split; [apply Hob'|].
    apply given_back_one.
Qed.

(** all the streams of the list: each is gone, with the objects it does not share *)
Lemma dealloc_streams_spec l : ∀ fuel w c ctx tm p ss,
  sessions w !! c = Some ctx → template_at w ctx tm →
  chain (streams w) p l → own w l ss tm → (length l <= fuel)%nat →
  returns (dealloc_streams fuel c p) w (λ _ w',
    given_back w w' l (owning tm ss) ∧ sessions w' = sessions w ∧ own w' [] [] tm).
Proof.
  induction l as [|q l IH]; intros fuel w c ctx tm p ss Hc Ht Hch Hown Hf.
  { simpl in Hch. subst p. pose proof (own_streams _ _ _ _ Hown) as ->%Forall2_nil_inv_l.
    exists tt, w. split; [by destruct fuel|]. split; [by split|]. by split. }
  pose proof (chain_nodup _ _ _ Hch) as [Hq _]%list.NoDup_cons.
  destruct Hown as [Hst Htm Hob].
  destruct ss as [|s ss]; [by apply Forall2_nil_inv_r in Hst|].
  apply Forall2_cons_1 in Hst as [Hs Hss].
  destruct Hch as [-> (s' & Hs' & Hch)]. assert (s' = s) as -> by congruence.
  assert (match tm with None => True | Some (t, ts) => streams w !! t = Some ts ∧ (t ∉ l) ∧ q ≠ t end) as Htm'.
  { destruct tm as [[t ts]|]; [|done]. destruct Htm as [? [? ?]%not_elem_of_cons]. done. }
  assert (∃ w1, runs (srtp_stream_dealloc c q) w (inr tt) w1 ∧ sessions w1 = sessions w ∧
    streams w1 = delete q (streams w) ∧ objects w1 (owners tm ss) ∧
    given_back w w1 [q] (owning tm [s])) as (w1 & R & Hse & Est & Hob1 & G).
  { by eapply (dealloc_one w c ctx tm q s ss). }
  destruct fuel as [|fuel]; [simpl in Hf; lia|]. cbn [dealloc_streams].
  eapply returns_bind; [by apply runs_get_stream|cbv beta iota].
  eapply returns_bind; [exact R|cbv beta iota].
  destruct (IH fuel w1 c ctx tm (next s) ss) as ([] & w2 & R2 & G2 & Hse2 & Hown2).
  - by rewrite Hse.
  - destruct Ht as [Ht _]. split; [done|]. destruct tm as [[t ts]|]; [|done].
    rewrite Est, lookup_delete_ne by (by destruct Htm' as (_ & _ & ?)). apply Htm'.
  - rewrite Est. by apply chain_delete.
  - split; [|destruct tm as [[t ts]|]; [|done]|done].
    + rewrite Est. by apply lookups_delete.
    + rewrite Est, lookup_delete_ne by (by destruct Htm' as (_ & _ & ?)). split; apply Htm'.
  - simpl in Hf. lia.
  - exists tt, w2. split; [exact R2|]. split; [|split; [by rewrite Hse2|done]].
    pose proof (given_back_trans _ _ _ _ _ _ _ G G2) as G3.
    unfold owning in *. by rewrite filter_cons in *; destruct (decide _).
Qed.

(** the template *)
Lemma template_dealloc_spec w t ts :
  streams w !! t = Some ts → objects w [ts] →
  returns (s ← get_stream t;
      auth_dealloc (rtcp_auth s);; cipher_dealloc (rtcp_cipher s);; free_limit (limit s);;
      cipher_dealloc (rtp_cipher s);; auth_dealloc (rtp_auth s);; free_stream t) w
    (λ _ w', given_back w w' [t] [ts] ∧ sessions w' = sessions w).
Proof.
  intros Hs Hob.
  destruct (objects_cons w t ts [] Hs Hob) as [(o1 & o2 & a1 & a2 & lim & [_ Hc1 Hc2 Ha1 Ha2 Hl Hnc Hna]) _].
  step by runs_get_stream.
  destruct (runs_auth_dealloc w (rtcp_auth ts) a2 Ha2) as (k1 & R1).
  step_with ltac:(exact R1). set (w1 := put_auths _ _).
  destruct (runs_cipher_dealloc w1 (rtcp_cipher ts) o2 Hc2) as (k2 & R2).
  step_with ltac:(exact R2). set (w2 := put_ciphers _ _).
  step_with ltac:(exact (runs_free_limit w2 _ lim Hl)). set (w3 := put_limits _ _).
  destruct (runs_cipher_dealloc w3 (rtp_cipher ts) o1) as (k4 & R4);
    [unfold w3, w2, w1; cbn; by rewrite lookup_delete_ne|].
  step_with ltac:(exact R4). set (w4 := put_ciphers _ _).
  destruct (runs_auth_dealloc w4 (rtp_auth ts) a1) as (k5 & R5);
    [unfold w4, w3, w2, w1; cbn; by rewrite lookup_delete_ne|].
  step_with ltac:(exact R5). set (w5 := put_auths _ _).
  eapply returns_intro; [by apply (runs_free_stream w5 t ts)|]. split; [|done].
  split; cbn; rewrite ?(delete_delete _ (rtp_cipher ts)), ?(delete_delete _ (rtp_auth ts));
    repeat apply without_delete; apply without_nil.
Qed.

(** ** Properties *)

(** [srtp_remove_stream] of a stream that is not the first of the list: it
    succeeds, the list is the list without that stream, with the others in place and
    as they were, and the stream, its two ciphers, its two authentication functions
    and its key limit are given back. *)
Theorem srtp_remove_inner w c ctx l1 last q l2 s o1 o2 a1 a2 lim :
  sessions w !! c = Some ctx → stream_template ctx = None →
  chain (streams w) (stream_list ctx) (l1 ++ last :: q :: l2) →
  find_ssrc (streams w) (ssrc s) (l1 ++ last :: q :: l2) = Some q →
  Forall (λ z, has_ssrc (streams w) (ssrc s) z = false) (l1 ++ [last]) →
  allocated w q s o1 o2 a1 a2 lim →
  ∃ w', srtp_remove_stream c (ssrc s) w = Some (inr tt, w') ∧ sessions w' = sessions w ∧
    chain (streams w') (stream_list ctx) (l1 ++ last :: l2) ∧
    (∀ z, z ≠ last → streams w' !! z = if decide (z = q) then None else streams w !! z) ∧
    without (cipher_ptrs [s]) (ciphers w) (ciphers w') ∧
    without (auth_ptrs [s]) (auths w) (auths w') ∧ without [limit s] (limits w) (limits w').
Proof.
  intros Hc Ht Hch Hfind Hno Hal. pose proof (chain_nodup _ _ _ Hch) as Hnd.
  assert (last ≠ q) as Hlq.
  { apply list.NoDup_app in Hnd as (_ & _ & [Hn _]%list.NoDup_cons). intros ->. apply Hn. by left. }
  destruct (chain_in _ _ _ last Hch) as [slast Hsl]; [apply elem_of_app; right; by left|].
  assert (∃ first, stream_list ctx = Some first) as [first Hfirst].
  { destruct l1; destruct Hch as [-> _]; eauto. }
  set (w1 := put_streams (<[last := set_next (next s) slast]> (streams w)) w).
  assert (allocated w1 q s o1 o2 a1 a2 lim) as Hal1.
  { destruct Hal. split; try done. unfold w1. cbn. by rewrite lookup_insert_ne. }
  destruct (stream_dealloc_spec w1 c ctx None q s o1 o2 a1 a2 lim Hc (conj Ht I) I Hal1) as ([] & w' & R & k' & ->).
  eexists. split.
  { unfold srtp_remove_stream. eapply runs_bind; [by apply runs_get_ctx|].
    eapply runs_bind; [apply runs_gets|]. rewrite Hfirst.
    eapply runs_bind.
    { rewrite Hfirst in Hch. eapply (walk_last_chain w (Some first)); [exact Hch| |done|done].
      by eapply chain_length. }
    cbv beta iota. eapply runs_bind; [apply runs_get_stream, Hal|].
    eapply runs_bind; [by apply runs_set_stream|]. exact R. }
  split_and!; [done|..].
  - apply chain_unlink; [done|done|apply Hal].
  - intros z Hz. cbn. destruct (decide (z = q)) as [->|Hne]; [apply lookup_delete_eq|].
    by rewrite lookup_delete_ne, lookup_insert_ne.
  - do 2 apply without_delete. apply without_nil.
  - do 2 apply without_delete. apply without_nil.
  - apply without_delete, without_nil.
Qed.

(** [srtp_remove_stream] of the first stream of the list reports success and gives
    its memory back, but the session still points to it: after that every look-up of
    a stream in the session, and with it [srtp_protect] and [srtp_unprotect] of every
    packet, reads memory that was given back. *)
Theorem srtp_remove_head_dangles w c ctx p s o1 o2 a1 a2 lim :
  sessions w !! c = Some ctx → stream_template ctx = None → stream_list ctx = Some p →
  allocated w p s o1 o2 a1 a2 lim →
  ∃ w', srtp_remove_stream c (ssrc s) w = Some (inr tt, w') ∧ sessions w' !! c = Some ctx ∧
    given_back w w' [p] [s] ∧ (∀ x, srtp_get_stream c x w' = None) ∧
    (∀ pkt len, 12 <= len → (12 <= length pkt)%nat →
      srtp_protect c (put_packet pkt (put_len len w')) = None ∧
      srtp_unprotect c (put_packet pkt (put_len len w')) = None).
Proof.
  intros Hc Ht Hl Hal. pose proof Hal as [Hs _ _ _ _ _ _ _].
  set (w1 := put_streams (<[p := set_next (next s) s]> (streams w)) w).
  assert (w1 = w) as Ew.
  { unfold w1. rewrite insert_id; [by destruct w|]. rewrite Hs. by destruct s. }
  destruct (stream_dealloc_spec w c ctx None p s o1 o2 a1 a2 lim Hc (conj Ht I) I Hal) as ([] & w' & R & k' & ->).
  set (w' := put_kernel k' _) in *. exists w'.
  assert (∀ v x, sessions v !! c = Some ctx → streams v !! p = None → srtp_get_stream c x v = None)
    as Hget.
  { intros v x Hcv Hsv. unfold srtp_get_stream, get_ctx, gets, mbind, M_bind, lift.
    rewrite Hcv. cbn. rewrite Hl. destruct (size (streams v)); cbn [walk];
      unfold get_stream, gets, mbind, M_bind, lift; by rewrite Hsv. }
  assert (streams w' !! p = None) as Hsp by apply lookup_delete_eq.
  split_and!; [|done|by apply given_back_one|intros x; by apply Hget|].
  - unfold srtp_remove_stream. eapply runs_bind; [by apply runs_get_ctx|].
    eapply runs_bind; [apply runs_gets|]. rewrite Hl.
    eapply runs_bind.
    { destruct (size (streams w)); cbn [walk_last];
        (eapply runs_bind; [by apply runs_get_stream|]; rewrite decide_True by done; apply runs_ret). }
    cbv beta iota. eapply runs_bind; [by apply runs_get_stream|].
    eapply runs_bind; [by apply runs_set_stream|]. fold w1. rewrite Ew. exact R.
  - intros pkt len Hlen Hpl. set (v := put_packet pkt _).
    assert (runs hdr_ssrc v (inr (pkt_ssrc pkt)) v) as Hh
      by (apply (runs_hdr_ssrc v pkt []); [by rewrite app_nil_r|done]).
    assert (∀ x, srtp_get_stream c x v = None) as Hg by (intros x; by apply Hget).
    split; unfold srtp_protect, srtp_unprotect, rtp_sender_stream, rtp_receiver_stream, gets, mbind, M_bind;
      cbn; rewrite decide_False by (unfold octets_in_rtp_header; lia);
      unfold runs in Hh; rewrite Hh, Hg; done.
Qed.

(** C19: [srtp_dealloc] comes to its end and gives everything back: for a session whose
    list of streams ends, with a template or without one, where every stream either has
    objects of its own or shares all of those of the template (as the streams cloned
    from it do), it returns [err_status_ok], and exactly the session, the streams of its
    list, the template, and the ciphers, authentication functions and key limits of the
    template and of the streams that have their own are gone from the heap, each given
    back once; what belongs to other sessions stays. *)
Theorem srtp_dealloc_complete w c ctx l ss tm :
  sessions w !! c = Some ctx → stream_template ctx = fst <$> tm →
  chain (streams w) (stream_list ctx) l → own w l ss tm →
  ∃ w', srtp_dealloc c w = Some (inr tt, w') ∧
    given_back w w' (stream_ptrs l tm) (owners tm ss) ∧ sessions w' = delete c (sessions w).
Proof.
  intros Hc Ht Hch Hown.
  assert (template_at w ctx tm) as Hat.
  { split; [done|]. destruct Hown as [_ Htm _]. by destruct tm as [[t ts]|]; [apply Htm|]. }
  destruct (dealloc_streams_spec l (size (streams w)) w c ctx tm (stream_list ctx) ss Hc Hat Hch Hown)
    as ([] & w1 & R & Hg & Hse & Hown1); [by eapply chain_length|].
  assert (∃ w2, runs (match stream_template ctx with
      | None => mret tt
      | Some t => s ← get_stream t; auth_dealloc (rtcp_auth s);; cipher_dealloc (rtcp_cipher s);;
          free_limit (limit s);; cipher_dealloc (rtp_cipher s);; auth_dealloc (rtp_auth s);; free_stream t
      end) w1 (inr tt) w2 ∧ sessions w2 = sessions w ∧
      given_back w w2 (stream_ptrs l tm) (owners tm ss)) as (w2 & R2 & Hse2 & Hg2).
  { rewrite Ht. destruct Hown1 as [_ Htm Hob]. destruct tm as [[t ts]|]; cbn.
    - destruct (template_dealloc_spec w1 t ts) as ([] & w2 & R2 & G2 & E2); [apply Htm|exact Hob|].
      exists w2. split; [exact R2|]. split; [by rewrite E2|]. by eapply given_back_trans.
    - exists w1. split; [apply runs_ret|]. split; [done|]. unfold stream_ptrs, owners. cbn.
      by rewrite !app_nil_r. }
  eexists. split.
  - unfold srtp_dealloc. eapply runs_bind; [by apply runs_get_ctx|].
    eapply runs_bind; [apply runs_gets|]. eapply runs_bind; [exact R|].
    eapply runs_bind; [exact R2|]. unfold free_ctx.
    eapply runs_bind; [apply runs_get_ctx; by rewrite Hse2|]. apply runs_modify.
  - split; [|by rewrite <-Hse2]. by destruct Hg2; split.
Qed.

(** a session of one stream, with memory for another *)
Lemma demo_single :
  ∃ c w p s o1 o2 a1 a2, srtp_create [demo_policy] (demo_world [] 0) = Some (inr c, w) ∧
    sessions w !! c = Some (mk_ctx (Some p) None) ∧ ssrc s = bswap32 0xcafebabe ∧
    allocated w p s o1 o2 a1 a2 fresh_limit ∧ next s = None ∧ in_use w s ∧ (p < brk w)%nat ∧
    mem w = replicate 7 (Some demo_block) ∧ kernel_ready w ∧ stack_ok w.
Proof.
  destruct (demo_ready [] 0) as (Hk & Hst & _).
  destruct (create_specific (demo_world [] 0) demo_policy Aes_icm Aes_icm Hmac_sha1 Hmac_sha1
    demo_block demo_block demo_block demo_block demo_block demo_block demo_block
    (replicate 7 (Some demo_block)) rfc_master Hk Hst)
    as (c & w & R & p & s & o1 & o2 & a1 & a2 & Hop & Hd & Hc & Hn & Hu & Hb & Hm & Hk' & Hs & _);
    [reflexivity|apply demo_block_ok|apply demo_block_ok|by apply default_policy_types|
     apply rfc_master_mem|reflexivity|reflexivity|].
  exists c, w, p, s, o1, o2, a1, a2. split; [exact R|]. clear R. split; [exact Hc|].
  split; [apply Hop|]. split; [by eapply opened_allocated|]. split_and!; try done.
  unfold stack_ok. by rewrite Hs.
Qed.

Lemma srtp_remove_head_dangles_witness :
  ∃ c w w', srtp_create [demo_policy] (demo_world [] 0) = Some (inr c, w) ∧
    srtp_remove_stream c (bswap32 0xcafebabe) w = Some (inr tt, w') ∧
    ∀ x, srtp_get_stream c x w' = None.
Proof.
  destruct demo_single as (c & w & p & s & o1 & o2 & a1 & a2 & R & Hc & Hx & Hal & _).
  destruct (srtp_remove_head_dangles w c (mk_ctx (Some p) None) p s o1 o2 a1 a2 fresh_limit)
    as (w' & R' & _ & _ & Hg & _); [exact Hc|reflexivity|reflexivity|exact Hal|].
  exists c, w, w'. rewrite <-Hx. split; [exact R|]. split; [exact R'|exact Hg].
Defined.

(** the second stream of that session *)
Definition demo_policy2 : srtp_policy_t :=
  mk_srtp_policy ssrc_specific 0xdeadbeef crypto_policy_set_rtp_default
    crypto_policy_set_rtcp_default (Some rfc_master).

Lemma srtp_remove_inner_witness :
  ∃ c w v w', srtp_create [demo_policy] (demo_world [] 0) = Some (inr c, w) ∧
    srtp_add_stream c demo_policy2 w = Some (inr tt, v) ∧
    srtp_remove_stream c (bswap32 0xcafebabe) v = Some (inr tt, w') ∧
    chain (streams w') (Some (brk w)) [brk w].
Proof.
  destruct demo_single
    as (c & w & p & s & o1 & o2 & a1 & a2 & R & Hc & Hx & Hal & Hn & Hu & Hb & Hm & Hk & Hst).
  apply (conj I) in R.
  destruct (add_specific w c (mk_ctx (Some p) None) demo_policy2 Aes_icm Aes_icm Hmac_sha1 Hmac_sha1
    demo_block demo_block demo_block demo_block demo_block demo_block [Some demo_block] rfc_master
    Hk Hst Hm demo_block_ok demo_block_ok)
    as ([] & v & R1 & k' & s2 & o3 & o4 & a3 & a4 & ci & au & li & _ & -> & Hop & _ & Hn2 & Hkp & _);
    [by apply default_policy_types|apply rfc_master_mem|reflexivity|reflexivity|exact Hc|].
  apply (conj I) in R1. set (v := put_sessions _ _) in *.
  assert (ssrc s2 ≠ ssrc s) as Hne by (rewrite (op_ssrc _ _ _ _ _ _ _ _ _ _ _ _ _ Hop), Hx; eval_dec).
  assert (streams v !! brk w = Some s2) as Hs2 by apply Hop.
  assert (streams v !! p = Some s) as Hs1.
  { unfold v. cbn. rewrite lookup_insert_ne by lia. apply Hal. }
  assert (has_ssrc (streams v) (ssrc s) (brk w) = false) as Hh2.
  { unfold has_ssrc. rewrite Hs2. by apply bool_decide_eq_false. }
  destruct (srtp_remove_inner v c (mk_ctx (Some (brk w)) None) [] (brk w) p [] s o1 o2 a1 a2 fresh_limit)
    as (w' & R2 & _ & Hch & _).
  - apply lookup_insert_eq.
  - reflexivity.
  - simpl. split; [done|]. exists s2. split; [done|]. rewrite Hn2. split; [done|]. by exists s.
  - cbn [app find_ssrc]. rewrite Hh2. unfold has_ssrc. rewrite Hs1. by rewrite bool_decide_true.
  - by repeat constructor.
  - destruct Hu as (U1 & U2 & U3 & U4 & U5). destruct Hal.
    split; try done; eapply eq_trans; [apply (Hkp _ U1)|done|apply (Hkp _ U2)|done|
      apply (Hkp _ U3)|done|apply (Hkp _ U4)|done|apply (Hkp _ U5)|done].
  - exists c, w, v, w'. rewrite <-Hx. split; [exact (proj2 R)|]. split; [exact (proj2 R1)|].
    split; [exact R2|exact Hch].
Defined.

(** a session with a template and one stream cloned from it *)
Lemma demo_clone x :
  ∃ c w w1 t ts, srtp_create [any_policy] (demo_world [] 0) = Some (inr c, w) ∧
    clone_template c x w = Some (inr (brk w), w1) ∧
    sessions w1 !! c = Some (mk_ctx (Some (brk w)) (Some t)) ∧ t ≠ brk w ∧
    own w1 [brk w] [clone_of ts x None] (Some (t, ts)) ∧
    chain (streams w1) (Some (brk w)) [brk w].
Proof.
  destruct (demo_ready [] 0) as (Hk & Hst & _).
  destruct (create_inbound (demo_world [] 0) any_policy Aes_icm Aes_icm Hmac_sha1 Hmac_sha1
    demo_block demo_block demo_block demo_block demo_block demo_block demo_block
    (replicate 7 (Some demo_block)) rfc_master Hk Hst)
    as (c & w & R & t & ts & o1 & o2 & a1 & a2 & Hop & Hd & Hc & Hb & Hm & _);
    [reflexivity|apply demo_block_ok|apply demo_block_ok|by apply default_policy_types|
     apply rfc_master_mem|reflexivity|reflexivity|done|].
  pose proof (opened_allocated _ _ _ _ _ _ _ _ _ _ _ _ _ Hop) as [Ss C1 C2 A1 A2 L1 N1 N2].
  assert (t ≠ brk w) as Hne by congruence.
  pose proof (clone_template_spec w c _ t ts x demo_block _ Hc eq_refl Ss Hne Hm) as R1.
  eexists c, w, _, t, ts. split; [exact R|]. split; [exact R1|]. clear R R1.
  split; [apply lookup_insert_eq|]. split; [done|]. split; [|split; [done|]; exists (clone_of ts x None);
    split; [apply lookup_insert_eq|done]].
  split; [repeat constructor; apply lookup_insert_eq|..].
  - split; [cbn; by rewrite lookup_insert_ne|by rewrite list_elem_of_singleton].
  - unfold owners, owning. rewrite filter_cons, filter_nil, decide_False by (cbn; tauto).
    split; cbn; (split; [repeat (apply List.Forall_cons; [by eexists|]); apply List.Forall_nil|]).
    + apply list.NoDup_cons. split; [by rewrite list_elem_of_singleton|apply NoDup_singleton].
    + apply list.NoDup_cons. split; [by rewrite list_elem_of_singleton|apply NoDup_singleton].
    + apply NoDup_singleton.
Qed.

Lemma srtp_dealloc_complete_witness :
  ∃ c w w1 w' t ts, srtp_create [any_policy] (demo_world [] 0) = Some (inr c, w) ∧
    clone_template c 7 w = Some (inr (brk w), w1) ∧
    srtp_dealloc c w1 = Some (inr tt, w') ∧ sessions w' !! c = None ∧ streams w1 !! t = Some ts ∧
    streams w' !! t = None ∧ streams w' !! brk w = None ∧ ciphers w' !! rtp_cipher ts = None.
Proof.
  destruct (demo_clone 7) as (c & w & w1 & t & ts & R & R1 & Hc & Hne & Hown & Hch).
  apply (conj I) in R. apply (conj I) in R1. pose proof (own_template _ _ _ _ Hown) as [Hs _].
  destruct (srtp_dealloc_complete w1 c (mk_ctx (Some (brk w)) (Some t)) [brk w] [clone_of ts 7 None]
    (Some (t, ts))) as (w' & R' & [G1 G2 _ _] & Hse).
  - exact Hc.
  - reflexivity.
  - exact Hch.
  - exact Hown.
  - apply (conj I) in R'.
    exists c, w, w1, w', t, ts. split; [exact (proj2 R)|]. split; [exact (proj2 R1)|].
    split; [exact (proj2 R')|]. clear R R1 R'.
    split; [rewrite Hse; apply lookup_delete_eq|]. split; [exact Hs|].
    split; [|split]; [rewrite G1|rewrite G1|rewrite G2];
      (rewrite decide_True; [reflexivity|]).
    + unfold stream_ptrs. cbn. rewrite !elem_of_cons. tauto.
    + unfold stream_ptrs. cbn. rewrite !elem_of_cons. tauto.
    + apply ptrs_of, elem_of_app. right. by left.
Defined.
