(* ===== verification/SrtpCreate.v ===== *)
(** * SRTP: sessions of several streams

    The well-formedness of a session ([session_wf]: a list of streams that ends, perhaps
    a template, and objects of their own, but for the streams that share those of the
    template), which [srtp_create] establishes for any list of policies with at most one
    wildcard, [srtp_add_stream] preserves, and the clone of the template for a new source
    preserves. *)

From stdpp Require Import gmap strings.
From S2P Require Import Prelude Datatypes Replay KeyLimit Sha1 Hmac Cipher Aes AesIcm AesCbc.
From S2P Require Import CryptoKernel Rfc3711 Srtp SrtpObjects SrtpPacket SrtpSession SrtpTemplate SrtpRemove.
Import Rdb Rdbx.

#[local] Opaque AesSpec.cipher AesSpec.key_expansion Hmac.HMAC.

(** a session: the list [l] of its streams [ss] ends, [tm] is its template, and they own
    their objects, but for the streams that share those of the template; the allocator is
    past all of them *)
Record session_wf (w : world) (c : nat) (l : list nat) (ss : list srtp_stream_ctx_t)
    (tm : template_t) : Prop := {
  wf_ctx : sessions w !! c = Some (mk_ctx (head l) (fst <$> tm));
  wf_chain : chain (streams w) (head l) l;
  wf_own : own w l ss tm;
  wf_below : Forall (λ q, (q < brk w)%nat) (stream_ptrs l tm);
  wf_used : Forall (in_use w) (ss ++ from_option (λ t, [snd t]) [] tm) }.

(** a policy the library can key, for one source or for any *)
Definition supported (pol : srtp_policy_t) : Prop :=
  p_ssrc_type pol ≠ ssrc_undefined ∧ (∃ key, p_key pol = Some key ∧ icm_key_mem key) ∧
  ∃ t1 t2 u1 u2, policy_types pol t1 t2 u1 u2.

(** the sources the policies name, as the streams have them *)
Definition sources : list srtp_policy_t → list Z :=
  omap (λ pol, match p_ssrc_type pol with
    | ssrc_specific => Some (bswap32 (p_ssrc_value pol))
    | _ => None
    end).

(** the directions of the policies for any source *)
Definition wildcards : list srtp_policy_t → list direction_t :=
  omap (λ pol, match p_ssrc_type pol with
    | ssrc_any_outbound => Some dir_srtp_sender
    | ssrc_any_inbound => Some dir_srtp_receiver
    | _ => None
    end).

(** memory for [n] more objects *)
Definition memory_for (w : world) (n : nat) : Prop :=
  ∃ bs rest, mem w = map Some bs ++ rest ∧ length bs = n ∧ Forall block_ok bs.

Lemma ptrs_below w ss :
  Forall (in_use w) ss →
  Forall (λ q, (q < brk w)%nat) (cipher_ptrs ss) ∧ Forall (λ q, (q < brk w)%nat) (auth_ptrs ss) ∧
  Forall (λ q, (q < brk w)%nat) (map limit ss).
Proof.
  induction 1 as [|s ss (H1 & H2 & H3 & H4 & H5) _ (I1 & I2 & I3)]; [done|].
  cbn [cipher_ptrs auth_ptrs map concat app]. split_and!; repeat (constructor; [done|]); done.
Qed.

Lemma below_not_elem (n q : nat) l : Forall (λ x, (x < n)%nat) l → (n <= q)%nat → q ∉ l.
Proof. rewrite list.Forall_forall. intros H Hq Hin. specialize (H _ Hin). lia. Qed.

Lemma live_keep {A} (m m' : gmap nat A) l n :
  (∀ q, (q < n)%nat → m' !! q = m !! q) → Forall (λ q, (q < n)%nat) l →
  Forall (λ q, is_Some (m !! q)) l → Forall (λ q, is_Some (m' !! q)) l.
Proof.
  intros Hk Hb Hl. apply list.Forall_forall. intros q Hq. rewrite list.Forall_forall in Hb, Hl.
  rewrite Hk by auto. auto.
Qed.

(** a new stream in front of streams that own their objects *)
Lemma objects_push w w' ss s p :
  objects w ss → Forall (in_use w) ss → keeps w w' → since w s →
  (∃ o1 o2 a1 a2 lim, allocated w' p s o1 o2 a1 a2 lim) → objects w' (s :: ss).
Proof.
  intros [[Hc Nc] [Ha Na] [Hl Nl]] Hu Hk (S1 & S2 & S3 & S4 & S5) (o1 & o2 & a1 & a2 & lim & Hal).
  destruct (ptrs_below w ss Hu) as (Bc & Ba & Bl). destruct Hal as [As C1 C2 A1 A2 L1 N1 N2].
  assert (∀ q l', Forall (λ x, (x < brk w)%nat) l' → (brk w <= q)%nat → q ∉ l') as Hout
    by (intros q l'; apply below_not_elem).
  split; cbn [cipher_ptrs auth_ptrs map concat app];
    (split; [repeat (constructor; [by eexists|]); eapply live_keep; [|done|done]; intros q Hq; apply Hk; done|]).
  - apply list.NoDup_cons. rewrite not_elem_of_cons. split; [split; [done|by apply Hout]|].
    apply list.NoDup_cons. split; [by apply Hout|done].
  - apply list.NoDup_cons. rewrite not_elem_of_cons. split; [split; [done|by apply Hout]|].
    apply list.NoDup_cons. split; [by apply Hout|done].
  - apply list.NoDup_cons. split; [by apply Hout|done].
Qed.

Lemma objects_snoc w ss s : objects w (s :: ss) → objects w (ss ++ [s]).
Proof.
  assert (s :: ss ≡ₚ ss ++ [s]) as Hp by (by rewrite (comm app)).
  assert (∀ f : srtp_stream_ctx_t → list nat, concat (map f (s :: ss)) ≡ₚ concat (map f (ss ++ [s]))) as Hf.
  { intros f. rewrite map_app, concat_app. cbn. rewrite app_nil_r. apply (comm app). }
  intros [[Hc Nc] [Ha Na] [Hl Nl]]. unfold cipher_ptrs, auth_ptrs in *.
  split; unfold cipher_ptrs, auth_ptrs; [rewrite <-(Hf _)..|rewrite <-(Permutation_map limit Hp)]; done.
Qed.

(** the streams and the template that were there are not those of the new one *)
Lemma apart_since w s t ts : in_use w ts → since w s → ¬ shares (Some (t, ts)) s ∧ ¬ shares (Some (t, s)) ts.
Proof. unfold in_use, since. cbn. lia. Qed.

Lemma owning_all tm ss : Forall (λ s, ¬ shares tm s) ss → owning tm ss = ss.
Proof.
  unfold owning. induction 1 as [|s ss Hs _ IH]; [done|]. rewrite filter_cons, decide_True by done. by rewrite IH.
Qed.

Lemma owners_none ss : owners None ss = ss.
Proof.
  unfold owners. rewrite owning_all; [apply app_nil_r|]. apply list.Forall_forall. intros s _. cbn. tauto.
Qed.

Lemma own_lookups w l ss s p :
  Forall2 (λ q t, streams w !! q = Some t) l ss → (p ∉ l) →
  Forall2 (λ q t, <[p := s]> (streams w) !! q = Some t) l ss.
Proof.
  induction 1 as [|q t l ss Hq _ IH]; [constructor|]. intros [Hne Hp]%not_elem_of_cons.
  constructor; [by rewrite lookup_insert_ne|by apply IH].
Qed.

Lemma Forall_cons6 {A} (P : A → Prop) a b c d e f l :
  Forall P (a :: b :: c :: d :: e :: f :: l) → P a ∧ P b ∧ P c ∧ P d ∧ P e ∧ P f ∧ Forall P l.
Proof. rewrite !Forall_cons_iff. tauto. Qed.

(** a stream for a policy, keyed, before it has its place in the session *)
Lemma open_supported w pol n :
  kernel_ready w → stack_ok w → supported pol → memory_for w (6 + n) →
  ∃ key w' s k' ci au li rest, p_key pol = Some key ∧
    runs (tmp ← srtp_stream_alloc pol;
          on_error (srtp_stream_init tmp pol key) (free_stream tmp);; mret tmp) w (inr (brk w)) w' ∧
    w' = grown w k' (<[brk w := s]> (streams w)) ci au li (6 + brk w) rest ∧ registered k' ∧
    (∃ bs rest', rest = map Some bs ++ rest' ∧ length bs = n ∧ Forall block_ok bs) ∧
    ssrc s = bswap32 (p_ssrc_value pol) ∧ keeps w w' ∧ in_use w' s ∧ since w s ∧
    ∃ o1 o2 a1 a2 lim, allocated w' (brk w) s o1 o2 a1 a2 lim.
Proof.
  intros Hk Hst (_ & (key & Ek & Hkey) & t1 & t2 & u1 & u2 & Hpt) (bs & rest & Hm & Hlen & Hok).
  destruct bs as [|b0 [|b1 [|b2 [|b3 [|b4 [|b5 bs]]]]]]; try done.
  pose proof Hok as (_ & _ & B2 & _ & _ & B5 & Hok')%Forall_cons6.
  destruct (open_stream w pol t1 t2 u1 u2 b0 b1 b2 b3 b4 b5 (map Some bs ++ rest) key Hk Hst Hm B2 B5 Hpt Hkey)
    as (p & w' & R & -> & k' & s & o1 & o2 & a1 & a2 & ci & au & li & Hk' & E & Hop & _ & Hkp & Hu & Hs).
  exists key, w', s, k', ci, au, li, (map Some bs ++ rest). split; [done|]. split; [exact R|].
  split; [done|]. split; [done|]. split; [exists bs, rest; split; [done|]; split; [simpl in Hlen; lia|done]|].
  split; [apply Hop|]. do 3 (split; [done|]). eexists _, _, _, _, _. by eapply opened_allocated.
Qed.

(** one more stream in the list *)
Lemma add_specific_wf w c l ss tm pol n :
  kernel_ready w → stack_ok w → session_wf w c l ss tm → Forall (λ s, ¬ shares tm s) ss →
  supported pol → p_ssrc_type pol = ssrc_specific → memory_for w (6 + n) →
  returns (srtp_add_stream c pol) w (λ _ w', ∃ s, session_wf w' c (brk w :: l) (s :: ss) tm ∧
    Forall (λ s, ¬ shares tm s) (s :: ss) ∧ ssrc s = bswap32 (p_ssrc_value pol) ∧
    kernel_ready w' ∧ stack_ok w' ∧ memory_for w' n).
Proof.
  intros Hk Hst [Hc Hch [Ho1 Ho2 Ho3] Hb Hu] Hns Hsup Et Hm.
  destruct (open_supported w pol n Hk Hst Hsup Hm)
    as (key & w1 & s & k' & ci & au & li & rest & Ek & R & E & Hk' & Hrest & Hx & Hkp & Hus & Hsi & Hal).
  set (s' := set_next (head l) s).
  set (w' := put_sessions (<[c := mk_ctx (Some (brk w)) (fst <$> tm)]> (sessions w1))
    (put_streams (<[brk w := s']> (streams w1)) w1)).
  assert (runs (srtp_add_stream c pol) w (inr tt) w') as Radd.
  { unfold srtp_add_stream. rewrite Ek. eapply runs_seq; [exact R|]. rewrite Et.
    assert (sessions w1 !! c = Some (mk_ctx (head l) (fst <$> tm))) as Hc1 by (by rewrite E).
    assert (streams w1 !! brk w = Some s) as Hs1 by (rewrite E; apply lookup_insert_eq).
    eapply runs_bind; [by apply runs_get_ctx|]. cbn [stream_list].
    eapply runs_bind; [by apply (runs_set_stream _ _ s)|].
    exact (runs_set_ctx c (set_list (Some (brk w))) _ (put_streams (<[brk w := s']> (streams w1)) w1) Hc1). }
  apply (returns_intro _ _ _ _ _ Radd). exists s'.
  assert (streams w' = <[brk w := s']> (streams w)) as Es.
  { unfold w'. cbn. rewrite E. cbn. apply insert_insert_eq. }
  assert (brk w' = (6 + brk w)%nat) as Eb by (unfold w'; cbn; by rewrite E).
  assert (Forall (in_use w) (owners tm ss)) as Huo by (unfold owners; by rewrite owning_all).
  assert (¬ shares tm s') as Hs'.
  { destruct tm as [[t ts]|]; [|tauto]. apply (apart_since w s' t ts); [|done].
    apply list.Forall_app in Hu as [_ Hu]. by apply Forall_cons_iff in Hu as [? _]. }
  assert (Forall (λ q, (q < brk w)%nat) l) as Hbl by (by apply list.Forall_app in Hb as [? _]).
  assert (∀ t, in_use w t → in_use w' t) as Hmono by (intros t; unfold in_use; lia).
  split.
  { split.
    - apply lookup_insert_eq.
    - cbn [head]. split; [done|]. exists s'. rewrite Es. split; [apply lookup_insert_eq|].
      apply chain_insert_out; [done|]. by eapply below_not_elem.
    - split; [rewrite Es; constructor; [apply lookup_insert_eq|apply own_lookups; [done|by eapply below_not_elem]]|..].
      + destruct tm as [[t ts]|]; [|done]. apply list.Forall_app in Hb as [_ Hb].
        apply Forall_cons_iff in Hb as [Hb _]. cbn in Hb. rewrite Es, lookup_insert_ne by lia.
        rewrite not_elem_of_cons. split; [apply Ho2|split; [lia|apply Ho2]].
      + unfold owners. rewrite owning_all by (by constructor). cbn [app]. unfold owners in Ho3, Huo.
        rewrite owning_all in Ho3, Huo by done. eapply (objects_push w w' _ s' (brk w)); try done.
        * destruct Hal as (o1 & o2 & a1 & a2 & lim & [A0 A1 A2 A3 A4 A5 A6 A7]).
          exists o1, o2, a1, a2, lim. split; try done. rewrite Es. apply lookup_insert_eq.
    - constructor; [lia|]. eapply Forall_impl; [|exact Hb]. intros q Hq. simpl in *. lia.
    - constructor; [exact Hus|]. by eapply Forall_impl; [|exact Hu]. }
  split; [by constructor|]. split; [done|]. unfold w'. rewrite E. split; [done|]. split; [done|].
  exact Hrest.
Qed.

(** the template, where there is none *)
Lemma add_template_wf w c l ss pol dir n :
  kernel_ready w → stack_ok w → session_wf w c l ss None →
  supported pol → wildcards [pol] = [dir] → memory_for w (6 + n) →
  returns (srtp_add_stream c pol) w (λ _ w', ∃ s, let tm := Some (brk w, s) in
    session_wf w' c l ss tm ∧ Forall (λ s, ¬ shares tm s) ss ∧ direction s = dir ∧
    kernel_ready w' ∧ stack_ok w' ∧ memory_for w' n).
Proof.
  intros Hk Hst [Hc Hch [Ho1 _ Ho3] Hb Hu] Hsup Ed Hm. unfold stream_ptrs in Hb. cbn in Hb, Hu.
  rewrite app_nil_r in Hb, Hu.
  destruct (open_supported w pol n Hk Hst Hsup Hm)
    as (key & w1 & s & k' & ci & au & li & rest & Ek & R & E & Hk' & Hrest & Hx & Hkp & Hus & Hsi & Hal).
  set (s' := set_direction dir s). set (tm := Some (brk w, s')).
  set (w' := put_streams (<[brk w := s']> (streams w1))
    (put_sessions (<[c := mk_ctx (head l) (Some (brk w))]> (sessions w1)) w1)).
  assert (runs (add_template c (brk w) dir) w1 (inr tt) w') as Rt.
  { assert (sessions w1 !! c = Some (mk_ctx (head l) None)) as Hc1 by (by rewrite E).
    assert (streams w1 !! brk w = Some s) as Hs1 by (rewrite E; apply lookup_insert_eq).
    unfold add_template. eapply runs_bind; [by apply runs_get_ctx|]. cbn [stream_template].
    eapply runs_bind; [by apply (runs_set_ctx _ _ (mk_ctx (head l) None))|].
    exact (runs_set_stream (brk w) (set_direction dir) s (put_sessions _ w1) Hs1). }
  assert (runs (srtp_add_stream c pol) w (inr tt) w') as Radd.
  { unfold srtp_add_stream. rewrite Ek. eapply runs_seq; [exact R|].
    unfold wildcards in Ed. cbn in Ed. destruct (p_ssrc_type pol); try done; injection Ed as <-; exact Rt. }
  apply (returns_intro _ _ _ _ _ Radd). exists s'.
  assert (streams w' = <[brk w := s']> (streams w)) as Es.
  { unfold w'. cbn. rewrite E. cbn. apply insert_insert_eq. }
  assert (brk w' = (6 + brk w)%nat) as Eb by (unfold w'; cbn; by rewrite E).
  assert (brk w ∉ l) as Hout by (by eapply below_not_elem).
  assert (Forall (λ t, ¬ shares tm t) ss) as Hns.
  { eapply Forall_impl; [|exact Hu]. intros t Ht. exact (proj2 (apart_since w s' (brk w) t Ht Hsi)). }
  assert (∀ t, in_use w t → in_use w' t) as Hmono by (intros t; unfold in_use; lia).
  cbv zeta. split.
  { split.
    - apply lookup_insert_eq.
    - rewrite Es. by apply chain_insert_out.
    - split; [rewrite Es; by apply own_lookups|split; [rewrite Es; apply lookup_insert_eq|done]|].
      rewrite owners_none in Ho3. unfold owners. rewrite owning_all by done.
      apply objects_snoc. eapply (objects_push w w' _ s' (brk w)); try done.
      destruct Hal as (o1 & o2 & a1 & a2 & lim & [A0 A1 A2 A3 A4 A5 A6 A7]).
      exists o1, o2, a1, a2, lim. split; try done. rewrite Es. apply lookup_insert_eq.
    - unfold stream_ptrs. apply list.Forall_app. split; [|apply List.Forall_cons; [cbv beta; rewrite Eb; cbn; lia|apply List.Forall_nil]].
      eapply Forall_impl; [|exact Hb]. intros q Hq. simpl in *. lia.
    - apply list.Forall_app. split; [by eapply Forall_impl; [|exact Hu]|apply List.Forall_cons; [exact Hus|apply List.Forall_nil]]. }
  split; [done|]. split; [done|]. unfold w'. rewrite E. split; [done|]. split; [done|]. exact Hrest.
Qed.

(** a supported policy is for one source or for any *)
Lemma supported_cases pol :
  supported pol →
  (p_ssrc_type pol = ssrc_specific ∧ sources [pol] = [bswap32 (p_ssrc_value pol)] ∧ wildcards [pol] = []) ∨
  (∃ dir, sources [pol] = [] ∧ wildcards [pol] = [dir]).
Proof.
  intros [Hu _]. unfold sources, wildcards. cbn. destruct (p_ssrc_type pol); [done|by left|right; eauto..].
Qed.

Lemma asks_cons pol pols :
  sources (pol :: pols) = sources [pol] ++ sources pols ∧
  wildcards (pol :: pols) = wildcards [pol] ++ wildcards pols.
Proof. unfold sources, wildcards. cbn. by destruct (p_ssrc_type pol). Qed.

(** all of them, one after the other *)
Lemma add_streams_wf pols : ∀ w c l ss tm,
  kernel_ready w → stack_ok w → session_wf w c l ss tm → Forall (λ s, ¬ shares tm s) ss →
  Forall supported pols →
  (length (from_option (λ t, [direction (snd t)]) [] tm ++ wildcards pols) <= 1)%nat →
  memory_for w (6 * length pols) →
  returns (add_streams c pols) w (λ _ w', ∃ l' ss' tm', session_wf w' c (l' ++ l) (ss' ++ ss) tm' ∧
    Forall (λ s, ¬ shares tm' s) (ss' ++ ss) ∧ map ssrc ss' = rev (sources pols) ∧
    from_option (λ t, [direction (snd t)]) [] tm' =
      from_option (λ t, [direction (snd t)]) [] tm ++ wildcards pols).
Proof.
  induction pols as [|pol pols IH]; intros w c l ss tm Hk Hst Hwf Hns Hsup Hone Hm.
  { exists tt, w. split; [done|]. exists [], [], tm. by rewrite app_nil_r. }
  apply Forall_cons_iff in Hsup as [Hpol Hsup].
  replace (6 * length (pol :: pols))%nat with (6 + 6 * length pols)%nat in Hm by (simpl; lia).
  destruct (asks_cons pol pols) as [Es Ew]. rewrite Ew in Hone |- *. rewrite Es.
  destruct (supported_cases pol Hpol) as [(Et & Es1 & Ew1)|(dir & Es1 & Ew1)]; rewrite Es1, Ew1 in *.
  - destruct (add_specific_wf w c l ss tm pol _ Hk Hst Hwf Hns Hpol Et Hm)
      as ([] & w1 & R & s & Hwf1 & Hns1 & Hx & Hk1 & Hst1 & Hm1).
    destruct (IH w1 c _ _ tm Hk1 Hst1 Hwf1 Hns1 Hsup Hone Hm1)
      as ([] & w2 & R2 & l' & ss' & tm' & Hwf2 & Hns2 & E & Et').
    exists tt, w2. split; [cbn [add_streams]; eapply runs_bind; [apply runs_on_error; exact R|exact R2]|].
    exists (l' ++ [brk w]), (ss' ++ [s]), tm'. rewrite <-!app_assoc. split; [done|]. split; [done|].
    split; [|done]. rewrite map_app, E. cbn [map rev app]. by rewrite Hx.
  - destruct tm as [tm|]; [simpl in Hone; lia|].
    destruct (add_template_wf w c l ss pol dir _ Hk Hst Hwf Hpol Ew1 Hm)
      as ([] & w1 & R & s & Hwf1 & Hns1 & Hd & Hk1 & Hst1 & Hm1).
    destruct (IH w1 c l ss (Some (brk w, s)) Hk1 Hst1 Hwf1 Hns1 Hsup)
      as ([] & w2 & R2 & l' & ss' & tm' & Hwf2 & Hns2 & E & Et'); [cbn [from_option snd]; by rewrite Hd|done|].
    exists tt, w2. split; [cbn [add_streams]; eapply runs_bind; [apply runs_on_error; exact R|exact R2]|].
    exists l', ss', tm'. do 3 (split; [done|]). rewrite Et'. cbn. by rewrite Hd.
Qed.

(** the clone of the template for a new source keeps a session well-formed *)
Lemma clone_template_wf w c l ss t ts x b rest :
  session_wf w c l ss (Some (t, ts)) → mem w = Some b :: rest →
  returns (clone_template c x) w (λ p w', p = brk w ∧ ∃ s,
    session_wf w' c (p :: l) (s :: ss) (Some (t, ts)) ∧ ssrc s = x ∧ shares (Some (t, ts)) s).
Proof.
  intros [Hc Hch [Ho1 [Ho2 Htl] Ho3] Hb Hu] Hm. unfold stream_ptrs in Hb. cbn in Hb, Hu.
  pose proof Hb as [Hbl [Hbt _]%Forall_cons_iff]%list.Forall_app.
  assert (t ≠ brk w) as Hne by lia. assert (brk w ∉ l) as Hout by (by eapply below_not_elem).
  eapply returns_intro; [by eapply (clone_template_spec w c _ t ts x)|]. split; [done|].
  set (s := clone_of ts x (head l)). exists s. split; [|done]. set (w' := put_sessions _ _).
  assert (streams w' = <[brk w := s]> (streams w)) as Es by done.
  assert (shares (Some (t, ts)) s) as Hsh by done.
  split.
  - apply lookup_insert_eq.
  - cbn [head]. split; [done|]. exists s. rewrite Es. split; [apply lookup_insert_eq|]. by apply chain_insert_out.
  - split; [rewrite Es; constructor; [apply lookup_insert_eq|by apply own_lookups]|..].
    + rewrite Es, lookup_insert_ne by done. rewrite not_elem_of_cons. done.
    + unfold owners, owning in *. rewrite filter_cons, decide_False by tauto. by destruct Ho3.
  - constructor; [cbn; lia|]. eapply Forall_impl; [|exact Hb]. intros q Hq. simpl in *. lia.
  - pose proof Hu as [_ [Ht _]%Forall_cons_iff]%list.Forall_app. unfold in_use in *.
    constructor; [cbn in *; lia|]. eapply Forall_impl; [|exact Hu]. cbn. lia.
Qed.

(** ** Properties *)

(** C18: for every list of policies the library supports, with at most one wildcard among
    them and memory for all, [srtp_create] returns a well-formed session: its list of
    streams ends and holds one stream for each policy that names its source, the last
    one first; it has a template exactly when there is a wildcard policy, with the
    direction of that policy; and every stream and the template have ciphers,
    authentication functions and key limit of their own. *)
Theorem srtp_create_wf w pols :
  kernel_ready w → stack_ok w → Forall supported pols → (length (wildcards pols) <= 1)%nat →
  memory_for w (1 + 6 * length pols) →
  ∃ c w' l ss tm, srtp_create pols w = Some (inr c, w') ∧ session_wf w' c l ss tm ∧
    map ssrc ss = rev (sources pols) ∧ from_option (λ t, [direction (snd t)]) [] tm = wildcards pols ∧
    Forall (λ s, ¬ shares tm s) ss.
Proof.
  intros Hk Hst Hsup Hone (bs & rest & Hm & Hlen & Hok). destruct bs as [|b bs]; [done|].
  apply Forall_cons_iff in Hok as [_ Hok]. set (c := brk w).
  set (w1 := put_sessions (<[c := mk_ctx None None]> (sessions w)) (next_block w)).
  destruct (add_streams_wf pols w1 c [] [] None Hk Hst)
    as ([] & w2 & R & l & ss & tm & Hwf & Hns & E & Et); [|done|done|done| |].
  - split; [apply lookup_insert_eq|done| |done|done]. split; [constructor|done|].
    split; split; (exact (List.Forall_nil _) || exact (NoDup_nil_2)).
  - exists bs, rest. unfold w1. cbn. rewrite Hm. split; [done|]. split; [simpl in Hlen; lia|done].
  - rewrite !app_nil_r in *. exists c, w2, l, ss, tm. split; [|done]. unfold srtp_create.
    eapply runs_bind; [exact (runs_crypto_alloc w b (map Some bs ++ rest) Hm)|cbv beta iota].
    eapply runs_bind; [apply runs_modify|].
    eapply runs_bind; [apply runs_set_ctx, lookup_insert_eq|].
    eapply runs_bind; [apply runs_set_ctx, lookup_insert_eq|].
    eapply runs_bind; [|apply runs_ret].
    match goal with |- runs _ ?v _ _ => assert (v = w1) as -> end; [|exact R].
    unfold w1. cbn. by rewrite !insert_insert_eq.
Qed.

Lemma demo_supported ty n : ty ≠ ssrc_undefined → supported (mk_srtp_policy ty n crypto_policy_set_rtp_default
  crypto_policy_set_rtcp_default (Some rfc_master)).
Proof.
  intros Ht. split; [done|]. split; [exists rfc_master; split; [done|apply rfc_master_mem]|].
  exists Aes_icm, Aes_icm, Hmac_sha1, Hmac_sha1. by apply default_policy_types.
Qed.

Lemma srtp_create_wf_witness :
  ∃ c w' l ss tm, srtp_create [demo_policy; any_policy] (demo_world [] 0) = Some (inr c, w') ∧
    session_wf w' c l ss tm ∧ map ssrc ss = [bswap32 0xcafebabe] ∧
    from_option (λ t, [direction (snd t)]) [] tm = [dir_srtp_receiver] ∧ Forall (λ s, ¬ shares tm s) ss.
Proof.
  apply (srtp_create_wf (demo_world [] 0) [demo_policy; any_policy]).
  - apply (demo_ready [] 0).
  - apply (demo_ready [] 0).
  - repeat constructor; by apply demo_supported.
  - cbn. lia.
  - exists (replicate 13 demo_block), [Some demo_block]. split; [reflexivity|]. split; [reflexivity|].
    apply Forall_replicate, demo_block_ok.
Defined.
