(* ===== verification/Rtp.v ===== *)
(** * The RTP functions on top of SRTP

    Models [test/rtp.c], the functions with which libsrtp's sample application
    sends and receives: a sender and a receiver that keep one message each, with
    its header, and hand it to [srtp_protect] and [srtp_unprotect].

    The message of a sender or receiver is the list of its octets, twelve of header
    and [RTP_MAX_BUF_LEN] of body.  The network is explicit: [rtp_sendto] returns
    the datagram, [rtp_recvfrom] is given one ([None] when [recvfrom] fails). *)

From stdpp Require Import gmap strings.
From S2P Require Import Prelude Datatypes Replay KeyLimit Sha1 Hmac Cipher Aes AesIcm AesCbc.
From S2P Require Import CryptoKernel Rfc3711 Srtp SrtpObjects SrtpPacket SrtpSession.
Import Rdb Rdbx.

#[local] Opaque AesSpec.cipher AesSpec.key_expansion Hmac.HMAC.

(** ** The code *)

Definition rtp_header_len : Z := 12.
Definition RTP_MAX_BUF_LEN : Z := 16384.

Record rtp_sender_t := mk_sender { s_message : list Z; s_srtp_ctx : nat }.
Record rtp_receiver_t := mk_receiver { r_message : list Z; r_srtp_ctx : nat }.

(** octets of a structure *)
Definition put_octets (dst : list Z) (off : Z) (src : list Z) : option (list Z) :=
  if decide (0 <= off ∧ off + Z.of_nat (length src) <= Z.of_nat (length dst)) then
    Some (take (Z.to_nat off) dst ++ src ++ drop (Z.to_nat off + length src) dst)
  else None.

Definition get_octets (src : list Z) (off n : Z) : option (list Z) :=
  if decide (0 <= off ∧ 0 <= n ∧ off + n <= Z.of_nat (length src)) then
    Some (take (Z.to_nat n) (drop (Z.to_nat off) src))
  else None.

(** the [n] octets [strncpy] writes: up to a null of the source, then nulls *)
Fixpoint copied (n : nat) (src : list Z) : option (list Z) :=
  match n with
  | O => Some []
  | S n =>
      match src with
      | [] => None
      | c :: src => if decide (c = 0) then Some (replicate (S n) 0) else l ← copied n src; Some (c :: l)
      end
  end.

(** a negative length is converted to a [size_t] that no array has room for *)
Definition strncpy (n : Z) (src : list Z) : option (list Z) :=
  if decide (0 <= n) then copied (Z.to_nat n) src else None.

(** a field of the header in network order, plus one *)
Definition bump (message : list Z) (off : Z) (size : nat) : option (list Z) :=
  f ← get_octets message off (Z.of_nat size);
  put_octets message off (be_bytes size (be_val f + 1)).

(** [sent] is what [sendto] returns for a datagram; the result, the datagram, the
    sender and the heap *)
Definition rtp_sendto (sent : list Z → Z) (sender : rtp_sender_t) (msg : list Z) (len : Z) (w : world)
  : option (Z * option (list Z) * rtp_sender_t * world) :=
  let pkt_len := len + rtp_header_len in
  body ← strncpy len msg;
  m ← put_octets (s_message sender) rtp_header_len body;
  m ← bump m 2 2;
  m ← bump m 4 4;
  '(stat, w) ← srtp_protect (s_srtp_ctx sender) (put_packet m (put_len pkt_len w));
  let sender := mk_sender (packet w) (s_srtp_ctx sender) in
  match stat with
  | inl _ => Some (-1, None, sender, w)
  | inr tt =>
      datagram ← get_octets (s_message sender) 0 (pkt_octet_len w);
      Some (sent datagram, Some datagram, sender, w)
  end.

(** the result, [*len], the caller's buffer, the receiver and the heap; what does not
    fit [*len] octets of a datagram is lost (a negative [*len] is a large [size_t]) *)
Definition rtp_recvfrom (arrival : option (list Z)) (receiver : rtp_receiver_t) (msg : list Z) (len : Z)
    (w : world) : option (Z * Z * list Z * rtp_receiver_t * world) :=
  let datagram := if decide (0 <= len) then take (Z.to_nat len) (default [] arrival) else default [] arrival in
  let octets_recvd := match arrival with Some _ => Z.of_nat (length datagram) | None => -1 end in
  m ← put_octets (r_message receiver) 0 datagram;
  b ← aget m 0;
  if decide (b >> 6 ≠ 2) then Some (-1, 0, msg, mk_receiver m (r_srtp_ctx receiver), w) else
  '(stat, w) ← srtp_unprotect (r_srtp_ctx receiver) (put_packet m (put_len octets_recvd w));
  let receiver := mk_receiver (packet w) (r_srtp_ctx receiver) in
  match stat with
  | inl _ => Some (-1, len, msg, receiver, w)
  | inr tt =>
      let octets_recvd := pkt_octet_len w in
      text ← strncpy octets_recvd (drop 12 (r_message receiver));
      msg ← put_octets msg 0 text;
      Some (octets_recvd, len, msg, receiver, w)
  end.

(** the header both kinds start with; [seq] as it is stored *)
Definition init_header (seq ssrc : Z) : list Z := [0x80; 0x01] ++ le_bytes 2 seq ++ [0; 0; 0; 0] ++ be_bytes 4 ssrc.

(** [random] is the value of [rand()] *)
Definition rtp_sender_init (random : Z) (sender : rtp_sender_t) (ssrc : Z) : option rtp_sender_t :=
  m ← put_octets (s_message sender) 0 (init_header (u16 random) ssrc);
  Some (mk_sender m (s_srtp_ctx sender)).

Definition rtp_receiver_init (rcvr : rtp_receiver_t) (ssrc : Z) : option rtp_receiver_t :=
  m ← put_octets (r_message rcvr) 0 (init_header 0 ssrc);
  Some (mk_receiver m (r_srtp_ctx rcvr)).

(** ** A conversation *)

(** the characters of a C string *)
Fixpoint c_chars (l : list Z) : option (list Z) :=
  match l with
  | [] => None
  | c :: l => if decide (c = 0) then Some [] else s ← c_chars l; Some (c :: s)
  end.

(** a text is sent with its null, the datagram arrives, the receiver reads it into a
    buffer that holds [junk]; the texts received *)
Fixpoint converse (texts : list (list Z)) (junk : list Z) (sender : rtp_sender_t) (w : world)
    (receiver : rtp_receiver_t) (v : world) : option (list (list Z)) :=
  match texts with
  | [] => Some []
  | text :: texts =>
      '(_, datagram, sender, w) ← rtp_sendto (λ d, Z.of_nat (length d)) sender (text ++ [0])
                                    (Z.of_nat (length (text ++ [0]))) w;
      '(status, _, msg, receiver, v) ← rtp_recvfrom datagram receiver junk 16384 v;
      s ← (if decide (status < 0) then None else c_chars msg);
      l ← converse texts junk sender w receiver v;
      Some (s :: l)
  end.

(** ** Replay database and key limit, packet after packet *)

(** the next packet has the index [i]: the database is new, or [i] follows its index *)
Definition db_next (r : rdbx_t) (i : Z) : Prop :=
  (r = snd rdbx_init ∧ 0 <= i < 2 ^ 16) ∨ (rdbx_wf r ∧ 0 <= index r ∧ i = index r + 1).

(** the estimate of the sequence number that follows, also where it wraps around *)
Lemma estimate_next r :
  0 <= index r → index r + 1 < 2 ^ 48 →
  rdbx_estimate_index r ((index r + 1) mod 2 ^ 16) = (index r + 1, 1).
Proof.
  intros H0 H48. destruct (index_split (index r)) as (E1 & E2 & Hroc); [unfold is_word; lia|].
  unfold rdbx_estimate_index, index_guess. rewrite E1, E2.
  change seq_num_median with 32768. change seq_num_max with 65536. change (2 ^ 16) with 65536.
  pose proof (Z.div_mod (index r) 65536 ltac:(lia)) as Hdm.
  pose proof (Z.mod_pos_bound (index r) 65536 ltac:(lia)) as Hm.
  destruct (decide (index r mod 65536 = 65535)) as [Hw|Hw].
  - assert ((index r + 1) mod 65536 = 0) as ->.
    { symmetry. apply Z.mod_unique with (index r / 65536 + 1); lia. }
    rewrite Hw in *. do 3 (case_decide; try lia).
    rewrite (wrap_small 32) by (unfold is_word; lia).
    rewrite index_join by (unfold is_word; lia). f_equal; lia.
  - assert ((index r + 1) mod 65536 = index r mod 65536 + 1) as ->.
    { symmetry. apply Z.mod_unique with (index r / 65536); lia. }
    destruct (decide (index r > 32768)).
    + replace (if decide (index r mod 65536 < 32768) then _ else _)
        with (index r / 65536, index r mod 65536 + 1 - index r mod 65536)
        by (repeat case_decide; (done || lia)).
      rewrite index_join by (unfold is_word; lia). f_equal; lia.
    + rewrite !Z.mod_small by lia. f_equal; lia.
Qed.

Lemma db_next_accepts r i :
  db_next r i → i < 2 ^ 48 → ∃ r', accepts r (i mod 2 ^ 16) i r' ∧ db_next r' (i + 1).
Proof.
  intros [[-> Hi]|(Hwf & H0 & ->)] H48.
  - rewrite Z.mod_small by lia. set (r := snd rdbx_init).
    assert (rdbx_estimate_index r i = (i, i)) as E.
    { unfold r, rdbx_estimate_index. rewrite decide_False by done. cbn. f_equal. apply Z.sub_0_r. }
    destruct (decide (0 < i)) as [Hpos|Hz].
    + destruct (rdbx_add_forward r i rdbx_init_wf) as (r' & Ea & Hwf & Hix & _);
        [change seq_num_max with 65536; lia|change (index r) with 0; lia|].
      exists r'. split.
      * exists i, err_status_ok. split_and!; [done| |done]. unfold rdbx_check. by rewrite decide_True by lia.
      * right. change (index r) with 0 in Hix. split_and!; [done|lia..].
    + assert (i = 0) as -> by lia. eexists. split.
      * exists 0, err_status_ok. split; [done|]. split; reflexivity.
      * right. split_and!; [|done|done]. split; [done|eval_dec].
  - destruct (rdbx_add_forward r 1 Hwf) as (r' & Ea & Hwf' & Hix & _);
      [change seq_num_max with 65536; lia|lia|].
    exists r'. split.
    + exists 1, err_status_ok. split_and!; [by apply estimate_next| |done].
      unfold rdbx_check. by rewrite decide_True by lia.
    + right. split_and!; [done|lia|lia].
Qed.

(** [n] packets were counted *)
Definition limit_at (n : Z) : key_limit_ctx_t := mk_key_limit (0xffffffffffff - n) key_state_normal.

Lemma limit_next n :
  0 <= n < 2 ^ 48 - 2 ^ 17 → key_limit_update (limit_at n) = (key_event_normal, limit_at (n + 1)).
Proof.
  intros Hn. unfold key_limit_update, limit_at, soft_limit. cbn [num_left KeyLimit.state].
  rewrite wrap_small by (unfold is_word; lia). rewrite decide_True by lia. do 2 f_equal. lia.
Qed.

(** ** Ends of a connection *)

Section Ends.
Context (X : Z) (k ka : list Z) (o0 : cipher_obj) (a0 : auth_obj).
Context (Htag : auth_obj_tag_length a0 = 10).

Abbreviation services := sec_serv_conf_and_auth.

(** a session with a stream for the source [X], after [n] packets in direction [dir];
    the next one has the index [i] *)
Definition at_packet (dir : direction_t) (w : world) (c : nat) (n i : Z) : Prop :=
  ∃ p s o a, has_stream w c X p ∧ not_template w c p ∧ rtp_stream w p s o a (limit_at n) k ka ∧
    (direction s = dir ∨ direction s = dir_unknown) ∧ db_next (rtp_rdbx s) i ∧
    rtp_services s = services ∧ obj_type o = obj_type o0 ∧
    auth_obj_type a = auth_obj_type a0 ∧ auth_obj_tag_length a = 10.

(** the heap both functions leave *)
Lemma at_packet_after dir w c p s o a o' a' r' n i pk len :
  has_stream w c X p → not_template w c p → rtp_stream w p s o a (limit_at n) k ka →
  db_next r' i → rtp_services s = services → obj_type o = obj_type o0 →
  auth_obj_type a = auth_obj_type a0 → auth_obj_tag_length a = 10 →
  obj_shape o' = obj_shape o → obj_keyed o' k → auth_shape a' = auth_shape a → auth_obj_keyed a' ka →
  at_packet dir (heap w (<[p := set_rtp_rdbx r' (set_direction dir s)]> (streams w))
    (<[rtp_cipher s := o']> (ciphers w)) (<[rtp_auth s := a']> (auths w))
    (<[limit s := limit_at (n + 1)]> (limits w)) pk len) c (n + 1) i.
Proof using.
  intros Hh Hn [Hs Ho Ha Hl Hk Hka Hf] Hd Hsv To Ta Tl So Ko Sa Ka.
  exists p, (set_rtp_rdbx r' (set_direction dir s)), o', a'.
  pose proof (auth_shape_fits _ _ Sa Hf) as Hf'. unfold obj_shape, auth_shape in *. simplify_eq.
  split_and!; try done; try congruence.
  - by eapply has_stream_update; [exact Hh|exact Hs|done|done| |].
  - split; cbn; try done; by rewrite lookup_insert_eq.
  - by left.
Qed.

(** the packet of the caller is another one *)
Lemma at_packet_put dir w c n i m len :
  at_packet dir w c n i → at_packet dir (put_packet m (put_len len w)) c n i.
Proof using.
  intros (p & s & o & a & Hh & Hnt & [] & Hr). exists p, s, o, a.
  split; [exact Hh|]. split; [exact Hnt|]. by split.
Qed.

(** what a packet with index [i] looks like on the wire *)
Definition wire_body (hdr body : list Z) (i : Z) : list Z := protected_body services o0 k hdr body i.
Definition wire_tag (m : list Z) (i : Z) : list Z := packet_tag services a0 ka m i.

Lemma length_wire_tag m i : auth_fits a0 → length (wire_tag m i) = 10%nat.
Proof using Htag.
  intros Hf. unfold wire_tag, packet_tag. change (auth_on services) with true. cbv iota.
  pose proof (length_obj_tag a0 ka (m ++ take 4 (est_octets i)) Hf). lia.
Qed.

Lemma protect_step w c n i hdr body room :
  at_packet dir_srtp_sender w c n i → 0 <= n < 2 ^ 48 - 2 ^ 17 → i < 2 ^ 48 →
  rtp_packet w hdr body room → pkt_ssrc hdr = X → pkt_seq hdr = i mod 2 ^ 16 →
  (10 <= length room)%nat →
  let tag := wire_tag (hdr ++ wire_body hdr body i) i in
  ∃ w', srtp_protect c w = Some (inr tt, w') ∧
    packet w' = hdr ++ wire_body hdr body i ++ tag ++ drop (length tag) room ∧
    pkt_octet_len w' = Z.of_nat (length (hdr ++ wire_body hdr body i ++ tag)) ∧
    at_packet dir_srtp_sender w' c (n + 1) (i + 1).
Proof using Htag.
  intros (p & s & o & a & Hh & Hnt & Hst & Hd & Hdb & Hsv & To & Ta & Tl) Hn Hi Hpk HX Hseq Hroom tag.
  destruct (db_next_accepts _ _ Hdb Hi) as (r' & Hacc & Hdb'). rewrite <-Hseq in Hacc.
  rewrite <-HX in Hh.
  destruct (protect_spec w c p s o a _ _ k ka hdr body room i r' Hh Hst Hpk Hd (limit_next n Hn) Hacc)
    as ([] & w' & Hr & o' & a' & -> & So & Ko & Sa & Ka); [lia|].
  rewrite HX in Hh. rewrite Hsv, (protected_body_type services o0 o) in Hr by done.
  assert (∀ m, packet_tag services a ka m i = wire_tag m i) as Et.
  { intros m. unfold wire_tag, packet_tag. by rewrite (obj_tag_types a0 a) by congruence. }
  rewrite Et in Hr.
  eexists. split; [exact Hr|]. split; [done|]. split; [done|].
  by eapply at_packet_after.
Qed.

Lemma unprotect_step v c n i hdr body room :
  at_packet dir_srtp_receiver v c n i → 0 <= n < 2 ^ 48 - 2 ^ 17 → i < 2 ^ 48 →
  let body' := wire_body hdr body i in let tag := wire_tag (hdr ++ body') i in
  srtp_packet v hdr body' tag room → (12 <= length (stack v))%nat →
  pkt_ssrc hdr = X → pkt_seq hdr = i mod 2 ^ 16 → auth_fits a0 →
  ∃ v', srtp_unprotect c v = Some (inr tt, v') ∧
    packet v' = hdr ++ body ++ tag ++ room ∧
    pkt_octet_len v' = Z.of_nat (length (hdr ++ body)) ∧ stack v' = stack v ∧
    at_packet dir_srtp_receiver v' c (n + 1) (i + 1).
Proof using Htag.
  intros (p & s & o & a & Hh & Hnt & Hst & Hd & Hdb & Hsv & To & Ta & Tl) Hn Hi body' tag Hpk Hstk HX Hseq Hf.
  destruct (db_next_accepts _ _ Hdb Hi) as (r' & Hacc & Hdb'). rewrite <-Hseq in Hacc.
  rewrite <-HX in Hh.
  destruct (unprotect_spec v c p s o a _ _ k ka hdr body' tag room i r' Hh Hnt Hst Hpk Hstk Hd
    (limit_next n Hn) Hacc) as ([] & v' & Hr & o' & a' & -> & So & Ko & Sa & Ka).
  { unfold tag. rewrite length_wire_tag by done. lia. }
  { intros _. unfold tag, wire_tag, packet_tag. change (auth_on services) with true. cbv iota.
    by rewrite (obj_tag_types a0 a) by congruence. }
  rewrite HX in Hh. rewrite Hsv, (protected_body_type services o0 o) in Hr by done.
  unfold body' at 1 in Hr. unfold wire_body in Hr. rewrite protected_body_involutive in Hr.
  eexists. split; [exact Hr|]. cbn [heap packet pkt_octet_len stack].
  split; [done|]. split; [|split; [done|by eapply at_packet_after]].
  unfold body', wire_body. by rewrite !length_app, length_protected_body.
Qed.

End Ends.

(** ** Headers and strings *)

Definition header (i t : Z) (x4 : list Z) : list Z := [0x80; 0x01] ++ be_bytes 2 i ++ be_bytes 4 t ++ x4.

Lemma length_header i t x4 : length x4 = 4%nat → length (header i t x4) = 12%nat.
Proof. intros Hx. unfold header. by rewrite !length_app, !length_be_bytes, Hx. Qed.

Lemma header_bytes i t x4 : is_bytes x4 → is_bytes (header i t x4).
Proof.
  intros Hx. unfold header. rewrite !is_bytes_app. split_and!; [eval_dec|apply be_bytes_range..|done].
Qed.

Lemma be_bytes_succ n x : be_bytes n (wrap (8 * Z.of_nat n) x + 1) = be_bytes n (x + 1).
Proof.
  rewrite <-(be_bytes_wrap n (8 * Z.of_nat n) (x + 1)), <-(be_bytes_wrap n (8 * Z.of_nat n)) by lia.
  unfold wrap. by rewrite Zplus_mod_idemp_l.
Qed.

Lemma put_get_mid pre f post g :
  length g = length f →
  get_octets (pre ++ f ++ post) (Z.of_nat (length pre)) (Z.of_nat (length f)) = Some f ∧
  put_octets (pre ++ f ++ post) (Z.of_nat (length pre)) g = Some (pre ++ g ++ post).
Proof.
  intros Hg. unfold get_octets, put_octets. rewrite !length_app, !decide_True by lia.
  rewrite !Nat2Z.id, drop_app_length, take_app_length. split; [done|].
  rewrite take_app_length, Hg, drop_app_add, drop_app_length. done.
Qed.

Lemma bump_seq i t x4 rest : bump (header i t x4 ++ rest) 2 2 = Some (header (i + 1) t x4 ++ rest).
Proof.
  unfold bump, header. rewrite <-!app_assoc.
  destruct (put_get_mid [0x80; 0x01] (be_bytes 2 i) (be_bytes 4 t ++ x4 ++ rest)
    (be_bytes 2 (i + 1))) as [E1 E2]; [by rewrite !length_be_bytes|].
  rewrite length_be_bytes in E1. change (Z.of_nat (length [128; 1])) with 2 in *.
  rewrite E1, Some_bind, be_val_be_bytes, be_bytes_succ. exact E2.
Qed.

Lemma bump_ts i t x4 rest : bump (header i t x4 ++ rest) 4 4 = Some (header i (t + 1) x4 ++ rest).
Proof.
  unfold bump, header. rewrite <-!app_assoc, !(app_assoc [0x80; 0x01]).
  destruct (put_get_mid ([0x80; 0x01] ++ be_bytes 2 i) (be_bytes 4 t) (x4 ++ rest)
    (be_bytes 4 (t + 1))) as [E1 E2]; [by rewrite !length_be_bytes|].
  rewrite length_be_bytes in E1. change (Z.of_nat (length ([128; 1] ++ be_bytes 2 i))) with 4 in *.
  rewrite E1, Some_bind, be_val_be_bytes, be_bytes_succ. exact E2.
Qed.

Definition is_text (s : list Z) : Prop := is_bytes s ∧ Forall (λ c, c ≠ 0) s.

Lemma strncpy_text s j rest :
  is_text s → strncpy (Z.of_nat (length s + S j)) (s ++ 0 :: rest) = Some (s ++ replicate (S j) 0).
Proof.
  intros [_ Hs]. unfold strncpy. rewrite decide_True, Nat2Z.id by lia.
  induction Hs as [|c s Hc _ IH]; [done|]. cbn [length Nat.add app copied].
  rewrite decide_False by done. by rewrite IH.
Qed.

Lemma c_chars_text s rest : is_text s → c_chars (s ++ 0 :: rest) = Some s.
Proof.
  intros [_ Hs]. induction Hs as [|c s Hc _ IH]; [done|]. cbn [app c_chars].
  rewrite decide_False by done. by rewrite IH.
Qed.

Lemma header_facts i t x4 :
  length x4 = 4%nat →
  pkt_seq (header i t x4) = i mod 2 ^ 16 ∧ pkt_ssrc (header i t x4) = le_val x4 ∧
  enc_start_of (header i t x4) = Some (Z.of_nat (length (header i t x4))).
Proof.
  intros Hx. split; [exact (be_val_be_bytes 2 i)|]. split.
  - unfold pkt_ssrc. change (drop 8 (header i t x4)) with x4. by rewrite take_ge by lia.
  - by rewrite length_header.
Qed.

(** ** One message *)

Section Message.
Context (x4 k ka : list Z) (o0 : cipher_obj) (a0 : auth_obj).
Context (Hx4 : length x4 = 4%nat) (Bx4 : is_bytes x4).
Context (Htag : auth_obj_tag_length a0 = 10) (Hfits : auth_fits a0) (Hkeyed : obj_keyed o0 k).

Abbreviation at_end := (at_packet (le_val x4) k ka o0 a0).

(** the datagram of a text *)
Definition datagram (i t : Z) (text : list Z) : list Z :=
  let hdr := header i t x4 in
  let body := wire_body k o0 hdr (text ++ [0]) i in
  hdr ++ body ++ wire_tag ka a0 (hdr ++ body) i.

Lemma length_datagram i t text : length (datagram i t text) = (length text + 23)%nat.
Proof using Hx4 Htag Hfits.
  unfold datagram, wire_body. rewrite !length_app, length_protected_body, length_wire_tag, length_header, length_app
    by done. simpl. lia.
Qed.

Lemma wire_bytes hdr body i : is_bytes body → is_bytes (wire_body k o0 hdr body i).
Proof using Hkeyed. by apply protected_body_bytes. Qed.

Lemma wire_tag_bytes m i : is_bytes (wire_tag ka a0 m i).
Proof using. unfold wire_tag, packet_tag. case_match; [apply obj_tag_bytes|constructor]. Qed.

(** [rtp_sendto] sends the datagram of the next index *)
Lemma sendto_step f c w i t n old text :
  at_end dir_srtp_sender w c n (i + 1) → 0 <= n < 2 ^ 48 - 2 ^ 17 → i + 1 < 2 ^ 48 →
  is_text text → Z.of_nat (length text) < 16360 → is_bytes old → length old = Z.to_nat 16384 →
  ∃ w' old', rtp_sendto f (mk_sender (header i t x4 ++ old) c) (text ++ [0])
      (Z.of_nat (length (text ++ [0]))) w =
    Some (f (datagram (i + 1) (t + 1) text), Some (datagram (i + 1) (t + 1) text),
          mk_sender (header (i + 1) (t + 1) x4 ++ old') c, w') ∧
    is_bytes old' ∧ length old' = Z.to_nat 16384 ∧ at_end dir_srtp_sender w' c (n + 1) (i + 1 + 1).
Proof using Hx4 Bx4 Htag Hfits Hkeyed.
  intros Hat Hn Hi Htext Hlen Hold Lold. unfold rtp_sendto. cbn [s_message s_srtp_ctx].
  rewrite length_app. cbn [length].
  rewrite (strncpy_text text 0 []), Some_bind by done. cbn [replicate].
  set (body := text ++ [0]). set (room := drop (length body) old).
  assert (length body = S (length text)) as Lb by (unfold body; rewrite length_app; simpl; lia).
  assert (put_octets (header i t x4 ++ old) rtp_header_len body = Some (header i t x4 ++ body ++ room))
    as ->.
  { unfold put_octets. rewrite length_app, length_header, decide_True by (done || unfold rtp_header_len; lia).
    change (Z.to_nat rtp_header_len) with 12%nat. rewrite <-(length_header i t x4 Hx4).
    by rewrite take_app_length, drop_app_add. }
  rewrite Some_bind, bump_seq, Some_bind, bump_ts, Some_bind.
  set (hdr := header (i + 1) (t + 1) x4). destruct (header_facts (i + 1) (t + 1) x4 Hx4) as (Fs & Fx & Fe).
  assert (is_bytes body) as Bb by (apply is_bytes_app; split; [apply Htext|eval_dec]).
  assert (is_bytes room) as Br by (by apply is_bytes_drop).
  assert (length room + S (length text) = Z.to_nat 16384)%nat as Lr
    by (unfold room; rewrite length_drop, Lb; lia).
  set (w0 := put_packet _ _).
  destruct (protect_step (le_val x4) k ka o0 a0 Htag w0 c n (i + 1) hdr body room)
    as (w' & -> & Hp & Hpl & Hat'); try done.
  { by apply at_packet_put. }
  { split; [done| |by apply is_bytes_app; split; [apply header_bytes|by apply is_bytes_app]|done
      |unfold max_keystream; lia].
    unfold w0. cbn [put_packet put_len pkt_octet_len]. rewrite length_app, Lb. unfold hdr.
    rewrite length_header by done. unfold rtp_header_len. lia. }
  { lia. }
  rewrite Some_bind. cbn [s_message s_srtp_ctx].
  set (tag := wire_tag _ _ _ _) in *. set (body' := wire_body _ _ _ _ _) in *.
  assert (get_octets (packet w') 0 (pkt_octet_len w') = Some (datagram (i + 1) (t + 1) text)) as ->.
  { rewrite Hp, Hpl. unfold get_octets. rewrite !length_app, decide_True by lia. rewrite Nat2Z.id.
    change (drop (Z.to_nat 0) ?l) with l. rewrite (app_assoc body'), (app_assoc hdr), <-!length_app, take_app_length.
    done. }
  rewrite Some_bind, Hp. exists w', (body' ++ tag ++ drop (length tag) room).
  assert (length tag = 10%nat) as Lt by (by apply length_wire_tag).
  split; [done|]. split_and!; [| |done].
  - rewrite !is_bytes_app. split_and!; [by apply wire_bytes|apply wire_tag_bytes|by apply is_bytes_drop].
  - rewrite !length_app, length_drop. unfold body', wire_body. rewrite length_protected_body, Lb. lia.
Qed.

(** [rtp_recvfrom] gives the text back *)
Lemma recvfrom_step c v i t n old junk text :
  at_end dir_srtp_receiver v c n i → 0 <= n < 2 ^ 48 - 2 ^ 17 → i < 2 ^ 48 →
  (12 <= length (stack v))%nat →
  is_text text → Z.of_nat (length text) < 16360 → is_bytes old → length old = Z.to_nat 16396 →
  (length text + 13 <= length junk)%nat →
  ∃ v' old', rtp_recvfrom (Some (datagram i t text)) (mk_receiver old c) junk 16384 v =
    Some (Z.of_nat (length text + 13), 16384, text ++ 0 :: (replicate 12 0 ++ drop (length text + 13) junk),
          mk_receiver old' c, v') ∧
    is_bytes old' ∧ length old' = Z.to_nat 16396 ∧ stack v' = stack v ∧
    at_end dir_srtp_receiver v' c (n + 1) (i + 1).
Proof using Hx4 Bx4 Htag Hfits Hkeyed.
  intros Hat Hn Hi Hstk Htext Hlen Hold Lold Hjunk. unfold rtp_recvfrom. cbn [default from_option id r_message r_srtp_ctx].
  change (if decide (0 <= 16384) then ?x else _) with x. pose proof (length_datagram i t text) as Ld. rewrite (take_ge (datagram i t text)) by lia.
  assert (put_octets old 0 (datagram i t text) = Some (take (Z.to_nat 0) old ++ datagram i t text ++
    drop (Z.to_nat 0 + length (datagram i t text)) old)) as ->
    by (unfold put_octets; by rewrite decide_True by lia).
  rewrite Some_bind. change (take (Z.to_nat 0) old) with (@nil Z). rewrite app_nil_l. change (Z.to_nat 0) with 0%nat.
  rewrite Nat.add_0_l. set (room := drop _ old).
  change (aget (datagram i t text ++ room) 0) with (Some 0x80). rewrite Some_bind, decide_False by (intros E; by apply E).
  set (hdr := header i t x4). destruct (header_facts i t x4 Hx4) as (Fs & Fx & Fe).
  set (body := text ++ [0]). set (body' := wire_body k o0 hdr body i).
  set (tag := wire_tag ka a0 (hdr ++ body') i).
  assert (datagram i t text = hdr ++ body' ++ tag) as Ed by done.
  assert (length body = S (length text)) as Lb by (unfold body; rewrite length_app; simpl; lia).
  assert (is_bytes body) as Bb by (apply is_bytes_app; split; [apply Htext|eval_dec]).
  assert (is_bytes room) as Br by (by apply is_bytes_drop).
  assert (length (hdr ++ body) = (length text + 13)%nat) as Lhb
    by (unfold hdr; rewrite length_app, length_header, Lb by done; lia).
  set (v0 := put_packet _ _).
  destruct (unprotect_step (le_val x4) k ka o0 a0 Htag v0 c n i hdr body room)
    as (v' & -> & Hp & Hpl & Hs & Hat'); try done.
  { by apply at_packet_put. }
  { split.
    - unfold v0. cbn [put_packet packet]. by rewrite Ed, <-!app_assoc.
    - unfold v0. cbn [put_packet put_len pkt_octet_len]. by rewrite Ed.
    - rewrite !is_bytes_app. split_and!; [by apply header_bytes|by apply wire_bytes|apply wire_tag_bytes|done].
    - done.
    - unfold wire_body. rewrite length_protected_body, Lb. unfold max_keystream. lia. }
  cbv zeta in Hp. fold body' in Hp. fold tag in Hp.
  rewrite Some_bind. cbn [r_message]. rewrite Hp, Hpl, Lhb.
  assert (drop 12 (hdr ++ body ++ tag ++ room) = text ++ 0 :: (tag ++ room)) as ->.
  { rewrite <-(length_header i t x4 Hx4). fold hdr. rewrite drop_app_length. unfold body. by rewrite <-app_assoc. }
  rewrite (strncpy_text text 12), Some_bind by done.
  unfold put_octets. rewrite length_app, length_replicate, decide_True by lia. rewrite Some_bind.
  change (take (Z.to_nat 0) junk) with (@nil Z). rewrite app_nil_l. change (Z.to_nat 0 + ?x)%nat with x.
  exists v', (hdr ++ body ++ tag ++ room). rewrite <-app_assoc. split; [done|].
  split_and!; [| |done|done].
  - rewrite !is_bytes_app. split_and!; [by apply header_bytes|done|apply wire_tag_bytes|done].
  - rewrite app_assoc, length_app, Lhb, length_app. unfold tag at 1. rewrite length_wire_tag by done.
    unfold room. rewrite length_drop, Ld. lia.
Qed.

Lemma converse_ok texts junk : ∀ i t n old c w old' c' v,
  at_end dir_srtp_sender w c n (i + 1) → at_end dir_srtp_receiver v c' n (i + 1) →
  (12 <= length (stack v))%nat → 0 <= n → n + Z.of_nat (length texts) <= 2 ^ 48 - 2 ^ 17 →
  i + Z.of_nat (length texts) < 2 ^ 48 →
  is_bytes old → length old = Z.to_nat 16384 → is_bytes old' → length old' = Z.to_nat 16396 →
  Forall (λ s, is_text s ∧ Z.of_nat (length s) < 16360 ∧ (length s + 13 <= length junk)%nat) texts →
  converse texts junk (mk_sender (header i t x4 ++ old) c) w (mk_receiver old' c') v = Some texts.
Proof using Hx4 Bx4 Htag Hfits Hkeyed.
  induction texts as [|text texts IH]; intros i t n old c w old' c' v Hw Hv Hstk H0 Hn Hi Bo Lo Bo' Lo' Ht; [done|].
  inversion_clear Ht as [|?? (Htx & Hlt & Hj) Hts]. cbn [length converse] in *.
  destruct (sendto_step (λ d, Z.of_nat (length d)) c w i t n old text Hw) as (w1 & old1 & -> & B1 & L1 & Hw1);
    [lia|lia|done..|]. rewrite Some_bind.
  destruct (recvfrom_step c' v (i + 1) (t + 1) n old' junk text Hv) as (v1 & old2 & -> & B2 & L2 & Es & Hv1);
    [lia|lia|done..|]. rewrite Some_bind, decide_False, c_chars_text by (done || lia). rewrite Some_bind.
  rewrite (IH (i + 1) (t + 1) (n + 1) old1 c w1 old2 c' v1); try done; try lia. by rewrite Es.
Qed.

End Message.

(** ** The initial header *)

(** the header a sender starts with is one with an index whose successor is a
    sequence number *)
Lemma init_header_index seq ssrc :
  ∃ i, init_header seq ssrc = header i 0 (be_bytes 4 ssrc) ∧ -1 <= i < 65535.
Proof.
  set (i0 := be_val (le_bytes 2 seq)).
  assert (be_bytes 2 i0 = le_bytes 2 seq) as E by (apply (be_bytes_be_val (le_bytes 2 seq)), is_bytes_rev, be_bytes_range).
  assert (0 <= i0 < 2 ^ 16) as Hi0 by (apply (be_val_range (le_bytes 2 seq)), is_bytes_rev, be_bytes_range).
  destruct (decide (i0 = 65535)) as [Hw|Hw].
  - exists (-1). split; [|lia]. unfold init_header, header. rewrite <-E, Hw. done.
  - exists i0. split; [|lia]. unfold init_header, header. by rewrite E.
Qed.

Lemma put_init m seq ssrc :
  Z.of_nat (length m) = 16396 →
  put_octets m 0 (init_header seq ssrc) = Some (init_header seq ssrc ++ drop 12 m).
Proof.
  intros Hm. unfold put_octets.
  assert (length (init_header seq ssrc) = 12%nat) as -> by done. by rewrite decide_True by lia.
Qed.

(** the ends of a connection after [srtp_create] *)
Lemma created_at dir w c pol key p s ci ai o0 a0 i :
  default_stream w c pol key p s ci ai → obj_type o0 = Aes_icm → auth_obj_type a0 = Hmac_sha1 →
  auth_obj_tag_length a0 = 10 → 0 <= i < 2 ^ 16 →
  at_packet (le_val (be_bytes 4 (p_ssrc_value pol)))
    (session_key key label_rtp_encryption label_rtp_salt) (derived key label_rtp_msg_auth 20) o0 a0
    dir w c 0 i.
Proof.
  intros [Hst Hh Hl Hd Hr Hsv Ht] To Ta Tl Hi. exists p, s, (IcmObj ci), (HmacObj ai).
  split_and!; try done; first [by right|by left|by rewrite To|by rewrite Ta].
Qed.

(** C8: a conversation: two applications create a session each from the default
    policy with the same master key, and a sender and a receiver; every text the
    one sends with [rtp_sendto] the other reads with [rtp_recvfrom], in order,
    whatever sequence number the sender starts with and whatever the structures and
    the caller's buffer held, for up to 2^47 texts of fewer than 16360 octets: through
    every wrap of the 16-bit sequence number both ends give a packet the same index. *)
Theorem rtp_conversation w v pol key random m m' texts junk :
  ready w → ready v → default_policy pol key → icm_key_mem key →
  is_bytes m → Z.of_nat (length m) = 16396 → is_bytes m' → Z.of_nat (length m') = 16396 →
  Z.of_nat (length texts) < 2 ^ 47 →
  Forall (λ s, is_text s ∧ Z.of_nat (length s) < 16360 ∧ (length s + 13 <= length junk)%nat) texts →
  ∃ c w1 c' v1 sender receiver,
    srtp_create [pol] w = Some (inr c, w1) ∧ srtp_create [pol] v = Some (inr c', v1) ∧
    rtp_sender_init random (mk_sender m c) (p_ssrc_value pol) = Some sender ∧
    rtp_receiver_init (mk_receiver m' c') (p_ssrc_value pol) = Some receiver ∧
    converse texts junk sender w1 receiver v1 = Some texts.
Proof.
  intros Hw Hv Hpol Hkey Bm Lm Bm' Lm' Hn Ht.
  destruct (create_default w pol key Hw Hpol Hkey) as (c & w1 & p & s & ci & ai & R1 & D1 & _).
  destruct (create_default v pol key Hv Hpol Hkey) as (c' & v1 & p' & s' & ci' & ai' & R2 & D2 & Es & _).
  destruct (init_header_index (u16 random) (p_ssrc_value pol)) as (i & Ei & Hi).
  exists c, w1, c', v1. unfold rtp_sender_init, rtp_receiver_init. cbn [s_message r_message s_srtp_ctx r_srtp_ctx].
  rewrite !put_init, !Some_bind by done. eexists _, _. split_and!; [done|done|done|done|]. rewrite Ei.
  pose proof D1 as [[_ _ _ _ Hk _ Hf] _ _ _ _ _ Ht10].
  apply (converse_ok (be_bytes 4 (p_ssrc_value pol)) (session_key key label_rtp_encryption label_rtp_salt)
    (derived key label_rtp_msg_auth 20) (IcmObj ci) (HmacObj ai)) with (n := 0); try done; try lia.
  - apply be_bytes_range.
  - by eapply created_at; [exact D1|done..|lia].
  - by eapply created_at; [exact D2|done..|lia].
  - rewrite Es. destruct Hv as (_ & [_ Hsl] & _). lia.
  - by apply is_bytes_drop.
  - rewrite length_drop. lia.
  - apply is_bytes_app; split; [|by apply is_bytes_drop].
    unfold init_header. rewrite !is_bytes_app.
    split_and!; [eval_dec|apply is_bytes_rev, be_bytes_range|eval_dec|apply be_bytes_range].
  - rewrite length_app, length_drop. assert (length (init_header 0 (p_ssrc_value pol)) = 12%nat) as -> by done. lia.
Qed.

Lemma rtp_conversation_witness :
  let m := replicate (Z.to_nat 16396) 9 in
  ∃ c w1 c' v1 sender receiver,
    srtp_create [demo_policy] (demo_world [] 0) = Some (inr c, w1) ∧
    srtp_create [demo_policy] (demo_world [] 0) = Some (inr c', v1) ∧
    rtp_sender_init 65534 (mk_sender m c) 0xcafebabe = Some sender ∧
    rtp_receiver_init (mk_receiver m c') 0xcafebabe = Some receiver ∧
    converse [[0x68; 0x69]; []; [0xff]] (replicate 20 3) sender w1 receiver v1
      = Some [[0x68; 0x69]; []; [0xff]].
Proof.
  apply (rtp_conversation (demo_world [] 0) (demo_world [] 0) demo_policy rfc_master 65534
    (replicate (Z.to_nat 16396) 9) (replicate (Z.to_nat 16396) 9) [[0x68; 0x69]; []; [0xff]] (replicate 20 3)).
  - apply demo_ready.
  - apply demo_ready.
  - by repeat split.
  - apply rfc_master_mem.
  - apply is_bytes_replicate. unfold is_word. lia.
  - rewrite length_replicate. lia.
  - apply is_bytes_replicate. unfold is_word. lia.
  - rewrite length_replicate. lia.
  - simpl. lia.
  - unfold is_text, is_bytes. repeat constructor; simpl; lia.
Defined.
