(* ===== verification/SrppMessage.v ===== *)
(** * SRPP messages

    Models [src/libSRPP/include/SRPPMessage.hpp]: the in-memory message, its
    layout on the wire ([srpp_to_network], [network_to_srpp]) and the masking of
    its encrypted part with the session key ([encrypt], [decrypt]).

    Characters are octets.  Structures are laid out as a little-endian host
    does; [header_image] is the memory image of an [SRPPHeader], bit fields
    included.  The contents of an uninitialised buffer and the values of
    [rand()] are arguments.  [None] is an access outside of an array or a
    buffer. *)

From S2P Require Import Prelude.

(** ** Data *)

Record SRPPHeader := mk_hdr {
  version : Z; hp : Z; hx : Z; cc : Z; hm : Z; pt : Z;
  hseq : Z; ts : Z; ssrc : Z;
  csrc : list Z;
  defined_by_profile : Z; extension_header : Z; srpp_signalling : Z }.

Record SRPPEncrypted := mk_enc {
  original_payload : list Z;
  srpp_padding : list Z;
  pad_count : Z;
  dummy_flag : Z;
  original_padding_bit : Z;
  original_seq_number : Z }.

Record SRPPMessage := mk_msg {
  srpp_header : SRPPHeader;
  encrypted_part : SRPPEncrypted;
  authentication_tag : Z }.

(** ** Construction

    [lastSequenceNo] and [srppssrc] are globals, [tv_sec] and [tv_usec] the time
    of day; the constructor leaves [srpp_signalling] uninitialised ([junk]).
    [htons(15)] does not fit the four bits of [cc]: the field is zero. *)
Definition new_SRPPMessage (lastSequenceNo srppssrc tv_sec tv_usec junk : Z)
  : SRPPMessage * Z :=
  let lastSequenceNo := lastSequenceNo + 1 in
  (mk_msg
     (mk_hdr 2 0 1 (wrap 4 (bswap16 15)) 0 121 (u16 lastSequenceNo)
        (u32 (1000000 * tv_sec + tv_usec)) srppssrc (replicate 15 0) 9999 1 junk)
     (mk_enc [] [] 0 0 0 0) 0,
   lastSequenceNo).

(** ** Memory *)

Definition read_at (buf : list Z) (off n : Z) : option (list Z) :=
  if (0 <=? off) && (0 <=? n) && (off + n <=? Z.of_nat (length buf))
  then Some (take (Z.to_nat n) (drop (Z.to_nat off) buf)) else None.

Definition write_at (buf : list Z) (off : Z) (bs : list Z) : option (list Z) :=
  if (0 <=? off) && (off + Z.of_nat (length bs) <=? Z.of_nat (length buf))
  then Some (take (Z.to_nat off) buf ++ bs ++ drop (Z.to_nat off + length bs) buf) else None.

(** the C string a byte string starts with *)
Fixpoint c_str (s : list Z) : list Z :=
  match s with
  | [] => []
  | c :: s => if c =? 0 then [] else c :: c_str s
  end.

(** [strcpy]: the characters before the first NUL, and a NUL *)
Definition strcpy (buf : list Z) (off : Z) (s : list Z) : option (list Z) :=
  write_at buf off (c_str s ++ [0]).

(** ** Memory images *)

Definition header_image (h : SRPPHeader) : list Z :=
  [cc h ||| Z.shiftl (hx h) 4 ||| Z.shiftl (hp h) 5 ||| Z.shiftl (version h) 6;
   pt h ||| Z.shiftl (hm h) 7] ++
  le_bytes 2 (hseq h) ++ le_bytes 4 (ts h) ++ le_bytes 4 (ssrc h) ++
  concat (map (le_bytes 4) (csrc h)) ++
  le_bytes 2 (defined_by_profile h) ++ le_bytes 2 (extension_header h) ++
  le_bytes 4 (srpp_signalling h).

Definition sizeof_SRPPHeader : Z := 80.

(** the words of an array in memory *)
Fixpoint le_words (n : nat) (l : list Z) : list Z :=
  match n with
  | O => []
  | S n => le_val (take 4 l) :: le_words n (drop 4 l)
  end.

Definition header_of_image (l : list Z) : SRPPHeader :=
  let b0 := nth 0 l 0 in let b1 := nth 1 l 0 in
  mk_hdr (b0 >> 6) ((b0 >> 5) & 1) ((b0 >> 4) & 1) (b0 & 15) (b1 >> 7) (b1 & 127)
    (le_val (take 2 (drop 2 l))) (le_val (take 4 (drop 4 l))) (le_val (take 4 (drop 8 l)))
    (le_words 15 (drop 12 l))
    (le_val (take 2 (drop 72 l))) (le_val (take 2 (drop 74 l))) (le_val (take 4 (drop 76 l))).

(** the eight octets from [pad_count] on *)
Definition trailer_image (e : SRPPEncrypted) : list Z :=
  le_bytes 4 (pad_count e) ++
  le_bytes 2 (dummy_flag e ||| Z.shiftl (original_padding_bit e) 15) ++
  le_bytes 2 (original_seq_number e).

(** ** [srpp_to_network] *)

(** the two loops over [csrc]: the first [ntohs(cc)] words in network order, the
    rest random ([2^32] is an exclusive or: 34) *)
Definition network_csrc (h : SRPPHeader) (rnd : Z → Z) : option (list Z) :=
  c ← for_range 0 (bswap16 (cc h)) (λ i c,
        v ← aget (csrc h) i; aset c i (bswap32 v)) (csrc h);
  for_range (Z.max 0 (bswap16 (cc h))) 15 (λ i c, aset c i (u32 (rnd i * (2 ^^ 32) + 1))) c.

Definition network_header (h : SRPPHeader) (csrc' : list Z) : SRPPHeader :=
  mk_hdr (version h) (hp h) (hx h) (cc h) (hm h) (pt h)
    (bswap16 (hseq h)) (bswap32 (ts h)) (bswap32 (ssrc h)) csrc'
    (bswap16 (defined_by_profile h)) (bswap16 (extension_header h))
    (bswap32 (srpp_signalling h)).

Definition srpp_to_network (msg : SRPPMessage) (buff : list Z) (key : Z) (rnd : Z → Z)
  : option (list Z) :=
  let h := srpp_header msg in let e := encrypted_part msg in
  csrc' ← network_csrc h rnd;
  buff ← write_at buff 0 (header_image (network_header h csrc'));
  let data := sizeof_SRPPHeader in
  (* copy the payload *)
  buff ← strcpy buff data (original_payload e);
  let data := data + Z.of_nat (length (original_payload e)) in
  (* copy the padding *)
  let pads := if (0 <? key) && (srpp_signalling h =? 0)
              then pad_count e ^^ u32 key else pad_count e in
  '(buff, data) ← (if (0 <? pads) && (srpp_signalling h =? 0) then
       buff ← strcpy buff data (srpp_padding e); Some (buff, data + pads)
     else Some (buff, data));
  (* copy other bits, then the tag *)
  buff ← write_at buff data (trailer_image e);
  write_at buff (data + 8) (le_bytes 4 (bswap32 (authentication_tag msg))).

(** ** [network_to_srpp]: the return value and the message *)

Definition host_header (h : SRPPHeader) : option SRPPHeader :=
  c ← for_range 0 (cc h) (λ i c, v ← aget (csrc h) i; aset c i (bswap32 v)) (csrc h);
  Some (mk_hdr (version h) (hp h) (hx h) (cc h) (hm h) (pt h)
    (bswap16 (hseq h)) (bswap32 (ts h)) (bswap32 (ssrc h)) c
    (bswap16 (defined_by_profile h)) (bswap16 (extension_header h))
    (bswap32 (srpp_signalling h))).

Definition network_to_srpp (msg : SRPPMessage) (buff : list Z) (bytes key : Z)
  : option (Z * SRPPMessage) :=
  image ← read_at buff 0 sizeof_SRPPHeader;
  h ← host_header (header_of_image image);
  tag ← read_at buff (bytes - 4) 4;
  t ← read_at buff (bytes - 12) 8;
  let count := le_val (take 4 t) in
  let flags := le_val (take 2 (drop 4 t)) in
  let count := if (srpp_signalling h =? 0) && (0 <? key) then count ^^ u32 key else count in
  let e := encrypted_part msg in
  let e1 count payload :=
    mk_enc payload (srpp_padding e) count (flags & 0x7fff) (flags >> 15) (le_val (drop 6 t)) in
  let result status count payload :=
    (status, mk_msg h (e1 count payload) (bswap32 (le_val tag))) in
  if 1500 <? count then Some (result (-1) count (original_payload e)) else
  (* without padding, [data] still points behind the eight octets *)
  let '(data, count) :=
    if (0 <? count) && (srpp_signalling h =? 0)
    then (bytes - 12 - count, count ^^ u32 key) else (bytes - 4, 0) in
  payload ← read_at buff sizeof_SRPPHeader (data - sizeof_SRPPHeader);
  Some (result 0 count payload).

(** ** [encrypt] and [decrypt]: the same mask *)

Definition mask_bytes (key : Z) (l : list Z) : list Z := map (λ c, u8 (c ^^ key)) l.

Definition encrypt_part (key : Z) (e : SRPPEncrypted) : SRPPEncrypted :=
  mk_enc (mask_bytes key (original_payload e)) (mask_bytes key (srpp_padding e))
    (u32 (pad_count e ^^ key)) (wrap 15 (dummy_flag e ^^ key))
    (wrap 1 (original_padding_bit e ^^ key)) (u16 (original_seq_number e ^^ key)).

Definition encrypt (key : Z) (msg : SRPPMessage) : SRPPMessage :=
  mk_msg (srpp_header msg) (encrypt_part key (encrypted_part msg)) (authentication_tag msg).

Definition decrypt_part (key : Z) (e : SRPPEncrypted) : SRPPEncrypted :=
  mk_enc (mask_bytes key (original_payload e)) (mask_bytes key (srpp_padding e))
    (u32 (pad_count e ^^ key)) (wrap 15 (dummy_flag e ^^ key))
    (wrap 1 (original_padding_bit e ^^ key)) (u16 (original_seq_number e ^^ key)).

Definition decrypt (key : Z) (msg : SRPPMessage) : SRPPMessage :=
  mk_msg (srpp_header msg) (decrypt_part key (encrypted_part msg)) (authentication_tag msg).

Definition get_sequence_number (msg : SRPPMessage) : Z := hseq (srpp_header msg).

(** ** Well-formed messages *)

Definition header_wf (h : SRPPHeader) : Prop :=
  is_word 2 (version h) ∧ is_word 1 (hp h) ∧ is_word 1 (hx h) ∧ is_word 4 (cc h) ∧
  is_word 1 (hm h) ∧ is_word 7 (pt h) ∧ is_word 16 (hseq h) ∧ is_word 32 (ts h) ∧
  is_word 32 (ssrc h) ∧ length (csrc h) = 15%nat ∧ is_words (csrc h) ∧
  is_word 16 (defined_by_profile h) ∧ is_word 16 (extension_header h) ∧
  is_word 32 (srpp_signalling h).

Definition enc_wf (e : SRPPEncrypted) : Prop :=
  is_bytes (original_payload e) ∧ is_bytes (srpp_padding e) ∧ is_word 32 (pad_count e) ∧
  is_word 15 (dummy_flag e) ∧ is_word 1 (original_padding_bit e) ∧
  is_word 16 (original_seq_number e).

Definition msg_wf (m : SRPPMessage) : Prop :=
  header_wf (srpp_header m) ∧ enc_wf (encrypted_part m) ∧ is_word 32 (authentication_tag m).

#[global] Instance header_wf_dec h : Decision (header_wf h).
Proof. unfold header_wf. apply _. Defined.
#[global] Instance enc_wf_dec e : Decision (enc_wf e).
Proof. unfold enc_wf. apply _. Defined.
#[global] Instance msg_wf_dec m : Decision (msg_wf m).
Proof. unfold msg_wf. apply _. Defined.

(** ** The mask is an involution *)

Lemma wrap_lxor w a b : 0 <= w → wrap w (wrap w (a ^^ b) ^^ b) = wrap w a.
Proof. intros Hw. apply Z.bits_inj'. intros n Hn. autorewrite with bits. bit_cases; btauto. Qed.

Lemma mask_mask w x key : 0 <= w → is_word w x → wrap w (wrap w (x ^^ key) ^^ key) = x.
Proof. intros Hw Hx. rewrite wrap_lxor by done. by apply wrap_small. Qed.

Lemma mask_bytes_mask key l : is_bytes l → mask_bytes key (mask_bytes key l) = l.
Proof.
  unfold mask_bytes. rewrite map_map. induction 1 as [|x l Hx _ IH]; [done|].
  cbn [map]. rewrite IH. f_equal. by apply mask_mask.
Qed.

Lemma mask_bytes_range key l : is_bytes (mask_bytes key l).
Proof. unfold mask_bytes, is_bytes. induction l; constructor; [by words|done]. Qed.

Lemma length_mask_bytes key l : length (mask_bytes key l) = length l.
Proof. apply length_map. Qed.

#[export] Hint Rewrite length_mask_bytes : lens.

Lemma decrypt_encrypt_part key e : enc_wf e → decrypt_part key (encrypt_part key e) = e.
Proof.
  intros (Hp & Hq & Hc & Hd & Ho & Hs). destruct e. unfold decrypt_part, encrypt_part. simpl in *.
  by rewrite !mask_bytes_mask, !mask_mask by (done || lia).
Qed.

Lemma encrypt_part_wf key e : enc_wf (encrypt_part key e).
Proof.
  unfold enc_wf, encrypt_part. simpl.
  split_and!; try apply mask_bytes_range; apply wrap_range; lia.
Qed.

(** a masked octet is zero exactly when it is the low octet of the key *)
Lemma mask_zero key c : is_word 8 c → u8 (c ^^ key) = 0 ↔ c = u8 key.
Proof.
  intros Hc. split; [|intros ->; bitwise].
  intros H0. rewrite <-(mask_mask 8 c key) by (done || lia). rewrite H0. by rewrite Z.lxor_0_l.
Qed.

(** ** Strings and buffers *)

Lemma c_str_app s t : Forall (λ c, c ≠ 0) s → c_str (s ++ 0 :: t) = s.
Proof.
  induction 1 as [|c s Hc _ IH]; simpl; [done|].
  rewrite IH. by destruct (Z.eqb_spec c 0).
Qed.

Lemma c_str_nonzero s : Forall (λ c, c ≠ 0) s → c_str s = s.
Proof.
  induction 1 as [|c s Hc _ IH]; simpl; [done|]. rewrite IH. by destruct (Z.eqb_spec c 0).
Qed.

(** writing behind the part [a] of a buffer that is finished *)
Lemma write_next a r bs n :
  n = Z.of_nat (length a) → (length bs <= length r)%nat →
  write_at (a ++ r) n bs = Some ((a ++ bs) ++ drop (length bs) r).
Proof.
  intros -> Hl. unfold write_at. rewrite length_app.
  rewrite (proj2 (Z.leb_le _ _)) by lia. rewrite (proj2 (Z.leb_le _ _)) by lia. simpl.
  rewrite Nat2Z.id, take_app_length, <-app_assoc. do 3 f_equal.
  rewrite drop_app_add. done.
Qed.

Lemma strcpy_next a r s n :
  n = Z.of_nat (length a) → Forall (λ c, c ≠ 0) s → (length s < length r)%nat →
  ∃ r', strcpy (a ++ r) n s = Some ((a ++ s) ++ r') ∧
    length r' = (length r - length s)%nat.
Proof.
  intros Hn Hs Hl. unfold strcpy. rewrite c_str_nonzero by done.
  rewrite write_next by (rewrite ?length_app; simpl; lia).
  exists (0 :: drop (length (s ++ [0])) r). rewrite <-!app_assoc. split; [done|].
  rewrite length_app. simpl. rewrite length_drop. lia.
Qed.

(** reading a part of a buffer *)
Lemma read_mid a b c off n :
  off = Z.of_nat (length a) → n = Z.of_nat (length b) →
  read_at (a ++ b ++ c) off n = Some b.
Proof.
  intros -> ->. unfold read_at. rewrite !length_app.
  rewrite (proj2 (Z.leb_le 0 _)) by lia. rewrite (proj2 (Z.leb_le 0 _)) by lia.
  rewrite (proj2 (Z.leb_le _ _)) by lia. simpl.
  rewrite !Nat2Z.id, drop_app_length, take_app_length. done.
Qed.

(** ** The header on the wire *)

Lemma length_header_image h : length (csrc h) = 15%nat → length (header_image h) = 80%nat.
Proof.
  intros Hc. unfold header_image. rewrite !length_app. autorewrite with lens.
  assert (length (concat (map (le_bytes 4) (csrc h))) = 60%nat) as ->.
  { revert Hc. generalize (csrc h). intros l Hl.
    replace 60%nat with (4 * length l)%nat by lia. clear Hl.
    induction l as [|w l IH]; [done|]. cbn [map concat]. rewrite length_app, length_le_bytes, IH.
    simpl. lia. }
  done.
Qed.

Lemma le_words_bytes n l t :
  length l = n → is_words l → le_words n (concat (map (le_bytes 4) l) ++ t) = l.
Proof.
  intros Hl Hw. revert n Hl. induction Hw as [|w l Hw _ IH]; intros n Hl; simpl in Hl; subst n; [done|].
  cbn [map concat le_words]. rewrite <-app_assoc.
  rewrite take_app_length' by by rewrite length_le_bytes.
  rewrite drop_app_length' by by rewrite length_le_bytes.
  rewrite IH by done. f_equal. rewrite le_val_le_bytes. by apply wrap_small.
Qed.

Lemma le_val_field n x a b k :
  length a = k → is_word (8 * Z.of_nat n) x →
  le_val (take n (drop k (a ++ le_bytes n x ++ b))) = x.
Proof.
  intros <- Hx. rewrite drop_app_length, take_app_length' by by rewrite length_le_bytes.
  rewrite le_val_le_bytes. by apply wrap_small.
Qed.

Definition first_octet_ok (c x p v : Z) : bool :=
  let b := c ||| Z.shiftl x 4 ||| Z.shiftl p 5 ||| Z.shiftl v 6 in
  ((b & 15) =? c) && (((b >> 4) & 1) =? x) && (((b >> 5) & 1) =? p) && ((b >> 6) =? v) &&
  (0 <=? b) && (b <? 256).

Lemma first_octet c x p v :
  is_word 4 c → is_word 1 x → is_word 1 p → is_word 2 v →
  let b := c ||| Z.shiftl x 4 ||| Z.shiftl p 5 ||| Z.shiftl v 6 in
  b & 15 = c ∧ (b >> 4) & 1 = x ∧ (b >> 5) & 1 = p ∧ b >> 6 = v ∧ is_word 8 b.
Proof.
  intros Hc Hx Hp Hv b.
  pose proof (word_forall 4 (λ c, forallb (λ x, forallb (λ p, forallb (λ v, first_octet_ok c x p v)
    (map Z.of_nat (List.seq 0 4))) (map Z.of_nat (List.seq 0 2))) (map Z.of_nat (List.seq 0 2)))
    ltac:(by vm_compute) c Hc) as E1. cbv beta in E1.
  pose proof (word_forall 1 _ E1 x Hx) as E2. cbv beta in E2.
  pose proof (word_forall 1 _ E2 p Hp) as E3. cbv beta in E3.
  pose proof (word_forall 2 _ E3 v Hv) as E4. unfold first_octet_ok in E4. fold b in E4.
  unfold is_word. lia.
Qed.

Definition second_octet_ok (p m : Z) : bool :=
  let b := p ||| Z.shiftl m 7 in
  ((b & 127) =? p) && ((b >> 7) =? m) && (0 <=? b) && (b <? 256).

Lemma second_octet p m :
  is_word 7 p → is_word 1 m →
  let b := p ||| Z.shiftl m 7 in b & 127 = p ∧ b >> 7 = m ∧ is_word 8 b.
Proof.
  intros Hp Hm b.
  pose proof (word_forall 7 (λ p, forallb (λ m, second_octet_ok p m) (map Z.of_nat (List.seq 0 2)))
    ltac:(by vm_compute) p Hp) as E1. cbv beta in E1.
  pose proof (word_forall 1 _ E1 m Hm) as E2. unfold second_octet_ok in E2. fold b in E2.
  unfold is_word. lia.
Qed.

Lemma seg {A} (L a b c : list A) n k :
  L = a ++ b ++ c → length a = k → length b = n → take n (drop k L) = b.
Proof. intros -> <- <-. by rewrite drop_app_length, take_app_length. Qed.

Lemma length_csrc_image l : length (concat (map (le_bytes 4) l)) = (4 * length l)%nat.
Proof.
  induction l as [|w l IH]; [done|]. cbn [map concat]. rewrite length_app, length_le_bytes, IH.
  simpl. lia.
Qed.

(** where the fields of a header are *)
Lemma header_fields (p f1 f2 f3 cs f4 f5 f6 : list Z) :
  length p = 2%nat → length f1 = 2%nat → length f2 = 4%nat → length f3 = 4%nat →
  length cs = 60%nat → length f4 = 2%nat → length f5 = 2%nat → length f6 = 4%nat →
  let L := p ++ f1 ++ f2 ++ f3 ++ cs ++ f4 ++ f5 ++ f6 in
  take 2 (drop 2 L) = f1 ∧ take 4 (drop 4 L) = f2 ∧ take 4 (drop 8 L) = f3 ∧
  drop 12 L = cs ++ f4 ++ f5 ++ f6 ∧ take 2 (drop 72 L) = f4 ∧
  take 2 (drop 74 L) = f5 ∧ take 4 (drop 76 L) = f6.
Proof.
  intros Hp H1 H2 H3 Hc H4 H5 H6 L. unfold L. split_and!.
  - eapply (seg _ p); [reflexivity|done..].
  - apply (seg _ (p ++ f1) f2 (f3 ++ cs ++ f4 ++ f5 ++ f6)); rewrite ?length_app, <-?app_assoc; done || lia.
  - apply (seg _ (p ++ f1 ++ f2) f3 (cs ++ f4 ++ f5 ++ f6)); rewrite ?length_app, <-?app_assoc; done || lia.
  - replace 12%nat with (length (p ++ f1 ++ f2 ++ f3)) by (rewrite !length_app; lia).
    replace (p ++ f1 ++ f2 ++ f3 ++ cs ++ f4 ++ f5 ++ f6)
      with ((p ++ f1 ++ f2 ++ f3) ++ cs ++ f4 ++ f5 ++ f6) by by rewrite <-!app_assoc.
    apply drop_app_length.
  - apply (seg _ (p ++ f1 ++ f2 ++ f3 ++ cs) f4 (f5 ++ f6)); rewrite ?length_app, <-?app_assoc; done || lia.
  - apply (seg _ (p ++ f1 ++ f2 ++ f3 ++ cs ++ f4) f5 f6); rewrite ?length_app, <-?app_assoc; done || lia.
  - apply (seg _ (p ++ f1 ++ f2 ++ f3 ++ cs ++ f4 ++ f5) f6 []);
      rewrite ?length_app, <-?app_assoc, ?app_nil_r; done || lia.
Qed.

Lemma header_of_image_image h : header_wf h → header_of_image (header_image h) = h.
Proof.
  intros (Hv & Hp & Hx & Hc & Hm & Hpt & Hs & Ht & Hss & Hl & Hw & Hd & He & Hg).
  destruct (first_octet (cc h) (hx h) (hp h) (version h) Hc Hx Hp Hv) as (E1 & E2 & E3 & E4 & _).
  destruct (second_octet (pt h) (hm h) Hpt Hm) as (E5 & E6 & _).
  unfold header_image.
  set (b := [_; _]). set (L := b ++ _).
  assert (nth 0 L 0 = cc h ||| Z.shiftl (hx h) 4 ||| Z.shiftl (hp h) 5 ||| Z.shiftl (version h) 6)
    as N0 by done.
  assert (nth 1 L 0 = pt h ||| Z.shiftl (hm h) 7) as N1 by done.
  destruct (header_fields b (le_bytes 2 (hseq h)) (le_bytes 4 (ts h)) (le_bytes 4 (ssrc h))
    (concat (map (le_bytes 4) (csrc h))) (le_bytes 2 (defined_by_profile h))
    (le_bytes 2 (extension_header h)) (le_bytes 4 (srpp_signalling h)))
    as (F1 & F2 & F3 & F4 & F5 & F6 & F7);
    [by rewrite ?length_le_bytes, ?length_csrc_image, ?Hl..|].
  fold L in F1, F2, F3, F4, F5, F6, F7.
  unfold header_of_image. rewrite N0, N1, E1, E2, E3, E4, E5, E6, F1, F2, F3, F4, F5, F6, F7.
  rewrite !le_val_le_bytes, !(wrap_small _ _) by done.
  rewrite le_words_bytes by done. by destruct h.
Qed.

(** ** Byte order *)

Lemma bswap16_involutive x : is_word 16 x → bswap16 (bswap16 x) = x.
Proof.
  intros Hx. unfold bswap16, le_bytes.
  pose proof (be_bytes_be_val (rev (be_bytes 2 x)) (is_bytes_rev _ (be_bytes_range 2 x))) as E.
  rewrite length_rev, length_be_bytes in E. rewrite E, rev_involutive, be_val_be_bytes.
  by apply wrap_small.
Qed.

Lemma bswap16_range x : is_word 16 (bswap16 x).
Proof.
  unfold bswap16, le_bytes.
  pose proof (be_val_range (rev (be_bytes 2 x)) (is_bytes_rev _ (be_bytes_range 2 x))) as E.
  by rewrite length_rev, length_be_bytes in E.
Qed.

Lemma bswap32_range x : is_word 32 (bswap32 x).
Proof.
  unfold bswap32, le_bytes.
  pose proof (be_val_range (rev (be_bytes 4 x)) (is_bytes_rev _ (be_bytes_range 4 x))) as E.
  by rewrite length_rev, length_be_bytes in E.
Qed.

#[export] Hint Resolve bswap16_range bswap32_range : words.

(** without contributing sources, the words of [csrc] are random *)
Lemma network_csrc_random h rnd :
  cc h = 0 → length (csrc h) = 15%nat →
  ∃ c, network_csrc h rnd = Some c ∧ length c = 15%nat ∧ is_words c.
Proof.
  intros Hc Hl. unfold network_csrc. rewrite Hc. change (bswap16 0) with 0.
  rewrite for_range_empty by lia. rewrite Some_bind.
  destruct (for_range_fill (λ i, u32 (rnd i * (2 ^^ 32) + 1)) (Z.max 0 0) 15 (csrc h)
    (λ i c, aset c i (u32 (rnd i * (2 ^^ 32) + 1)))) as (c & -> & Hlen & Hin & _); [lia..|done|].
  exists c. split_and!; [done|lia|]. apply Forall_lookup_2. intros j x Hx.
  pose proof (lookup_lt_Some _ _ _ Hx). rewrite Hin in Hx by lia. simplify_eq. by words.
Qed.

Lemma network_header_wf h c :
  header_wf h → length c = 15%nat → is_words c → header_wf (network_header h c).
Proof.
  intros (Hv & Hp & Hx & Hc & Hm & Hpt & Hs & Ht & Hss & Hl & Hw & Hd & He & Hg) Hlc Hwc.
  unfold header_wf, network_header. simpl. split_and!; done || by words.
Qed.

(** the header as the receiver sees it: [csrc] is what the wire has *)
Definition with_csrc (h : SRPPHeader) (c : list Z) : SRPPHeader :=
  mk_hdr (version h) (hp h) (hx h) (cc h) (hm h) (pt h) (hseq h) (ts h) (ssrc h) c
    (defined_by_profile h) (extension_header h) (srpp_signalling h).

Lemma host_network_header h c :
  header_wf h → cc h = 0 → host_header (network_header h c) = Some (with_csrc h c).
Proof.
  intros (Hv & Hp & Hx & Hc & Hm & Hpt & Hs & Ht & Hss & Hl & Hw & Hd & He & Hg) H0.
  unfold host_header, network_header. simpl. rewrite H0, for_range_empty by lia.
  rewrite Some_bind, !bswap16_involutive, !bswap32_involutive by done. unfold with_csrc. by rewrite H0.
Qed.

(** ** The wire format *)

Definition no_zero (l : list Z) : Prop := Forall (λ c, c ≠ 0) l.

(** the octets of a padded message on the wire *)
Definition wire (msg : SRPPMessage) (c : list Z) (padding : list Z) : list Z :=
  header_image (network_header (srpp_header msg) c) ++
  original_payload (encrypted_part msg) ++ padding ++
  trailer_image (encrypted_part msg) ++ le_bytes 4 (bswap32 (authentication_tag msg)).

Lemma length_trailer e : length (trailer_image e) = 8%nat.
Proof. unfold trailer_image. rewrite !length_app. by autorewrite with lens. Qed.

Lemma length_wire msg c padding :
  length c = 15%nat →
  length (wire msg c padding) =
    (92 + length (original_payload (encrypted_part msg)) + length padding)%nat.
Proof.
  intros Hc. unfold wire. rewrite !length_app, length_header_image, length_trailer, length_le_bytes
    by done. lia.
Qed.

(** what [send_message] transmits, when neither string has a NUL: [pads] is the
    pad count in the clear *)
Lemma srpp_to_network_wire msg buff key rnd pads padding :
  let e := encrypted_part msg in
  header_wf (srpp_header msg) → cc (srpp_header msg) = 0 →
  no_zero (original_payload e) → no_zero (srpp_padding e) →
  pads = (if (0 <? key) && (srpp_signalling (srpp_header msg) =? 0)
          then pad_count e ^^ u32 key else pad_count e) →
  (if (0 <? pads) && (srpp_signalling (srpp_header msg) =? 0)
   then padding = srpp_padding e ∧ pads = Z.of_nat (length padding) else padding = []) →
  length buff = (92 + length (original_payload e) + length padding)%nat →
  ∃ c, length c = 15%nat ∧ is_words c ∧
    srpp_to_network msg buff key rnd = Some (wire msg c padding).
Proof.
  intros e Hh Hcc Hp Hq Hpads Hpad Hlen.
  assert (length (csrc (srpp_header msg)) = 15%nat) as Hl15 by apply Hh.
  destruct (network_csrc_random _ rnd Hcc Hl15) as (c & Ec & Hc & Hcw).
  exists c. split_and!; [done..|]. unfold srpp_to_network. rewrite Ec, Some_bind. fold e.
  set (hd := header_image _).
  assert (length hd = 80%nat) as Hhd by by apply length_header_image.
  change (write_at buff 0 hd) with (write_at ([] ++ buff) 0 hd).
  rewrite write_next by (done || lia). rewrite Some_bind.
  set (r1 := drop (length hd) buff). change ([] ++ hd) with hd.
  assert (length r1 = (12 + length (original_payload e) + length padding)%nat) as Hr1
    by (unfold r1; rewrite length_drop; lia).
  destruct (strcpy_next hd r1 (original_payload e) sizeof_SRPPHeader) as (r2 & -> & Hr2);
    [by rewrite Hhd|done|lia|].
  rewrite Some_bind, <-Hpads.
  destruct ((0 <? pads) && (srpp_signalling (srpp_header msg) =? 0)).
  - destruct Hpad as [-> Hpads'].
    destruct (strcpy_next (hd ++ original_payload e) r2 (srpp_padding e)
      (sizeof_SRPPHeader + Z.of_nat (length (original_payload e)))) as (r3 & -> & Hr3);
      [rewrite length_app, Hhd; unfold sizeof_SRPPHeader; lia|done|lia|].
    rewrite !Some_bind.
    rewrite write_next by (rewrite ?length_app, ?length_trailer; unfold sizeof_SRPPHeader; lia).
    rewrite Some_bind, write_next
      by (rewrite ?length_app, ?length_drop, ?length_trailer, ?length_le_bytes;
          unfold sizeof_SRPPHeader; lia).
    rewrite (drop_ge (drop _ r3)) by (rewrite length_drop, length_trailer, length_le_bytes; lia).
    unfold wire. fold hd e. by rewrite app_nil_r, <-!app_assoc.
  - subst padding. rewrite Some_bind.
    rewrite write_next by (rewrite ?length_app, ?length_trailer; unfold sizeof_SRPPHeader; simpl in *; lia).
    rewrite Some_bind, write_next
      by (rewrite ?length_app, ?length_drop, ?length_trailer, ?length_le_bytes;
          unfold sizeof_SRPPHeader; simpl in *; lia).
    rewrite (drop_ge (drop _ r2)) by (rewrite length_drop, length_trailer, length_le_bytes; simpl in *; lia).
    unfold wire. fold hd e. by rewrite app_nil_r, <-!app_assoc.
Qed.

Lemma flags_split d o :
  is_word 15 d → is_word 1 o →
  let f := d ||| Z.shiftl o 15 in f & 0x7fff = d ∧ f >> 15 = o ∧ is_word 16 f.
Proof.
  intros Hd Ho f. unfold f. change 0x7fff with (Z.ones 15).
  rewrite Z.lor_comm, lor_shiftl_add by (done || lia). unfold is_word in *.
  rewrite Z.land_ones, Z.shiftr_div_pow2 by lia.
  rewrite Z.add_comm, Z_mod_plus_full, Z.div_add by lia.
  rewrite Z.mod_small, Z.div_small by lia. split_and!; lia.
Qed.

(** reading the trailer back *)
Lemma trailer_fields e :
  enc_wf e →
  le_val (take 4 (trailer_image e)) = pad_count e ∧
  le_val (take 2 (drop 4 (trailer_image e))) & 0x7fff = dummy_flag e ∧
  le_val (take 2 (drop 4 (trailer_image e))) >> 15 = original_padding_bit e ∧
  le_val (drop 6 (trailer_image e)) = original_seq_number e.
Proof.
  intros (_ & _ & Hc & Hd & Ho & Hs). unfold trailer_image.
  destruct (flags_split _ _ Hd Ho) as (E1 & E2 & Hf).
  set (f := dummy_flag e ||| Z.shiftl (original_padding_bit e) 15) in *.
  rewrite take_app_length' by by rewrite length_le_bytes.
  rewrite drop_app_length' by by rewrite length_le_bytes.
  rewrite take_app_length' by by rewrite length_le_bytes.
  replace 6%nat with (length (le_bytes 4 (pad_count e) ++ le_bytes 2 f))
    by (rewrite length_app, !length_le_bytes; done).
  rewrite app_assoc, drop_app_length, !le_val_le_bytes, !(wrap_small _ _) by done. done.
Qed.

(** what the receiver stores *)
Definition received (msg : SRPPMessage) (m0 : SRPPMessage) (c payload : list Z) (count : Z)
  : SRPPMessage :=
  let e := encrypted_part msg in
  mk_msg (with_csrc (srpp_header msg) c)
    (mk_enc payload (srpp_padding (encrypted_part m0)) count (dummy_flag e)
       (original_padding_bit e) (original_seq_number e))
    (authentication_tag msg).

(** the part of [network_to_srpp] before the pad count is used *)
Lemma network_to_srpp_wire m0 msg c padding key :
  let e := encrypted_part msg in
  let W := wire msg c padding in
  msg_wf msg → cc (srpp_header msg) = 0 → length c = 15%nat → is_words c →
  network_to_srpp m0 W (Z.of_nat (length W)) key =
    (let count := if (srpp_signalling (srpp_header msg) =? 0) && (0 <? key)
                  then pad_count e ^^ u32 key else pad_count e in
     if 1500 <? count
     then Some (-1, received msg m0 c (original_payload (encrypted_part m0)) count) else
     let '(data, count) :=
       if (0 <? count) && (srpp_signalling (srpp_header msg) =? 0)
       then (Z.of_nat (length W) - 12 - count, count ^^ u32 key)
       else (Z.of_nat (length W) - 4, 0) in
     payload ← read_at W sizeof_SRPPHeader (data - sizeof_SRPPHeader);
     Some (0, received msg m0 c payload count)).
Proof.
  intros e W (Hh & He & Ht) Hcc Hc Hcw. unfold network_to_srpp.
  assert (length W = (92 + length (original_payload e) + length padding)%nat) as HW
    by by apply length_wire.
  assert (header_wf (network_header (srpp_header msg) c)) as Hnh by by apply network_header_wf.
  assert (length (header_image (network_header (srpp_header msg) c)) = 80%nat) as Hhl
    by by apply length_header_image.
  assert (read_at W 0 sizeof_SRPPHeader = Some (header_image (network_header (srpp_header msg) c)))
    as ->.
  { apply (read_mid [] _ (original_payload e ++ padding ++ trailer_image e ++
      le_bytes 4 (bswap32 (authentication_tag msg)))); [done|]. by rewrite Hhl. }
  rewrite Some_bind, header_of_image_image, host_network_header by done. rewrite Some_bind.
  assert (read_at W (Z.of_nat (length W) - 4) 4 =
    Some (le_bytes 4 (bswap32 (authentication_tag msg)))) as ->.
  { rewrite <-(read_mid (header_image (network_header (srpp_header msg) c) ++ original_payload e ++
      padding ++ trailer_image e) (le_bytes 4 (bswap32 (authentication_tag msg))) []
      (Z.of_nat (length W) - 4) 4).
    - unfold W, wire. fold e. by rewrite app_nil_r, <-!app_assoc.
    - rewrite !length_app, Hhl, length_trailer. lia.
    - by rewrite length_le_bytes. }
  rewrite Some_bind.
  assert (read_at W (Z.of_nat (length W) - 12) 8 = Some (trailer_image e)) as ->.
  { rewrite <-(read_mid (header_image (network_header (srpp_header msg) c) ++ original_payload e ++
      padding) (trailer_image e) (le_bytes 4 (bswap32 (authentication_tag msg)))
      (Z.of_nat (length W) - 12) 8).
    - unfold W, wire. fold e. by rewrite <-!app_assoc.
    - rewrite !length_app, Hhl. lia.
    - by rewrite length_trailer. }
  rewrite Some_bind. destruct (trailer_fields e He) as (-> & -> & -> & ->).
  assert (bswap32 (le_val (le_bytes 4 (bswap32 (authentication_tag msg)))) = authentication_tag msg) as ->.
  { rewrite le_val_le_bytes, wrap_small by by words. by apply bswap32_involutive. }
  done.
Qed.

(** ** Properties *)

(** a message of the sender: no contributing sources, padded, pad count right *)
Definition padded (m : SRPPMessage) : Prop :=
  let e := encrypted_part m in
  msg_wf m ∧ cc (srpp_header m) = 0 ∧ srpp_signalling (srpp_header m) = 0 ∧
  pad_count e = Z.of_nat (length (srpp_padding e)) ∧ 0 < pad_count e <= 1500.

#[global] Instance padded_dec m : Decision (padded m).
Proof. unfold padded. apply _. Defined.

(** no octet of the message is hidden by the mask *)
Definition mask_safe (key : Z) (e : SRPPEncrypted) : Prop :=
  Forall (λ c, c ≠ u8 key) (original_payload e) ∧ Forall (λ c, c ≠ u8 key) (srpp_padding e).

#[global] Instance mask_safe_dec key e : Decision (mask_safe key e).
Proof. unfold mask_safe. apply _. Defined.

Lemma mask_safe_no_zero key l :
  is_bytes l → Forall (λ c, c ≠ u8 key) l → no_zero (mask_bytes key l).
Proof.
  intros Hl Hs. unfold no_zero, mask_bytes. induction Hl as [|x l Hx _ IH]; [constructor|].
  apply Forall_cons_iff in Hs as [Hne Hs]. constructor; [|by apply IH].
  intros E. apply Hne. by apply mask_zero.
Qed.

Lemma u32_key key : 0 < key < 2 ^ 31 → u32 key = key.
Proof. intros Hk. apply wrap_small. unfold is_word. lia. Qed.

Lemma mask_count key n : 0 < key < 2 ^ 31 → is_word 32 n → u32 (n ^^ key) ^^ u32 key = n.
Proof.
  intros Hk Hn. rewrite (u32_key key) by done. rewrite wrap_small.
  - by rewrite Z.lxor_assoc, Z.lxor_nilpotent, Z.lxor_0_r.
  - apply word_lxor; [lia|done|]. unfold is_word. lia.
Qed.

Lemma encrypt_wf key m : msg_wf m → msg_wf (encrypt key m).
Proof. intros (Hh & He & Ht). split_and!; [done|apply encrypt_part_wf|done]. Qed.

(** the wire of an encrypted message, and what the receiver makes of it *)
Lemma send_receive_wire m buff key rnd :
  padded m → mask_safe key (encrypted_part m) → 0 < key < 2 ^ 31 →
  length buff = (92 + length (original_payload (encrypted_part m)) +
                 length (srpp_padding (encrypted_part m)))%nat →
  ∃ c, length c = 15%nat ∧ is_words c ∧
    let W := wire (encrypt key m) c (mask_bytes key (srpp_padding (encrypted_part m))) in
    srpp_to_network (encrypt key m) buff key rnd = Some W ∧ length W = length buff ∧
    ∀ m0, network_to_srpp m0 W (Z.of_nat (length W)) key =
      Some (0, received (encrypt key m) m0 c
                 (original_payload (encrypt_part key (encrypted_part m)))
                 (pad_count (encrypt_part key (encrypted_part m)))).
Proof.
  intros (Hwf & Hcc & Hsig & Hpc & Hpos) [Hs1 Hs2] Hkey Hbuf.
  pose proof Hwf as (Hh & (Hb1 & Hb2 & Hcw & Hd & Ho & Hsq) & Ht).
  pose proof (mask_count key (pad_count (encrypted_part m)) Hkey Hcw) as Hmc.
  assert ((0 <? key) = true) as Hk by lia. assert ((0 <? pad_count (encrypted_part m)) = true) as Hc0 by lia.
  set (q := mask_bytes key (srpp_padding (encrypted_part m))).
  assert (∃ c, length c = 15%nat ∧ is_words c ∧
    srpp_to_network (encrypt key m) buff key rnd = Some (wire (encrypt key m) c q)) as (c & Hc & Hw & E).
  { apply (srpp_to_network_wire (encrypt key m) buff key rnd (pad_count (encrypted_part m)) q);
      cbn -[Z.lxor Nat.add]; rewrite ?Hsig, ?Hk, ?Hc0, ?length_mask_bytes; try done.
    - by apply mask_safe_no_zero.
    - by apply mask_safe_no_zero.
    - cbn -[Z.lxor Nat.add]. split; [done|]. unfold q. by rewrite length_mask_bytes.
    - unfold q. by rewrite length_mask_bytes. }
  exists c. cbv zeta.
  assert (length (wire (encrypt key m) c q) = length buff) as HL.
  { rewrite length_wire by done. rewrite Hbuf. simpl. unfold q. by rewrite !length_mask_bytes. }
    split_and!; [done..|]. intros m0. rewrite network_to_srpp_wire by (done || by apply encrypt_wf).
    cbn -[Z.lxor Nat.add wire read_at Z.of_nat]. rewrite Hsig, Hk. cbn -[Z.lxor Nat.add wire read_at Z.of_nat].
    rewrite Hmc, Hc0. assert ((1500 <? pad_count (encrypted_part m)) = false) as -> by lia.
    cbn -[Z.lxor Nat.add wire read_at Z.of_nat]. rewrite HL, Hbuf.
    unfold wire. rewrite read_mid; [|by rewrite length_header_image by done|].
    2: { simpl. rewrite length_mask_bytes. unfold sizeof_SRPPHeader. lia. }
    rewrite Some_bind. unfold received. simpl. do 4 f_equal.
    rewrite u32_key by done. rewrite wrap_small; [done|].
    apply word_lxor; [lia|done|]. unfold is_word. lia.
Qed.

Lemma send_receive m m0 buff key rnd :
  padded m → mask_safe key (encrypted_part m) → 0 < key < 2 ^ 31 →
  length buff = (92 + length (original_payload (encrypted_part m)) +
                 length (srpp_padding (encrypted_part m)))%nat →
  ∃ c wire, length c = 15%nat ∧ srpp_to_network (encrypt key m) buff key rnd = Some wire ∧
    length wire = length buff ∧
    network_to_srpp m0 wire (Z.of_nat (length wire)) key =
      Some (0, received (encrypt key m) m0 c
                 (original_payload (encrypt_part key (encrypted_part m)))
                 (pad_count (encrypt_part key (encrypted_part m)))).
Proof.
  intros H1 H2 H3 H4. destruct (send_receive_wire m buff key rnd H1 H2 H3 H4) as (c & Hc & _ & E1 & E2 & E3).
  eexists c, _. split_and!; [done|exact E1|done|]. apply E3.
Qed.

(** C22: a padded data message without contributing sources survives the transport:
    encrypted with a positive session key, written to the network, read back and
    decrypted, it has the sender's header (but for the random [csrc] words), payload,
    pad count, flags, original sequence number and tag.  The octets of the payload and
    of the padding must differ from the low octet of the key, because the copy onto
    the wire stops at a NUL. *)
Theorem srpp_transport_roundtrip m m0 buff key rnd :
  padded m → mask_safe key (encrypted_part m) → 0 < key < 2 ^ 31 →
  length buff = (92 + length (original_payload (encrypted_part m)) +
                 length (srpp_padding (encrypted_part m)))%nat →
  ∃ c wire m', srpp_to_network (encrypt key m) buff key rnd = Some wire ∧
    length wire = length buff ∧
    network_to_srpp m0 wire (Z.of_nat (length wire)) key = Some (0, m') ∧
    srpp_header m' = with_csrc (srpp_header m) c ∧ length c = 15%nat ∧
    authentication_tag m' = authentication_tag m ∧
    encrypted_part (decrypt key m') =
      mk_enc (original_payload (encrypted_part m))
        (mask_bytes key (srpp_padding (encrypted_part m0)))
        (pad_count (encrypted_part m)) (dummy_flag (encrypted_part m))
        (original_padding_bit (encrypted_part m)) (original_seq_number (encrypted_part m)).
Proof.
  intros Hpad Hsafe Hkey Hbuf.
  destruct (send_receive m m0 buff key rnd Hpad Hsafe Hkey Hbuf) as (c & W & Hc & E1 & HL & E2).
  exists c, W. eexists. split_and!; [done..|].
  destruct Hpad as ((_ & He & _) & _).
  pose proof (decrypt_encrypt_part key _ He) as Hde. unfold decrypt, decrypt_part in *. simpl in *.
  destruct (encrypted_part m). simpl in *. injection Hde as H1 _ H2 H3 H4 H5. by rewrite H1, H2, H3, H4, H5.
Qed.

(** a voice packet of three octets with two octets of padding *)
Definition sample_hdr : SRPPHeader :=
  mk_hdr 2 0 1 0 0 121 41 123456 77 (replicate 15 0) 9999 1 0.
Definition sample_msg : SRPPMessage :=
  mk_msg sample_hdr (mk_enc [1; 2; 0] [9; 8] 2 1 1 513) 99.

Lemma srpp_transport_roundtrip_witness :
  ∃ c wire m', srpp_to_network (encrypt 0x1234567 sample_msg) (replicate 97 0) 0x1234567 id = Some wire ∧
    length wire = 97%nat ∧
    network_to_srpp sample_msg wire (Z.of_nat (length wire)) 0x1234567 = Some (0, m') ∧
    srpp_header m' = with_csrc sample_hdr c ∧ length c = 15%nat ∧
    authentication_tag m' = 99 ∧
    encrypted_part (decrypt 0x1234567 m') =
      mk_enc [1; 2; 0] (mask_bytes 0x1234567 [9; 8]) 2 1 1 513.
Proof.
  apply (srpp_transport_roundtrip sample_msg sample_msg (replicate 97 0) 0x1234567 id).
  - eval_dec.
  - eval_dec.
  - lia.
  - reflexivity.
Defined.

(** masking twice with one key gives the message back, whatever the key. *)
Theorem decrypt_encrypt key m : msg_wf m → decrypt key (encrypt key m) = m.
Proof.
  intros (Hh & He & Ht). unfold decrypt, encrypt. simpl. rewrite decrypt_encrypt_part by done.
  by destruct m.
Qed.

Lemma decrypt_encrypt_witness : decrypt 77 (encrypt 77 sample_msg) = sample_msg.
Proof. apply (decrypt_encrypt 77 sample_msg). eval_dec. Defined.

(** ** What is lost *)

Lemma strcpy_c_str buff off s s' : c_str s = c_str s' → strcpy buff off s = strcpy buff off s'.
Proof. unfold strcpy. by intros ->. Qed.

Definition with_payload (m : SRPPMessage) (p : list Z) : SRPPMessage :=
  let e := encrypted_part m in
  mk_msg (srpp_header m)
    (mk_enc p (srpp_padding e) (pad_count e) (dummy_flag e) (original_padding_bit e)
       (original_seq_number e)) (authentication_tag m).

(** the copy onto the wire stops at a NUL: what follows an octet equal to
    the low octet of the key does not reach the network at all, two messages
    that differ only there are the same packet. *)
Theorem payload_after_key_octet_lost m p q1 q2 buff key rnd :
  length q1 = length q2 →
  srpp_to_network (encrypt key (with_payload m (p ++ u8 key :: q1))) buff key rnd =
  srpp_to_network (encrypt key (with_payload m (p ++ u8 key :: q2))) buff key rnd.
Proof.
  intros Hl. unfold srpp_to_network, encrypt, with_payload. simpl.
  rewrite !length_mask_bytes, !length_app. simpl. rewrite Hl.
  assert (∀ q, mask_bytes key (p ++ u8 key :: q) = mask_bytes key p ++ 0 :: mask_bytes key q) as Hm.
  { intros q. unfold mask_bytes. rewrite map_app. simpl. do 2 f_equal.
    apply mask_zero; [by words|done]. }
  assert (∀ l t t', c_str (l ++ 0 :: t) = c_str (l ++ 0 :: t')) as Hc.
  { intros l t t'. induction l as [|x l IH]; simpl; [done|]. by rewrite IH. }
  rewrite !Hm. destruct (network_csrc (srpp_header m) rnd) as [c|]; [|done]. rewrite !Some_bind.
  destruct (write_at buff 0 _) as [b|]; [|done]. rewrite !Some_bind.
  by rewrite (strcpy_c_str b _ _ (mask_bytes key p ++ 0 :: mask_bytes key q2)).
Qed.

Lemma payload_after_key_octet_lost_witness :
  srpp_to_network (encrypt 300 (with_payload sample_msg ([7] ++ u8 300 :: [1; 2])))
    (replicate 98 0) 300 id =
  srpp_to_network (encrypt 300 (with_payload sample_msg ([7] ++ u8 300 :: [3; 4])))
    (replicate 98 0) 300 id.
Proof. apply (payload_after_key_octet_lost sample_msg [7] [1; 2] [3; 4]). reflexivity. Defined.

(** a message without padding comes back with the eight octets of the
    trailer behind its payload, because [network_to_srpp] moves [data] over them
    only when there is padding. *)
Theorem unpadded_payload_grows m m0 buff rnd :
  msg_wf m → cc (srpp_header m) = 0 → pad_count (encrypted_part m) = 0 →
  no_zero (original_payload (encrypted_part m)) → srpp_padding (encrypted_part m) = [] →
  length buff = (92 + length (original_payload (encrypted_part m)))%nat →
  ∃ wire m', srpp_to_network m buff 0 rnd = Some wire ∧
    network_to_srpp m0 wire (Z.of_nat (length wire)) 0 = Some (0, m') ∧
    original_payload (encrypted_part m') =
      original_payload (encrypted_part m) ++ trailer_image (encrypted_part m).
Proof.
  intros Hwf Hcc Hpc Hnz Hpad Hbuf. pose proof Hwf as (Hh & He & Ht).
  destruct (srpp_to_network_wire m buff 0 rnd 0 []) as (c & Hc & Hw & E); try done.
  - rewrite Hpad. constructor.
  - simpl. lia.
  - exists (wire m c []). eexists. split; [done|]. split.
    + rewrite network_to_srpp_wire by done. rewrite Hpc. rewrite andb_false_r. cbv zeta.
      change (1500 <? 0) with false. cbn [andb Z.ltb Z.compare].
      rewrite length_wire by done. unfold wire at 1.
      rewrite (app_assoc (original_payload _)).
      rewrite (app_assoc (original_payload _ ++ [])).
      rewrite read_mid; [reflexivity|by rewrite length_header_image by done|].
      rewrite !length_app, length_trailer. unfold sizeof_SRPPHeader. simpl. lia.
    + simpl. by rewrite app_nil_r.
Qed.

Definition sample_unpadded : SRPPMessage :=
  mk_msg sample_hdr (mk_enc [1; 2; 3] [] 0 0 1 513) 99.

Lemma unpadded_payload_grows_witness :
  ∃ wire m', srpp_to_network sample_unpadded (replicate 95 0) 0 id = Some wire ∧
    network_to_srpp sample_msg wire (Z.of_nat (length wire)) 0 = Some (0, m') ∧
    original_payload (encrypted_part m') = [1; 2; 3] ++ [0; 0; 0; 0; 0; 128; 1; 2].
Proof.
  apply (unpadded_payload_grows sample_unpadded sample_msg (replicate 95 0) id).
  - eval_dec.
  - reflexivity.
  - reflexivity.
  - repeat (constructor; [lia|]). constructor.
  - reflexivity.
  - reflexivity.
Defined.

(** ** Contributing sources *)

Lemma for_up_out {A} (f : Z → A → option A) n i j s :
  i <= j < i + Z.of_nat n → (∀ s, f j s = None) → for_up n i f s = None.
Proof.
  intros Hj Hf. revert i s Hj. induction n as [|n IH]; intros i s Hj; [lia|]. simpl.
  destruct (decide (i = j)) as [->|Hne]; [by rewrite Hf|].
  destruct (f i s) as [s'|]; [|done]. simpl. apply IH. lia.
Qed.

Lemma for_range_out {A} (f : Z → A → option A) lo hi j s :
  lo <= j < hi → (∀ s, f j s = None) → for_range lo hi f s = None.
Proof. intros Hj. apply for_up_out. lia. Qed.

(** the loop over the contributing sources runs to [ntohs(cc)], that is to
    [256 * cc]: with one source or more it leaves the array of fifteen. *)
Theorem csrc_loop_overruns m buff key rnd :
  is_word 4 (cc (srpp_header m)) → cc (srpp_header m) ≠ 0 →
  length (csrc (srpp_header m)) = 15%nat →
  srpp_to_network m buff key rnd = None.
Proof.
  intros Hw Hc Hl. unfold srpp_to_network, network_csrc.
  assert (15 < bswap16 (cc (srpp_header m))) as Hb.
  { pose proof (word_forall 4 (λ c, (c =? 0) || (15 <? bswap16 c)) ltac:(by vm_compute) _ Hw) as E.
    cbv beta in E. lia. }
  rewrite (for_range_out _ 0 (bswap16 (cc (srpp_header m))) 15); [done|lia|].
  intros s. unfold aget. by rewrite lookup_ge_None_2 by lia.
Qed.

Lemma csrc_loop_overruns_witness :
  srpp_to_network (mk_msg (mk_hdr 2 0 1 1 0 121 41 123456 77 (replicate 15 0) 9999 1 0)
    (mk_enc [] [] 0 0 0 0) 0) (replicate 92 0) 0 id = None.
Proof. apply csrc_loop_overruns; [eval_dec|discriminate|reflexivity]. Defined.
