(* ===== verification/Discovery.v ===== *)
(** * The packet filter: checksums, fragments, ports

    Models parts of [src/sqrkal_discovery/sqrkal_discovery.cpp]: the Internet
    checksum and the headers it is put into, the splitting of a packet larger
    than the MTU, and the loops of [process_packet] that decide whether
    a packet belongs to a SIP or an RTP port.

    A packet is the list of its octets, in network order as it was read; the
    host is little-endian.  [None] is an access outside of the buffer.  The
    addresses of the interfaces, which [get_direction] asks the operating
    system for, are an argument. *)

From S2P Require Import Prelude SrppMessage.

(** ** Headers *)

(** fields of an [IP_Header] and of a [UDP_Header] in a buffer *)
Definition get16 (buff : list Z) (off : Z) : option Z := l ← read_at buff off 2; Some (le_val l).
Definition put16 (buff : list Z) (off x : Z) : option (list Z) := write_at buff off (le_bytes 2 x).
Definition get32 (buff : list Z) (off : Z) : option Z := l ← read_at buff off 4; Some (le_val l).

Definition put32 (buff : list Z) (off x : Z) : option (list Z) := write_at buff off (le_bytes 4 x).

Definition ihl (buff : list Z) : option Z := b ← aget buff 0; Some (b & 15).

Definition IP_MTU : Z := 1500.
Definition UDP_PROTOCOL : Z := 17.
Definition TCP_PROTOCOL : Z := 6.
Definition BUFSIZE : Z := 2048.

(** ** The checksum *)

(** the loop over 16-bit words; a last odd octet is the low half of a word *)
Fixpoint sum_words (sum : Z) (l : list Z) : Z :=
  match l with
  | a :: b :: l => sum_words (sum + le_val [a; b]) l
  | [a] => sum + a
  | [] => sum
  end.

(** the carries are added back twice, the result is complemented *)
Definition fold_sum (sum : Z) : Z :=
  let sum := (sum >> 16) + (sum & 0xFFFF) in
  let sum := sum + (sum >> 16) in
  u16 (Z.lnot sum).

Definition in_cksum (addr : list Z) (len : Z) : option Z :=
  l ← read_at addr 0 len; Some (fold_sum (sum_words 0 l)).

(** the pseudo header is in front of the data; [data] has [BUFSIZE] octets *)
Definition in_cksum_udp (src dst : Z) (addr : list Z) (len : Z) : option Z :=
  data ← read_at addr 0 len;
  if BUFSIZE <? len then None else
  Some (fold_sum (sum_words 0
    (le_bytes 4 src ++ le_bytes 4 dst ++ [0; UDP_PROTOCOL] ++ le_bytes 2 (bswap16 (u16 len)) ++ data))).

(** the UDP checksum is switched off: its field is zero *)
Definition form_checksums (buff : list Z) : option (list Z) :=
  n ← ihl buff;
  buff ← put16 buff 10 0;
  c ← in_cksum buff 20;
  buff ← put16 buff 10 c;
  put16 buff (4 * n + 6) 0.

(** ** Fragments *)

(** what [send_fragmented_message] gives to [send_raw_message], and the new
    [frag_id] *)
Definition send_fragmented_message (buff : list Z) (bytes_read frag_id : Z)
  : option (list Z * list Z * Z) :=
  buff ← put16 buff 4 (bswap16 (u16 (15032 + frag_id)));
  buff ← put16 buff 6 (bswap16 8192);
  buff ← put16 buff 2 IP_MTU;
  buff ← form_checksums buff;
  first ← read_at buff 0 IP_MTU;
  let bytes_left := bytes_read - IP_MTU in
  header ← read_at buff 0 20;
  data ← read_at buff IP_MTU bytes_left;
  let buff1 := header ++ data in
  buff1 ← put16 buff1 6 (bswap16 185);
  buff1 ← put16 buff1 2 (u16 (bytes_left + 20));
  buff1 ← form_checksums buff1;
  Some (first, buff1, frag_id + 1).

(** ** Classification *)

(** 1: from one of the host's own addresses *)
Definition get_direction (interfaces : list Z) (saddr : Z) : Z :=
  if bool_decide (saddr ∈ interfaces) then 1 else 0.

(** the loops over [sip_ports] and [rtp_ports]: the index is incremented in the
    body, and in the head *)
Fixpoint match_port (fuel : nat) (i : nat) (ports : list Z) (local remote : Z) : bool :=
  match fuel with
  | O => false
  | S fuel =>
      match ports !! i with
      | None => false
      | Some p => if (local =? p) || (remote =? p) then true
                  else match_port fuel (i + 2) ports local remote
      end
  end.

Definition is_port (ports : list Z) (local remote : Z) : bool :=
  match_port (length ports) 0 ports local remote.

Inductive verdict := NotOurs | Sip | Rtp.

#[global] Instance verdict_eq_dec : EqDecision verdict.
Proof. solve_decision. Defined.

(** [sip_ports] does not change *)
Definition sip_ports : list Z := [5060].

(** whose packet it is, from the list of RTP ports, the direction and the ports *)
Definition classify_ports (rtp_ports : list Z) (direction src dst : Z) : verdict :=
  let '(local, remote) := if direction =? 0 then (dst, src) else (src, dst) in
  if is_port sip_ports local remote then Sip
  else if is_port rtp_ports local remote then Rtp else NotOurs.

(** ** Arithmetic of the checksum *)

Lemma sum_words_acc s l : sum_words s l = s + sum_words 0 l.
Proof.
  assert (∀ n l s, (length l <= n)%nat → sum_words s l = s + sum_words 0 l) as H; [|by apply (H (length l))].
  intros n. induction n as [|n IH]; intros [|a [|b l']] s' Hl; cbn [sum_words length] in *; try lia.
  rewrite (IH l' (s' + _)), (IH l' (0 + _)) by lia. lia.
Qed.

Lemma le_val_pair a b : le_val [a; b] = a + 256 * b.
Proof. unfold le_val. cbn [rev app be_val length]. change (2 ^ (8 * Z.of_nat 1)) with 256.
  change (2 ^ (8 * Z.of_nat 0)) with 1. lia. Qed.

Lemma sum_words_app l t : Nat.Even (length l) → sum_words 0 (l ++ t) = sum_words 0 l + sum_words 0 t.
Proof.
  intros [k Hk]. revert l Hk. induction k as [|k IH]; intros l Hk.
  - destruct l; [done|simpl in Hk; lia].
  - destruct l as [|a [|b l]]; simpl in Hk; [lia|lia|]. cbn [app sum_words].
    rewrite !(sum_words_acc (0 + _)), (IH l) by lia. lia.
Qed.

Lemma sum_words_bound l : is_bytes l → 0 <= sum_words 0 l <= 65535 * Z.of_nat (length l).
Proof.
  assert (∀ n l, (length l <= n)%nat → is_bytes l → 0 <= sum_words 0 l <= 65535 * Z.of_nat (length l)) as H;
    [|by apply (H (length l))].
  intros n. induction n as [|n IH]; intros [|a [|b l']] Hl Hb; simpl in Hl; try (simpl; lia).
  - apply Forall_cons_iff in Hb as [Ha _]. unfold is_word in Ha. simpl. lia.
  - apply Forall_cons_iff in Hb as [Ha Hb]. apply Forall_cons_iff in Hb as [Hb Hl'].
    cbn [sum_words]. rewrite sum_words_acc, le_val_pair.
    specialize (IH l' ltac:(lia) Hl'). unfold is_word in *. cbn [length]. lia.
Qed.

(** the checksum complements the sum modulo 65535 *)
Lemma fold_sum_spec x :
  0 <= x < 2 ^ 31 → ∃ k, 0 <= k ∧ fold_sum x = 65535 - (x - 65535 * k) ∧
    0 <= x - 65535 * k <= 65535 ∧ (x - 65535 * k = 0 → x = 0).
Proof.
  intros Hx. unfold fold_sum.
  assert (x & 0xFFFF = x mod 65536) as -> by (change 0xFFFF with (Z.ones 16); by rewrite Z.land_ones).
  rewrite !Z.shiftr_div_pow2 by lia. unfold wrap, Z.lnot.
  change (2 ^ 16) with 65536. set (q := x / 65536).
  pose proof (Z.div_mod x 65536 ltac:(lia)) as Hdm.
  pose proof (Z.mod_pos_bound x 65536 ltac:(lia)) as Hr. fold q in Hdm.
  set (r := x mod 65536) in *.
  assert (0 <= q < 32768) by lia.
  destruct (Z.lt_ge_cases (q + r) 65536).
  - exists q. rewrite (Z.div_small (q + r)) by lia.
    replace (Z.pred (- (q + r + 0))) with (65535 - (q + r) + (-1) * 65536) by lia.
    rewrite Z.mod_add, Z.mod_small by lia. lia.
  - exists (q + 1). assert ((q + r) / 65536 = 1) as ->
      by (symmetry; apply (Z.div_unique _ _ _ (q + r - 65536)); lia).
    replace (Z.pred (- (q + r + 1))) with (65535 - (q + r - 65535) + (-2) * 65536) by lia.
    rewrite Z.mod_add, Z.mod_small by lia. lia.
Qed.

(** a sum and its checksum fold to zero *)
Lemma fold_sum_verifies x : 0 <= x < 2 ^ 30 → fold_sum (x + fold_sum x) = 0.
Proof.
  intros Hx. destruct (fold_sum_spec x ltac:(lia)) as (k & Hk & Ek & Hr & H0).
  destruct (fold_sum_spec (x + fold_sum x) ltac:(lia)) as (j & Hj & Ej & Hs & Hz). rewrite Ej.
  rewrite Ek in *.
  assert (1 + k - j = 0 ∨ 1 + k - j = 1) as [|] by lia; lia.
Qed.

(** ** Writing fields of a header *)

(** replacing the middle of a buffer *)
Lemma write_mid a x r z n :
  n = Z.of_nat (length a) → length z = length x →
  write_at (a ++ x ++ r) n z = Some (a ++ z ++ r).
Proof.
  intros Hn Hz. rewrite write_next by (rewrite ?length_app; lia).
  by rewrite Hz, drop_app_length, <-app_assoc.
Qed.

(** a list cut at two places *)
Lemma cut {A} (l : list A) i n :
  (i + n <= length l)%nat →
  ∃ a x r, l = a ++ x ++ r ∧ length a = i ∧ length x = n.
Proof.
  intros Hl. exists (take i l), (take n (drop i l)), (drop n (drop i l)). split_and!.
  - by rewrite take_drop, take_drop.
  - rewrite length_take. lia.
  - rewrite length_take, length_drop. lia.
Qed.

(** ** Reading what was written *)

(** [put16] and its like keep the length *)
Lemma length_write_at buf off bs buf' : write_at buf off bs = Some buf' → length buf' = length buf.
Proof.
  unfold write_at. destruct (_ && _) eqn:Ec; [|done]. intros [= <-].
  rewrite !length_app, length_take, length_drop. lia.
Qed.

Lemma write_at_cut b off bs b' :
  write_at b off bs = Some b' →
  ∃ a x r, b = a ++ x ++ r ∧ b' = a ++ bs ++ r ∧ off = Z.of_nat (length a) ∧ length x = length bs.
Proof.
  unfold write_at. destruct (_ && _) eqn:Ec; [|done]. intros [= <-].
  destruct (cut b (Z.to_nat off) (length bs)) as (a & x & r & -> & Ha & Hx); [lia|].
  exists a, x, r. split_and!; [done| |lia|done]. f_equal; [by rewrite take_app_length'|]. f_equal.
  rewrite (app_assoc a x r), drop_app_length'; [done|]. rewrite length_app. lia.
Qed.

Lemma write_at_ok b off bs :
  0 <= off → off + Z.of_nat (length bs) <= Z.of_nat (length b) → ∃ b', write_at b off bs = Some b'.
Proof.
  intros H1 H2. unfold write_at. rewrite (proj2 (Z.leb_le 0 off)), (proj2 (Z.leb_le _ _) H2) by lia.
  by eexists.
Qed.

Lemma read_same b off bs b' n :
  write_at b off bs = Some b' → n = Z.of_nat (length bs) → read_at b' off n = Some bs.
Proof. intros (a & x & r & -> & -> & -> & _)%write_at_cut ->. by apply read_mid. Qed.

(** a read is of the octets between two places *)
Lemma read_at_before a b o n : o + n <= Z.of_nat (length a) → read_at (a ++ b) o n = read_at a o n.
Proof.
  intros H. unfold read_at. rewrite length_app.
  destruct (Z.leb_spec 0 o), (Z.leb_spec 0 n); simpl; try done.
  rewrite (proj2 (Z.leb_le (o + n) (Z.of_nat (length a)))), (proj2 (Z.leb_le (o + n) _)) by lia.
  f_equal. rewrite drop_app_le by lia. apply take_app_le. rewrite length_drop. lia.
Qed.

Lemma read_at_after a b o n :
  Z.of_nat (length a) <= o → read_at (a ++ b) o n = read_at b (o - Z.of_nat (length a)) n.
Proof.
  intros H. unfold read_at. rewrite length_app.
  rewrite (proj2 (Z.leb_le 0 o)), (proj2 (Z.leb_le 0 (o - Z.of_nat (length a)))) by lia. simpl.
  assert ((o + n <=? Z.of_nat (length a + length b)) =
    (o - Z.of_nat (length a) + n <=? Z.of_nat (length b))) as ->
    by (apply eq_true_iff_eq; rewrite !Z.leb_le; lia).
  destruct (_ && _); [|done]. do 2 f_equal. rewrite drop_app_ge by lia. f_equal. lia.
Qed.

Lemma read_other b off bs b' o n :
  write_at b off bs = Some b' → o + n <= off ∨ off + Z.of_nat (length bs) <= o →
  read_at b' o n = read_at b o n.
Proof.
  intros (a & x & r & -> & -> & -> & Hx)%write_at_cut [H|H].
  - by rewrite !read_at_before by lia.
  - rewrite (app_assoc a bs r), (app_assoc a x r).
    rewrite !read_at_after by (rewrite length_app; lia). by rewrite !length_app, Hx.
Qed.

Lemma aset_write (l : list Z) i x : aset l i x = write_at l i [x].
Proof.
  unfold aset, write_at. simpl length. destruct (Z.leb_spec 0 i); simpl; [|done].
  destruct (Z.ltb_spec i (Z.of_nat (length l))).
  - rewrite (proj2 (Z.leb_le _ _)) by lia. f_equal. rewrite insert_take_drop by lia.
    by rewrite Nat.add_1_r.
  - by rewrite (proj2 (Z.leb_gt _ _)) by lia.
Qed.

Definition good_header (h : list Z) : Prop :=
  length h = 20%nat ∧ is_bytes h ∧ ∃ b, h !! 0%nat = Some b ∧ b & 15 = 5.

(** a 16-bit field of the header, behind the first octet *)
Lemma put16_header h d off x :
  good_header h → 1 <= off <= 18 →
  ∃ h', put16 (h ++ d) off x = Some (h' ++ d) ∧ good_header h'.
Proof.
  intros (Hl & Hb & b & H0 & Hn) Hoff. unfold put16.
  destruct (cut h (Z.to_nat off) 2) as (a & y & r & -> & Ha & Hy); [lia|].
  exists (a ++ le_bytes 2 x ++ r). split.
  - rewrite <-!app_assoc, write_mid; [done|lia|by rewrite length_le_bytes].
  - rewrite !is_bytes_app in Hb. destruct Hb as (Hb1 & Hb2 & Hb3). split_and!.
    + rewrite !length_app in *. rewrite length_le_bytes. lia.
    + rewrite !is_bytes_app. split_and!; [done| |done]. apply is_bytes_rev, be_bytes_range.
    + exists b. split; [|done]. destruct a as [|c a]; [simpl in Ha; lia|]. done.
Qed.

Definition zero67 (d : list Z) : list Z := take 6 d ++ [0; 0] ++ drop 8 d.

Lemma sum_words_pair x : sum_words 0 (le_bytes 2 x) = wrap 16 x.
Proof.
  pose proof (le_val_le_bytes 2 x) as H. pose proof (length_le_bytes 2 x) as Hl.
  destruct (le_bytes 2 x) as [|a [|b [|c l]]]; try discriminate Hl.
  cbn [sum_words]. exact H.
Qed.

(** the checksum in the header makes it verify *)
Lemma checksum_header h x c :
  good_header h → (∃ a r, h = a ++ le_bytes 2 x ++ r ∧ length a = 10%nat ∧
    c = fold_sum (sum_words 0 (a ++ le_bytes 2 0 ++ r)) ∧ x = c) →
  fold_sum (sum_words 0 h) = 0.
Proof.
  intros (Hl & Hb & _) (a & r & -> & Ha & -> & ->).
  rewrite !is_bytes_app in Hb. destruct Hb as (Hb1 & _ & Hb3).
  rewrite !length_app, length_le_bytes in Hl.
  assert (Nat.Even (length a)) as Hev by (rewrite Ha; by exists 5%nat).
  assert (∀ y, sum_words 0 (a ++ le_bytes 2 y ++ r) = sum_words 0 a + (wrap 16 y + sum_words 0 r)) as Hsum.
  { intros y. rewrite sum_words_app by done. rewrite sum_words_app, sum_words_pair; [done|].
    rewrite length_le_bytes. by exists 1%nat. }
  rewrite !Hsum. set (S := sum_words 0 a + (wrap 16 0 + sum_words 0 r)).
  assert (S = sum_words 0 a + sum_words 0 r) as HS by (unfold S; change (wrap 16 0) with 0; lia).
  pose proof (sum_words_bound a Hb1). pose proof (sum_words_bound r Hb3).
  assert (wrap 16 (fold_sum S) = fold_sum S) as ->.
  { unfold fold_sum. apply wrap_wrap. }
  replace (sum_words 0 a + (fold_sum S + sum_words 0 r)) with (S + fold_sum S) by lia.
  apply fold_sum_verifies. rewrite HS. lia.
Qed.

Lemma form_checksums_header h d :
  good_header h → (8 <= length d)%nat →
  ∃ h', form_checksums (h ++ d) = Some (h' ++ zero67 d) ∧ good_header h' ∧
    fold_sum (sum_words 0 h') = 0.
Proof.
  intros Hh Hd. pose proof Hh as (Hl & Hb & b & H0 & Hn). unfold form_checksums, ihl, put16.
  rewrite aget_lookup by lia. change (Z.to_nat 0) with 0%nat. rewrite lookup_app_l by lia. rewrite H0, !Some_bind, Hn.
  destruct (cut h 10 2) as (a & y & r & -> & Ha & Hy); [lia|].
  rewrite !length_app in Hl.
  rewrite <-!app_assoc, write_mid by (rewrite ?length_le_bytes; lia). rewrite Some_bind.
  unfold in_cksum. rewrite (app_assoc (le_bytes 2 0)), (app_assoc a).
  assert (∀ y', length y' = 2%nat → read_at ((a ++ y' ++ r) ++ d) 0 20 = Some (a ++ y' ++ r)) as Hread.
  { intros y' Hy'. apply (read_mid [] (a ++ y' ++ r) d); [done|]. rewrite !length_app, Hy'. lia. }
  rewrite Hread by by rewrite length_le_bytes. rewrite !Some_bind.
  set (c := fold_sum _). rewrite <-!app_assoc, write_mid by (rewrite ?length_le_bytes; lia).
  rewrite Some_bind. destruct (cut d 6 2) as (d1 & z & d2 & -> & Hd1 & Hz); [lia|].
  replace (a ++ le_bytes 2 c ++ r ++ d1 ++ z ++ d2) with
    ((a ++ le_bytes 2 c ++ r ++ d1) ++ z ++ d2) by by rewrite <-!app_assoc.
  rewrite write_mid; [|rewrite !length_app, length_le_bytes; lia|by rewrite length_le_bytes].
  assert (good_header (a ++ le_bytes 2 c ++ r)) as Hg.
  { rewrite !is_bytes_app in Hb. destruct Hb as (Hb1 & Hb2 & Hb3). split_and!.
    - rewrite !length_app, length_le_bytes. lia.
    - rewrite !is_bytes_app. split_and!; [done| |done]. apply is_bytes_rev, be_bytes_range.
    - exists b. split; [|done]. destruct a as [|q a]; [simpl in Ha; lia|]. done. }
  exists (a ++ le_bytes 2 c ++ r). split_and!; [|done|].
  - f_equal. unfold zero67. rewrite take_app_length' by done.
    rewrite (app_assoc d1 z d2), drop_app_length' by (rewrite length_app; lia).
    by rewrite <-!app_assoc.
  - eapply (checksum_header _ c c); [done|by exists a, r].
Qed.

(** ** Properties *)

(** the header checksum is right: after [form_checksums], the sum over the
    twenty octets of the header, checksum included, verifies; nothing behind
    the header changes but the UDP checksum, which is cleared. *)
Theorem form_checksums_verifies h d :
  good_header h → (8 <= length d)%nat →
  ∃ h', form_checksums (h ++ d) = Some (h' ++ zero67 d) ∧ length h' = 20%nat ∧
    in_cksum (h' ++ zero67 d) 20 = Some 0.
Proof.
  intros Hh Hd. destruct (form_checksums_header h d Hh Hd) as (h' & E1 & (Hl & _) & E2).
  exists h'. split_and!; [done..|]. unfold in_cksum.
  assert (read_at (h' ++ zero67 d) 0 20 = Some h') as ->
    by (apply (read_mid [] h' (zero67 d)); [done|lia]).
  by rewrite Some_bind, E2.
Qed.

Definition sample_ip : list Z :=
  [0x45; 0; 0; 48; 1; 2; 0; 0; 64; 17; 9; 9; 10; 0; 0; 1; 192; 168; 3; 250].

Lemma good_sample_ip : good_header sample_ip.
Proof. split_and!; [done|eval_dec|]. by exists 0x45. Qed.

Lemma form_checksums_verifies_witness :
  ∃ h', form_checksums (sample_ip ++ replicate 28 7) = Some (h' ++ zero67 (replicate 28 7)) ∧
    length h' = 20%nat ∧ in_cksum (h' ++ zero67 (replicate 28 7)) 20 = Some 0.
Proof. apply (form_checksums_verifies sample_ip (replicate 28 7)); [apply good_sample_ip|simpl; lia]. Defined.

(** a packet larger than the MTU is cut into a first fragment of 1500
    octets and the rest, at offset 185 * 8 = 1480; both headers verify.  The data
    of the fragments is the data of the packet but for two octets of each: what
    is the UDP checksum in the first fragment is payload in the second, and is
    cleared as well. *)
Theorem fragments_spec h d frag_id :
  good_header h → (1488 <= length d)%nat →
  ∃ h1 h2, send_fragmented_message (h ++ d) (Z.of_nat (length (h ++ d))) frag_id =
      Some (h1 ++ zero67 (take 1480 d), h2 ++ zero67 (drop 1480 d), frag_id + 1) ∧
    length h1 = 20%nat ∧ length h2 = 20%nat ∧
    fold_sum (sum_words 0 h1) = 0 ∧ fold_sum (sum_words 0 h2) = 0.
Proof.
  intros Hh Hd. unfold send_fragmented_message.
  destruct (put16_header h d 4 (bswap16 (u16 (15032 + frag_id))) Hh) as (g1 & -> & G1); [lia|].
  rewrite Some_bind. destruct (put16_header g1 d 6 (bswap16 8192) G1) as (g2 & -> & G2); [lia|].
  rewrite Some_bind. destruct (put16_header g2 d 2 IP_MTU G2) as (g3 & -> & G3); [lia|].
  rewrite Some_bind. destruct (form_checksums_header g3 d G3) as (h1 & -> & H1 & V1); [lia|].
  rewrite Some_bind. pose proof Hh as (Hlh & _). pose proof H1 as (Hl1 & _).
  assert (zero67 d = zero67 (take 1480 d) ++ drop 1480 d) as Hz.
  { unfold zero67. rewrite <-!app_assoc, take_take.
    replace (6 `min` 1480)%nat with 6%nat by lia. do 2 f_equal. cbn [app]. f_equal. f_equal.
    rewrite skipn_firstn_comm. rewrite <-(take_drop (1480 - 8) (drop 8 d)) at 1.
    by rewrite drop_drop. }
  assert (length (zero67 (take 1480 d)) = 1480%nat) as Hlz.
  { unfold zero67. rewrite !length_app, length_drop, !length_take. cbn [length]. lia. }
  rewrite Hz.
  assert (read_at (h1 ++ zero67 (take 1480 d) ++ drop 1480 d) 0 IP_MTU =
    Some (h1 ++ zero67 (take 1480 d))) as ->.
  { rewrite app_assoc. apply (read_mid [] (h1 ++ zero67 (take 1480 d)) (drop 1480 d)); [done|].
    rewrite length_app, Hlz, Hl1. done. }
  rewrite Some_bind.
  assert (read_at (h1 ++ zero67 (take 1480 d) ++ drop 1480 d) 0 20 = Some h1) as ->
    by (apply (read_mid [] h1); [done|lia]).
  rewrite Some_bind.
  assert (read_at (h1 ++ zero67 (take 1480 d) ++ drop 1480 d) IP_MTU
    (Z.of_nat (length (h ++ d)) - IP_MTU) = Some (drop 1480 d)) as ->.
  { rewrite <-(app_nil_r (drop 1480 d)) at 1. rewrite app_assoc. apply read_mid.
    - rewrite length_app, Hlz, Hl1. done.
    - rewrite length_app, length_drop, Hlh. unfold IP_MTU. lia. }
  rewrite Some_bind.
  destruct (put16_header h1 (drop 1480 d) 6 (bswap16 185) H1) as (g4 & -> & G4); [lia|].
  rewrite Some_bind.
  destruct (put16_header g4 (drop 1480 d) 2 (u16 (Z.of_nat (length (h ++ d)) - IP_MTU + 20)) G4)
    as (g5 & -> & G5); [lia|].
  rewrite Some_bind.
  destruct (form_checksums_header g5 (drop 1480 d) G5) as (h2 & -> & H2 & V2);
    [rewrite length_drop; lia|].
  rewrite Some_bind. exists h1, h2. split_and!; try done. apply H2.
Qed.

Lemma fragments_spec_witness :
  ∃ h1 h2, send_fragmented_message (sample_ip ++ replicate 1600 7)
      (Z.of_nat (length (sample_ip ++ replicate 1600 7))) 3 =
      Some (h1 ++ zero67 (take 1480 (replicate 1600 7)), h2 ++ zero67 (drop 1480 (replicate 1600 7)), 4) ∧
    length h1 = 20%nat ∧ length h2 = 20%nat ∧
    fold_sum (sum_words 0 h1) = 0 ∧ fold_sum (sum_words 0 h2) = 0.
Proof.
  apply (fragments_spec sample_ip (replicate 1600 7) 3); [apply good_sample_ip|].
  rewrite length_replicate. lia.
Defined.

Lemma match_port_spec fuel i ports local remote :
  (length ports <= i + 2 * fuel)%nat →
  match_port fuel i ports local remote = true ↔
  ∃ k p, ports !! (i + 2 * k)%nat = Some p ∧ (local = p ∨ remote = p).
Proof.
  revert i. induction fuel as [|fuel IH]; intros i Hf; cbn [match_port].
  - split; [done|]. intros (k & p & Hp & _). apply lookup_lt_Some in Hp. lia.
  - destruct (ports !! i) as [q|] eqn:Eq.
    + destruct ((local =? q) || (remote =? q)) eqn:Em.
      * split; [|done]. intros _. exists 0%nat, q. rewrite Nat.add_0_r. split; [done|lia].
      * rewrite IH by lia. split.
        -- intros (k & p & Hp & Hm). exists (S k), p. split; [|done]. rewrite <-Hp. f_equal. lia.
        -- intros ([|k] & p & Hp & Hm).
           ++ rewrite Nat.add_0_r, Eq in Hp. simplify_eq. lia.
           ++ exists k, p. split; [|done]. rewrite <-Hp. f_equal. lia.
    + split; [done|]. intros (k & p & Hp & _). apply lookup_ge_None in Eq.
      apply lookup_lt_Some in Hp. lia.
Qed.

(** the loops that look for a port see only every second entry of the list
    of ports: a port is found exactly when it is at an even index. *)
Theorem is_port_even ports local remote :
  is_port ports local remote = true ↔
  ∃ k p, ports !! (2 * k)%nat = Some p ∧ (local = p ∨ remote = p).
Proof. unfold is_port. apply (match_port_spec (length ports) 0). lia. Qed.
