(* ===== verification/FilterState.v ===== *)
(** * The packet filter: its state, and what it sends

    The globals of [src/sqrkal_discovery/sqrkal_discovery.cpp] as the record
    [filter], and the functions that put packets on the raw socket:
    [send_raw_message], and [send_rtp_message], which the SRPP library is given
    as its send functor.

    A file that is part of the same program but keeps its own globals, the SRPP
    library, has this record in its [world].  [raw_sent] is what [sendto] was
    given while the socket was open; its status is an argument.  [None] is an
    access outside of an object, or the end of the program by [exit].

    [srpp_ttl_s] has two octets and [sprintf] writes three: the third is
    padding in front of [ssrc_value], and the text is kept whole here. *)

From S2P Require Import Prelude SrppMessage Discovery.

(** ** State *)

(** [struct sockaddr_in]; port and address in network order *)
Record sockaddr := mk_sockaddr {
  sin_family : Z; sin_port : Z; sin_addr : Z }.

(** the firewall: which rules are added, and the commands given to [system] *)
Record Rules := mk_rules {
  udp_added : Z; tcp_added : Z; rtp_added : Z; commands : list (list Z) }.

(** what the SIP messages said of the call *)
Record Call := mk_call {
  is_srtp : Z; is_srpp : Z; is_session_on : Z; inport : Z; outport : Z; saw_invite_already :
  Z; saw_bye_already : Z; sent_invite : Z; saw_ack : Z; saw_200ok : Z; rtp_ports : list Z }.

(** the media streams: counters, the saved headers ([rtp_header] of the source),
    the sizes of packets and the file they are written to *)
Record Media := mk_media {
  apply_srpp : Z; recv_count : Z; sent_count : Z; saved_header : list Z; rtp_hdset : Z;
  ssrc_value : Z; input_packet_sizes : list Z; output_packet_sizes : list Z; srpp_msg :
  SRPPMessage; sizes_txt : list (Z * Z) }.

(** where packets go *)
Record Route := mk_route {
  out_addr : sockaddr; last_out_dest : Z; rtp_dest : Z; rtp_src : Z; frag_id : Z; srpp_ttl :
  Z; srpp_ttl_s : list Z }.

(** a message in the buffer of [ipq_read]: a packet with the memory from its
    payload to the end of the buffer, its length, and the status that setting
    its verdict returns; an error; or another type *)
Inductive ipq_message :=
  | IPQM_PACKET (payload : list Z) (data_len : Z) (verdict_status : Z)
  | NLMSG_ERROR
  | OTHER_TYPE.

(** what [ipq_read] returns, and what the buffer holds then *)
Definition ipq_read : Type := Z * ipq_message.

(** all of it, with what the raw socket sent, what [ipq_read] is to return and
    the messages [parse_sip] was called with *)
Record filter := mk_filter {
  is_discovering : Z; is_sip : Z; is_rtp : Z; is_udp : Z; rules : Rules; call : Call; media
  : Media; route : Route; socket_open : bool; raw_sent : list (sockaddr * list Z); queue :
  list ipq_read; parsed : list (list Z * Z) }.

(** setters *)
Definition put_sin_family (x : Z) (a : sockaddr) : sockaddr :=
  mk_sockaddr x (sin_port a) (sin_addr a).
Definition put_sin_port (x : Z) (a : sockaddr) : sockaddr :=
  mk_sockaddr (sin_family a) x (sin_addr a).
Definition put_sin_addr (x : Z) (a : sockaddr) : sockaddr :=
  mk_sockaddr (sin_family a) (sin_port a) x.
Definition put_udp_added (x : Z) (r : Rules) : Rules :=
  mk_rules x (tcp_added r) (rtp_added r) (commands r).
Definition put_tcp_added (x : Z) (r : Rules) : Rules :=
  mk_rules (udp_added r) x (rtp_added r) (commands r).
Definition put_rtp_added (x : Z) (r : Rules) : Rules :=
  mk_rules (udp_added r) (tcp_added r) x (commands r).
Definition put_commands (x : list (list Z)) (r : Rules) : Rules :=
  mk_rules (udp_added r) (tcp_added r) (rtp_added r) x.
Definition put_is_srtp (x : Z) (c : Call) : Call :=
  mk_call x (is_srpp c) (is_session_on c) (inport c) (outport c) (saw_invite_already c)
    (saw_bye_already c) (sent_invite c) (saw_ack c) (saw_200ok c) (rtp_ports c).
Definition put_is_srpp (x : Z) (c : Call) : Call :=
  mk_call (is_srtp c) x (is_session_on c) (inport c) (outport c) (saw_invite_already c)
    (saw_bye_already c) (sent_invite c) (saw_ack c) (saw_200ok c) (rtp_ports c).
Definition put_is_session_on (x : Z) (c : Call) : Call :=
  mk_call (is_srtp c) (is_srpp c) x (inport c) (outport c) (saw_invite_already c)
    (saw_bye_already c) (sent_invite c) (saw_ack c) (saw_200ok c) (rtp_ports c).
Definition put_inport (x : Z) (c : Call) : Call :=
  mk_call (is_srtp c) (is_srpp c) (is_session_on c) x (outport c) (saw_invite_already c)
    (saw_bye_already c) (sent_invite c) (saw_ack c) (saw_200ok c) (rtp_ports c).
Definition put_outport (x : Z) (c : Call) : Call :=
  mk_call (is_srtp c) (is_srpp c) (is_session_on c) (inport c) x (saw_invite_already c)
    (saw_bye_already c) (sent_invite c) (saw_ack c) (saw_200ok c) (rtp_ports c).
Definition put_saw_invite_already (x : Z) (c : Call) : Call :=
  mk_call (is_srtp c) (is_srpp c) (is_session_on c) (inport c) (outport c) x (saw_bye_already c)
    (sent_invite c) (saw_ack c) (saw_200ok c) (rtp_ports c).
Definition put_saw_bye_already (x : Z) (c : Call) : Call :=
  mk_call (is_srtp c) (is_srpp c) (is_session_on c) (inport c) (outport c) (saw_invite_already
    c) x (sent_invite c) (saw_ack c) (saw_200ok c) (rtp_ports c).
Definition put_sent_invite (x : Z) (c : Call) : Call :=
  mk_call (is_srtp c) (is_srpp c) (is_session_on c) (inport c) (outport c) (saw_invite_already
    c) (saw_bye_already c) x (saw_ack c) (saw_200ok c) (rtp_ports c).
Definition put_saw_ack (x : Z) (c : Call) : Call :=
  mk_call (is_srtp c) (is_srpp c) (is_session_on c) (inport c) (outport c) (saw_invite_already
    c) (saw_bye_already c) (sent_invite c) x (saw_200ok c) (rtp_ports c).
Definition put_saw_200ok (x : Z) (c : Call) : Call :=
  mk_call (is_srtp c) (is_srpp c) (is_session_on c) (inport c) (outport c) (saw_invite_already
    c) (saw_bye_already c) (sent_invite c) (saw_ack c) x (rtp_ports c).
Definition put_rtp_ports (x : list Z) (c : Call) : Call :=
  mk_call (is_srtp c) (is_srpp c) (is_session_on c) (inport c) (outport c) (saw_invite_already
    c) (saw_bye_already c) (sent_invite c) (saw_ack c) (saw_200ok c) x.
Definition put_apply_srpp (x : Z) (m : Media) : Media :=
  mk_media x (recv_count m) (sent_count m) (saved_header m) (rtp_hdset m) (ssrc_value m)
    (input_packet_sizes m) (output_packet_sizes m) (srpp_msg m) (sizes_txt m).
Definition put_recv_count (x : Z) (m : Media) : Media :=
  mk_media (apply_srpp m) x (sent_count m) (saved_header m) (rtp_hdset m) (ssrc_value m)
    (input_packet_sizes m) (output_packet_sizes m) (srpp_msg m) (sizes_txt m).
Definition put_sent_count (x : Z) (m : Media) : Media :=
  mk_media (apply_srpp m) (recv_count m) x (saved_header m) (rtp_hdset m) (ssrc_value m)
    (input_packet_sizes m) (output_packet_sizes m) (srpp_msg m) (sizes_txt m).
Definition put_saved_header (x : list Z) (m : Media) : Media :=
  mk_media (apply_srpp m) (recv_count m) (sent_count m) x (rtp_hdset m) (ssrc_value m)
    (input_packet_sizes m) (output_packet_sizes m) (srpp_msg m) (sizes_txt m).
Definition put_rtp_hdset (x : Z) (m : Media) : Media :=
  mk_media (apply_srpp m) (recv_count m) (sent_count m) (saved_header m) x (ssrc_value m)
    (input_packet_sizes m) (output_packet_sizes m) (srpp_msg m) (sizes_txt m).
Definition put_ssrc_value (x : Z) (m : Media) : Media :=
  mk_media (apply_srpp m) (recv_count m) (sent_count m) (saved_header m) (rtp_hdset m) x
    (input_packet_sizes m) (output_packet_sizes m) (srpp_msg m) (sizes_txt m).
Definition put_input_packet_sizes (x : list Z) (m : Media) : Media :=
  mk_media (apply_srpp m) (recv_count m) (sent_count m) (saved_header m) (rtp_hdset m)
    (ssrc_value m) x (output_packet_sizes m) (srpp_msg m) (sizes_txt m).
Definition put_output_packet_sizes (x : list Z) (m : Media) : Media :=
  mk_media (apply_srpp m) (recv_count m) (sent_count m) (saved_header m) (rtp_hdset m)
    (ssrc_value m) (input_packet_sizes m) x (srpp_msg m) (sizes_txt m).
Definition put_srpp_msg (x : SRPPMessage) (m : Media) : Media :=
  mk_media (apply_srpp m) (recv_count m) (sent_count m) (saved_header m) (rtp_hdset m)
    (ssrc_value m) (input_packet_sizes m) (output_packet_sizes m) x (sizes_txt m).
Definition put_sizes_txt (x : list (Z * Z)) (m : Media) : Media :=
  mk_media (apply_srpp m) (recv_count m) (sent_count m) (saved_header m) (rtp_hdset m)
    (ssrc_value m) (input_packet_sizes m) (output_packet_sizes m) (srpp_msg m) x.
Definition put_out_addr (x : sockaddr) (r : Route) : Route :=
  mk_route x (last_out_dest r) (rtp_dest r) (rtp_src r) (frag_id r) (srpp_ttl r) (srpp_ttl_s r).
Definition put_last_out_dest (x : Z) (r : Route) : Route :=
  mk_route (out_addr r) x (rtp_dest r) (rtp_src r) (frag_id r) (srpp_ttl r) (srpp_ttl_s r).
Definition put_rtp_dest (x : Z) (r : Route) : Route :=
  mk_route (out_addr r) (last_out_dest r) x (rtp_src r) (frag_id r) (srpp_ttl r) (srpp_ttl_s r).
Definition put_rtp_src (x : Z) (r : Route) : Route :=
  mk_route (out_addr r) (last_out_dest r) (rtp_dest r) x (frag_id r) (srpp_ttl r) (srpp_ttl_s
    r).
Definition put_frag_id (x : Z) (r : Route) : Route :=
  mk_route (out_addr r) (last_out_dest r) (rtp_dest r) (rtp_src r) x (srpp_ttl r) (srpp_ttl_s
    r).
Definition put_srpp_ttl (x : Z) (r : Route) : Route :=
  mk_route (out_addr r) (last_out_dest r) (rtp_dest r) (rtp_src r) (frag_id r) x (srpp_ttl_s r).
Definition put_srpp_ttl_s (x : list Z) (r : Route) : Route :=
  mk_route (out_addr r) (last_out_dest r) (rtp_dest r) (rtp_src r) (frag_id r) (srpp_ttl r) x.
Definition put_is_discovering (x : Z) (f : filter) : filter :=
  mk_filter x (is_sip f) (is_rtp f) (is_udp f) (rules f) (call f) (media f) (route f)
    (socket_open f) (raw_sent f) (queue f) (parsed f).
Definition put_is_sip (x : Z) (f : filter) : filter :=
  mk_filter (is_discovering f) x (is_rtp f) (is_udp f) (rules f) (call f) (media f) (route f)
    (socket_open f) (raw_sent f) (queue f) (parsed f).
Definition put_is_rtp (x : Z) (f : filter) : filter :=
  mk_filter (is_discovering f) (is_sip f) x (is_udp f) (rules f) (call f) (media f) (route f)
    (socket_open f) (raw_sent f) (queue f) (parsed f).
Definition put_is_udp (x : Z) (f : filter) : filter :=
  mk_filter (is_discovering f) (is_sip f) (is_rtp f) x (rules f) (call f) (media f) (route f)
    (socket_open f) (raw_sent f) (queue f) (parsed f).
Definition put_rules (x : Rules) (f : filter) : filter :=
  mk_filter (is_discovering f) (is_sip f) (is_rtp f) (is_udp f) x (call f) (media f) (route f)
    (socket_open f) (raw_sent f) (queue f) (parsed f).
Definition put_call (x : Call) (f : filter) : filter :=
  mk_filter (is_discovering f) (is_sip f) (is_rtp f) (is_udp f) (rules f) x (media f) (route f)
    (socket_open f) (raw_sent f) (queue f) (parsed f).
Definition put_media (x : Media) (f : filter) : filter :=
  mk_filter (is_discovering f) (is_sip f) (is_rtp f) (is_udp f) (rules f) (call f) x (route f)
    (socket_open f) (raw_sent f) (queue f) (parsed f).
Definition put_route (x : Route) (f : filter) : filter :=
  mk_filter (is_discovering f) (is_sip f) (is_rtp f) (is_udp f) (rules f) (call f) (media f) x
    (socket_open f) (raw_sent f) (queue f) (parsed f).
Definition put_socket_open (x : bool) (f : filter) : filter :=
  mk_filter (is_discovering f) (is_sip f) (is_rtp f) (is_udp f) (rules f) (call f) (media f)
    (route f) x (raw_sent f) (queue f) (parsed f).
Definition put_raw_sent (x : list (sockaddr * list Z)) (f : filter) : filter :=
  mk_filter (is_discovering f) (is_sip f) (is_rtp f) (is_udp f) (rules f) (call f) (media f)
    (route f) (socket_open f) x (queue f) (parsed f).
Definition put_queue (x : list ipq_read) (f : filter) : filter :=
  mk_filter (is_discovering f) (is_sip f) (is_rtp f) (is_udp f) (rules f) (call f) (media f)
    (route f) (socket_open f) (raw_sent f) x (parsed f).
Definition put_parsed (x : list (list Z * Z)) (f : filter) : filter :=
  mk_filter (is_discovering f) (is_sip f) (is_rtp f) (is_udp f) (rules f) (call f) (media f)
    (route f) (socket_open f) (raw_sent f) (queue f) x.

Definition on_rules (g : Rules → Rules) (f : filter) : filter := put_rules (g (rules f)) f.
Definition on_call (g : Call → Call) (f : filter) : filter := put_call (g (call f)) f.
Definition on_media (g : Media → Media) (f : filter) : filter := put_media (g (media f)) f.
Definition on_route (g : Route → Route) (f : filter) : filter := put_route (g (route f)) f.


(** the initial values of the globals; [m] is the message [SRPPMessage()] makes *)
Definition initial (m : SRPPMessage) : filter :=
  mk_filter 0 0 0 0 (mk_rules 0 0 0 []) (mk_call 0 0 0 0 0 0 0 0 0 0 [5000])
    (mk_media 0 0 0 (replicate 40 0) 0 0 [] [] m [])
    (mk_route (mk_sockaddr 0 0 0) 0 0 0 0 65 []) false [] [] [].

(** ** Sending *)

Definition AF_INET : Z := 2.

(** [sendto] on the raw socket *)
Definition raw_sendto (status : Z) (octets : list Z) (f : filter) : Z * filter :=
  if socket_open f then (status, put_raw_sent (raw_sent f ++ [(out_addr (route f), octets)]) f)
  else (-1, f).

Definition send_raw_message (status : Z) (buff : list Z) (length : Z) (f : filter) : option (Z * filter) :=
  if sin_port (out_addr (route f)) =? 0 then Some (-1, f) else
  if length <=? 0 then Some (-1, f) else
  octets ← read_at buff 0 length;
  Some (raw_sendto status octets f).

Definition set_out_addr (addr port : Z) : filter → filter :=
  on_route (λ r, put_out_addr (put_sin_port port (put_sin_addr addr (out_addr r))) r).

(** the IP and UDP headers of a packet with [length] octets of data; octets of
    [point] that are not written are not sent *)
Definition rtp_packet (f : filter) (data : list Z) (length : Z) : option (list Z) :=
  header ← read_at (saved_header (media f)) 0 28;
  point ← write_at (replicate (Z.to_nat BUFSIZE) 0) 0 header;
  point ← put16 point 20 (bswap16 (u16 (inport (call f))));
  point ← put16 point 22 (bswap16 (u16 (outport (call f))));
  point ← put32 point 16 (rtp_dest (route f));
  point ← put32 point 12 (rtp_src (route f));
  point ← put16 point 24 (bswap16 (u16 (length + 8)));
  point ← put16 point 2 (bswap16 (u16 (length + 28)));
  point ← aset point 8 (u8 (srpp_ttl (route f)));
  write_at point 28 data.

(** the RTP header that was saved, when its version is not zero, goes over the
    first octets; a signalling message keeps its payload type *)
Definition rtp_cover (f : filter) (buff point : list Z) : option (list Z) :=
  b ← aget (saved_header (media f)) 28;
  if (rtp_hdset (media f) =? 2) && negb (Z.shiftr b 6 =? 0) then
    header ← read_at (saved_header (media f)) 28 12;
    point ← write_at point 28 header;
    t ← aget buff 1;
    if t =? 0x7c then aset point 29 t else Some point
  else Some point.

(** the saved header is made ready for the next packet *)
Definition next_header (last ssrc : Z) (header : list Z) : option (list Z) :=
  header ← put16 header 30 (bswap16 (u16 last));
  ts ← get32 header 32;
  header ← put32 header 32 (bswap32 (u32 (bswap32 ts + 20)));
  if negb (ssrc =? 0) then put32 header 36 (bswap32 ssrc) else Some header.

(** [last] is the library's [lastSequenceNo] *)
Definition send_rtp_message (status last : Z) (buff : list Z) (length : Z) (f : filter)
  : option (Z * filter) :=
  if length <=? 0 then Some (-1, f) else
  if rtp_hdset (media f) =? 0 then None else
  data ← read_at buff 0 length;
  point ← rtp_packet f data length;
  point ← rtp_cover f buff point;
  header ← next_header last (ssrc_value (media f)) (saved_header (media f));
  point ← form_checksums point;
  let f := on_media (put_saved_header header) f in
  let f := set_out_addr (rtp_dest (route f)) (bswap16 (u16 (outport (call f)))) f in
  octets ← read_at point 0 (length + 28);
  Some (raw_sendto status octets f).

(** ** The headers of what is sent *)

Lemma next_header_length last ssrc h h' : next_header last ssrc h = Some h' → length h' = length h.
Proof.
  unfold next_header. destruct (put16 h 30 _) as [h1|] eqn:E1; [|done]. rewrite Some_bind.
  destruct (get32 h1 32) as [ts|]; [|done]. rewrite Some_bind.
  destruct (put32 h1 32 _) as [h2|] eqn:E2; [|done]. rewrite Some_bind.
  apply length_write_at in E1, E2. destruct (negb _); [|intros [= <-]; congruence].
  intros E3%length_write_at. congruence.
Qed.

(** the fields [next_header] writes *)
Lemma next_header_fields last ssrc h h' :
  next_header last ssrc h = Some h' →
  (∀ o n, o + n <= 30 → read_at h' o n = read_at h o n) ∧
  (ssrc ≠ 0 → read_at h' 36 4 = Some (le_bytes 4 (bswap32 ssrc))).
Proof.
  unfold next_header, put16, put32. destruct (write_at h 30 _) as [h1|] eqn:E1; [|done]. rewrite Some_bind.
  destruct (get32 h1 32) as [ts|]; [|done]. rewrite Some_bind.
  destruct (write_at h1 32 _) as [h2|] eqn:E2; [|done]. rewrite Some_bind. intros E3.
  assert (∀ o n, o + n <= 30 → read_at h2 o n = read_at h o n) as H12.
  { intros o n Ho. rewrite (read_other _ _ _ _ _ _ E2), (read_other _ _ _ _ _ _ E1); [done|lia..]. }
  destruct (Z.eqb_spec ssrc 0) as [->|Hne]; simpl in E3; [by simplify_eq|]. split.
  - intros o n Ho. rewrite (read_other _ _ _ _ _ _ E3) by lia. by apply H12.
  - intros _. apply (read_same _ _ _ _ _ E3). by rewrite length_le_bytes.
Qed.

(** a saved header that goes onto packets: no IP options, an RTP version *)
Definition header_ready (h : list Z) : Prop :=
  length h = 40%nat ∧ (∃ b, read_at h 0 1 = Some [b] ∧ b & 15 = 5) ∧
  ∃ b, read_at h 28 1 = Some [b] ∧ Z.shiftr b 6 ≠ 0.

Lemma aget_read l i x : read_at l i 1 = Some [x] → aget l i = Some x.
Proof.
  unfold read_at. destruct (_ && _) eqn:Ec; [|done]. change (Z.to_nat 1) with 1%nat.
  destruct (drop (Z.to_nat i) l) as [|y r] eqn:Ed; [done|]. intros [= ->].
  rewrite aget_lookup by lia. by rewrite <-(Nat.add_0_r (Z.to_nat i)), <-lookup_drop, Ed.
Qed.

(** take the writes of a computation apart *)
Ltac writes_in H :=
  repeat match type of H with
  | (write_at ?b ?o ?x ≫= _) = Some _ =>
      let W := fresh "W" in destruct (write_at b o x) eqn:W; [rewrite Some_bind in H|done]
  | (read_at ?b ?o ?n ≫= _) = Some _ =>
      let R := fresh "R" in destruct (read_at b o n) eqn:R; [rewrite Some_bind in H|done]
  end.

(** reads through a write *)
Ltac skip W := rewrite (read_other _ _ _ _ _ _ W) by (rewrite ?length_le_bytes; simpl length; lia).

Lemma read_length b o n y : read_at b o n = Some y → Z.of_nat (length y) = n.
Proof.
  unfold read_at. destruct (_ && _) eqn:Ec; [|done]. intros [= <-]. rewrite length_take, length_drop. lia.
Qed.

Lemma read_read b o n y i k :
  read_at b o n = Some y → 0 <= i → i + k <= n → read_at y i k = read_at b (o + i) k.
Proof.
  intros H Hi Hk. pose proof (read_length _ _ _ _ H) as Hl. revert H. unfold read_at.
  destruct (_ && _) eqn:Ec; [|done]. intros [= <-]. rewrite length_take, length_drop.
  destruct (Z.leb_spec 0 k); [|by rewrite !andb_false_r].
  rewrite !(proj2 (Z.leb_le 0 _)) by lia. rewrite !(proj2 (Z.leb_le (_ + k) _)) by lia. simpl. f_equal.
  rewrite skipn_firstn_comm, take_take, drop_drop. f_equal; [lia|f_equal; lia].
Qed.

Lemma read_start b n y k : read_at b 0 n = Some y → k <= n → read_at y 0 k = read_at b 0 k.
Proof. intros H Hk. exact (read_read b 0 n y 0 k H (Z.le_refl 0) Hk). Qed.

Lemma rtp_packet_first f d n p :
  rtp_packet f d n = Some p → read_at p 0 1 = read_at (saved_header (media f)) 0 1.
Proof.
  unfold rtp_packet, put16, put32. intros H. writes_in H.
  destruct (aset _ _ _) as [q|] eqn:A in H; [rewrite Some_bind in H|done].
  rewrite aset_write in A. skip H. skip A. skip W5. skip W4. skip W3. skip W2. skip W1. skip W0.
  pose proof (read_length _ _ _ _ R) as Hl.
  by rewrite <-(read_start _ _ _ 1 R), <-(read_start _ _ _ 1 (read_same _ _ _ _ _ W eq_refl)) by lia.
Qed.

Lemma rtp_cover_octets f d p q :
  header_ready (saved_header (media f)) → rtp_hdset (media f) = 2 → rtp_cover f d p = Some q →
  read_at q 0 1 = read_at p 0 1 ∧
  ∀ o n, 30 <= o → o + n <= 40 → read_at q o n = read_at (saved_header (media f)) o n.
Proof.
  intros (_ & _ & b & Hb & Hv) Hset. unfold rtp_cover. rewrite (aget_read _ _ _ Hb), Some_bind, Hset.
  rewrite (proj2 (Z.eqb_neq _ 0) Hv). cbn [andb negb Z.eqb Pos.eqb]. intros H. writes_in H.
  destruct (aget d 1) as [t|]; [rewrite Some_bind in H|done].
  pose proof (read_length _ _ _ _ R) as Hl.
  assert (∀ o n, 30 <= o → o + n <= 40 → read_at l0 o n = read_at (saved_header (media f)) o n) as Hr.
  { intros o n Ho Hn. pose proof (read_same _ _ _ _ _ W eq_refl) as Hs.
    replace o with (28 + (o - 28)) by lia. rewrite <-(read_read _ _ _ _ _ _ R), <-(read_read _ _ _ _ _ _ Hs) by lia.
    done. }
  assert (read_at l0 0 1 = read_at p 0 1) as H0 by (apply (read_other _ _ _ _ _ _ W); lia).
  destruct (t =? 0x7c); [|by simplify_eq].
  rewrite aset_write in H. split.
  - by skip H.
  - intros o n Ho Hn. skip H. by apply Hr.
Qed.

Lemma form_checksums_beside p q :
  (∃ b, read_at p 0 1 = Some [b] ∧ b & 15 = 5) → form_checksums p = Some q →
  ∀ o n, 28 <= o → read_at q o n = read_at p o n.
Proof.
  intros (b & Hb & H5) H o n Ho. unfold form_checksums, ihl, put16 in H.
  rewrite (aget_read _ _ _ Hb), !Some_bind, H5 in H. writes_in H.
  destruct (in_cksum _ _) as [c|]; [rewrite Some_bind in H|done]. writes_in H.
  change (4 * 5 + 6) with 26 in H. skip H. skip W0. by skip W.
Qed.

(** the octets of the RTP header that goes out are the saved ones *)
Lemma sent_header st last d f r f' :
  header_ready (saved_header (media f)) → rtp_hdset (media f) = 2 → socket_open f = true → d ≠ [] →
  send_rtp_message st last d (Z.of_nat (length d)) f = Some (r, f') →
  next_header last (ssrc_value (media f)) (saved_header (media f)) = Some (saved_header (media f')) ∧
  rtp_hdset (media f') = 2 ∧ socket_open f' = true ∧ ssrc_value (media f') = ssrc_value (media f) ∧
  ∃ o p, raw_sent f' = raw_sent f ++ [(o, p)] ∧
    ∀ i n, 30 <= i → i + n <= 40 → i + n <= 28 + Z.of_nat (length d) →
      read_at p i n = read_at (saved_header (media f)) i n.
Proof.
  intros Hh Hset Hs Hd. pose proof Hh as (_ & Hb0 & _). unfold send_rtp_message.
  rewrite (proj2 (Z.leb_gt _ 0)) by (destruct d; [done|simpl length; lia]).
  rewrite Hset. change (2 =? 0) with false. cbv iota. intros H. writes_in H.
  destruct (rtp_packet f l (Z.of_nat (length d))) as [p1|] eqn:E1; [rewrite Some_bind in H|done].
  destruct (rtp_cover f d p1) as [p2|] eqn:E2; [rewrite Some_bind in H|done].
  destruct (next_header _ _ _) as [h|] eqn:E3; [rewrite Some_bind in H|done].
  destruct (form_checksums p2) as [p3|] eqn:E4; [rewrite Some_bind in H|done].
  writes_in H. unfold raw_sendto in H. simpl in H. rewrite Hs in H. simplify_eq. simpl.
  destruct (rtp_cover_octets f d p1 p2 Hh Hset E2) as [C1 C2].
  split_and!; try done. eexists _, _. split; [done|]. intros i n Hi Hn Hl.
  rewrite (read_read _ _ _ _ i n R0) by lia. simpl (0 + i).
  rewrite (form_checksums_beside p2 p3) by
    (done || lia || (rewrite C1, (rtp_packet_first _ _ _ _ E1); exact Hb0)).
  by apply C2.
Qed.

(** the SSRC of a stream changes its byte order in the packets the library
    sends through the filter: [ssrc_value] is taken from a packet as it is there,
    in network order, and converted once more, so that from the second packet on,
    signalling messages and dummies have the SSRC of the media packets with its
    octets reversed, and can be told apart from them. *)
Theorem dummy_ssrc_reversed st st' last last' d d' f f1 f2 r r' :
  header_ready (saved_header (media f)) → rtp_hdset (media f) = 2 → socket_open f = true →
  ssrc_value (media f) ≠ 0 → d ≠ [] → (12 <= length d')%nat →
  send_rtp_message st last d (Z.of_nat (length d)) f = Some (r, f1) →
  send_rtp_message st' last' d' (Z.of_nat (length d')) f1 = Some (r', f2) →
  ∃ o p, raw_sent f2 = raw_sent f1 ++ [(o, p)] ∧
    read_at p 36 4 = Some (le_bytes 4 (bswap32 (ssrc_value (media f)))).
Proof.
  intros Hh Hset Hs Hss Hd Hd' H1 H2.
  destruct (sent_header _ _ _ _ _ _ Hh Hset Hs Hd H1) as (N1 & Hset1 & Hs1 & Hss1 & _).
  destruct (next_header_fields _ _ _ _ N1) as [F1 F2].
  assert (header_ready (saved_header (media f1))) as Hh1.
  { destruct Hh as (H40 & H0 & H28). split_and!; [by rewrite (next_header_length _ _ _ _ N1)| |];
      by rewrite F1 by lia. }
  assert (d' ≠ []) as Hn by (intros ->; simpl in Hd'; lia).
  destruct (sent_header _ _ _ _ _ _ Hh1 Hset1 Hs1 Hn H2) as (_ & _ & _ & _ & o & p & Hr & Hp).
  exists o, p. split; [done|]. rewrite Hp by lia. by apply F2.
Qed.

(** a filter that has seen the header of an RTP packet of SSRC [01020304] *)
Definition sample_header : list Z :=
  [0x45; 0; 0; 52; 0; 0; 0; 0; 64; 17; 0; 0; 10; 0; 0; 1; 10; 0; 0; 2] ++
  [0x1f; 0x40; 0x1f; 0x42; 0; 32; 0; 0] ++ [0x80; 0; 0; 1; 0; 0; 0; 160; 1; 2; 3; 4].

Definition sample_filter : filter :=
  put_socket_open true (on_media (λ m, put_rtp_hdset 2 (put_ssrc_value 0x04030201
    (put_saved_header sample_header m))) (initial (new_SRPPMessage 0 0 0 0 0).1)).

Lemma dummy_ssrc_reversed_witness :
  match send_rtp_message 40 1 (replicate 12 0) 12 sample_filter with
  | Some (_, f1) =>
      match send_rtp_message 40 2 (replicate 12 0) 12 f1 with
      | Some (_, f2) => ∃ o p, raw_sent f2 = raw_sent f1 ++ [(o, p)] ∧ read_at p 36 4 = Some [4; 3; 2; 1]
      | None => False
      end
  | None => False
  end.
Proof.
  destruct (send_rtp_message 40 1 _ 12 sample_filter) as [[r f1]|] eqn:E1; [|by vm_compute in E1].
  destruct (send_rtp_message 40 2 _ 12 f1) as [[r' f2]|] eqn:E2.
  - apply (dummy_ssrc_reversed 40 40 1 2 (replicate 12 0) (replicate 12 0) sample_filter f1 f2 r r');
      try done. split_and!; [done| |]; (eexists; split; [done|]); by vm_compute.
  - vm_compute in E1. by simplify_eq.
Defined.
