(* ===== verification/Srpp.v ===== *)
(** * The SRPP library: padding, dummy traffic and conversions

    Models [src/libSRPP/src/Padding_functions.cpp], [Padding_Algorithms.cpp],
    [srpp_timer.cpp] and the packet functions of [SRPP_functions.cpp]:
    creation, padding, masking and transmission of SRPP messages, and their
    conversion from and to RTP.

    The library keeps its state in globals and static members: here it is the
    record [world], threaded through a monad.  What the program does not
    determine is the class [Env]: the time of day, the value of [rand()] after
    a seed, memory the program has not written, and the status the operating
    system or the send functor returns.  Each use of the environment advances
    [clock].

    A run is [Done] with its value and the new state; or it is to [Wait] for a
    datagram that has not arrived; or a [Fault]: an access outside of an object,
    an exception nobody catches, [exit], or a loop that does not end.  The
    library is linked with the packet filter, whose globals are [host]; with
    [send_external] set, datagrams go to the filter's [send_rtp_message].  Signals are delivered
    between operations; [int] counters do not overflow. *)

From Stdlib Require Import SpecFloat.
From S2P Require Import Prelude SrppMessage Discovery FilterState.

(** ** State *)

(** static members of [SRPPTimer] *)
Record SRPPTimer := mk_timer {
  packet_interval : Z; silence_interval : Z;
  packet_counter : Z; silence_counter : Z;
  packet_ON : bool; silence_ON : bool }.

(** globals of Padding_Algorithms.cpp and [PaddingFunctions::dummy_cache];
    [cbp_packet_count] is the counter of one loop and nothing else *)
Record Padding := mk_padding {
  dummy_cache : list SRPPMessage;
  is_full_bandwidth : Z; gradual_ascent_bandwidth : Z; is_burst_padding : Z;
  is_min_bin_padding : Z; is_small_perturbation : Z;
  lastmaxbandwidth : Z }.

(** private members of [SignalingFunctions] *)
Record Signaling := mk_signaling {
  hellosent : Z; hellorecvd : Z; helloacksent : Z; helloackrecvd : Z;
  byesent : Z; byerecvd : Z; byeacksent : Z; byeackrecvd : Z;
  signaling_complete : Z; session_complete : Z }.

(** globals of SRPP_functions.cpp, the session, and the network *)
Record world := mk_world {
  clock : nat;
  lastSequenceNo : Z; rtpSequenceNo : Z; srppssrc : Z; maxpacketsize : Z; packet_to_send : Z;
  padding : Padding;
  srpp_timer : SRPPTimer;
  signaling_functions : Signaling;
  encryption_key : Z; session_maxpacketsize : Z; sender_port : Z;
  srpp_enabled : Z; signaling_by_srpp : Z; nonsrpp_message_count : Z;
  sent : list (list Z);
  inbox : list (list Z);
  send_external : Z;
  host : filter }.

(** setters, for the fields that operations change *)
Definition set_clock (n : nat) (w : world) : world :=
  mk_world n (lastSequenceNo w) (rtpSequenceNo w) (srppssrc w) (maxpacketsize w) (packet_to_send w) (padding w)
    (srpp_timer w) (signaling_functions w) (encryption_key w) (session_maxpacketsize w) (sender_port w)
    (srpp_enabled w) (signaling_by_srpp w) (nonsrpp_message_count w) (sent w) (inbox w)
    (send_external w) (host w).
Definition set_seq (n : Z) (w : world) : world :=
  mk_world (clock w) n (rtpSequenceNo w) (srppssrc w) (maxpacketsize w) (packet_to_send w) (padding w)
    (srpp_timer w) (signaling_functions w) (encryption_key w) (session_maxpacketsize w) (sender_port w)
    (srpp_enabled w) (signaling_by_srpp w) (nonsrpp_message_count w) (sent w) (inbox w)
    (send_external w) (host w).
Definition set_rtp_seq (n : Z) (w : world) : world :=
  mk_world (clock w) (lastSequenceNo w) n (srppssrc w) (maxpacketsize w) (packet_to_send w) (padding w)
    (srpp_timer w) (signaling_functions w) (encryption_key w) (session_maxpacketsize w) (sender_port w)
    (srpp_enabled w) (signaling_by_srpp w) (nonsrpp_message_count w) (sent w) (inbox w)
    (send_external w) (host w).
Definition set_packet_to_send (n : Z) (w : world) : world :=
  mk_world (clock w) (lastSequenceNo w) (rtpSequenceNo w) (srppssrc w) (maxpacketsize w) n (padding w)
    (srpp_timer w) (signaling_functions w) (encryption_key w) (session_maxpacketsize w) (sender_port w)
    (srpp_enabled w) (signaling_by_srpp w) (nonsrpp_message_count w) (sent w) (inbox w)
    (send_external w) (host w).
Definition set_padding (p : Padding) (w : world) : world :=
  mk_world (clock w) (lastSequenceNo w) (rtpSequenceNo w) (srppssrc w) (maxpacketsize w) (packet_to_send w) p
    (srpp_timer w) (signaling_functions w) (encryption_key w) (session_maxpacketsize w) (sender_port w)
    (srpp_enabled w) (signaling_by_srpp w) (nonsrpp_message_count w) (sent w) (inbox w)
    (send_external w) (host w).
Definition set_timer (t : SRPPTimer) (w : world) : world :=
  mk_world (clock w) (lastSequenceNo w) (rtpSequenceNo w) (srppssrc w) (maxpacketsize w) (packet_to_send w)
    (padding w) t (signaling_functions w) (encryption_key w) (session_maxpacketsize w) (sender_port w)
    (srpp_enabled w) (signaling_by_srpp w) (nonsrpp_message_count w) (sent w) (inbox w)
    (send_external w) (host w).
Definition set_sent (s : list (list Z)) (w : world) : world :=
  mk_world (clock w) (lastSequenceNo w) (rtpSequenceNo w) (srppssrc w) (maxpacketsize w) (packet_to_send w)
    (padding w) (srpp_timer w) (signaling_functions w) (encryption_key w)
    (session_maxpacketsize w) (sender_port w) (srpp_enabled w) (signaling_by_srpp w)
    (nonsrpp_message_count w) s (inbox w)
    (send_external w) (host w).

Definition set_host (x : filter) (w : world) : world :=
  mk_world (clock w) (lastSequenceNo w) (rtpSequenceNo w) (srppssrc w) (maxpacketsize w) (packet_to_send w)
    (padding w) (srpp_timer w) (signaling_functions w) (encryption_key w)
    (session_maxpacketsize w) (sender_port w) (srpp_enabled w) (signaling_by_srpp w)
    (nonsrpp_message_count w) (sent w) (inbox w) (send_external w) x.
Definition set_external (x : Z) (w : world) : world :=
  mk_world (clock w) (lastSequenceNo w) (rtpSequenceNo w) (srppssrc w) (maxpacketsize w) (packet_to_send w)
    (padding w) (srpp_timer w) (signaling_functions w) (encryption_key w)
    (session_maxpacketsize w) (sender_port w) (srpp_enabled w) (signaling_by_srpp w)
    (nonsrpp_message_count w) (sent w) (inbox w) x (host w).

Definition set_cache (c : list SRPPMessage) (p : Padding) : Padding :=
  mk_padding c (is_full_bandwidth p) (gradual_ascent_bandwidth p) (is_burst_padding p)
    (is_min_bin_padding p) (is_small_perturbation p) (lastmaxbandwidth p).
Definition set_lastmaxbandwidth (n : Z) (p : Padding) : Padding :=
  mk_padding (dummy_cache p) (is_full_bandwidth p) (gradual_ascent_bandwidth p)
    (is_burst_padding p) (is_min_bin_padding p) (is_small_perturbation p) n.

(** ** Environment and runs *)

Class Env := {
  gettimeofday : nat → Z * Z;
  rand_seeded : Z → Z;            (** [srand(s); rand()] *)
  memory : nat → Z → Z;           (** octets the program has not written *)
  send_status : nat → Z }.

(** [rand()] is between zero and [RAND_MAX], octets are octets *)
Definition env_ok (E : Env) : Prop :=
  (∀ s, 0 <= rand_seeded s < 2 ^ 31) ∧ (∀ n i, is_word 8 (memory n i)).

Inductive run (A : Type) : Type :=
  | Done (a : A) (w : world)
  | Wait (w : world)
  | Fault.
Arguments Done {A} a w.
Arguments Wait {A} w.
Arguments Fault {A}.

Definition M (A : Type) : Type := world → run A.

#[global] Instance M_ret : MRet M := λ A a w, Done a w.
#[global] Instance M_bind : MBind M := λ A B f m w,
  match m w with Done a w' => f a w' | Wait w' => Wait w' | Fault => Fault end.

Definition lift {A} (o : option A) : M A := λ w,
  match o with Some a => Done a w | None => Fault end.
Definition gets {A} (f : world → A) : M A := λ w, Done (f w) w.
Definition modify (f : world → world) : M unit := λ w, Done tt (f w).

(** a loop [for (j = i; j < i + n; j++)] *)
Fixpoint m_for {A} (n : nat) (j : Z) (f : Z → A → M A) (a : A) : M A :=
  match n with
  | O => mret a
  | S n => a' ← f j a; m_for n (j + 1) f a'
  end.

Section Srpp.
Context {E : Env}.

(** use of the environment *)
Definition tick {A} (f : nat → A) : M A := λ w,
  Done (f (clock w)) (set_clock (S (clock w)) w).

(** ** Random numbers, messages *)

Definition srpp_rand (min max : Z) : M Z :=
  if max =? 0 then mret 0 else
  a ← tick gettimeofday;
  mret (Z.rem (rand_seeded (u32 (1000000 * a.1 + a.2))) max + min).

(** [SRPPMessage()] *)
Definition new_message : M SRPPMessage :=
  a ← tick gettimeofday;
  junk ← tick (λ n, le_val (map (memory n) (seqZ 0 4)));
  w ← gets id;
  let '(m, last) := new_SRPPMessage (lastSequenceNo w) (srppssrc w) a.1 a.2 (u32 junk) in
  modify (set_seq last);;
  mret m.

Definition set_payload (p : list Z) (m : SRPPMessage) : SRPPMessage :=
  let e := encrypted_part m in
  mk_msg (srpp_header m)
    (mk_enc p (srpp_padding e) (pad_count e) (dummy_flag e) (original_padding_bit e)
       (original_seq_number e)) (authentication_tag m).
Definition set_pad (p : list Z) (count : Z) (m : SRPPMessage) : SRPPMessage :=
  let e := encrypted_part m in
  mk_msg (srpp_header m)
    (mk_enc (original_payload e) p count (dummy_flag e) (original_padding_bit e)
       (original_seq_number e)) (authentication_tag m).
Definition set_dummy (d : Z) (m : SRPPMessage) : SRPPMessage :=
  let e := encrypted_part m in
  mk_msg (srpp_header m)
    (mk_enc (original_payload e) (srpp_padding e) (pad_count e) d (original_padding_bit e)
       (original_seq_number e)) (authentication_tag m).
Definition set_hseq (n : Z) (m : SRPPMessage) : SRPPMessage :=
  let h := srpp_header m in
  mk_msg (mk_hdr (version h) (hp h) (hx h) (cc h) (hm h) (pt h) n (ts h) (ssrc h) (csrc h)
            (defined_by_profile h) (extension_header h) (srpp_signalling h))
    (encrypted_part m) (authentication_tag m).

Definition create_srpp_message (data : list Z) : M SRPPMessage :=
  m ← new_message;
  mret (match data with [] => m | _ => set_payload data m end).

(** [PaddingFunctions::MAXDUMMYCACHESIZE] *)
Definition MAXDUMMYCACHESIZE : Z := 99.

(** one character of dummy data *)
Definition random_char : M Z :=
  a ← srpp_rand 1 255; b ← srpp_rand 0 65536; mret (u8 (a ^^ b)).

Definition cache_get (i : Z) : M SRPPMessage :=
  p ← gets padding; lift (aget (dummy_cache p) i).
Definition cache_set (i : Z) (m : SRPPMessage) : M unit :=
  p ← gets padding;
  c ← lift (aset (dummy_cache p) i m);
  modify (set_padding (set_cache c p)).

(** [PaddingFunctions()]: fill the dummy cache *)
Definition PaddingFunctions : M unit :=
  m_for (Z.to_nat MAXDUMMYCACHESIZE) 0 (λ i _,
    thisdummy ← new_message;
    size ← gets maxpacketsize;
    thisdummysize ← srpp_rand 1 size;
    payload ← m_for (Z.to_nat thisdummysize) 0 (λ _ p,
      c ← random_char; mret (p ++ [c])) [];
    cache_set i (set_dummy 1 (set_payload payload thisdummy))) tt.

(** ** The dummy cache *)

(** [0.8*n] is converted to an integer: the double is [4*n/5] or a bit more *)
Definition four_fifths (n : nat) : nat := (4 * n / 5)%nat.

Definition generate_dummy_pkt : M SRPPMessage :=
  dummy_index ← srpp_rand 0 MAXDUMMYCACHESIZE;
  m ← cache_get dummy_index;
  last ← gets lastSequenceNo;
  modify (set_seq (last + 1));;
  let m := set_hseq (u16 last) m in
  let payload := original_payload (encrypted_part m) in
  let pad := srpp_padding (encrypted_part m) in
  let m := if (1200 <? length payload + length pad)%nat
           then set_pad (take (four_fifths (length pad)) pad) (pad_count (encrypted_part m))
                  (set_payload (take (four_fifths (length payload)) payload) m)
           else m in
  cache_set dummy_index m;;
  mret m.

(** [vector::erase(begin() + n, end())] *)
Definition erase_from {A} (n : Z) (l : list A) : option (list A) :=
  if (0 <=? n) && (n <=? Z.of_nat (length l)) then Some (take (Z.to_nat n) l) else None.

Definition generate_dummy_pkt_size (size : Z) : M SRPPMessage :=
  dummy_index ← srpp_rand 0 MAXDUMMYCACHESIZE;
  m ← cache_get dummy_index;
  last ← gets lastSequenceNo;
  modify (set_seq (last + 1));;
  let m := set_hseq (u16 last) m in
  let payload := original_payload (encrypted_part m) in
  let pad := srpp_padding (encrypted_part m) in
  let pay_size := Z.of_nat (length payload) in
  m ← (if size <? pay_size then
         p ← lift (erase_from size payload);
         mret (set_pad [] 0 (set_payload p m))
       else if size - pay_size <? Z.of_nat (length pad) then
         q ← lift (erase_from (size - pay_size) pad);
         mret (set_pad q (size - pay_size) m)
       else mret m);
  cache_set dummy_index m;;
  mret m.

(** the loop of [generate_dummy_data]: the octets are those of the vector object
    itself and of what follows it in memory *)
Fixpoint dummy_data_loop (fuel : nat) (dummy_index size : Z) (str : list Z) : M (list Z) :=
  let size_recvd := Z.of_nat (length str) in
  if size_recvd <? size then
    match fuel with
    | O => λ _, Fault
    | S fuel =>
        thisdummy ← cache_get dummy_index;
        let packet_size := Z.of_nat (length (original_payload (encrypted_part thisdummy))) in
        let packet_size := if size - size_recvd <? packet_size then size - size_recvd
                           else packet_size in
        mem ← tick memory;
        dummy_data_loop fuel dummy_index size (str ++ map mem (seqZ 0 packet_size))
    end
  else mret str.

Definition generate_dummy_data (size : Z) : M (list Z) :=
  dummy_index ← srpp_rand 0 MAXDUMMYCACHESIZE;
  new_message;;
  dummy_data_loop (Z.to_nat size) dummy_index size [].

Definition add_to_dummy_cache (m : SRPPMessage) : M unit :=
  dummy_index ← srpp_rand 0 MAXDUMMYCACHESIZE;
  thisdummysize ← srpp_rand 1 500;
  let payload := original_payload (encrypted_part m) in
  payload' ← m_for (length payload) 0 (λ j p,
    c ← lift (aget p j); r ← srpp_rand 0 65536; lift (aset p j (u8 (c ^^ r)))) payload;
  payload' ← m_for (Z.to_nat (thisdummysize - Z.of_nat (length payload)))
    (Z.of_nat (length payload)) (λ _ p, c ← random_char; mret (p ++ [c])) payload';
  cache_set dummy_index (set_dummy 1 (set_payload payload' m)).

(** ** Timers *)

Definition setPacketTimer (n : Z) (t : SRPPTimer) : SRPPTimer :=
  mk_timer n (silence_interval t) (packet_counter t) (silence_counter t) (packet_ON t) (silence_ON t).
Definition setSilenceTimer (n : Z) (t : SRPPTimer) : SRPPTimer :=
  mk_timer (packet_interval t) n (packet_counter t) (silence_counter t) (packet_ON t) (silence_ON t).
Definition start_packet (t : SRPPTimer) : SRPPTimer :=
  mk_timer (packet_interval t) (silence_interval t) (packet_counter t) (silence_counter t) true (silence_ON t).
Definition start_silence (t : SRPPTimer) : SRPPTimer :=
  mk_timer (packet_interval t) (silence_interval t) (packet_counter t) (silence_counter t) (packet_ON t) true.
Definition pause_packet (t : SRPPTimer) : SRPPTimer :=
  mk_timer (packet_interval t) (silence_interval t) (packet_counter t) (silence_counter t) false (silence_ON t).
Definition pause_silence (t : SRPPTimer) : SRPPTimer :=
  mk_timer (packet_interval t) (silence_interval t) (packet_counter t) (silence_counter t) (packet_ON t) false.
Definition reset_packet (t : SRPPTimer) : SRPPTimer :=
  mk_timer (packet_interval t) (silence_interval t) 0 (silence_counter t) (packet_ON t) (silence_ON t).
Definition reset_silence (t : SRPPTimer) : SRPPTimer :=
  mk_timer (packet_interval t) (silence_interval t) (packet_counter t) 0 (packet_ON t) (silence_ON t).
Definition pauseTimer (t : SRPPTimer) : SRPPTimer :=
  mk_timer (packet_interval t) (silence_interval t) (packet_counter t) (silence_counter t) false false.
Definition startTimer (t : SRPPTimer) : SRPPTimer :=
  mk_timer (packet_interval t) (silence_interval t) (packet_counter t) (silence_counter t) true true.

Definition timer_op (f : SRPPTimer → SRPPTimer) : M unit :=
  modify (λ w, set_timer (f (srpp_timer w)) w).
Definition resetPacketTimer : M unit := timer_op reset_packet.
Definition resetSilenceTimer : M unit := timer_op reset_silence.

(** ** Packet size padding *)

(** single precision: conversion from an integer and back, truncating *)
Definition float_of_int (z : Z) : spec_float := binary_normalize 24 128 z 0 false.
Definition int_of_float (f : spec_float) : option Z :=
  match f with
  | S754_zero _ => Some 0
  | S754_finite s m e =>
      let n := if 0 <=? e then Z.shiftl (Zpos m) e else Z.shiftr (Zpos m) (- e) in
      Some (if s then - n else n)
  | _ => None
  end.

(** [(int) (pay_size*(m/l))] *)
Definition scaled_size (pay_size l m : Z) : option Z :=
  int_of_float (SFmul 24 128 (float_of_int pay_size)
                  (SFdiv 24 128 (float_of_int m) (float_of_int l))).

(** the number of octets to add *)
Definition psp_extra_size (pay_size : Z) : M Z :=
  p ← gets padding;
  let extra_size := 1366 - pay_size in
  extra_size ← (if is_full_bandwidth p =? 0 then srpp_rand 1 extra_size else mret extra_size);
  extra_size ← (if gradual_ascent_bandwidth p =? 1 then
      (if lastmaxbandwidth p <? pay_size then
         l ← srpp_rand pay_size 1366;
         m ← srpp_rand l 1366;
         n ← lift (scaled_size pay_size l m);
         modify (λ w, set_padding (set_lastmaxbandwidth n (padding w)) w)
       else mret tt);;
      last ← gets (λ w, lastmaxbandwidth (padding w));
      srpp_rand 1 (last - pay_size)
    else mret extra_size);
  (if (is_small_perturbation p =? 1) || (is_burst_padding p =? 1)
   then srpp_rand 0 10 else mret extra_size).

Definition default_psp_pad_algo (m : SRPPMessage) : M SRPPMessage :=
  extra_size ← psp_extra_size (Z.of_nat (length (original_payload (encrypted_part m))));
  status ← generate_dummy_data extra_size;
  resetPacketTimer;;
  resetSilenceTimer;;
  mret (set_pad status (u32 extra_size) m).

Definition packet_size_padding (m : SRPPMessage) : M SRPPMessage := default_psp_pad_algo m.

Definition pad (m : SRPPMessage) : M SRPPMessage :=
  m ← packet_size_padding m;
  let m := set_dummy 0 m in
  r ← srpp_rand 0 10;
  (if r <=? 5 then add_to_dummy_cache m else mret tt);;
  mret m.

(** the status, -1 for a dummy, and the message *)
Definition unpad (m : SRPPMessage) : Z * SRPPMessage :=
  if dummy_flag (encrypted_part m) =? 1 then (-1, m) else (1, set_pad [] 0 m).

Definition set_options (i : Z) (p : Padding) : Padding :=
  let b k old := if i =? k then 1 else old in
  mk_padding (dummy_cache p) (b 1 (is_full_bandwidth p)) (b 3 (gradual_ascent_bandwidth p))
    (b 2 (is_burst_padding p)) (b 4 (is_min_bin_padding p)) (b 5 (is_small_perturbation p))
    (lastmaxbandwidth p).

(** ** Masking *)

(** [2^15] is an exclusive or: 13 *)
Definition encrypt_srpp (m : SRPPMessage) : M SRPPMessage :=
  val ← srpp_rand 0 (2 ^^ 15);
  let val := val ||| 1 in
  key ← gets encryption_key;
  mret (encrypt key (set_dummy (dummy_flag (encrypted_part m) & val) m)).

Definition decrypt_srpp (m : SRPPMessage) : M SRPPMessage :=
  key ← gets encryption_key;
  let m := decrypt key m in
  mret (set_dummy (dummy_flag (encrypted_part m) & 1) m).

(** ** Transmission *)

(** 1: a signalling message, -1: a media packet, 0: neither *)
Definition isSignalingMessage_hdr (h : SRPPHeader) : Z :=
  if (srpp_signalling h =? 0) && negb (pt h =? 124) then -1
  else if negb (srpp_signalling h =? 0) && (pt h =? 124) then 1 else 0.

Definition isSignalingMessage (m : SRPPMessage) : Z := isSignalingMessage_hdr (srpp_header m).

(** what [srpp_to_network] puts into the unused words of [csrc] *)
Definition csrc_rand (m : SRPPMessage) (i : Z) : Z :=
  rand_seeded (u32 (ts (srpp_header m) + i * 50)).

(** the datagram goes to the session's socket, or to the send functor *)
Definition transmit (out : list Z) : M Z :=
  modify (λ w, set_sent (sent w ++ [out]) w);;
  status ← tick send_status;
  external ← gets send_external;
  if external =? 1 then
    last ← gets lastSequenceNo;
    f ← gets host;
    r ← lift (send_rtp_message status last out (Z.of_nat (length out)) f);
    modify (set_host r.2);;
    mret r.1
  else mret status.

(** [packet_to_send] is set for the time of the transmission only *)
Definition send_message (m : SRPPMessage) : M Z :=
  match original_payload (encrypted_part m) with
  | [] => mret 0
  | _ =>
      let size := (80 + length (original_payload (encrypted_part m)) +
                   length (srpp_padding (encrypted_part m)) + 12)%nat in
      mem ← tick memory;
      let buff := map mem (seqZ 0 (Z.of_nat size)) in
      key ← gets encryption_key;
      let key := if isSignalingMessage m =? 1 then 0 else s32 key in
      out ← lift (srpp_to_network m buff key (csrc_rand m));
      status ← transmit out;
      modify (set_packet_to_send 0);;
      mret status
  end.

(** ** Dummy traffic *)

(** the [while] loop of [default_cbp_pad_algo] *)
Fixpoint cbp_loop (n : nat) : M unit :=
  match n with
  | O => mret tt
  | S n =>
      last ← gets (λ w, lastmaxbandwidth (padding w));
      dummy_size ← srpp_rand 100 last;
      dummy_msg ← generate_dummy_pkt_size dummy_size;
      dummy_msg ← encrypt_srpp dummy_msg;
      pending ← gets packet_to_send;
      (if pending =? 0 then send_message dummy_msg;; mret tt else modify (set_packet_to_send 0));;
      resetPacketTimer;;
      resetSilenceTimer;;
      cbp_loop n
  end.

Definition default_cbp_pad_algo : M unit :=
  p ← gets padding;
  if is_burst_padding p =? 0 then mret tt else
  calculated_burst_dummies ← srpp_rand 0 3;
  cbp_loop (Z.to_nat calculated_burst_dummies);;
  resetPacketTimer.

Definition default_ebp_pad_algo : M unit :=
  p ← gets padding;
  if is_burst_padding p =? 0 then mret tt else
  dummy_size ← srpp_rand 100 (lastmaxbandwidth p);
  dummy_msg ← generate_dummy_pkt_size dummy_size;
  dummy_msg ← encrypt_srpp dummy_msg;
  send_message dummy_msg;;
  mret tt.

Definition current_burst_padding : M unit := default_cbp_pad_algo.
Definition extra_burst_padding : M unit := default_ebp_pad_algo.

Definition pkt_timer_fired : M unit := current_burst_padding;; timer_op reset_packet.
Definition silence_timer_fired : M unit := extra_burst_padding;; timer_op reset_silence.

(** the handler of [SIGALRM], every millisecond *)
Definition timer_fired : M unit :=
  timer_op (λ t, mk_timer (packet_interval t) (silence_interval t) (packet_counter t + 1)
                   (silence_counter t + 1) (packet_ON t) (silence_ON t));;
  t ← gets srpp_timer;
  (if (packet_counter t =? packet_interval t) && packet_ON t then pkt_timer_fired else mret tt);;
  t ← gets srpp_timer;
  (if (silence_counter t =? silence_interval t) && silence_ON t then silence_timer_fired else mret tt).

(** ** RTP *)

Record RTP_Header := mk_rtp {
  r_version : Z; r_p : Z; r_x : Z; r_cc : Z; r_m : Z; r_pt : Z;
  r_seq : Z; r_ts : Z; r_ssrc : Z; r_csrc : list Z }.

Record RTPMessage := mk_rtp_msg { rtp_header : RTP_Header; rtp_payload : list Z }.

Definition MAXPAYLOADSIZE : Z := 1464.

(** [RTPMessage()]: [csrc] and [payload] are not initialised *)
Definition new_rtp_message : M RTPMessage :=
  last ← gets rtpSequenceNo;
  modify (set_rtp_seq (last + 1));;
  mem ← tick memory;
  mret (mk_rtp_msg
    (mk_rtp 2 1 0 15 0 0 (u16 (last + 1)) 0 0
       (map (λ i, le_val (map mem (seqZ (4 * i) 4))) (seqZ 0 15)))
    (map mem (seqZ 60 MAXPAYLOADSIZE))).

Definition create_rtp_message (data : list Z) : M RTPMessage :=
  r ← new_rtp_message;
  payload ← lift (write_at (rtp_payload r) 0 data);
  payload ← lift (aset payload (Z.of_nat (length data)) 0);
  mret (mk_rtp_msg (rtp_header r) payload).

(** the string a [char] array holds; without a NUL the read leaves the array *)
Definition c_string (l : list Z) : option (list Z) :=
  if bool_decide (0 ∈ l) then Some (c_str l) else None.

(** the header of the SRPP message: [conv16], [conv32] and [conv_csrc] are the
    byte order conversions of the two functions *)
Definition srpp_of_rtp (conv16 conv32 conv_csrc : Z → Z) (r : RTP_Header) (seq : Z)
    (m : SRPPMessage) : option SRPPMessage :=
  let h := srpp_header m in let e := encrypted_part m in
  c ← for_range 0 (bswap16 (r_cc r)) (λ i c, v ← aget (r_csrc r) i; aset c i (conv_csrc v)) (csrc h);
  Some (mk_msg
    (mk_hdr (r_version r) (hp h) (r_x r) (r_cc r) (r_m r) (r_pt r) seq (conv32 (r_ts r))
       (conv32 (r_ssrc r)) c (defined_by_profile h) (extension_header h) 0)
    (mk_enc (original_payload e) (srpp_padding e) (pad_count e) 0 (r_p r) (conv16 (r_seq r)))
    (authentication_tag m)).

(** pad, set the pad count, encrypt *)
Definition protect (m : SRPPMessage) : M SRPPMessage :=
  m ← pad m;
  let q := srpp_padding (encrypted_part m) in
  encrypt_srpp (set_pad q (u32 (Z.of_nat (length q))) m).

(** [rtp_to_srpp] of an [RTPMessage] *)
Definition rtp_msg_to_srpp (r : RTPMessage) : M SRPPMessage :=
  data ← lift (c_string (rtp_payload r));
  m ← create_srpp_message data;
  m ← lift (srpp_of_rtp id id id (rtp_header r) (hseq (srpp_header m)) m);
  protect m.

(** [rtp_to_srpp(RTP_Header, char *, int)] *)
Definition rtp_to_srpp (r : RTP_Header) (data : list Z) : M SRPPMessage :=
  m ← create_srpp_message data;
  last ← gets lastSequenceNo;
  m ← lift (srpp_of_rtp bswap16 bswap32 bswap16 r (u16 last) m);
  protect m.

Definition rtp_of_srpp (m : SRPPMessage) (r : RTPMessage) : option RTPMessage :=
  let h := srpp_header m in let e := encrypted_part m in
  c ← for_range 0 (bswap16 (cc h)) (λ i c, v ← aget (csrc h) i; aset c i v) (r_csrc (rtp_header r));
  Some (mk_rtp_msg
    (mk_rtp (version h) (original_padding_bit e) (hx h) (cc h) (hm h) (pt h)
       (original_seq_number e) (ts h) (ssrc h) c) (rtp_payload r)).

(** the RTP message, and the SRPP message, which is decrypted in place *)
Definition srpp_to_rtp (m : SRPPMessage) : M (RTPMessage * SRPPMessage) :=
  m ← decrypt_srpp m;
  let '(status, m) := unpad m in
  r ← create_rtp_message (if status =? -1 then [] else original_payload (encrypted_part m));
  r ← lift (rtp_of_srpp m r);
  mret (r, m).

(** [srpp_to_srtp(SRPPMessage *, char *, int)]: the octets for the buffer, nothing
    for a dummy, and the SRPP message, which is decrypted in place *)
Definition srpp_to_srtp (m : SRPPMessage) (length : Z) : M (option (list Z) * SRPPMessage) :=
  m ← decrypt_srpp m;
  let '(status, m) := unpad m in
  if status =? -1 then mret (None, m) else
  out ← lift (read_at (original_payload (encrypted_part m)) 0 length);
  mret (Some out, m).

(** memory image of an [RTP_Header] *)
Definition rtp_image (r : RTP_Header) : list Z :=
  [r_cc r ||| Z.shiftl (r_x r) 4 ||| Z.shiftl (r_p r) 5 ||| Z.shiftl (r_version r) 6;
   r_pt r ||| Z.shiftl (r_m r) 7] ++
  le_bytes 2 (r_seq r) ++ le_bytes 4 (r_ts r) ++ le_bytes 4 (r_ssrc r) ++
  concat (map (le_bytes 4) (r_csrc r)).

(** [rtp_to_network]: the header, then the payload over its unused words *)
Definition rtp_to_network (r : RTPMessage) (rtp_buff : list Z) (length : Z) : option (list Z) :=
  buf ← write_at rtp_buff 0 (rtp_image (rtp_header r));
  data ← read_at (rtp_payload r) 0 length;
  write_at buf (72 - 4 * (15 - bswap16 (r_cc (rtp_header r)))) data.

(** what the receiving side of the packet filter does with an RTP stream
    ([sqrkal_discovery]): the buffer is the new size and ten octets *)
Definition forward_rtp (m : SRPPMessage) : M (list Z * SRPPMessage) :=
  '(r, m) ← srpp_to_rtp m;
  let new_size := 72 - 4 * (15 - bswap16 (r_cc (rtp_header r))) +
                  Z.of_nat (length (original_payload (encrypted_part m))) in
  mem ← tick memory;
  out ← lift (rtp_to_network r (map mem (seqZ 0 (new_size + 10))) new_size);
  octets ← lift (read_at out 0 new_size);
  mret (octets, m).

End Srpp.

(** ** Reasoning about runs *)

Definition runs {A} (m : M A) (w : world) (Q : A → world → Prop) : Prop :=
  match m w with Done a w' => Q a w' | _ => False end.

Lemma runs_Done {A} (m : M A) w Q : runs m w Q → ∃ a w', m w = Done a w' ∧ Q a w'.
Proof. unfold runs. destruct (m w) as [a w'| |]; [by exists a, w'|done..]. Qed.

Lemma runs_of_Done {A} (m : M A) w a w' (Q : A → world → Prop) : m w = Done a w' → Q a w' → runs m w Q.
Proof. unfold runs. by intros ->. Qed.

Lemma runs_mono {A} (m : M A) w (Q Q' : A → world → Prop) :
  runs m w Q → (∀ a w', Q a w' → Q' a w') → runs m w Q'.
Proof. unfold runs. destruct (m w); auto. Qed.

Lemma run_ret {A} (a : A) w (Q : A → world → Prop) : Q a w → runs (mret a) w Q.
Proof. done. Qed.

Lemma run_bind {A B} (m : M A) (f : A → M B) w Q :
  runs m w (λ a w', runs (f a) w' Q) → runs (m ≫= f) w Q.
Proof. unfold runs, mbind, M_bind. by destruct (m w). Qed.

Lemma run_gets {A} (f : world → A) w (Q : A → world → Prop) : Q (f w) w → runs (gets f) w Q.
Proof. done. Qed.

Lemma run_modify f w (Q : unit → world → Prop) : Q tt (f w) → runs (modify f) w Q.
Proof. done. Qed.

Lemma run_lift {A} (o : option A) a w (Q : A → world → Prop) : o = Some a → Q a w → runs (lift o) w Q.
Proof. intros -> H. exact H. Qed.

(** a loop with an invariant *)
Lemma runs_for {A} (P : Z → A → world → Prop) (f : Z → A → M A) n j a w :
  P j a w →
  (∀ k a w, j <= k < j + Z.of_nat n → P k a w → runs (f k a) w (P (k + 1))) →
  runs (m_for n j f a) w (P (j + Z.of_nat n)).
Proof.
  revert j a w. induction n as [|n IH]; intros j a w H0 Hf; cbn [m_for].
  - apply run_ret. by replace (j + Z.of_nat 0) with j by lia.
  - apply run_bind. eapply runs_mono; [apply (Hf j); [lia|done]|].
    intros a' w' H1. replace (j + Z.of_nat (S n)) with (j + 1 + Z.of_nat n) by lia.
    apply IH; [done|]. intros k b v Hk. apply Hf. lia.
Qed.

(** one step of a run: the head of the program is a bind, a read or a write *)
Ltac mstep :=
  match goal with
  | |- runs (mbind _ _) _ _ => apply run_bind
  | |- runs (gets _) _ _ => apply run_gets
  | |- runs (modify _) _ _ => apply run_modify
  | |- runs (mret _) _ _ => apply run_ret
  | |- runs (timer_op _) _ _ => apply run_modify
  | |- runs resetPacketTimer _ _ => apply run_modify
  | |- runs resetSilenceTimer _ _ => apply run_modify
  end.

(** continue a run with what a lemma says of its first operation *)
Tactic Notation "mcall" uconstr(H) "as" simple_intropattern_list(pat) :=
  eapply runs_mono; [refine H|cbv beta; intros pat].

(** ** What operations leave alone *)

Record same_settings (w w' : world) : Prop := mk_same {
  same_key : encryption_key w' = encryption_key w;
  same_ssrc : srppssrc w' = srppssrc w;
  same_max : maxpacketsize w' = maxpacketsize w;
  same_sent : sent w' = sent w;
  same_external : send_external w' = send_external w;
  same_host : host w' = host w;
  same_full : is_full_bandwidth (padding w') = is_full_bandwidth (padding w);
  same_gradual : gradual_ascent_bandwidth (padding w') = gradual_ascent_bandwidth (padding w);
  same_burst : is_burst_padding (padding w') = is_burst_padding (padding w);
  same_small : is_small_perturbation (padding w') = is_small_perturbation (padding w);
  same_min_bin : is_min_bin_padding (padding w') = is_min_bin_padding (padding w);
  same_last : lastmaxbandwidth (padding w') = lastmaxbandwidth (padding w) }.

#[global] Instance same_settings_refl : Reflexive same_settings.
Proof. intros w. by constructor. Qed.
#[global] Instance same_settings_trans : Transitive same_settings.
Proof. intros w1 w2 w3 [] []. constructor; congruence. Qed.

(** a dummy of the cache: some payload, the dummy flag set *)
Definition dummy_ok (m : SRPPMessage) : Prop :=
  original_payload (encrypted_part m) ≠ [] ∧ dummy_flag (encrypted_part m) = 1.

Definition cache_ok (w : world) : Prop :=
  length (dummy_cache (padding w)) = 100%nat ∧
  ∀ i m, (i < 99)%nat → dummy_cache (padding w) !! i = Some m → dummy_ok m.

(** what changes when only the environment is used *)
Definition only_clock (w w' : world) : Prop := ∃ n, w' = set_clock n w.

#[global] Instance only_clock_refl : Reflexive only_clock.
Proof. intros w. exists (clock w). by destruct w. Qed.
#[global] Instance only_clock_trans : Transitive only_clock.
Proof. intros w1 w2 w3 [n ->] [k ->]. by exists k. Qed.

Lemma only_clock_settings w w' : only_clock w w' → same_settings w w'.
Proof. intros [n ->]. by constructor. Qed.

Lemma only_clock_padding w w' : only_clock w w' → padding w' = padding w.
Proof. by intros [n ->]. Qed.

Lemma only_clock_seq w w' : only_clock w w' → lastSequenceNo w' = lastSequenceNo w.
Proof. by intros [n ->]. Qed.

Section Theory.
Context {E : Env} (Henv : env_ok E).

Lemma tick_runs {A} (f : nat → A) w (Q : A → world → Prop) :
  Q (f (clock w)) (set_clock (S (clock w)) w) → runs (tick f) w Q.
Proof using. done. Qed.

Lemma only_clock_tick w : only_clock w (set_clock (S (clock w)) w).
Proof using. by eexists. Qed.

(** [srpp_rand]: a value of the range, [0] when the range is empty *)
Lemma srpp_rand_runs min max w :
  runs (srpp_rand min max) w (λ r w', only_clock w w' ∧
    (max = 0 → r = 0) ∧ (max ≠ 0 → min <= r < min + Z.abs max)).
Proof using Henv.
  unfold srpp_rand. destruct (Z.eqb_spec max 0) as [->|Hne].
  - apply run_ret. split_and!; [done|done|lia].
  - mstep. apply tick_runs. mstep. split_and!; [apply only_clock_tick|lia|]. intros _.
    set (v := rand_seeded _). pose proof (proj1 Henv (u32 (1000000 * (gettimeofday (clock w)).1 +
      (gettimeofday (clock w)).2))) as Hv. fold v in Hv.
    pose proof (Z.rem_bound_pos (Z.abs v) (Z.abs max) ltac:(lia) ltac:(lia)) as Hb.
    rewrite Z.rem_abs in Hb by lia.
    pose proof (Z.rem_nonneg v max Hne ltac:(lia)). lia.
Qed.

Definition fresh_message (last ssrc : Z) (m : SRPPMessage) : Prop :=
  msg_wf m ∧ cc (srpp_header m) = 0 ∧ hseq (srpp_header m) = u16 (last + 1) ∧
  encrypted_part m = mk_enc [] [] 0 0 0 0.

Lemma new_message_runs w :
  is_word 32 (srppssrc w) →
  runs new_message w (λ m w', only_clock (set_seq (lastSequenceNo w + 1) w) w' ∧
    fresh_message (lastSequenceNo w) (srppssrc w) m).
Proof using.
  intros Hs. unfold new_message. mstep. apply tick_runs. mstep. apply tick_runs.
  mstep. mstep. cbn [new_SRPPMessage]. unfold new_SRPPMessage. cbv beta zeta iota.
  mstep. mstep. mstep. split.
  - eexists. reflexivity.
  - unfold fresh_message. split_and!; [|done..]. unfold msg_wf, header_wf, enc_wf. simpl.
    split_and!; try done; try (by words); by eval_dec.
Qed.

(** ** The dummy cache *)

Lemma cache_get_runs i w :
  cache_ok w → 0 <= i < 99 →
  runs (cache_get i) w (λ m w', w' = w ∧ dummy_ok m ∧
    dummy_cache (padding w) !! Z.to_nat i = Some m).
Proof using.
  intros [Hl Hc] Hi. unfold cache_get. mstep. mstep.
  destruct (proj2 (aget_is_Some (dummy_cache (padding w)) i)) as [m Hm]; [lia|].
  apply (run_lift _ m); [done|]. rewrite aget_lookup in Hm by lia.
  split_and!; [done| |done]. apply (Hc (Z.to_nat i)); [lia|done].
Qed.

(** what changes when an entry of the cache is replaced *)
Definition cache_change (w w' : world) : Prop :=
  same_settings w w' ∧ cache_ok w' ∧ lastSequenceNo w' = lastSequenceNo w ∧
  packet_to_send w' = packet_to_send w ∧ srpp_timer w' = srpp_timer w.

Lemma cache_set_runs i m w :
  cache_ok w → 0 <= i < 99 → dummy_ok m →
  runs (cache_set i m) w (λ _ w', cache_change w w').
Proof using.
  intros [Hl Hc] Hi Hm. unfold cache_set. mstep. mstep. mstep.
  rewrite aset_Some by lia. eapply run_lift; [done|]. mstep. split_and!; [by constructor| |done..].
  split; simpl; [by rewrite length_insert|]. intros j x Hj Hx.
  apply list_lookup_insert_Some in Hx as [(<- & <- & _)|[_ Hx]]; [done|]. by apply (Hc j).
Qed.

Lemma cache_ok_same w w' : padding w' = padding w → cache_ok w → cache_ok w'.
Proof using. unfold cache_ok. by intros ->. Qed.

(** [generate_dummy_data] returns, with the number of octets asked for: no entry
    of the cache is empty, so that every turn of the loop makes progress *)
Definition from_memory (s : list Z) : Prop := Forall (λ c, ∃ n i, c = memory n i) s.

Lemma from_memory_bytes s : from_memory s → is_bytes s.
Proof using Henv. intros H. eapply Forall_impl; [|exact H]. intros c (n & i & ->). apply (proj2 Henv). Qed.

Lemma dummy_data_loop_runs fuel i size str w :
  cache_ok w → 0 <= i < 99 → from_memory str → size <= Z.of_nat (length str) + Z.of_nat fuel →
  Z.of_nat (length str) <= Z.max 0 size →
  runs (dummy_data_loop fuel i size str) w (λ s w', only_clock w w' ∧ from_memory s ∧
    Z.of_nat (length s) = Z.max 0 size).
Proof using Henv.
  intros Hc Hi. revert str w Hc. induction fuel as [|fuel IH]; intros str w Hc Hb Hf Hle; cbn [dummy_data_loop].
  - destruct (Z.ltb_spec (Z.of_nat (length str)) size); [lia|].
    mstep. split_and!; [done|done|lia].
  - destruct (Z.ltb_spec (Z.of_nat (length str)) size); [|mstep; split_and!; [done|done|lia]].
    mstep. mcall (cache_get_runs i w Hc Hi) as m w' (-> & [Hpay _] & _).
    mstep. apply tick_runs. set (mem := memory (clock w)).
    set (n := if _ <? _ then _ else _).
    assert (0 < n <= size - Z.of_nat (length str)) as Hn.
    { unfold n. destruct (original_payload (encrypted_part m)) as [|x l] eqn:El; [done|].
      cbn [length]. destruct (Z.ltb_spec (size - Z.of_nat (length str)) (Z.of_nat (S (length l)))); lia. }
    eapply runs_mono; [apply IH|].
    + by apply (cache_ok_same w).
    + apply Forall_app. split; [done|]. apply Forall_map, Forall_true. intros k. by exists (clock w), k.
    + rewrite length_app, length_map, length_seqZ. lia.
    + rewrite length_app, length_map, length_seqZ. lia.
    + intros s w' (Ho & Hs & Hl). split_and!; [|done..].
      etrans; [apply only_clock_tick|done].
Qed.

Lemma generate_dummy_data_runs size w :
  cache_ok w → is_word 32 (srppssrc w) →
  runs (generate_dummy_data size) w (λ s w',
    only_clock (set_seq (lastSequenceNo w + 1) w) w' ∧ from_memory s ∧
    Z.of_nat (length s) = Z.max 0 size).
Proof using Henv.
  intros Hc Hs. unfold generate_dummy_data. mstep.
  mcall (srpp_rand_runs 0 MAXDUMMYCACHESIZE w) as i w1 ([n1 ->] & _ & Hi).
  unfold MAXDUMMYCACHESIZE in Hi. specialize (Hi ltac:(lia)).
  mstep. mcall (new_message_runs (set_clock n1 w) Hs) as m w2 ([n2 ->] & _).
  eapply runs_mono; [apply dummy_data_loop_runs; [done|lia|constructor|cbn [length]; lia..]|].
  cbv beta. intros s w3 ([n3 ->] & H1 & H2). split_and!; [by eexists|done..].
Qed.

(** ** Adding to the cache *)

Lemma random_char_runs w : runs random_char w (λ c w', only_clock w w' ∧ is_word 8 c).
Proof using Henv.
  unfold random_char. mstep. mcall (srpp_rand_runs 1 255 w) as a w1 (H1 & _).
  mstep. mcall (srpp_rand_runs 0 65536 w1) as b w2 (H2 & _). mstep.
  split; [by etrans|by words].
Qed.

(** characters appended to a string *)
Lemma append_random_runs n j p w :
  runs (m_for n j (λ _ p, c ← random_char; mret (p ++ [c])) p) w
    (λ p' w', only_clock w w' ∧ length p' = (length p + n)%nat ∧ (is_bytes p → is_bytes p')).
Proof using Henv.
  eapply runs_mono; [apply (runs_for (λ k p' w', only_clock w w' ∧
    length p' = (length p + Z.to_nat (k - j))%nat ∧ (is_bytes p → is_bytes p')))|].
  - split_and!; [done|lia|done].
  - intros k a v Hk (H1 & H2 & H3). mstep. mcall (random_char_runs v) as c v' (H4 & H5). mstep.
    split_and!; [by etrans|rewrite length_app; simpl; lia|].
    intros Hb. apply is_bytes_app. split; [by apply H3|]. constructor; [done|constructor].
  - cbv beta. intros a v (H1 & H2 & H3). split_and!; [done|lia|done].
Qed.

Lemma mask_random_runs l w :
  runs (m_for (length l) 0 (λ j p, c ← lift (aget p j); r ← srpp_rand 0 65536;
    lift (aset p j (u8 (c ^^ r)))) l) w
    (λ p w', only_clock w w' ∧ length p = length l).
Proof using Henv.
  eapply runs_mono; [apply (runs_for (λ k p w', only_clock w w' ∧ length p = length l))|].
  - done.
  - intros k a v Hk [H1 H2]. mstep. destruct (proj2 (aget_is_Some a k)) as [x Hx]; [lia|].
    apply (run_lift _ x); [done|]. mstep.
    mcall (srpp_rand_runs 0 65536 v) as b v' (H4 & _).
    rewrite aset_Some by lia. eapply run_lift; [done|]. split; [by etrans|by rewrite length_insert].
  - done.
Qed.

Lemma cache_change_clock w0 w w' : only_clock w0 w → cache_change w w' → cache_change w0 w'.
Proof using.
  intros [n ->] (H1 & H2 & H3 & H4 & H5). split_and!; try done.
  etrans; [|done]. apply only_clock_settings. by eexists.
Qed.

Lemma add_to_dummy_cache_runs m w :
  cache_ok w → runs (add_to_dummy_cache m) w (λ _ w', cache_change w w').
Proof using Henv.
  intros Hc. unfold add_to_dummy_cache. mstep.
  mcall (srpp_rand_runs 0 MAXDUMMYCACHESIZE w) as i w1 (H1 & _ & Hi).
  unfold MAXDUMMYCACHESIZE in Hi. specialize (Hi ltac:(lia)).
  mstep. mcall (srpp_rand_runs 1 500 w1) as n w2 (H2 & _ & Hn). specialize (Hn ltac:(lia)).
  mstep. mcall (mask_random_runs _ w2) as p w3 (H3 & Hp).
  mstep. mcall (append_random_runs _ _ p w3) as q w4 (H4 & Hq & _).
  assert (only_clock w w4) as H by by do 3 (etrans; [done|]).
  eapply runs_mono; [apply cache_set_runs|].
  - apply (cache_ok_same w); [by apply only_clock_padding|done].
  - lia.
  - split; simpl; [|done]. intros ->. simpl in Hq. lia.
  - intros ? w5 H5. by eapply cache_change_clock.
Qed.

(** ** Dummy packets *)

Lemma erase_from_Some {A} n (l : list A) :
  0 <= n <= Z.of_nat (length l) → erase_from n l = Some (take (Z.to_nat n) l).
Proof using. intros Hn. unfold erase_from. by rewrite !(proj2 (Z.leb_le _ _)) by lia. Qed.

(** a dummy packet: the next sequence number, and never more octets than asked *)
Lemma generate_dummy_pkt_size_runs size w :
  cache_ok w → 0 < size →
  runs (generate_dummy_pkt_size size) w (λ m w',
    same_settings w w' ∧ cache_ok w' ∧ lastSequenceNo w' = lastSequenceNo w + 1 ∧
    packet_to_send w' = packet_to_send w ∧ srpp_timer w' = srpp_timer w ∧
    dummy_ok m ∧ hseq (srpp_header m) = u16 (lastSequenceNo w) ∧
    Z.of_nat (length (original_payload (encrypted_part m)) +
              length (srpp_padding (encrypted_part m))) <= size).
Proof using Henv.
  intros Hc Hsize. unfold generate_dummy_pkt_size. mstep.
  mcall (srpp_rand_runs 0 MAXDUMMYCACHESIZE w) as i w1 (H1 & _ & Hi).
  unfold MAXDUMMYCACHESIZE in Hi. specialize (Hi ltac:(lia)). destruct H1 as [n1 ->].
  mstep. mcall (cache_get_runs i (set_clock n1 w) Hc Hi) as m w' (-> & [Hp Hd] & _).
  mstep. mstep. mstep. mstep. cbn [encrypted_part set_hseq].
  set (w2 := set_seq _ _). set (P := original_payload (encrypted_part m)).
  set (Q := srpp_padding (encrypted_part m)). fold P in Hp.
  mstep. apply (runs_mono _ _ (λ m' w', w' = w2 ∧ dummy_ok m' ∧
    hseq (srpp_header m') = u16 (lastSequenceNo w) ∧
    Z.of_nat (length (original_payload (encrypted_part m')) +
              length (srpp_padding (encrypted_part m'))) <= size)).
  - destruct (Z.ltb_spec size (Z.of_nat (length P))) as [Hlt|Hge].
    + mstep. rewrite erase_from_Some by lia. eapply run_lift; [done|]. mstep. simpl.
      split_and!; try done.
      * split; simpl; [|done]. destruct P as [|x P]; [done|].
        destruct (Z.to_nat size) eqn:En; [lia|done].
      * rewrite length_take. lia.
    + destruct (Z.ltb_spec (size - Z.of_nat (length P)) (Z.of_nat (length Q))) as [Hlt|Hge2].
      * mstep. rewrite erase_from_Some by lia. eapply run_lift; [done|]. mstep. simpl.
        split_and!; try done. rewrite length_take. fold P. lia.
      * mstep. simpl. split_and!; try done. fold P Q. lia.
  - cbv beta. intros m' w' (-> & Hok & Hs & Hl). mstep.
    eapply runs_mono; [apply (cache_set_runs i m' w2); done|].
    intros ? w3 (S3 & C3 & L3 & T3 & R3). mstep. split_and!; try done.
    etrans; [|done]. by constructor.
Qed.
(** ** Filling the cache *)

Lemma PaddingFunctions_runs w :
  length (dummy_cache (padding w)) = 100%nat → 0 < maxpacketsize w → is_word 32 (srppssrc w) →
  runs PaddingFunctions w (λ _ w', cache_ok w' ∧ same_settings w w').
Proof using Henv.
  intros Hl Hmax Hss. unfold PaddingFunctions.
  eapply runs_mono; [apply (runs_for (λ k _ w', same_settings w w' ∧
    length (dummy_cache (padding w')) = 100%nat ∧
    ∀ i m, (i < Z.to_nat k)%nat → dummy_cache (padding w') !! i = Some m → dummy_ok m))|].
  - split_and!; [done|done|]. intros i m Hi. lia.
  - intros k _ v Hk (HS & Hlen & Hok). destruct (HS) as [_ Hs2 Hs3 _ _ _ _ _ _].
    mstep. mcall (new_message_runs v ltac:(by rewrite Hs2)) as m v1 ([n1 ->] & _).
    mstep. mstep. mstep. mcall (srpp_rand_runs 1 _ _) as sz v2 ([n2 ->] & _ & Hsz).
    cbn [maxpacketsize set_clock set_seq] in Hsz. specialize (Hsz ltac:(lia)).
    mstep. mcall (append_random_runs _ _ [] _) as p v3 ([n3 ->] & Hp & _).
    unfold cache_set. mstep. mstep. mstep.
    rewrite aset_Some by (simpl; unfold MAXDUMMYCACHESIZE in Hk; lia).
    eapply run_lift; [done|]. mstep. split_and!.
    + etrans; [done|]. by constructor.
    + simpl. by rewrite length_insert.
    + simpl. intros i x Hi Hx.
      apply list_lookup_insert_Some in Hx as [(<- & <- & _)|[Hne Hx]].
      * split; simpl; [|done]. intros ->. simpl in Hp. lia.
      * apply (Hok i); [lia|done].
  - cbv beta. intros _ v (HS & Hlen & Hok). split; [|done]. by split.
Qed.

(** ** Packet size padding *)

(** the number of octets added to a payload of [n] octets: without gradual
    ascent, it depends on the options as follows *)
Definition extra_size_ok (p : Padding) (n extra : Z) : Prop :=
  if (is_small_perturbation p =? 1) || (is_burst_padding p =? 1) then 0 <= extra < 10
  else if is_full_bandwidth p =? 0 then 0 < extra <= 1366 - n
  else extra = 1366 - n.

Lemma psp_extra_size_runs n w :
  gradual_ascent_bandwidth (padding w) = 0 → n < 1366 →
  runs (psp_extra_size n) w (λ x w', only_clock w w' ∧ extra_size_ok (padding w) n x).
Proof using Henv.
  intros Hg Hn. unfold psp_extra_size, extra_size_ok. mstep. mstep. rewrite Hg.
  change (0 =? 1) with false. cbv iota. mstep.
  apply (runs_mono _ _ (λ x w', only_clock w w' ∧
    (if is_full_bandwidth (padding w) =? 0 then 0 < x <= 1366 - n else x = 1366 - n))).
  { destruct (is_full_bandwidth (padding w) =? 0); [|by mstep].
    mcall (srpp_rand_runs 1 (1366 - n) w) as x w' (H1 & _ & H2). split; [done|]. lia. }
  cbv beta. intros x w1 (H1 & H2). mstep. mstep.
  destruct ((is_small_perturbation (padding w) =? 1) || (is_burst_padding (padding w) =? 1)).
  - mcall (srpp_rand_runs 0 10 w1) as y w2 (H3 & _ & H4). split; [by etrans|lia].
  - by mstep.
Qed.

(** the message a padding adds to *)
Definition with_padding (m : SRPPMessage) (s : list Z) : SRPPMessage :=
  set_dummy 0 (set_pad s (Z.of_nat (length s)) m).

Lemma pad_runs m w :
  let n := Z.of_nat (length (original_payload (encrypted_part m))) in
  cache_ok w → is_word 32 (srppssrc w) → gradual_ascent_bandwidth (padding w) = 0 → n < 1366 →
  runs (pad m) w (λ m' w', ∃ s, m' = with_padding m s ∧ from_memory s ∧
    extra_size_ok (padding w) n (Z.of_nat (length s)) ∧
    same_settings w w' ∧ cache_ok w' ∧ lastSequenceNo w' = lastSequenceNo w + 1 ∧
    packet_counter (srpp_timer w') = 0 ∧ silence_counter (srpp_timer w') = 0).
Proof using Henv.
  intros n Hc Hs Hg Hn. unfold pad, packet_size_padding, default_psp_pad_algo. mstep. mstep.
  mcall (psp_extra_size_runs n w Hg Hn) as x w1 ([n1 ->] & Hx).
  mstep. mcall (generate_dummy_data_runs x (set_clock n1 w) Hc Hs) as s w2 ([n2 ->] & Hb & Hl).
  assert (0 <= x <= 1366 \/ n < 0) as Hx0.
  { unfold extra_size_ok in Hx. destruct (_ || _); [lia|]. destruct (_ =? 0); lia. }
  assert (Z.of_nat (length s) = x) as Hlen by lia.
  mstep. mstep. mstep. mstep. mstep. mstep.
  assert (set_dummy 0 (set_pad s (u32 x) m) = with_padding m s) as ->.
  { unfold with_padding. rewrite Hlen. rewrite wrap_small; [done|]. unfold is_word. lia. }
  mcall (srpp_rand_runs 0 10 _) as r w3 ([n3 ->] & _).
  mstep. set (w3 := set_clock n3 _).
  apply (runs_mono _ _ (λ _ w', cache_change w3 w')).
  - destruct (r <=? 5).
    + by apply add_to_dummy_cache_runs.
    + mstep. split_and!; done.
  - cbv beta. intros _ w4 (S4 & C4 & L4 & T4 & R4). mstep. exists s.
    rewrite Hlen, R4. split_and!; try done. etrans; [|done]. by constructor.
Qed.

(** masking before transmission: the flag of a media packet stays zero *)
Lemma encrypt_srpp_runs m w :
  dummy_flag (encrypted_part m) = 0 →
  runs (encrypt_srpp m) w (λ m' w', only_clock w w' ∧ m' = encrypt (encryption_key w) m).
Proof using Henv.
  intros Hd. unfold encrypt_srpp. mstep. mcall (srpp_rand_runs 0 _ w) as v w1 ([n ->] & _).
  mstep. mstep. mstep. rewrite Hd, Z.land_0_l. split; [by eexists|]. simpl. do 2 f_equal.
  destruct m as [h [] t]. simpl in *. by subst.
Qed.

(** ** From RTP to SRPP *)

(** a message ready to be masked: well formed, no contributing sources *)
Definition padded_or_empty (m : SRPPMessage) : Prop :=
  msg_wf m ∧ cc (srpp_header m) = 0 ∧ srpp_signalling (srpp_header m) = 0 ∧
  pad_count (encrypted_part m) = Z.of_nat (length (srpp_padding (encrypted_part m))).

(** what [rtp_to_srpp] makes of a packet before it is masked *)
Definition srpp_of_packet (r : RTP_Header) (data s : list Z) (seq : Z) (m : SRPPMessage) : Prop :=
  padded_or_empty m ∧
  original_payload (encrypted_part m) = data ∧ srpp_padding (encrypted_part m) = s ∧
  dummy_flag (encrypted_part m) = 0 ∧ original_padding_bit (encrypted_part m) = r_p r ∧
  original_seq_number (encrypted_part m) = bswap16 (r_seq r) ∧
  version (srpp_header m) = r_version r ∧ hx (srpp_header m) = r_x r ∧
  hm (srpp_header m) = r_m r ∧ pt (srpp_header m) = r_pt r ∧
  ts (srpp_header m) = bswap32 (r_ts r) ∧ ssrc (srpp_header m) = bswap32 (r_ssrc r) ∧
  hseq (srpp_header m) = seq.

Definition rtp_wf (r : RTP_Header) : Prop :=
  is_word 2 (r_version r) ∧ is_word 1 (r_p r) ∧ is_word 1 (r_x r) ∧ is_word 4 (r_cc r) ∧
  is_word 1 (r_m r) ∧ is_word 7 (r_pt r) ∧ is_word 16 (r_seq r) ∧ is_word 32 (r_ts r) ∧
  is_word 32 (r_ssrc r).

#[global] Instance rtp_wf_dec r : Decision (rtp_wf r).
Proof. unfold rtp_wf. apply _. Defined.

Lemma create_srpp_message_runs data w :
  is_word 32 (srppssrc w) → is_bytes data →
  runs (create_srpp_message data) w (λ m w', only_clock (set_seq (lastSequenceNo w + 1) w) w' ∧
    msg_wf m ∧ cc (srpp_header m) = 0 ∧ encrypted_part m = mk_enc data [] 0 0 0 0 ∧
    hseq (srpp_header m) = u16 (lastSequenceNo w + 1)).
Proof using.
  intros Hs Hb. unfold create_srpp_message. mstep. mcall (new_message_runs w Hs) as m w' (H1 & H2 & H3 & H4 & H5).
  mstep. split; [done|]. destruct data as [|x data]; [done|].
  unfold set_payload. rewrite H5. simpl. split_and!; try done.
  destruct H2 as (Hh & He & Ht). split_and!; try done. simpl. by split_and!; eval_dec || done.
Qed.

Lemma rtp_to_srpp_from r data w :
  let n := Z.of_nat (length data) in
  cache_ok w → is_word 32 (srppssrc w) → gradual_ascent_bandwidth (padding w) = 0 →
  rtp_wf r → r_cc r = 0 → is_bytes data → n < 1366 →
  runs (rtp_to_srpp r data) w (λ m' w', ∃ m s, from_memory s ∧ m' = encrypt (encryption_key w) m ∧
    srpp_of_packet r data s (u16 (lastSequenceNo w + 1)) m ∧
    extra_size_ok (padding w) n (Z.of_nat (length s)) ∧
    same_settings w w' ∧ cache_ok w' ∧ lastSequenceNo w' = lastSequenceNo w + 2 ∧
    packet_counter (srpp_timer w') = 0 ∧ silence_counter (srpp_timer w') = 0).
Proof using Henv.
  intros n Hc Hs Hg (Rv & Rp & Rx & Rc & Rm & Rt & Rs & Rts & Rss) Hcc Hb Hn. unfold rtp_to_srpp. mstep.
  mcall (create_srpp_message_runs data w Hs Hb) as m w1 ([n1 ->] & Hwf & H0 & He & Hq).
  mstep. mstep. mstep. unfold srpp_of_rtp. rewrite Hcc. change (bswap16 0) with 0.
  rewrite for_range_empty by lia. rewrite Some_bind, He. eapply run_lift; [done|].
  cbn [original_payload srpp_padding pad_count lastSequenceNo set_clock set_seq].
  unfold protect. mstep. set (m1 := mk_msg _ _ _).
  mcall (pad_runs m1 (set_clock n1 (set_seq (lastSequenceNo w + 1) w)) Hc Hs Hg Hn) as
    m2 w2 (s & -> & Hsm & Hx & S2 & C2 & L2 & T2 & R2).
  pose proof (from_memory_bytes s Hsm) as Hsb.
  assert (Z.of_nat (length s) <= 1366) as Hs1366.
  { unfold extra_size_ok in Hx. subst n m1. simpl in Hx. destruct (_ || _); [lia|]. destruct (_ =? 0); lia. }
  assert (set_pad s (u32 (Z.of_nat (length s))) (with_padding m1 s) = with_padding m1 s) as EQ.
  { unfold with_padding, set_pad, set_dummy. simpl.
    rewrite (wrap_small 32 (Z.of_nat (length s))); [done|]. unfold is_word. lia. }
  cbn [srpp_padding encrypted_part with_padding set_dummy set_pad]. fold (with_padding m1 s).
  rewrite EQ.
  mcall (encrypt_srpp_runs (with_padding m1 s) w2 eq_refl) as m3 w3 ([n3 ->] & ->).
  exists (with_padding m1 s), s. destruct Hwf as (Hh & _ & Ht).
  destruct Hh as (Hv & Hp & Hx' & Hcw & Hm & Hpt & Hsq & Hts & Hss & Hl & Hw & Hd & Hex & Hg').
  split_and!; try done.
  - rewrite (same_key _ _ S2). done.
  - unfold srpp_of_packet. split_and!; try done. split_and!; try done.
    unfold msg_wf, header_wf, enc_wf. simpl. split_and!; try done; try (by words).
    all: unfold is_word; lia.
  - etrans; [|by apply only_clock_settings; eexists]. etrans; [|done]. by constructor.
  - simpl. rewrite L2. simpl. lia.
Qed.

Lemma rtp_to_srpp_runs r data w :
  let n := Z.of_nat (length data) in
  cache_ok w → is_word 32 (srppssrc w) → gradual_ascent_bandwidth (padding w) = 0 →
  rtp_wf r → r_cc r = 0 → is_bytes data → n < 1366 →
  runs (rtp_to_srpp r data) w (λ m' w', ∃ m s, m' = encrypt (encryption_key w) m ∧
    srpp_of_packet r data s (u16 (lastSequenceNo w + 1)) m ∧
    extra_size_ok (padding w) n (Z.of_nat (length s)) ∧
    same_settings w w' ∧ cache_ok w' ∧ lastSequenceNo w' = lastSequenceNo w + 2 ∧
    packet_counter (srpp_timer w') = 0 ∧ silence_counter (srpp_timer w') = 0).
Proof using Henv.
  intros n Hc Hs Hg Hr Hcc Hb Hn.
  mcall (rtp_to_srpp_from r data w Hc Hs Hg Hr Hcc Hb Hn) as m' w' (m & s & _ & H). by exists m, s.
Qed.

(** ** From SRPP to RTP *)

Lemma mask_no_zero_safe key l :
  is_bytes l → no_zero (mask_bytes key l) → Forall (λ c, c ≠ u8 key) l.
Proof using.
  intros Hl. unfold no_zero, mask_bytes. induction Hl as [|x l Hx _ IH]; [constructor|].
  cbn [map]. intros [H1 H2]%Forall_cons_iff. constructor; [|by apply IH].
  intros Ex. apply H1. by apply mask_zero.
Qed.

Lemma create_rtp_message_runs data w :
  Z.of_nat (length data) < MAXPAYLOADSIZE →
  runs (create_rtp_message data) w (λ r w', only_clock (set_rtp_seq (rtpSequenceNo w + 1) w) w' ∧
    take (length data) (rtp_payload r) = data ∧ rtp_payload r !! length data = Some 0 ∧
    length (rtp_payload r) = 1464%nat ∧ length (r_csrc (rtp_header r)) = 15%nat).
Proof using.
  intros Hl. unfold create_rtp_message, new_rtp_message.
  do 6 mstep. apply tick_runs. mstep.
  set (q := map _ (seqZ 60 _)). assert (length q = 1464%nat) as Hq by (unfold q; by rewrite length_map, length_seqZ).
  unfold MAXPAYLOADSIZE in Hl. cbn [rtp_payload rtp_header].
  mstep. eapply run_lift; [apply (write_next [] q data); [done|lia]|]. rewrite app_nil_l.
  mstep. rewrite aset_Some by (rewrite length_app, length_drop; lia).
  eapply run_lift; [done|]. mstep. split; [by eexists|]. cbn [rtp_payload rtp_header r_csrc].
  rewrite Nat2Z.id, insert_app_r_alt, Nat.sub_diag by lia.
  destruct (drop (length data) q) as [|x t] eqn:Ed.
  { apply (f_equal length) in Ed. rewrite length_drop in Ed. simpl in Ed. lia. }
  split_and!.
  - by rewrite take_app_length.
  - rewrite lookup_app_r, Nat.sub_diag by lia. done.
  - apply (f_equal length) in Ed. rewrite length_drop in Ed. rewrite length_app. simpl in *. lia.
  - by rewrite length_map, length_seqZ.
Qed.

(** the header a receiver reconstructs *)
Definition rtp_of_header (r : RTP_Header) (c : list Z) : RTP_Header :=
  mk_rtp (r_version r) (r_p r) (r_x r) 0 (r_m r) (r_pt r) (bswap16 (r_seq r)) (bswap32 (r_ts r))
    (bswap32 (r_ssrc r)) c.

Lemma srpp_to_rtp_runs m v :
  let e := encrypted_part (decrypt (encryption_key v) m) in
  cc (srpp_header m) = 0 → dummy_flag e = 0 → Z.of_nat (length (original_payload e)) < MAXPAYLOADSIZE →
  runs (srpp_to_rtp m) v (λ rm v',
    let r := rm.1 in
    take (length (original_payload e)) (rtp_payload r) = original_payload e ∧
    rtp_payload r !! length (original_payload e) = Some 0 ∧
    length (rtp_payload r) = 1464%nat ∧
    original_payload (encrypted_part rm.2) = original_payload e ∧
    ∃ c, length c = 15%nat ∧ rtp_header r =
      mk_rtp (version (srpp_header m)) (original_padding_bit e) (hx (srpp_header m)) 0
        (hm (srpp_header m)) (pt (srpp_header m)) (original_seq_number e) (ts (srpp_header m))
        (ssrc (srpp_header m)) c).
Proof using.
  intros e Hc Hd Hl. unfold srpp_to_rtp, decrypt_srpp. mstep. mstep. mstep. mstep.
  set (m1 := decrypt _ m) in *. unfold unpad.
  cbn [encrypted_part set_dummy dummy_flag]. fold e. rewrite Hd, Z.land_0_l.
  change (0 =? 1) with false. cbv iota. change (1 =? -1) with false. cbv iota.
  cbn [encrypted_part set_dummy set_pad original_payload]. fold e.
  mstep. mcall (create_rtp_message_runs _ v Hl) as r v1 ([n1 ->] & H1 & H2 & H3 & H4).
  mstep. unfold rtp_of_srpp. cbn [srpp_header set_dummy set_pad m1 decrypt encrypted_part original_padding_bit original_seq_number].
  rewrite Hc. change (bswap16 0) with 0. rewrite for_range_empty by lia. rewrite Some_bind.
  eapply run_lift; [done|]. mstep. cbn [fst snd rtp_payload rtp_header]. split_and!; try done.
  eexists. split; [|done]. done.
Qed.

(** ** Dummies are recognised *)

Lemma dummy_masked m w :
  dummy_flag (encrypted_part m) = 1 →
  runs (m ← encrypt_srpp m; decrypt_srpp m) w (λ m' w', only_clock w w' ∧
    (unpad m').1 = -1).
Proof using Henv.
  intros Hd. mstep. unfold encrypt_srpp. mstep.
  mcall (srpp_rand_runs 0 _ w) as v w1 ([n ->] & _ & Hv).
  mstep. mstep. mstep. unfold decrypt_srpp. mstep. mstep. mstep. split; [by eexists|].
  cbn [encrypted_part decrypt encrypt decrypt_part encrypt_part set_dummy dummy_flag encryption_key set_clock].
  unfold unpad. cbn [encrypted_part set_dummy dummy_flag]. rewrite Hd, wrap_lxor by lia.
  assert ((1 & (v ||| 1)) = 1) as ->.
  { apply Z.bits_inj'. intros k Hk. rewrite Z.land_spec, Z.lor_spec, testbit_one.
    destruct (k =? 0); [|done]. by rewrite orb_true_r. }
  done.
Qed.

End Theory.

(** ** Properties *)

(** [rtp_to_srpp] returns for every RTP packet with fewer than 1366 octets
    of payload and no contributing sources: the message is the mask of one that
    has the packet's payload and header fields, the next sequence number, and
    as many octets of padding as the options ask for; the dummy cache stays
    usable, so that the next packet is padded too. *)
Theorem rtp_to_srpp_ok {E : Env} r data w :
  env_ok E → cache_ok w → is_word 32 (srppssrc w) → gradual_ascent_bandwidth (padding w) = 0 →
  rtp_wf r → r_cc r = 0 → is_bytes data → Z.of_nat (length data) < 1366 →
  ∃ m s w', rtp_to_srpp r data w = Done (encrypt (encryption_key w) m) w' ∧
    srpp_of_packet r data s (u16 (lastSequenceNo w + 1)) m ∧
    extra_size_ok (padding w) (Z.of_nat (length data)) (Z.of_nat (length s)) ∧
    cache_ok w' ∧ same_settings w w' ∧ lastSequenceNo w' = lastSequenceNo w + 2 ∧
    packet_counter (srpp_timer w') = 0 ∧ silence_counter (srpp_timer w') = 0.
Proof.
  intros Henv Hc Hs Hg Hr Hcc Hb Hn.
  destruct (runs_Done _ _ _ (rtp_to_srpp_runs Henv r data w Hc Hs Hg Hr Hcc Hb Hn))
    as (m' & w' & Hrun & m & s & -> & Hm & Hx & HS & HC & HL & HT).
  by exists m, s, w'.
Qed.

(** a host: the time is the number of the call, [rand()] the seed modulo 1000,
    unwritten memory all sevens *)
Definition sample_env : Env := {|
  gettimeofday n := (0, Z.of_nat n);
  rand_seeded s := s mod 1000;
  memory _ _ := 7;
  send_status _ := 0 |}.

Lemma sample_env_ok : env_ok sample_env.
Proof. split; simpl; [intros s; pose proof (Z.mod_pos_bound s 1000); lia|done]. Qed.

Definition sample_dummy : SRPPMessage := mk_msg sample_hdr (mk_enc [5; 6; 7] [] 0 1 0 0) 0.

Definition sample_world (full burst key : Z) : world :=
  mk_world 0 10000 0 19 1464 0
    (mk_padding (replicate 100 sample_dummy) full 0 burst 0 0 100)
    (mk_timer 300 400 17 18 true true) (mk_signaling 0 0 0 0 0 0 0 0 1 0)
    key 1464 9000 1 1 0 [] [] 0 (initial sample_dummy).

Lemma sample_cache_ok full burst key : cache_ok (sample_world full burst key).
Proof.
  split; [done|]. intros i m _ Hm. cbn [padding sample_world dummy_cache] in Hm.
  apply lookup_replicate in Hm as [-> _]. done.
Qed.

(** a packet as it is in memory: the fields are in network order *)
Definition sample_rtp : RTP_Header :=
  mk_rtp 2 0 0 0 1 8 (bswap16 513) (bswap32 4096) (bswap32 77) (replicate 15 0).

Lemma rtp_to_srpp_ok_witness :
  let w := sample_world 0 0 1655 in
  ∃ m s w', @rtp_to_srpp sample_env sample_rtp [1; 2; 3] w = Done (encrypt 1655 m) w' ∧
    srpp_of_packet sample_rtp [1; 2; 3] s (u16 10001) m ∧
    extra_size_ok (padding w) 3 (Z.of_nat (length s)) ∧
    cache_ok w' ∧ same_settings w w' ∧ lastSequenceNo w' = 10002 ∧
    packet_counter (srpp_timer w') = 0 ∧ silence_counter (srpp_timer w') = 0.
Proof.
  apply (@rtp_to_srpp_ok sample_env sample_rtp [1; 2; 3] (sample_world 0 0 1655));
    [apply sample_env_ok|apply sample_cache_ok|eval_dec|reflexivity|eval_dec|reflexivity|eval_dec|].
  simpl. lia.
Defined.

(** with full bandwidth padding every packet has the same size on the
    wire, 1458 octets, whatever its payload. *)
Theorem full_bandwidth_uniform {E : Env} r data w :
  env_ok E → cache_ok w → is_word 32 (srppssrc w) → gradual_ascent_bandwidth (padding w) = 0 →
  is_full_bandwidth (padding w) = 1 → is_small_perturbation (padding w) = 0 →
  is_burst_padding (padding w) = 0 →
  rtp_wf r → r_cc r = 0 → is_bytes data → Z.of_nat (length data) < 1366 →
  ∃ m w', rtp_to_srpp r data w = Done m w' ∧
    sizeof_SRPPHeader + Z.of_nat (length (original_payload (encrypted_part m))) +
      Z.of_nat (length (srpp_padding (encrypted_part m))) + 12 = 1458.
Proof.
  intros Henv Hc Hs Hg Hf Hsm Hbu Hr Hcc Hb Hn.
  destruct (runs_Done _ _ _ (rtp_to_srpp_runs Henv r data w Hc Hs Hg Hr Hcc Hb Hn))
    as (m' & w' & Hrun & m & s & -> & (_ & Hp & Hq & _) & Hx & _).
  eexists _, w'. split; [exact Hrun|]. simpl. rewrite !length_mask_bytes, Hp, Hq.
  unfold extra_size_ok in Hx. rewrite Hf, Hsm, Hbu in Hx. simpl in Hx. unfold sizeof_SRPPHeader. lia.
Qed.

Lemma full_bandwidth_uniform_witness :
  ∃ m w', @rtp_to_srpp sample_env sample_rtp [1; 2; 3] (sample_world 1 0 1655) = Done m w' ∧
    sizeof_SRPPHeader + Z.of_nat (length (original_payload (encrypted_part m))) +
      Z.of_nat (length (srpp_padding (encrypted_part m))) + 12 = 1458.
Proof.
  apply (@full_bandwidth_uniform sample_env sample_rtp [1; 2; 3] (sample_world 1 0 1655));
    [apply sample_env_ok|apply sample_cache_ok|eval_dec|reflexivity|reflexivity|reflexivity|reflexivity|
     eval_dec|reflexivity|eval_dec|].
  simpl. lia.
Defined.

Lemma packet_padded r data s seq m p :
  srpp_of_packet r data s seq m → is_small_perturbation p = 0 → is_burst_padding p = 0 →
  Z.of_nat (length data) < 1366 →
  extra_size_ok p (Z.of_nat (length data)) (Z.of_nat (length s)) → padded m.
Proof.
  intros ((Hwf & Hcc & Hsig & Hpc) & Hp & Hq & _) Hs Hb Hn Hx.
  unfold extra_size_ok in Hx. rewrite Hs, Hb in Hx. simpl in Hx. rewrite Hq in Hpc.
  assert (0 < Z.of_nat (length s) <= 1500) by (destruct (_ =? 0); lia).
  split_and!; try done; [by rewrite Hq|lia..].
Qed.

(** C9: end to end: an RTP packet of fewer than 1366 octets without contributing sources
    that one endpoint converts, masks and puts on the wire comes out of the other
    endpoint, which has the same positive key, with its payload (closed by a NUL) and its
    header fields as [srpp_to_rtp] leaves them, in host byte order, and without the csrc
    words.  Gradual ascent, burst padding and small perturbation must be off (with one
    of the latter two the packet may go out without padding, which spoils the payload),
    and no masked octet may be NUL, since the copy stops there. *)
Theorem rtp_end_to_end {E : Env} r data w v buff m0 :
  env_ok E → cache_ok w → is_word 32 (srppssrc w) → gradual_ascent_bandwidth (padding w) = 0 →
  is_small_perturbation (padding w) = 0 → is_burst_padding (padding w) = 0 →
  rtp_wf r → r_cc r = 0 → is_bytes data → Z.of_nat (length data) < 1366 →
  0 < encryption_key w < 2 ^ 31 → encryption_key v = encryption_key w →
  ∃ m w', rtp_to_srpp r data w = Done m w' ∧
    (no_zero (original_payload (encrypted_part m)) → no_zero (srpp_padding (encrypted_part m)) →
     length buff = (92 + length (original_payload (encrypted_part m)) +
                    length (srpp_padding (encrypted_part m)))%nat →
     ∃ wire m1 rm v' c, srpp_to_network m buff (encryption_key w) (csrc_rand m) = Some wire ∧
       network_to_srpp m0 wire (Z.of_nat (length wire)) (encryption_key v) = Some (0, m1) ∧
       srpp_to_rtp m1 v = Done rm v' ∧
       take (length data) (rtp_payload rm.1) = data ∧
       rtp_payload rm.1 !! length data = Some 0 ∧
       length c = 15%nat ∧ rtp_header rm.1 = rtp_of_header r c).
Proof.
  intros Henv Hc Hs Hg Hsm Hbu Hr Hcc Hb Hn Hk Hkv.
  destruct (runs_Done _ _ _ (rtp_to_srpp_runs Henv r data w Hc Hs Hg Hr Hcc Hb Hn))
    as (m' & w' & Hrun & m & s & -> & Hm & Hx & _).
  pose proof (packet_padded _ _ _ _ _ _ Hm Hsm Hbu Hn Hx) as Hpad.
  exists (encrypt (encryption_key w) m), w'. split; [exact Hrun|]. intros Hz1 Hz2 Hbuf.
  destruct Hm as (((Hh & He & Ht) & Hcc' & Hsig & Hpc) & Hp & Hq & Hd & Ho & Hsn & Hv & Hx' & Hm & Hpt & Hts & Hss & _).
  pose proof He as (Hb1 & Hb2 & _).
  simpl in Hz1, Hz2, Hbuf. rewrite !length_mask_bytes in Hbuf.
  destruct (send_receive m m0 buff (encryption_key w) (csrc_rand (encrypt (encryption_key w) m)) Hpad) as
    (c & W & Hlc & E1 & HL & E2); [by split; apply mask_no_zero_safe|done|done|].
  pose proof (decrypt_encrypt_part (encryption_key w) _ He) as Hde.
  set (m1 := received (encrypt (encryption_key w) m) m0 c _ _) in *.
  assert (decrypt_part (encryption_key w) (encrypted_part m1) =
    mk_enc data (mask_bytes (encryption_key w) (srpp_padding (encrypted_part m0)))
      (pad_count (encrypted_part m)) 0 (r_p r) (bswap16 (r_seq r))) as Hdp.
  { rewrite <-Hp, <-Hd, <-Ho, <-Hsn. unfold m1, received, decrypt_part in *. simpl in *.
    destruct (encrypted_part m). simpl in *. injection Hde as I1 _ I2 I3 I4 I5.
    by rewrite I1, I2, I3, I4, I5. }
  assert (encrypted_part (decrypt (encryption_key v) m1) =
    mk_enc data (mask_bytes (encryption_key w) (srpp_padding (encrypted_part m0)))
      (pad_count (encrypted_part m)) 0 (r_p r) (bswap16 (r_seq r))) as Hde1
    by by rewrite Hkv.
  destruct (runs_Done _ _ _ (srpp_to_rtp_runs m1 v Hcc' ltac:(by rewrite Hde1)
    ltac:(rewrite Hde1; simpl; unfold MAXPAYLOADSIZE; lia))) as (rm & v' & Erm & R1 & R2 & R3 & _ & c' & Hc' & R4).
  rewrite Hde1 in R1, R2, R4. simpl in R1, R2, R4.
  exists W, m1, rm, v', c'. rewrite Hkv. split_and!; try done.
  rewrite R4. unfold rtp_of_header. by rewrite Hv, Hx', Hm, Hpt, Hts, Hss.
Qed.

(** the sample packet gets three octets of padding, and no octet is masked to NUL *)
Lemma sample_packet_safe m w' :
  @rtp_to_srpp sample_env sample_rtp [1; 2; 3] (sample_world 0 0 1655) = Done m w' →
  no_zero (original_payload (encrypted_part m)) ∧ no_zero (srpp_padding (encrypted_part m)) ∧
  98%nat = (92 + length (original_payload (encrypted_part m)) +
            length (srpp_padding (encrypted_part m)))%nat.
Proof.
  intros Hrun.
  assert (match @rtp_to_srpp sample_env sample_rtp [1; 2; 3] (sample_world 0 0 1655) with
          | Done m _ => bool_decide (no_zero (original_payload (encrypted_part m)) ∧
              no_zero (srpp_padding (encrypted_part m)) ∧
              98%nat = (92 + length (original_payload (encrypted_part m)) +
                length (srpp_padding (encrypted_part m)))%nat)
          | _ => false end = true) as H by (vm_compute; reflexivity).
  rewrite Hrun in H. by apply bool_decide_eq_true in H.
Qed.

Lemma rtp_end_to_end_witness :
  let w := sample_world 0 0 1655 in
  ∃ m wire m1 rm v' c,
    srpp_to_network m (replicate 98 0) 1655 (@csrc_rand sample_env m) = Some wire ∧
    network_to_srpp sample_msg wire (Z.of_nat (length wire)) 1655 = Some (0, m1) ∧
    @srpp_to_rtp sample_env m1 w = Done rm v' ∧
    take 3 (rtp_payload rm.1) = [1; 2; 3] ∧ rtp_payload rm.1 !! 3%nat = Some 0 ∧
    length c = 15%nat ∧ rtp_header rm.1 = rtp_of_header sample_rtp c.
Proof.
  destruct (@rtp_end_to_end sample_env sample_rtp [1; 2; 3] (sample_world 0 0 1655)
    (sample_world 0 0 1655) (replicate 98 0) sample_msg sample_env_ok (sample_cache_ok _ _ _)
    ltac:(eval_dec) eq_refl eq_refl eq_refl ltac:(eval_dec) eq_refl ltac:(eval_dec)
    ltac:(simpl; lia) ltac:(simpl; lia) eq_refl) as (m & w' & Hrun & H).
  destruct (sample_packet_safe m w' Hrun) as (H1 & H2 & H3).
  destruct (H H1 H2 H3) as (W & m1 & rm & v' & c & H4).
  exists m, W, m1, rm, v', c. exact H4.
Defined.

(** a dummy is a dummy: what [generate_dummy_pkt] takes from the cache is no
    longer than asked for, and after masking and unmasking the receiver's
    [unpad] discards it. *)
Theorem dummy_discarded {E : Env} size w :
  env_ok E → cache_ok w → 0 < size →
  ∃ m m' w1 w2, generate_dummy_pkt_size size w = Done m w1 ∧
    Z.of_nat (length (original_payload (encrypted_part m)) +
              length (srpp_padding (encrypted_part m))) <= size ∧
    original_payload (encrypted_part m) ≠ [] ∧ cache_ok w1 ∧
    (m' ← encrypt_srpp m; decrypt_srpp m') w1 = Done m' w2 ∧ (unpad m').1 = -1.
Proof.
  intros Henv Hc Hs.
  destruct (runs_Done _ _ _ (generate_dummy_pkt_size_runs Henv size w Hc Hs))
    as (m & w1 & E1 & _ & C1 & _ & _ & _ & [Hp Hd] & _ & Hl).
  destruct (runs_Done _ _ _ (dummy_masked Henv m w1 Hd)) as (m' & w2 & E2 & _ & Hu).
  by exists m, m', w1, w2.
Qed.

Lemma dummy_discarded_witness :
  ∃ m m' w1 w2, @generate_dummy_pkt_size sample_env 2 (sample_world 0 1 1655) = Done m w1 ∧
    Z.of_nat (length (original_payload (encrypted_part m)) +
              length (srpp_padding (encrypted_part m))) <= 2 ∧
    original_payload (encrypted_part m) ≠ [] ∧ cache_ok w1 ∧
    (m' ← @encrypt_srpp sample_env m; decrypt_srpp m') w1 = Done m' w2 ∧ (unpad m').1 = -1.
Proof.
  apply (@dummy_discarded sample_env 2 (sample_world 0 1 1655));
    [apply sample_env_ok|apply sample_cache_ok|lia].
Defined.

(** ** Sequence numbers *)

(** what an endpoint sends: packets and dummies, in any order *)
Inductive outgoing := Packet (r : RTP_Header) (data : list Z) | Dummy (size : Z).



Definition outgoing_ok (o : outgoing) : Prop :=
  match o with
  | Packet r data => rtp_wf r ∧ r_cc r = 0 ∧ is_bytes data ∧ Z.of_nat (length data) < 1366
  | Dummy size => 0 < size
  end.

#[global] Instance outgoing_ok_dec o : Decision (outgoing_ok o).
Proof. destruct o; simpl; apply _. Defined.







(** ** Timers *)

Fixpoint ticks {E : Env} (n : nat) : M unit :=
  match n with O => mret tt | S n => timer_fired;; ticks n end.

(** a timer whose counter passed its interval while it was off never fires
    when it is started, since the handler compares for equality and [start]
    does not reset the counter: no number of ticks sends a dummy. *)
Theorem timer_late_start {E : Env} n w :
  let t := srpp_timer w in
  packet_interval t <= packet_counter t → silence_interval t <= silence_counter t →
  ∃ w', (timer_op (λ t, start_silence (start_packet t));; ticks n) w = Done tt w' ∧
    sent w' = sent w ∧ packet_counter (srpp_timer w') = packet_counter t + Z.of_nat n ∧
    silence_counter (srpp_timer w') = silence_counter t + Z.of_nat n.
Proof.
  intros t Hp Hs.
  assert (∀ v, packet_interval (srpp_timer v) <= packet_counter (srpp_timer v) →
    silence_interval (srpp_timer v) <= silence_counter (srpp_timer v) →
    runs (ticks n) v (λ _ v', sent v' = sent v ∧
      packet_counter (srpp_timer v') = packet_counter (srpp_timer v) + Z.of_nat n ∧
      silence_counter (srpp_timer v') = silence_counter (srpp_timer v) + Z.of_nat n)) as H.
  { induction n as [|n IH]; intros v Hv1 Hv2; cbn [ticks].
    - mstep. split_and!; [done|lia|lia].
    - mstep. unfold timer_fired. do 4 mstep. cbn [srpp_timer set_timer packet_counter packet_interval].
      rewrite (proj2 (Z.eqb_neq _ _)) by lia. cbn [andb]. mstep. mstep. mstep. mstep.
      cbn [srpp_timer set_timer silence_counter silence_interval].
      rewrite (proj2 (Z.eqb_neq _ _)) by lia. cbn [andb]. mstep.
      eapply runs_mono; [apply IH; simpl; lia|]. simpl. intros _ v' (H1 & H2 & H3).
      split_and!; [done|lia|lia]. }
  destruct (runs_Done _ _ _ (H (set_timer (start_silence (start_packet t)) w) Hp Hs))
    as ([] & w' & E1 & H1 & H2 & H3).
  by exists w'.
Qed.

Lemma timer_late_start_witness :
  let w := set_timer (mk_timer 300 400 2000 2000 false false) (sample_world 0 1 1655) in
  ∃ w', (timer_op (λ t, start_silence (start_packet t));; @ticks sample_env 5000) w = Done tt w' ∧
    sent w' = [] ∧ packet_counter (srpp_timer w') = 2000 + Z.of_nat 5000 ∧
    silence_counter (srpp_timer w') = 2000 + Z.of_nat 5000.
Proof.
  apply (@timer_late_start sample_env 5000
    (set_timer (mk_timer 300 400 2000 2000 false false) (sample_world 0 1 1655))); simpl; lia.
Defined.

(** ** Forwarding to the application *)

(** the receiving side hands [rtp_to_network] a buffer of the new size and
    ten octets and the whole new size as the length of the payload: behind the
    twelve octets of the header, the copy always runs past the end of the
    buffer. *)
Theorem forward_rtp_overruns (r : RTPMessage) buff (size : Z) :
  r_cc (rtp_header r) = 0 → 12 <= size →
  Z.of_nat (length buff) = size + 10 →
  rtp_to_network r buff size = None.
Proof.
  intros Hcc Hs Hl. unfold rtp_to_network.
  destruct (write_at buff 0 (rtp_image (rtp_header r))) as [b|] eqn:Eb; [|done]. rewrite Some_bind.
  destruct (read_at (rtp_payload r) 0 size) as [d|] eqn:Ed; [|done]. rewrite Some_bind, Hcc.
  assert (length b = length buff) as Hb.
  { revert Eb. generalize (rtp_image (rtp_header r)). intros im Eb.
    unfold write_at in Eb. destruct (_ && _) eqn:Ec; [|done]. simplify_eq.
    rewrite !length_app, length_drop, length_take. lia. }
  assert (Z.of_nat (length d) = size) as Hd.
  { unfold read_at in Ed. destruct (_ && _) eqn:Ec; [|done]. simplify_eq.
    rewrite length_take, length_drop. lia. }
  unfold write_at. change (72 - 4 * (15 - bswap16 0)) with 12.
  rewrite (proj2 (Z.leb_gt (12 + _) _)) by lia. by rewrite andb_false_r.
Qed.

Lemma forward_rtp_overruns_witness :
  rtp_to_network (mk_rtp_msg sample_rtp (replicate 1464 0)) (replicate 110 0) 100 = None.
Proof. apply (forward_rtp_overruns _ (replicate 110 0) 100); [reflexivity|lia|reflexivity]. Defined.
