(* ===== verification/Signaling.v ===== *)
(** * Signalling between SRPP endpoints

    Models [src/libSRPP/include/Signaling_functions.hpp] (the state machine of
    HELLO, HELLOACK, BYE and BYEACK), the session functions and the handler of
    received datagrams of [SRPP_functions.cpp], and [sdp_srpp.hpp].

    A received datagram is the head of [inbox]; without one, a receive is to
    [Wait].  The functions call each other through [receive_message]: each takes
    the receive to use as a parameter, and [receive_message] closes the
    recursion, with one unit of fuel for each datagram.  [processReceivedData]
    and [receive_message] end without a [return] on some paths: the result is
    then [None]. *)

From Stdlib Require Import String Ascii.
From S2P Require Import Prelude SrppMessage Discovery FilterState Srpp.

Definition set_signaling (x : Signaling) (w : world) : world :=
  mk_world (clock w) (lastSequenceNo w) (rtpSequenceNo w) (srppssrc w) (maxpacketsize w)
    (packet_to_send w) (padding w) (srpp_timer w) x (encryption_key w)
    (session_maxpacketsize w) (sender_port w) (srpp_enabled w) (signaling_by_srpp w)
    (nonsrpp_message_count w) (sent w) (inbox w)
    (send_external w) (host w).
Definition set_key (x : Z) (w : world) : world :=
  mk_world (clock w) (lastSequenceNo w) (rtpSequenceNo w) (srppssrc w) (maxpacketsize w)
    (packet_to_send w) (padding w) (srpp_timer w) (signaling_functions w) x
    (session_maxpacketsize w) (sender_port w) (srpp_enabled w) (signaling_by_srpp w)
    (nonsrpp_message_count w) (sent w) (inbox w)
    (send_external w) (host w).
Definition set_max (x : Z) (w : world) : world :=
  mk_world (clock w) (lastSequenceNo w) (rtpSequenceNo w) (srppssrc w) x (packet_to_send w)
    (padding w) (srpp_timer w) (signaling_functions w) (encryption_key w)
    (session_maxpacketsize w) (sender_port w) (srpp_enabled w) (signaling_by_srpp w)
    (nonsrpp_message_count w) (sent w) (inbox w)
    (send_external w) (host w).
Definition set_session_max (x : Z) (w : world) : world :=
  mk_world (clock w) (lastSequenceNo w) (rtpSequenceNo w) (srppssrc w) (maxpacketsize w)
    (packet_to_send w) (padding w) (srpp_timer w) (signaling_functions w) (encryption_key w)
    x (sender_port w) (srpp_enabled w) (signaling_by_srpp w) (nonsrpp_message_count w) (sent
    w) (inbox w)
    (send_external w) (host w).
Definition set_port (x : Z) (w : world) : world :=
  mk_world (clock w) (lastSequenceNo w) (rtpSequenceNo w) (srppssrc w) (maxpacketsize w)
    (packet_to_send w) (padding w) (srpp_timer w) (signaling_functions w) (encryption_key w)
    (session_maxpacketsize w) x (srpp_enabled w) (signaling_by_srpp w)
    (nonsrpp_message_count w) (sent w) (inbox w)
    (send_external w) (host w).
Definition set_enabled (x : Z) (w : world) : world :=
  mk_world (clock w) (lastSequenceNo w) (rtpSequenceNo w) (srppssrc w) (maxpacketsize w)
    (packet_to_send w) (padding w) (srpp_timer w) (signaling_functions w) (encryption_key w)
    (session_maxpacketsize w) (sender_port w) x (signaling_by_srpp w) (nonsrpp_message_count
    w) (sent w) (inbox w)
    (send_external w) (host w).
Definition set_by_srpp (x : Z) (w : world) : world :=
  mk_world (clock w) (lastSequenceNo w) (rtpSequenceNo w) (srppssrc w) (maxpacketsize w)
    (packet_to_send w) (padding w) (srpp_timer w) (signaling_functions w) (encryption_key w)
    (session_maxpacketsize w) (sender_port w) (srpp_enabled w) x (nonsrpp_message_count w)
    (sent w) (inbox w)
    (send_external w) (host w).
Definition set_nonsrpp (x : Z) (w : world) : world :=
  mk_world (clock w) (lastSequenceNo w) (rtpSequenceNo w) (srppssrc w) (maxpacketsize w)
    (packet_to_send w) (padding w) (srpp_timer w) (signaling_functions w) (encryption_key w)
    (session_maxpacketsize w) (sender_port w) (srpp_enabled w) (signaling_by_srpp w) x (sent
    w) (inbox w)
    (send_external w) (host w).
Definition set_inbox (x : list (list Z)) (w : world) : world :=
  mk_world (clock w) (lastSequenceNo w) (rtpSequenceNo w) (srppssrc w) (maxpacketsize w)
    (packet_to_send w) (padding w) (srpp_timer w) (signaling_functions w) (encryption_key w)
    (session_maxpacketsize w) (sender_port w) (srpp_enabled w) (signaling_by_srpp w)
    (nonsrpp_message_count w) (sent w) x
    (send_external w) (host w).

Definition signal_op (f : Signaling → Signaling) : M unit :=
  modify (λ w, set_signaling (f (signaling_functions w)) w).
Definition flag (f : Signaling → Z) : M Z := gets (λ w, f (signaling_functions w)).

Definition with_hellosent x s := mk_signaling x (hellorecvd s) (helloacksent s) (helloackrecvd s)
  (byesent s) (byerecvd s) (byeacksent s) (byeackrecvd s) (signaling_complete s) (session_complete s).
Definition with_hellorecvd x s := mk_signaling (hellosent s) x (helloacksent s) (helloackrecvd s)
  (byesent s) (byerecvd s) (byeacksent s) (byeackrecvd s) (signaling_complete s) (session_complete s).
Definition with_helloacksent x s := mk_signaling (hellosent s) (hellorecvd s) x (helloackrecvd s)
  (byesent s) (byerecvd s) (byeacksent s) (byeackrecvd s) (signaling_complete s) (session_complete s).
Definition with_helloackrecvd x s := mk_signaling (hellosent s) (hellorecvd s) (helloacksent s) x
  (byesent s) (byerecvd s) (byeacksent s) (byeackrecvd s) (signaling_complete s) (session_complete s).
Definition with_byesent x s := mk_signaling (hellosent s) (hellorecvd s) (helloacksent s) (helloackrecvd s)
  x (byerecvd s) (byeacksent s) (byeackrecvd s) (signaling_complete s) (session_complete s).
Definition with_byerecvd x s := mk_signaling (hellosent s) (hellorecvd s) (helloacksent s) (helloackrecvd s)
  (byesent s) x (byeacksent s) (byeackrecvd s) (signaling_complete s) (session_complete s).
Definition with_byeacksent x s := mk_signaling (hellosent s) (hellorecvd s) (helloacksent s) (helloackrecvd s)
  (byesent s) (byerecvd s) x (byeackrecvd s) (signaling_complete s) (session_complete s).
Definition with_byeackrecvd x s := mk_signaling (hellosent s) (hellorecvd s) (helloacksent s) (helloackrecvd s)
  (byesent s) (byerecvd s) (byeacksent s) x (signaling_complete s) (session_complete s).
Definition with_signaling_complete x s := mk_signaling (hellosent s) (hellorecvd s) (helloacksent s)
  (helloackrecvd s) (byesent s) (byerecvd s) (byeacksent s) (byeackrecvd s) x (session_complete s).
Definition with_session_complete x s := mk_signaling (hellosent s) (hellorecvd s) (helloacksent s)
  (helloackrecvd s) (byesent s) (byerecvd s) (byeacksent s) (byeackrecvd s) (signaling_complete s) x.

(** [SignalingFunctions()] *)
Definition SignalingFunctions : Signaling := mk_signaling 0 0 0 0 0 0 0 0 0 0.

(** ** Strings *)

Definition octets (s : string) : list Z :=
  map (λ c, Z.of_nat (nat_of_ascii c)) (list_ascii_of_string s).

(** [%d] of a number that is not negative: the digits, with enough fuel *)
Fixpoint digits (fuel : nat) (n : Z) : list Z :=
  match fuel with
  | O => []
  | S fuel => (if n <? 10 then [] else digits fuel (n / 10)) ++ [48 + n mod 10]
  end.

Definition print_int (n : Z) : list Z := if n <? 0 then 45 :: digits 10 (- n) else digits 10 n.

(** [snprintf(buf, size, ...)]: the text that fits *)
Definition snprintf (size : nat) (s : list Z) : list Z := take (size - 1) s.

Definition is_digit (c : Z) : bool := (48 <=? c) && (c <=? 57).

(** [atoi]: white space, a sign, digits *)
Fixpoint atoi_digits (acc : Z) (s : list Z) : Z :=
  match s with
  | c :: s => if is_digit c then atoi_digits (10 * acc + (c - 48)) s else acc
  | [] => acc
  end.

Definition is_space (c : Z) : bool := (c =? 32) || ((9 <=? c) && (c <=? 13)).

Fixpoint atoi (s : list Z) : Z :=
  match s with
  | [] => 0
  | c :: s' => if is_space c then atoi s'
               else if c =? 45 then - atoi_digits 0 s'
               else if c =? 43 then atoi_digits 0 s'
               else atoi_digits 0 s
  end.

Definition comma : Z := 44.

(** [find_first_of] *)
Fixpoint find_first_of (c : Z) (s : list Z) : option nat :=
  match s with
  | [] => None
  | x :: s => if x =? c then Some O else option_map S (find_first_of c s)
  end.

(** the text before the first comma, all of it when there is none *)
Definition first_field (options : list Z) : list Z :=
  match find_first_of comma options with Some i => take i options | None => options end.

(** the text between the first two commas; [npos + 1] is zero *)
Definition second_field (options : list Z) : list Z :=
  let start := match find_first_of comma options with Some i => S i | None => O end in
  first_field (drop start options).

(** ** Session description *)

Record sdp_srpp := mk_sdp {
  valid : Z; srpp_active : Z; options : list Z; sdp_key : Z; maxpacketlength : Z }.

Definition get_sdp_srpp (s : sdp_srpp) : list Z := octets "a=srpp" ++ 10 :: octets "a=srppmap:" ++ options s.
Definition deactivate_srpp (s : sdp_srpp) : sdp_srpp :=
  mk_sdp (valid s) 0 (options s) (sdp_key s) (maxpacketlength s).
Definition activate_srpp (s : sdp_srpp) : sdp_srpp :=
  mk_sdp (valid s) 1 (options s) (sdp_key s) (maxpacketlength s).

Definition process_sdp_srpp (thisoptions : list Z) (s : sdp_srpp) : sdp_srpp :=
  let key := atoi (first_field thisoptions) in
  let n := atoi (second_field thisoptions) in
  let m := if n <? maxpacketlength s then n else maxpacketlength s in
  mk_sdp (if (key <? 0) || (m <? 0) then 0 else 1) (srpp_active s) thisoptions key m.

Section Signaling.
Context {E : Env}.

(** ** Messages of the state machine *)

Definition setKey (key : Z) : M unit := modify (set_key (u32 key)).

(** [create_srpp_message], then [pt], [srpp_signalling] and [x] *)
Definition signal_message (kind : Z) (opts : list Z) : M SRPPMessage :=
  m ← create_srpp_message opts;
  let h := srpp_header m in
  mret (mk_msg (mk_hdr (version h) (hp h) 1 (cc h) (hm h) 124 (hseq h) (ts h) (ssrc h) (csrc h)
                  (defined_by_profile h) (extension_header h) kind)
          (encrypted_part m) (authentication_tag m)).

(** a receive returns a message, or nothing *)
Definition receiver : Type := M (option SRPPMessage).

Definition hello_options (key psize : Z) : list Z :=
  snprintf 15 (print_int key ++ comma :: print_int psize) ++
  octets ", YES, YES, YES, YES, DEFAULT, DEFAULT, DEFAULT".

Definition helloack_options (psize : Z) : list Z :=
  snprintf 6 (print_int psize) ++ octets "YES, YES, YES, DEFAULT, DEFAULT, DEFAULT".

(** [while (complete == 0) { receive_message(); if (wait_count-- == 0) return -1; }] *)
Fixpoint wait_loop (complete : Signaling → Z) (recv : receiver) (wait_count : nat) : M Z :=
  c ← flag complete;
  if c =? 0 then
    recv;;
    match wait_count with O => mret (-1) | S n => wait_loop complete recv n end
  else mret 0.

(** the five copies of the HELLO *)
Fixpoint send_hellos (n : nat) (opts : list Z) : M bool :=
  match n with
  | O => mret true
  | S n =>
      r ← flag helloackrecvd;
      if r =? 1 then mret false else
      signal_op (with_hellosent 1);;
      m ← signal_message 12 opts;
      send_message m;;
      send_hellos n opts
  end.

Definition sendHelloMessage (recv : receiver) : M Z :=
  s ← gets signaling_functions;
  if (hellosent s =? 1) || (hellorecvd s =? 1) || (helloacksent s =? 1) || (helloackrecvd s =? 1)
  then mret (-1) else
  key ← srpp_rand 0 65535;
  psize ← gets session_maxpacketsize;
  let opts := hello_options key psize in
  setKey key;;
  signal_message 12 opts;;
  all ← send_hellos 5 opts;
  if all : bool then
    enabled ← gets srpp_enabled;
    if enabled =? 0 then mret (-10) else
    new_message;;
    recv;;
    wait_loop signaling_complete recv (Z.to_nat 120000)
  else mret 0.

Definition sendHelloAckMessage (recv : receiver) : M Z :=
  s ← gets signaling_functions;
  if (negb (hellorecvd s =? 1) && negb (hellosent s =? 1)) || (helloacksent s =? 1)
  then mret (-1) else
  psize ← gets session_maxpacketsize;
  m ← signal_message 13 (helloack_options psize);
  if negb (helloackrecvd s =? 1) || (hellosent s =? 1) then
    send_message m;;
    signal_op (with_helloacksent 1);;
    c ← flag signaling_complete;
    (if c =? 0 then recv;; mret tt else mret tt);;
    mret 0
  else mret 0.

Definition receivedHelloMessage (recv : receiver) : M Z :=
  signal_op (with_hellorecvd 1);; sendHelloAckMessage recv.

Definition receivedHelloAckMessage (recv : receiver) : M Z :=
  signal_op (with_helloackrecvd 1);;
  s ← gets signaling_functions;
  signal_op (with_signaling_complete 1);;
  i ← (if helloacksent s =? 0 then sendHelloAckMessage recv else mret 0);
  signal_op (with_hellosent 0);;
  signal_op (with_helloackrecvd 0);;
  mret i.

Definition sendByeAckMessage : M Z :=
  s ← gets signaling_functions;
  if (negb (byerecvd s =? 1) && negb (byesent s =? 1)) || (byeacksent s =? 1)
  then mret (-1) else
  m ← signal_message 23 [];
  send_message m;;
  signal_op (with_byeacksent 1);;
  mret 0.

Definition sendByeMessage (recv : receiver) : M Z :=
  m ← signal_message 22 [];
  send_message m;;
  signal_op (with_byesent 1);;
  new_message;;
  recv;;
  wait_loop session_complete recv (Z.to_nat 30000).

Definition receivedByeMessage : M Z :=
  signal_op (with_byerecvd 1);; sendByeAckMessage.

Definition receivedByeAckMessage : M Z :=
  signal_op (with_byeackrecvd 1);;
  s ← gets signaling_functions;
  signal_op (with_session_complete 1);;
  if byeacksent s =? 0 then sendByeAckMessage else mret 0.

Definition setSignalingComplete (a : Z) : M unit :=
  if a <=? 1 then signal_op (with_signaling_complete a) else mret tt.

(** ** The session *)

(** [SRPPSession::start_session], [SRPPSession::stop_session] *)
Definition session_start : M unit := timer_op start_packet;; timer_op start_silence.
Definition session_stop : M unit := timer_op pauseTimer.

Definition stop_session (recv : receiver) : M Z :=
  session_stop;;
  enabled ← gets srpp_enabled;
  if enabled =? 0 then mret (-10) else
  by_srpp ← gets signaling_by_srpp;
  (if by_srpp =? 1 then sendByeMessage recv;; mret tt else mret tt);;
  c ← flag session_complete;
  mret (if c =? 1 then 1 else -1).

(** [srpp_rand(5000,10000)] turns of an empty loop come first *)
Definition signaling (recv : receiver) : M Z :=
  by_srpp ← gets signaling_by_srpp;
  if by_srpp =? 1 then srpp_rand 5000 10000;; sendHelloMessage recv else mret 0.

Definition start_session (recv : receiver) : M Z :=
  s ← signaling recv;
  if s <? 0 then mret (-1) else
  session_start;;
  modify (set_enabled 1);;
  mret 0.

(** [start_session(sdp_srpp)]: negotiated through SIP *)
Definition start_session_sdp (recv : receiver) (sdp : sdp_srpp) : M Z :=
  modify (set_by_srpp 0);;
  if srpp_active sdp =? 0 then modify (set_enabled 0);; stop_session recv else
  setKey (sdp_key sdp);;
  modify (set_session_max (maxpacketlength sdp));;
  modify (set_max (maxpacketlength sdp));;
  setSignalingComplete 1;;
  modify (set_enabled 1);;
  session_start;;
  mret 0.

(** ** Received datagrams *)

(** [isSignalingMessage] of a buffer: the header as it is there *)
Definition isSignalingMessage_buff (buff : list Z) : option Z :=
  image ← read_at buff 0 sizeof_SRPPHeader;
  Some (isSignalingMessage_hdr (header_of_image image)).

Definition max_nonsrpp_messages : Z := 1000.

(** a HELLOACK takes the path without a [return] *)
Definition verifySignalling (recv : receiver) (buff : list Z) : M Z :=
  s ← flag hellosent;
  if s =? 1 then
    image ← lift (read_at buff 0 sizeof_SRPPHeader);
    let h := header_of_image image in
    if negb (srpp_signalling h =? 13) && negb (pt h =? 124) then
      n ← gets nonsrpp_message_count;
      modify (set_nonsrpp (n + 1));;
      if max_nonsrpp_messages <? n + 1 then modify (set_enabled 0);; stop_session recv
      else mret (-1)
    else λ _, Fault
  else mret 0.

(** take the smaller of the session's and the peer's maximum *)
Definition adopt_max (n : Z) : M unit :=
  cur ← gets session_maxpacketsize;
  if n <? cur then modify (set_session_max n);; modify (set_max n) else mret tt.

(** the message, when it is a signalling message, goes to the state machine *)
Definition handle_signal (recv : receiver) (m : SRPPMessage) : M unit :=
  let opts := original_payload (encrypted_part m) in
  let kind := srpp_signalling (srpp_header m) in
  if kind =? 12 then
    setKey (atoi (first_field opts));;
    adopt_max (atoi (second_field opts));;
    receivedHelloMessage recv;; mret tt
  else if kind =? 13 then
    adopt_max (atoi (first_field opts));;
    receivedHelloAckMessage recv;; mret tt
  else if kind =? 22 then receivedByeMessage;; mret tt
  else if kind =? 23 then receivedByeAckMessage;; mret tt
  else mret tt.

Definition processReceivedData (recv : receiver) (buff : list Z) (bytes : Z) : M (option SRPPMessage) :=
  m0 ← create_srpp_message [];
  w ← gets id;
  if (signaling_by_srpp w =? 0) && (signaling_complete (signaling_functions w) =? 1) then
    sm ← lift (network_to_srpp m0 buff bytes (s32 (encryption_key w)));
    mret (Some sm.2)
  else
    is_signal ← lift (isSignalingMessage_buff buff);
    take ← (if is_signal =? 1 then mret true else
              v ← verifySignalling recv buff;
              enabled ← gets srpp_enabled;
              mret ((v =? 0) && (enabled =? 0)));
    if take : bool then
      key ← gets encryption_key;
      sm ← lift (network_to_srpp m0 buff bytes (if is_signal =? 1 then 0 else s32 key));
      modify (λ w, set_port (u16 (sender_port w + 2)) w);;
      if isSignalingMessage sm.2 =? 1 then handle_signal recv sm.2;; mret None
      else mret (Some sm.2)
    else mret None.

(** [receive_message] on the session's socket *)
Fixpoint receive_message (fuel : nat) : receiver :=
  match fuel with
  | O => λ _, Fault
  | S fuel => λ w,
      match inbox w with
      | [] => Wait w
      | buff :: rest =>
          processReceivedData (receive_message fuel) buff (Z.of_nat (length buff)) (set_inbox rest w)
      end
  end.

End Signaling.

(** ** Decimal numbers *)

Lemma digits_range fuel n : 0 <= n → Forall (λ c, is_digit c = true) (digits fuel n).
Proof.
  revert n. induction fuel as [|fuel IH]; intros n Hn; [constructor|]. cbn [digits].
  apply Forall_app. split.
  - destruct (n <? 10); [constructor|]. apply IH. by apply Z.div_pos.
  - constructor; [|constructor]. unfold is_digit. pose proof (Z.mod_pos_bound n 10). lia.
Qed.

(** [atoi] reads the digits of a number as the number *)
Lemma atoi_digits_digits fuel n rest :
  0 <= n < 10 ^ Z.of_nat fuel → (0 < fuel)%nat →
  atoi_digits 0 (digits fuel n ++ rest) = atoi_digits n rest.
Proof.
  intros Hn Hf. revert n rest Hn. induction fuel as [|fuel IH]; intros n rest Hn; [lia|].
  cbn [digits]. rewrite <-app_assoc.
  pose proof (Z.mod_pos_bound n 10). pose proof (Z.div_mod n 10).
  assert (∀ acc, atoi_digits acc ([48 + n mod 10] ++ rest) =
    atoi_digits (10 * acc + n mod 10) rest) as Hlast.
  { intros acc. simpl. unfold is_digit.
    rewrite (proj2 (Z.leb_le 48 _)), (proj2 (Z.leb_le _ 57)) by lia. simpl. f_equal. lia. }
  destruct (Z.ltb_spec n 10).
  - simpl app at 1. rewrite Hlast. f_equal. rewrite Z.mod_small by lia. lia.
  - destruct fuel as [|fuel]; [rewrite Nat2Z.inj_succ in Hn; simpl in Hn; lia|].
    rewrite IH; [rewrite Hlast; f_equal; lia|lia|].
    rewrite Nat2Z.inj_succ, Z.pow_succ_r in Hn by lia. split; [by apply Z.div_pos; lia|].
    apply Z.div_lt_upper_bound; lia.
Qed.

Lemma digits_cons fuel n : (0 < fuel)%nat → 0 <= n → ∃ c l, digits fuel n = c :: l ∧ is_digit c = true.
Proof.
  intros Hf Hn. pose proof (digits_range fuel n Hn) as Hr.
  destruct (digits fuel n) as [|c l] eqn:Ed.
  - destruct fuel; [lia|]. cbn [digits] in Ed. by apply app_eq_nil in Ed as [_ ?].
  - exists c, l. split; [done|]. by apply Forall_cons_iff in Hr as [? _].
Qed.

Lemma length_digits fuel n d :
  0 <= n < 10 ^ Z.of_nat d → (0 < d)%nat → (length (digits fuel n) <= d)%nat.
Proof.
  revert n d. induction fuel as [|fuel IH]; intros n d Hn Hd; cbn [digits]; [simpl; lia|].
  rewrite length_app. cbn [length]. destruct (Z.ltb_spec n 10); [simpl; lia|].
  destruct d as [|d]; [lia|]. rewrite Nat2Z.inj_succ, Z.pow_succ_r in Hn by lia.
  destruct d as [|d]; [simpl in Hn; lia|].
  assert (length (digits fuel (n / 10)) <= S d)%nat; [|lia].
  apply IH; [|lia]. split; [apply Z.div_pos; lia|]. apply Z.div_lt_upper_bound; lia.
Qed.

(** a printed number, followed by anything but a digit, is read back *)
Lemma atoi_print n rest :
  0 <= n < 10 ^ 10 → (∀ c l, rest = c :: l → is_digit c = false) →
  atoi (print_int n ++ rest) = n.
Proof.
  intros Hn Hrest. unfold print_int. rewrite (proj2 (Z.ltb_ge n 0)) by lia.
  destruct (digits_cons 10 n) as (c & l & Ed & Hc); [lia..|].
  assert (atoi (digits 10 n ++ rest) = atoi_digits 0 (digits 10 n ++ rest)) as ->.
  { rewrite Ed. cbn [app atoi]. unfold is_digit in Hc. unfold is_space.
    rewrite (proj2 (Z.eqb_neq c 32)), (proj2 (Z.leb_gt c 13)) by lia.
    rewrite andb_false_r. cbn [orb].
    by rewrite (proj2 (Z.eqb_neq c 45)), (proj2 (Z.eqb_neq c 43)) by lia. }
  rewrite atoi_digits_digits by (simpl; lia).
  destruct rest as [|c' l']; [done|]. simpl. by rewrite (Hrest c' l' eq_refl).
Qed.

Lemma find_first_of_app c l rest :
  Forall (λ x, x ≠ c) l → find_first_of c (l ++ c :: rest) = Some (length l).
Proof.
  induction 1 as [|x l Hx _ IH]; cbn [app find_first_of length].
  - by rewrite Z.eqb_refl.
  - by rewrite (proj2 (Z.eqb_neq x c)), IH.
Qed.

Lemma first_field_app l rest : Forall (λ x, x ≠ comma) l → first_field (l ++ comma :: rest) = l.
Proof. intros Hl. unfold first_field. rewrite find_first_of_app by done. by rewrite take_app_length. Qed.

Lemma second_field_app l rest :
  Forall (λ x, x ≠ comma) l → second_field (l ++ comma :: rest) = first_field rest.
Proof.
  intros Hl. unfold second_field. rewrite find_first_of_app by done. f_equal.
  change (l ++ comma :: rest) with (l ++ [comma] ++ rest). rewrite app_assoc.
  apply drop_app_length'. rewrite length_app. simpl. lia.
Qed.

Lemma digits_no_comma fuel n : 0 <= n → Forall (λ x, x ≠ comma) (digits fuel n).
Proof.
  intros Hn. eapply Forall_impl; [|by apply digits_range].
  unfold is_digit, comma. intros x Hx. simpl in Hx. lia.
Qed.

(** ** The options of HELLO and HELLOACK *)

Definition text (l : list Z) : Prop := Forall (λ c, 0 < c < 256) l.

Lemma text_bytes l : text l → is_bytes l.
Proof. intros Hl. eapply Forall_impl; [|exact Hl]. unfold is_word. simpl. lia. Qed.
Lemma text_no_zero l : text l → no_zero l.
Proof. intros Hl. eapply Forall_impl; [|exact Hl]. simpl. lia. Qed.

Lemma print_int_text n : text (print_int n).
Proof.
  assert (∀ m, 0 <= m → text (digits 10 m)) as H.
  { intros m Hm. eapply Forall_impl; [|by apply digits_range]. unfold is_digit. simpl. lia. }
  unfold print_int. destruct (Z.ltb_spec n 0); [constructor; [lia|]|]; apply H; lia.
Qed.

Lemma hello_options_eq key psize :
  0 <= key < 65535 → 0 <= psize < 10 ^ 8 →
  hello_options key psize = digits 10 key ++ comma :: digits 10 psize ++
    comma :: octets " YES, YES, YES, YES, DEFAULT, DEFAULT, DEFAULT".
Proof.
  intros Hk Hp. unfold hello_options, snprintf, print_int.
  rewrite !(proj2 (Z.ltb_ge _ 0)) by lia.
  pose proof (length_digits 10 key 5 ltac:(simpl; lia) ltac:(lia)).
  pose proof (length_digits 10 psize 8 ltac:(simpl; lia) ltac:(lia)).
  rewrite take_ge by (rewrite length_app; cbn [length]; lia).
  rewrite <-app_assoc. cbn [app]. done.
Qed.

Lemma hello_options_text key psize : 0 <= key < 65535 → 0 <= psize < 10 ^ 8 → text (hello_options key psize).
Proof.
  intros Hk Hp. unfold hello_options, snprintf. apply Forall_app. split.
  - apply Forall_take. apply Forall_app. split; [apply print_int_text|].
    constructor; [unfold comma; lia|apply print_int_text].
  - refine (bool_decide_unpack _ _). vm_compute. exact I.
Qed.

Lemma helloack_options_text psize : text (helloack_options psize).
Proof.
  unfold helloack_options, snprintf. apply Forall_app. split.
  - apply Forall_take, print_int_text.
  - refine (bool_decide_unpack _ _). vm_compute. exact I.
Qed.

(** what the peer reads in a HELLO, and in a HELLOACK, whatever follows it *)
Lemma hello_key key psize rest :
  0 <= key < 65535 → 0 <= psize < 10 ^ 8 →
  atoi (first_field (hello_options key psize ++ rest)) = key.
Proof.
  intros Hk Hp. rewrite hello_options_eq by done. rewrite <-app_assoc. cbn [app].
  rewrite first_field_app by (apply digits_no_comma; lia).
  rewrite <-(app_nil_r (digits 10 key)).
  rewrite <-(atoi_print key []) at 2 by (done || lia). unfold print_int.
  by rewrite (proj2 (Z.ltb_ge key 0)) by lia.
Qed.

Lemma hello_psize key psize rest :
  0 <= key < 65535 → 0 <= psize < 10 ^ 8 →
  atoi (second_field (hello_options key psize ++ rest)) = psize.
Proof.
  intros Hk Hp. rewrite hello_options_eq by done. rewrite <-app_assoc. cbn [app].
  rewrite second_field_app by (apply digits_no_comma; lia). rewrite <-app_assoc. cbn [app].
  rewrite first_field_app by (apply digits_no_comma; lia).
  rewrite <-(app_nil_r (digits 10 psize)).
  rewrite <-(atoi_print psize []) at 2 by (done || lia). unfold print_int.
  by rewrite (proj2 (Z.ltb_ge psize 0)) by lia.
Qed.

Lemma helloack_psize psize rest :
  0 <= psize < 10 ^ 5 → atoi (first_field (helloack_options psize ++ rest)) = psize.
Proof.
  intros Hp. unfold helloack_options, snprintf, print_int. rewrite (proj2 (Z.ltb_ge psize 0)) by lia.
  pose proof (length_digits 10 psize 5 ltac:(simpl; lia) ltac:(lia)).
  rewrite take_ge by lia. rewrite <-!app_assoc.
  change (octets "YES, YES, YES, DEFAULT, DEFAULT, DEFAULT") with
    (octets "YES" ++ comma :: octets " YES, YES, DEFAULT, DEFAULT, DEFAULT").
  rewrite <-app_assoc. cbn [app]. rewrite (app_assoc (digits 10 psize)).
  rewrite first_field_app.
  - pose proof (atoi_print psize (octets "YES") ltac:(lia)) as H0. unfold print_int in H0.
    rewrite (proj2 (Z.ltb_ge psize 0)) in H0 by lia. apply H0. intros c l [= <- _]. done.
  - apply Forall_app. split; [apply digits_no_comma; lia|].
    refine (bool_decide_unpack _ _). vm_compute. exact I.
Qed.

(** ** What signalling messages leave alone *)

Record same_session (w w' : world) : Prop := mk_session {
  keep_signaling : signaling_functions w' = signaling_functions w;
  keep_key : encryption_key w' = encryption_key w;
  keep_session_max : session_maxpacketsize w' = session_maxpacketsize w;
  keep_ssrc : srppssrc w' = srppssrc w;
  keep_enabled : srpp_enabled w' = srpp_enabled w;
  keep_by_srpp : signaling_by_srpp w' = signaling_by_srpp w;
  keep_inbox : inbox w' = inbox w;
  keep_external : send_external w' = send_external w }.

#[global] Instance same_session_refl : Reflexive same_session.
Proof. intros w. by constructor. Qed.
#[global] Instance same_session_trans : Transitive same_session.
Proof. intros w1 w2 w3 [] []. constructor; congruence. Qed.

Lemma only_clock_session w w' : only_clock w w' → same_session w w'.
Proof. intros [n ->]. by constructor. Qed.

(** a run continues after its first operation *)
Lemma bind_runs {A B} (m : M A) (f : A → M B) w Q :
  runs m w Q → ∃ a w', Q a w' ∧ (m ≫= f) w = f a w'.
Proof.
  intros (a & w' & Em & Hq)%runs_Done. exists a, w'. split; [done|].
  unfold mbind, M_bind. by rewrite Em.
Qed.

Lemma bind_Done {A B} (m : M A) (f : A → M B) w a w' : m w = Done a w' → (m ≫= f) w = f a w'.
Proof. unfold mbind, M_bind. by intros ->. Qed.

Lemma bind_Wait {A B} (m : M A) (f : A → M B) w w' : m w = Wait w' → (m ≫= f) w = Wait w'.
Proof. unfold mbind, M_bind. by intros ->. Qed.

(** one step of a run, of the signalling functions too *)
Ltac sstep :=
  match goal with
  | |- runs (signal_op _) _ _ => apply run_modify
  | |- runs (flag _) _ _ => apply run_gets
  | |- runs (setKey _) _ _ => apply run_modify
  | _ => mstep
  end.

(** ** A signalling message on the wire *)

(** [hears W kind opts]: whoever receives [W] sees a signalling message of this
    kind whose payload starts with the options; the eight octets behind them
    are the trailer *)
Definition hears (W : list Z) (kind : Z) (opts : list Z) : Prop :=
  isSignalingMessage_buff W = Some 1 ∧
  ∀ m0, ∃ m1, network_to_srpp m0 W (Z.of_nat (length W)) 0 = Some (0, m1) ∧
    srpp_signalling (srpp_header m1) = kind ∧ pt (srpp_header m1) = 124 ∧
    original_payload (encrypted_part m1) = opts ++ replicate 8 0.

Lemma bswap32_nonzero x : is_word 32 x → x ≠ 0 → bswap32 x ≠ 0.
Proof. intros Hx Hne H0. apply Hne. rewrite <-(bswap32_involutive x Hx), H0. done. Qed.

Lemma isSignaling_kind h : srpp_signalling h ≠ 0 → pt h = 124 → isSignalingMessage_hdr h = 1.
Proof.
  intros Hk Hp. unfold isSignalingMessage_hdr. rewrite Hp.
  by rewrite (proj2 (Z.eqb_neq _ 0)).
Qed.

Lemma signal_wire m c kind opts :
  msg_wf m → cc (srpp_header m) = 0 → srpp_signalling (srpp_header m) = kind → kind ≠ 0 →
  pt (srpp_header m) = 124 → encrypted_part m = mk_enc opts [] 0 0 0 0 →
  length c = 15%nat → is_words c → hears (wire m c []) kind opts.
Proof.
  intros Hwf Hcc Hk Hne Hpt He Hc Hcw. pose proof Hwf as (Hh & _ & _).
  assert (header_wf (network_header (srpp_header m) c)) as Hnh by by apply network_header_wf.
  assert (length (header_image (network_header (srpp_header m) c)) = 80%nat) as Hhl
    by by apply length_header_image.
  assert (is_word 32 kind) as Hkw by (rewrite <-Hk; apply Hh).
  split.
  - unfold isSignalingMessage_buff, wire. set (rest := original_payload _ ++ _).
    assert (read_at (header_image (network_header (srpp_header m) c) ++ rest) 0 sizeof_SRPPHeader =
      Some (header_image (network_header (srpp_header m) c))) as ->
      by (apply (read_mid [] _ rest); [done|by rewrite Hhl]).
    rewrite Some_bind, header_of_image_image by done. f_equal. apply isSignaling_kind; [|done].
    simpl. rewrite Hk. by apply bswap32_nonzero.
  - intros m0. rewrite network_to_srpp_wire by done. rewrite Hk, He. cbn [pad_count].
    rewrite (proj2 (Z.eqb_neq kind 0)) by done. cbn [andb]. cbv zeta.
    change (1500 <? 0) with false. cbv iota. change (0 <? 0) with false. cbn [andb].
    rewrite length_wire, He by done. unfold wire at 1. rewrite He.
    cbn [original_payload app trailer_image pad_count dummy_flag original_padding_bit original_seq_number].
    rewrite (app_assoc opts). rewrite read_mid; [|by rewrite Hhl|].
    + rewrite Some_bind. eexists. split; [done|]. cbn [received srpp_header with_csrc srpp_signalling pt
        encrypted_part original_payload]. done.
    + change (trailer_image _) with (replicate 8 0).
      rewrite !length_app. cbn [length]. unfold sizeof_SRPPHeader. rewrite length_replicate. lia.
Qed.

Section Signals.
Context {E : Env} (Henv : env_ok E).

Lemma signal_message_runs kind opts w :
  is_word 32 (srppssrc w) → is_word 32 kind → is_bytes opts →
  runs (signal_message kind opts) w (λ m w', same_session w w' ∧ sent w' = sent w ∧
    msg_wf m ∧ cc (srpp_header m) = 0 ∧ srpp_signalling (srpp_header m) = kind ∧
    pt (srpp_header m) = 124 ∧ encrypted_part m = mk_enc opts [] 0 0 0 0).
Proof using.
  intros Hs Hk Hb. unfold signal_message. mstep.
  mcall (create_srpp_message_runs opts w Hs Hb) as m w' ([n ->] & Hwf & Hcc & He & _).
  mstep. cbn [srpp_header srpp_signalling pt cc encrypted_part].
  split_and!; try done. destruct Hwf as (Hh & He' & Ht).
  destruct Hh as (Hv & Hp & Hx' & Hcw & Hm & Hpt & Hsq & Hts & Hss & Hl & Hw & Hd & Hex & Hg').
  by split_and!; [split_and!|..].
Qed.

Lemma send_signal_runs m kind opts w :
  msg_wf m → cc (srpp_header m) = 0 → srpp_signalling (srpp_header m) = kind → kind ≠ 0 →
  pt (srpp_header m) = 124 → encrypted_part m = mk_enc opts [] 0 0 0 0 → text opts → opts ≠ [] →
  send_external w = 0 → runs (send_message m) w (λ _ w', same_session w w' ∧
    ∃ W, sent w' = sent w ++ [W] ∧ hears W kind opts).
Proof using.
  intros Hwf Hcc Hk Hne Hpt He Ht Hnil Hext. unfold send_message, transmit. rewrite He.
  cbn [original_payload srpp_padding]. destruct opts as [|x opts'] eqn:Eo; [done|]. rewrite <-Eo in *.
  mstep. apply tick_runs. mstep. mstep.
  unfold isSignalingMessage. rewrite (isSignaling_kind (srpp_header m)) by (done || by rewrite Hk).
  change (1 =? 1) with true. cbv iota. mstep.
  destruct (srpp_to_network_wire m (map (memory (clock w)) (seqZ 0 (Z.of_nat (80 + length opts + length (@nil Z) + 12))))
    0 (csrc_rand m) 0 []) as (c & Hc & Hw & Ew).
  - apply Hwf.
  - done.
  - rewrite He. by apply text_no_zero.
  - rewrite He. constructor.
  - by rewrite He.
  - done.
  - rewrite length_map, length_seqZ, He. cbn [original_payload length]. lia.
  - eapply run_lift; [exact Ew|]. mstep. mstep. mstep. mstep. apply tick_runs. mstep. mstep.
    cbn [send_external set_clock set_sent]. rewrite Hext. change (0 =? 1) with false. cbv iota.
    mstep. mstep. mstep. mstep.
    split; [by constructor|]. eexists. split; [done|]. by apply signal_wire.
Qed.

(** [sendHelloMessage]'s five copies *)
Lemma send_hellos_runs n opts w :
  is_word 32 (srppssrc w) → text opts → opts ≠ [] → helloackrecvd (signaling_functions w) = 0 →
  send_external w = 0 →
  runs (send_hellos n opts) w (λ all w', all = true ∧
    encryption_key w' = encryption_key w ∧ session_maxpacketsize w' = session_maxpacketsize w ∧
    srppssrc w' = srppssrc w ∧ srpp_enabled w' = srpp_enabled w ∧
    signaling_by_srpp w' = signaling_by_srpp w ∧ inbox w' = inbox w ∧
    send_external w' = send_external w ∧
    signaling_functions w' = (match n with O => signaling_functions w
                              | S _ => with_hellosent 1 (signaling_functions w) end) ∧
    ∃ Ws, sent w' = sent w ++ Ws ∧ length Ws = n ∧ Forall (λ W, hears W 12 opts) Ws).
Proof using.
  intros Hs Ht Hne Hr Hx. revert w Hs Hr Hx. induction n as [|n IH]; intros w Hs Hr Hx; cbn [send_hellos].
  - mstep. split_and!; try done. exists []. split_and!; [by rewrite app_nil_r|done|constructor].
  - sstep. sstep. rewrite Hr. change (0 =? 1) with false. cbv iota.
    sstep. sstep. sstep. set (w1 := set_signaling _ w).
    eapply runs_mono; [apply (signal_message_runs 12 opts w1); [done|done|by apply text_bytes]|].
    cbv beta. intros m w2 (S2 & E2 & Hwf & Hcc & Hk & Hpt & He). mstep.
    eapply runs_mono; [apply (send_signal_runs m 12 opts w2); try done; by rewrite (keep_external _ _ S2)|].
    cbv beta. intros st w3 (S3 & W & E3 & HW).
    assert (same_session w1 w3) as S by by etrans.
    eapply runs_mono; [apply IH|].
    + by rewrite (keep_ssrc _ _ S).
    + by rewrite (keep_signaling _ _ S).
    + by rewrite (keep_external _ _ S).
    + cbv beta. intros all w4 (-> & K1 & K2 & K3 & K4 & K5 & K6 & Kx & K7 & Ws & K8 & K9 & K10).
      destruct S as [J1 J2 J3 J4 J5 J6 J7 Jx]. unfold w1 in *. simpl in J1, J2, J3, J4, J5, J6, J7, Jx.
      split_and!; try congruence.
      * rewrite K7, J1. by destruct n.
      * exists (W :: Ws). split_and!; [|simpl; lia|by constructor].
        rewrite K8, E3, E2, <-app_assoc. unfold w1. done.
Qed.

(** ** Runs that wait *)

Definition waits {A} (m : M A) (w : world) (Q : world → Prop) : Prop :=
  match m w with Wait w' => Q w' | _ => False end.

Lemma waits_bind {A B} (m : M A) (f : A → M B) w Q :
  runs m w (λ a w', waits (f a) w' Q) → waits (m ≫= f) w Q.
Proof using. unfold runs, waits, mbind, M_bind. by destruct (m w). Qed.

Lemma waits_here {A B} (m : M A) (f : A → M B) w Q : waits m w Q → waits (m ≫= f) w Q.
Proof using. unfold waits, mbind, M_bind. by destruct (m w). Qed.

Lemma waits_Wait {A} (m : M A) w Q : waits m w Q → ∃ w', m w = Wait w' ∧ Q w'.
Proof using. unfold waits. destruct (m w) as [|w'|]; [done|by exists w'|done]. Qed.

(** ** Announcing *)

(** the key the next HELLO offers *)
Definition offered_key (w : world) : Z :=
  Z.rem (rand_seeded (u32 (1000000 * (gettimeofday (clock w)).1 + (gettimeofday (clock w)).2))) 65535 + 0.

Lemma offered_key_range w : 0 <= offered_key w < 65535.
Proof using Henv.
  unfold offered_key. set (v := rand_seeded _).
  pose proof (proj1 Henv (u32 (1000000 * (gettimeofday (clock w)).1 + (gettimeofday (clock w)).2))) as Hv.
  fold v in Hv. pose proof (Z.rem_bound_pos v 65535). lia.
Qed.

Definition idle (w : world) : Prop :=
  signaling_functions w = SignalingFunctions ∧ is_word 32 (srppssrc w) ∧
  signaling_by_srpp w = 1 ∧ srpp_enabled w ≠ 0 ∧ 0 <= session_maxpacketsize w < 10 ^ 5 ∧
  send_external w = 0.

(** an endpoint that has announced itself *)
Definition announced (w w1 : world) : Prop :=
  encryption_key w1 = offered_key w ∧ session_maxpacketsize w1 = session_maxpacketsize w ∧
  is_word 32 (srppssrc w1) ∧ signaling_by_srpp w1 = 1 ∧ inbox w1 = inbox w ∧
  send_external w1 = 0 ∧ signaling_functions w1 = with_hellosent 1 SignalingFunctions ∧
  ∃ Ws, sent w1 = sent w ++ Ws ∧ length Ws = 5%nat ∧
    Forall (λ W, hears W 12 (hello_options (offered_key w) (session_maxpacketsize w))) Ws.

Lemma hello_nonempty key psize : hello_options key psize ≠ [].
Proof using. unfold hello_options. intros [_ H]%app_eq_nil. discriminate H. Qed.

Lemma helloack_nonempty psize : helloack_options psize ≠ [].
Proof using. unfold helloack_options. intros [_ H]%app_eq_nil. discriminate H. Qed.

Lemma sendHello_announces recv w :
  idle w → ∃ w1, announced w w1 ∧
    sendHelloMessage recv w = (recv;; wait_loop signaling_complete recv (Z.to_nat 120000)) w1.
Proof using Henv.
  intros (Hsig & Hs & Hby & Hen & Hmax & Hx). unfold sendHelloMessage.
  pose proof (offered_key_range w) as Hkey.
  rewrite (bind_Done (gets signaling_functions) _ w (signaling_functions w) w) by done.
  rewrite Hsig. cbn [hellosent hellorecvd helloacksent helloackrecvd SignalingFunctions Z.eqb orb].
  rewrite (bind_Done (srpp_rand 0 65535) _ w (offered_key w) (set_clock (S (clock w)) w)) by done.
  set (w0 := set_clock _ w).
  rewrite (bind_Done (gets session_maxpacketsize) _ w0 (session_maxpacketsize w) w0) by done.
  cbv zeta. set (opts := hello_options _ _).
  assert (text opts) as Ht by (apply hello_options_text; lia).
  rewrite (bind_Done (setKey _) _ w0 tt (set_key (u32 (offered_key w)) w0)) by done.
  rewrite (wrap_small 32 (offered_key w)) by (unfold is_word; lia).
  set (w1 := set_key _ w0).
  destruct (bind_runs (signal_message 12 opts)
    (λ _, all ← send_hellos 5 opts; if all : bool then
       enabled ← gets srpp_enabled; if enabled =? 0 then mret (-10) else
       new_message;; recv;; wait_loop signaling_complete recv (Z.to_nat 120000) else mret 0) w1 _
    (signal_message_runs 12 opts w1 Hs ltac:(done) (text_bytes _ Ht)))
    as (m & w2 & (S2 & E2 & _) & ->).
  destruct S2 as [J1 J2 J3 J4 J5 J6 J7 Jx]. unfold w1, w0 in J1, J2, J3, J4, J5, J6, J7, Jx, E2.
  simpl in J1, J2, J3, J4, J5, J6, J7, Jx, E2.
  destruct (bind_runs (send_hellos 5 opts)
    (λ all : bool, if all then
       enabled ← gets srpp_enabled; if enabled =? 0 then mret (-10) else
       new_message;; recv;; wait_loop signaling_complete recv (Z.to_nat 120000) else mret 0) w2 _
    (send_hellos_runs 5 opts w2 ltac:(by rewrite J4) Ht (hello_nonempty _ _) ltac:(by rewrite J1, Hsig)
       ltac:(by rewrite Jx)))
    as (all & w3 & (-> & K1 & K2 & K3 & K4 & K5 & K6 & Kx & K7 & Ws & K8 & K9 & K10) & ->).
  rewrite (bind_Done (gets srpp_enabled) _ w3 (srpp_enabled w3) w3) by done.
  rewrite (proj2 (Z.eqb_neq _ 0)) by congruence.
  assert (is_word 32 (srppssrc w3)) as Hs3 by congruence.
  destruct (bind_runs new_message
    (λ _, recv;; wait_loop signaling_complete recv (Z.to_nat 120000)) w3 _ (new_message_runs w3 Hs3))
    as (m' & w4 & ([n ->] & _) & ->).
  eexists. split; [|done]. unfold announced. simpl.
  split_and!; try congruence.
  exists Ws. split_and!; [congruence|done|done].
Qed.

(** ** Answering *)

Lemma adopt_max_runs n w :
  runs (adopt_max n) w (λ _ w', session_maxpacketsize w' = Z.min n (session_maxpacketsize w) ∧
    signaling_functions w' = signaling_functions w ∧ encryption_key w' = encryption_key w ∧
    srppssrc w' = srppssrc w ∧ sent w' = sent w ∧ inbox w' = inbox w ∧
    send_external w' = send_external w).
Proof using.
  unfold adopt_max. mstep. mstep. destruct (Z.ltb_spec n (session_maxpacketsize w)).
  - mstep. mstep. mstep. simpl. split_and!; [lia|done..].
  - mstep. split_and!; [lia|done..].
Qed.

(** the common part of the handler of a received signalling message *)
Lemma process_signal recv W kind opts w (Q : run (option SRPPMessage) → Prop) :
  is_word 32 (srppssrc w) → signaling_by_srpp w = 1 → hears W kind opts → kind ≠ 0 →
  (∀ m1 w1, srpp_signalling (srpp_header m1) = kind →
    original_payload (encrypted_part m1) = opts ++ replicate 8 0 →
    signaling_functions w1 = signaling_functions w → encryption_key w1 = encryption_key w →
    session_maxpacketsize w1 = session_maxpacketsize w → srppssrc w1 = srppssrc w →
    sent w1 = sent w → inbox w1 = inbox w → send_external w1 = send_external w →
    Q ((handle_signal recv m1;; mret None) w1)) →
  Q (processReceivedData recv W (Z.of_nat (length W)) w).
Proof using.
  intros Hs Hby [Hb Hn] Hk HQ. unfold processReceivedData.
  destruct (runs_Done _ _ _ (create_srpp_message_runs [] w Hs (Forall_nil_2 _)))
    as (m0 & w0 & Em & [n ->] & _).
  rewrite (bind_Done _ _ _ _ _ Em). set (w1 := set_clock n _).
  rewrite (bind_Done (gets id) _ w1 w1 w1) by done.
  change (signaling_by_srpp w1) with (signaling_by_srpp w). rewrite Hby.
  change (1 =? 0) with false. cbn [andb].
  rewrite (bind_Done (lift _) _ w1 1 w1) by (unfold lift; by rewrite Hb).
  change (1 =? 1) with true. cbv iota.
  rewrite (bind_Done (mret true) _ w1 true w1) by done.
  rewrite (bind_Done (gets encryption_key) _ w1 (encryption_key w1) w1) by done.
  destruct (Hn m0) as (m1 & En & Hk1 & Hpt & Hpay).
  rewrite (bind_Done (lift _) _ w1 (0, m1) w1) by (unfold lift; by rewrite En).
  rewrite (bind_Done (modify _) _ w1 tt (set_port (u16 (sender_port w1 + 2)) w1)) by done.
  cbn [snd]. unfold isSignalingMessage. rewrite isSignaling_kind by (done || by rewrite Hk1).
  change (1 =? 1) with true. cbv iota. by apply HQ.
Qed.

Lemma process_signal_waits recv W kind opts w (Q : world → Prop) :
  is_word 32 (srppssrc w) → signaling_by_srpp w = 1 → hears W kind opts → kind ≠ 0 →
  (∀ m1 w1, srpp_signalling (srpp_header m1) = kind →
    original_payload (encrypted_part m1) = opts ++ replicate 8 0 →
    signaling_functions w1 = signaling_functions w → encryption_key w1 = encryption_key w →
    session_maxpacketsize w1 = session_maxpacketsize w → srppssrc w1 = srppssrc w →
    sent w1 = sent w → inbox w1 = inbox w → send_external w1 = send_external w →
    waits (handle_signal recv m1;; mret (@None SRPPMessage)) w1 Q) →
  waits (processReceivedData recv W (Z.of_nat (length W))) w Q.
Proof using.
  intros. unfold waits in *. by apply (process_signal recv W kind opts w (λ r, match r with
    | Wait w' => Q w' | _ => False end)).
Qed.

Lemma process_signal_runs recv W kind opts w (Q : option SRPPMessage → world → Prop) :
  is_word 32 (srppssrc w) → signaling_by_srpp w = 1 → hears W kind opts → kind ≠ 0 →
  (∀ m1 w1, srpp_signalling (srpp_header m1) = kind →
    original_payload (encrypted_part m1) = opts ++ replicate 8 0 →
    signaling_functions w1 = signaling_functions w → encryption_key w1 = encryption_key w →
    session_maxpacketsize w1 = session_maxpacketsize w → srppssrc w1 = srppssrc w →
    sent w1 = sent w → inbox w1 = inbox w → send_external w1 = send_external w →
    runs (handle_signal recv m1;; mret (@None SRPPMessage)) w1 Q) →
  runs (processReceivedData recv W (Z.of_nat (length W))) w Q.
Proof using.
  intros. unfold runs in *. by apply (process_signal recv W kind opts w (λ r, match r with
    | Done a w' => Q a w' | _ => False end)).
Qed.

(** an idle endpoint that receives a HELLO adopts the key and the smaller
    maximum, answers, and waits for the HELLOACK *)
Lemma hello_received recv W key psize w :
  idle w → hears W 12 (hello_options key psize) → 0 <= key < 65535 → 0 <= psize < 10 ^ 5 →
  (∀ w, inbox w = [] → recv w = Wait w) → inbox w = [] →
  waits (processReceivedData recv W (Z.of_nat (length W))) w (λ w',
    encryption_key w' = key ∧
    session_maxpacketsize w' = Z.min psize (session_maxpacketsize w) ∧
    signaling_functions w' = with_helloacksent 1 (with_hellorecvd 1 SignalingFunctions) ∧
    ∃ ack, sent w' = sent w ++ [ack] ∧
      hears ack 13 (helloack_options (Z.min psize (session_maxpacketsize w)))).
Proof using.
  intros (Hsig & Hs & Hby & Hen & Hmax & Hx) HW Hk Hp Hrecv Hin.
  apply (process_signal_waits recv W 12 (hello_options key psize)); [done..|].
  intros m1 w1 Hk1 Hpay F1 F2 F3 F4 F5 F6 F7.
  apply waits_here. unfold handle_signal. rewrite Hk1. change (12 =? 12) with true. cbv iota.
  rewrite Hpay, hello_key, hello_psize by lia.
  apply waits_bind. sstep. rewrite wrap_small by (unfold is_word; lia).
  apply waits_bind. mcall (adopt_max_runs psize _) as u w2 (M1 & M2 & M3 & M4 & M5 & M6 & M7).
  simpl in M1, M2, M3, M4, M5, M6, M7. clear u.
  apply waits_here. unfold receivedHelloMessage. apply waits_bind. sstep.
  unfold sendHelloAckMessage. apply waits_bind. sstep. cbn [signaling_functions set_signaling].
  rewrite M2, F1, Hsig. cbn [with_hellorecvd SignalingFunctions hellorecvd hellosent helloacksent helloackrecvd
    Z.eqb Pos.eqb negb andb orb].
  apply waits_bind. sstep. set (w3 := set_signaling _ w2).
  assert (session_maxpacketsize w3 = Z.min psize (session_maxpacketsize w)) as Hm3
    by (unfold w3; simpl; congruence).
  rewrite Hm3. set (opts := helloack_options _).
  pose proof (helloack_options_text (Z.min psize (session_maxpacketsize w))) as Ht. fold opts in Ht.
  apply waits_bind. eapply runs_mono; [apply (signal_message_runs 13 opts w3);
    [unfold w3; simpl; congruence|done|by apply text_bytes]|].
  cbv beta. intros m w4 (S4 & E4 & Hwf & Hcc & Hkm & Hpt & He).
  apply waits_bind. eapply runs_mono; [apply (send_signal_runs m 13 opts w4); try done;
    [apply helloack_nonempty|rewrite (keep_external _ _ S4); unfold w3; simpl; congruence]|].
  cbv beta. intros st w5 (S5 & ack & E5 & Hack).
  assert (same_session w3 w5) as [J1 J2 J3 J4 J5 J6 J7 _] by by etrans.
  apply waits_bind. sstep. apply waits_bind. sstep. cbn [signaling_functions set_signaling].
  rewrite J1. unfold w3. cbn [signaling_functions set_signaling signaling_complete with_helloacksent].
  change (0 =? 0) with true. cbv iota. apply waits_here, waits_here.
  unfold waits. rewrite Hrecv by (simpl; rewrite J7; unfold w3; simpl; congruence).
  simpl. split_and!.
  - rewrite J2. unfold w3. simpl. congruence.
  - rewrite J3. exact Hm3.
  - done.
  - exists ack. split; [|done]. rewrite E5, E4. unfold w3. simpl. congruence.
Qed.

(** an endpoint that has announced itself and receives the HELLOACK is done *)
Lemma helloack_received recv W psize w :
  signaling_functions w = with_hellosent 1 SignalingFunctions →
  is_word 32 (srppssrc w) → signaling_by_srpp w = 1 →
  hears W 13 (helloack_options psize) → 0 <= psize < 10 ^ 5 → send_external w = 0 →
  runs (processReceivedData recv W (Z.of_nat (length W))) w (λ _ w',
    encryption_key w' = encryption_key w ∧
    session_maxpacketsize w' = Z.min psize (session_maxpacketsize w) ∧
    signaling_complete (signaling_functions w') = 1 ∧
    hellosent (signaling_functions w') = 0 ∧ helloacksent (signaling_functions w') = 1).
Proof using.
  intros Hsig Hs Hby HW Hp Hx.
  apply (process_signal_runs recv W 13 (helloack_options psize)); [done..|].
  intros m1 w1 Hk1 Hpay F1 F2 F3 F4 F5 F6 F7.
  mstep. unfold handle_signal. rewrite Hk1. change (13 =? 12) with false. change (13 =? 13) with true.
  cbv iota. rewrite Hpay, helloack_psize by lia.
  mstep. mcall (adopt_max_runs psize w1) as u w2 (M1 & M2 & M3 & M4 & M5 & M6 & M7). clear u.
  mstep. unfold receivedHelloAckMessage. do 6 sstep.
  cbn [signaling_functions set_signaling].
  rewrite M2, F1, Hsig.
  cbn [with_hellosent with_helloackrecvd SignalingFunctions helloacksent].
  change (0 =? 0) with true. cbv iota. sstep. unfold sendHelloAckMessage. sstep. sstep.
  cbn [signaling_functions set_signaling with_signaling_complete with_hellosent with_helloackrecvd
    SignalingFunctions hellorecvd hellosent helloacksent helloackrecvd
    Z.eqb Pos.eqb negb andb orb].
  sstep. sstep. set (w3 := set_signaling _ _).
  assert (session_maxpacketsize w3 = Z.min psize (session_maxpacketsize w)) as Hm3
    by (unfold w3; simpl; congruence).
  rewrite Hm3. set (opts := helloack_options (Z.min _ _)).
  pose proof (helloack_options_text (Z.min psize (session_maxpacketsize w))) as Ht. fold opts in Ht.
  mstep. eapply runs_mono; [apply (signal_message_runs 13 opts w3);
    [unfold w3; simpl; congruence|done|by apply text_bytes]|].
  cbv beta. intros m w4 (S4 & E4 & Hwf & Hcc & Hkm & Hpt & He).
  mstep. eapply runs_mono; [apply (send_signal_runs m 13 opts w4); try done;
    [apply helloack_nonempty|rewrite (keep_external _ _ S4); unfold w3; simpl; congruence]|].
  cbv beta. intros st w5 (S5 & ack & E5 & Hack).
  assert (same_session w3 w5) as [J1 J2 J3 J4 J5 J6 J7 _] by by etrans.
  do 4 sstep. cbn [signaling_functions set_signaling]. rewrite J1. unfold w3.
  cbn [signaling_functions set_signaling signaling_complete with_helloacksent with_signaling_complete].
  change (1 =? 0) with false. cbv iota. do 9 sstep. split_and!; try done.
  - simpl. rewrite J2. unfold w3. simpl. congruence.
  - simpl. rewrite J3. exact Hm3.
Qed.

End Signals.

(** ** Properties *)

Lemma receive_empty {E : Env} fuel w : inbox w = [] → receive_message (S fuel) w = Wait w.
Proof. intros Hi. cbn [receive_message]. by rewrite Hi. Qed.

(** C15: the handshake agrees: an idle endpoint [a] announces itself with five
    HELLOs and waits; whichever of them an idle endpoint [b] receives, it answers
    with one HELLOACK; with that answer [a]'s signalling succeeds, and both ends
    have the same key and the same maximum packet size, the smaller of the two. *)
Theorem handshake_agreement {E : Env} a b :
  env_ok E → idle a → idle b → inbox a = [] → inbox b = [] →
  ∃ hellos a1, sendHelloMessage (receive_message 1) a = Wait a1 ∧
    sent a1 = sent a ++ hellos ∧ length hellos = 5%nat ∧
    ∀ hello, hello ∈ hellos →
    ∃ ack b1 a2, receive_message 2 (set_inbox [hello] b) = Wait b1 ∧
      sent b1 = sent b ++ [ack] ∧
      sendHelloMessage (receive_message 1) (set_inbox [ack] a) = Done 0 a2 ∧
      signaling_complete (signaling_functions a2) = 1 ∧
      encryption_key a2 = encryption_key b1 ∧
      session_maxpacketsize a2 = session_maxpacketsize b1 ∧
      session_maxpacketsize b1 = Z.min (session_maxpacketsize a) (session_maxpacketsize b).
Proof.
  intros Henv Ha Hb Hia Hib.
  destruct (sendHello_announces Henv (receive_message 1) a Ha)
    as (a1 & (_ & _ & _ & _ & Hi1 & _ & _ & Ws & Hs1 & Hl1 & HW) & Ea).
  exists Ws, a1. split_and!; try done.
  { rewrite Ea. apply bind_Wait. apply receive_empty. congruence. }
  intros hello Hin. apply list_elem_of_lookup in Hin as [i Hi].
  apply (Forall_lookup_1 _ _ _ _ HW) in Hi as HWi. clear HW. rename HWi into HW.
  pose proof (offered_key_range Henv a) as Hkey. pose proof Ha as (_ & _ & _ & _ & Hma & _).
  pose proof Hb as (_ & _ & _ & _ & Hmb & _).
  destruct (waits_Wait _ _ _ (hello_received (receive_message 1) hello (offered_key a)
    (session_maxpacketsize a) (set_inbox [] b) Hb HW Hkey Hma (receive_empty 0) eq_refl))
    as (b1 & Eb & Kb & Mb & _ & ack & Sb & Hack).
  set (a' := set_inbox [ack] a).
  destruct (sendHello_announces Henv (receive_message 1) a' Ha)
    as (a1' & (Ka & Ma & Ssa & Bya & Ia & Xa & Siga & _) & Ea').
  simpl in Mb, Hack, Sb. simpl in Ia, Ma.
  destruct (runs_Done _ _ _ (helloack_received (E := E) (receive_message 0) ack _
    (set_inbox [] a1') Siga Ssa Bya Hack ltac:(lia) Xa)) as (o & a2 & E2 & K2 & M2 & C2 & _).
  exists ack, b1, a2. split_and!; [exact Eb|exact Sb| |done| | |lia].
  - fold a'. rewrite Ea'. erewrite bind_Done; [|cbn [receive_message]; rewrite Ia; exact E2].
    destruct (Z.to_nat 120000); cbn [wait_loop];
      (erewrite bind_Done; [|unfold flag, gets; rewrite C2; reflexivity]); done.
  - rewrite K2, Kb. exact Ka.
  - rewrite M2, Mb. simpl. rewrite Ma. lia.
Qed.

Definition idle_world (max : Z) : world :=
  mk_world 0 10000 0 19 1464 0
    (mk_padding (replicate 100 sample_dummy) 0 0 0 0 0 100)
    (mk_timer 300 400 17 18 false false) SignalingFunctions
    1655 max 9000 3 1 0 [] [] 0 (initial sample_dummy).

Lemma idle_world_idle max : 0 <= max < 10 ^ 5 → idle (idle_world max).
Proof. intros Hm. unfold idle. by split_and!; try apply Hm. Qed.

Lemma handshake_agreement_witness :
  ∃ hellos a1, @sendHelloMessage sample_env (@receive_message sample_env 1) (idle_world 1464) = Wait a1 ∧
    sent a1 = [] ++ hellos ∧ length hellos = 5%nat ∧
    ∀ hello, hello ∈ hellos →
    ∃ ack b1 a2, @receive_message sample_env 2 (set_inbox [hello] (idle_world 1000)) = Wait b1 ∧
      sent b1 = [] ++ [ack] ∧
      @sendHelloMessage sample_env (@receive_message sample_env 1) (set_inbox [ack] (idle_world 1464)) =
        Done 0 a2 ∧
      signaling_complete (signaling_functions a2) = 1 ∧
      encryption_key a2 = encryption_key b1 ∧
      session_maxpacketsize a2 = session_maxpacketsize b1 ∧
      session_maxpacketsize b1 = Z.min 1464 1000.
Proof.
  apply (@handshake_agreement sample_env (idle_world 1464) (idle_world 1000));
    [apply sample_env_ok|apply idle_world_idle; lia|apply idle_world_idle; lia|reflexivity|reflexivity].
Defined.

(** the end of a session is not announced: a BYE has no payload, and
    [send_message] transmits nothing for a message without one; the endpoint
    then waits for an answer to a message it has not sent. *)
Theorem bye_not_transmitted {E : Env} fuel w :
  is_word 32 (srppssrc w) → srpp_enabled w ≠ 0 → signaling_by_srpp w = 1 → inbox w = [] →
  ∃ w', stop_session (receive_message (S fuel)) w = Wait w' ∧
    sent w' = sent w ∧ byesent (signaling_functions w') = 1.
Proof.
  intros Hs Hen Hby Hi. apply waits_Wait.
  unfold stop_session, session_stop. apply waits_bind. sstep. apply waits_bind. sstep.
  cbn [srpp_enabled set_timer]. rewrite (proj2 (Z.eqb_neq _ 0)) by done.
  apply waits_bind. sstep. cbn [signaling_by_srpp set_timer]. rewrite Hby.
  change (1 =? 1) with true. cbv iota. do 2 apply waits_here. unfold sendByeMessage.
  set (w0 := set_timer _ w).
  apply waits_bind. eapply runs_mono; [apply (signal_message_runs 22 [] w0); [done|done|constructor]|].
  cbv beta. intros m w1 (S1 & E1 & _ & _ & _ & _ & He).
  apply waits_bind. unfold send_message. rewrite He. cbn [original_payload]. sstep.
  apply waits_bind. sstep. apply waits_bind.
  destruct S1 as [J1 J2 J3 J4 J5 J6 J7].
  eapply runs_mono; [apply new_message_runs; simpl; by rewrite J4|].
  cbv beta. intros m' w2 ([n ->] & _). apply waits_here. unfold waits.
  rewrite receive_empty by (simpl; by rewrite J7). simpl. rewrite E1. done.
Qed.

Lemma bye_not_transmitted_witness :
  ∃ w', @stop_session sample_env (@receive_message sample_env 1) (idle_world 1464) = Wait w' ∧
    sent w' = [] ∧ byesent (signaling_functions w') = 1.
Proof.
  apply (@bye_not_transmitted sample_env 0 (idle_world 1464)); [eval_dec|discriminate|reflexivity|reflexivity].
Defined.

(** while SRPP is enabled and was negotiated in band, no media packet is
    handed to the caller: [processReceivedData] takes neither branch and ends
    without a message, after counting the packet or not. *)
Theorem media_not_delivered {E : Env} recv buff bytes w :
  is_word 32 (srppssrc w) → signaling_by_srpp w = 1 → srpp_enabled w ≠ 0 →
  hellosent (signaling_functions w) = 0 →
  isSignalingMessage_buff buff = Some (-1) →
  ∃ w', processReceivedData recv buff bytes w = Done None w'.
Proof.
  intros Hs Hby Hen Hh Hb. unfold processReceivedData.
  destruct (runs_Done _ _ _ (create_srpp_message_runs [] w Hs (Forall_nil_2 _)))
    as (m0 & w0 & Em & [n ->] & _).
  rewrite (bind_Done _ _ _ _ _ Em). set (w1 := set_clock n _).
  rewrite (bind_Done (gets id) _ w1 w1 w1) by done.
  change (signaling_by_srpp w1) with (signaling_by_srpp w). rewrite Hby.
  change (1 =? 0) with false. cbn [andb].
  rewrite (bind_Done (lift _) _ w1 (-1) w1) by (unfold lift; by rewrite Hb).
  change (-1 =? 1) with false. cbv iota.
  assert (verifySignalling recv buff w1 = Done 0 w1) as Ev.
  { unfold verifySignalling. rewrite (bind_Done (flag hellosent) _ w1 0 w1); [done|].
    unfold flag, gets. change (signaling_functions w1) with (signaling_functions w). by rewrite Hh. }
  rewrite (bind_Done (v ← verifySignalling recv buff; enabled ← gets srpp_enabled;
    mret ((v =? 0) && (enabled =? 0))) _ w1 false w1); [by exists w1|].
  rewrite (bind_Done _ _ _ _ _ Ev), (bind_Done (gets srpp_enabled) _ w1 (srpp_enabled w1) w1) by done.
  change (srpp_enabled w1) with (srpp_enabled w). by rewrite (proj2 (Z.eqb_neq (srpp_enabled w) 0)).
Qed.

Lemma media_not_delivered_witness :
  ∃ w', @processReceivedData sample_env (@receive_message sample_env 1)
    (header_image sample_hdr ++ replicate 40 1) 120 (sample_world 0 0 1655) = Done None w'.
Proof.
  apply (@media_not_delivered sample_env _ _ _ (sample_world 0 0 1655));
    [eval_dec|reflexivity|discriminate|reflexivity|vm_compute; reflexivity].
Defined.
