(* ===== verification/Keep.v ===== *)
(** * Invariants of the filter's globals

    A logic for what operations do to the globals of the packet filter, which
    the SRPP library changes only by sending: [agree P W m m'] says that from a
    state with [P] the two runs are the same, that [P] holds again when they end,
    and [W] when they wait.  With [m' = m] it is preservation of [P], and with
    an empty [W], that the run does not wait.  Two different runs are needed for
    the recursion between the filter and the library: they are a function
    applied to two receives.

    The operations of [Srpp] and [Signaling] are shown to respect every [P]
    that [send_rtp_message] respects; the lemmas are the hint database [keep]. *)

From S2P Require Import Prelude SrppMessage Discovery FilterState Srpp Signaling.

Create HintDb keep.

Definition ends {A} (P W : filter → Prop) (r : run A) : Prop :=
  match r with Done _ w => P (host w) | Wait w => W (host w) | Fault => True end.

Definition agree {A} (P W : filter → Prop) (m m' : M A) : Prop :=
  ∀ w, P (host w) → m w = m' w ∧ ends P W (m w).

Abbreviation keeps P W m := (agree P W m m).

Lemma agree_bind {A B} P W (m m' : M A) (f f' : A → M B) :
  agree P W m m' → (∀ a, agree P W (f a) (f' a)) → agree P W (m ≫= f) (m' ≫= f').
Proof.
  intros Hm Hf w Hw. destruct (Hm w Hw) as [He HP]. unfold mbind, M_bind. rewrite <-He.
  destruct (m w) as [a w'|w'|]; [by apply Hf|done..].
Qed.

(** the state before a read is known to the rest *)
Lemma agree_gets_bind {A B} P W (g : world → A) (f f' : A → M B) :
  (∀ w, P (host w) → f (g w) w = f' (g w) w ∧ ends P W (f (g w) w)) →
  agree P W (gets g ≫= f) (gets g ≫= f').
Proof. intros H w Hw. exact (H w Hw). Qed.

Lemma agree_ret {A} P W (a : A) : keeps P W (mret a).
Proof. done. Qed.
Lemma agree_gets {A} P W (g : world → A) : keeps P W (gets g).
Proof. done. Qed.
Lemma agree_lift {A} P W (o : option A) : keeps P W (lift o).
Proof. intros w Hw. unfold lift. by destruct o. Qed.
Lemma agree_tick {E : Env} {A} P W (f : nat → A) : keeps P W (tick f).
Proof. done. Qed.
Lemma agree_fault {A} P W : keeps P W ((λ _, Fault) : M A).
Proof. done. Qed.
Lemma agree_modify P W f : (∀ w, P (host w) → P (host (f w))) → keeps P W (modify f).
Proof. intros H w Hw. split; [done|]. by apply H. Qed.
Lemma agree_modify_lib P W f : (∀ w, host (f w) = host w) → keeps P W (modify f).
Proof. intros H. apply agree_modify. intros w. by rewrite H. Qed.
Lemma agree_timer P W f : keeps P W (timer_op f).
Proof. by apply agree_modify_lib. Qed.
Lemma agree_signal P W f : keeps P W (signal_op f).
Proof. by apply agree_modify_lib. Qed.
Lemma agree_flag P W f : keeps P W (flag f).
Proof. done. Qed.

Lemma agree_for {A} P W n j (f f' : Z → A → M A) a :
  (∀ i b, agree P W (f i b) (f' i b)) → agree P W (m_for n j f a) (m_for n j f' a).
Proof.
  intros Hf. revert j a. induction n as [|n IH]; intros j a; cbn [m_for]; [done|].
  apply agree_bind; [apply Hf|]. intros b. apply IH.
Qed.

#[export] Hint Resolve agree_ret agree_gets agree_lift agree_tick agree_fault agree_timer agree_signal
  agree_flag : keep.
#[export] Hint Extern 2 (agree _ _ (modify _) (modify _)) => apply agree_modify_lib; reflexivity : keep.

(** binds, conditionals and loops, down to operations of the hint database *)
Ltac keep :=
  intros;
  lazymatch goal with
  | |- agree _ _ (if ?b then _ else _) _ => destruct b; keep
  | |- agree _ _ (match ?x with _ => _ end) _ => destruct x; keep
  | |- agree _ _ (m_for _ _ _ _) _ => apply agree_for; keep
  | |- agree _ _ (mbind _ _) _ => first [solve [eauto with keep] | apply agree_bind; keep]
  | |- _ => eauto with keep
  end.

Tactic Notation "keep_in" reference(d) := unfold d; keep.

Section Library.
Context {E : Env} (P W : filter → Prop).

Lemma keep_srpp_rand a b : keeps P W (srpp_rand a b).
Proof. keep_in srpp_rand. Qed.
#[local] Hint Resolve keep_srpp_rand : keep.

Lemma keep_new_message : keeps P W new_message.
Proof. keep_in new_message. Qed.
#[local] Hint Resolve keep_new_message : keep.

Lemma keep_create_srpp_message d : keeps P W (create_srpp_message d).
Proof. keep_in create_srpp_message. Qed.
#[local] Hint Resolve keep_create_srpp_message : keep.

Lemma keep_random_char : keeps P W random_char.
Proof. keep_in random_char. Qed.
#[local] Hint Resolve keep_random_char : keep.

Lemma keep_cache_get i : keeps P W (cache_get i).
Proof. keep_in cache_get. Qed.
Lemma keep_cache_set i m : keeps P W (cache_set i m).
Proof. keep_in cache_set. Qed.
#[local] Hint Resolve keep_cache_get keep_cache_set : keep.

Lemma keep_PaddingFunctions : keeps P W PaddingFunctions.
Proof. keep_in PaddingFunctions. Qed.

Lemma keep_dummy_data_loop fuel i n s : keeps P W (dummy_data_loop fuel i n s).
Proof. revert s. induction fuel; intros s; cbn [dummy_data_loop]; keep. Qed.
#[local] Hint Resolve keep_dummy_data_loop : keep.

Lemma keep_generate_dummy_data n : keeps P W (generate_dummy_data n).
Proof. keep_in generate_dummy_data. Qed.
Lemma keep_generate_dummy_pkt_size n : keeps P W (generate_dummy_pkt_size n).
Proof. keep_in generate_dummy_pkt_size. Qed.
Lemma keep_add_to_dummy_cache m : keeps P W (add_to_dummy_cache m).
Proof. keep_in add_to_dummy_cache. Qed.
Lemma keep_psp_extra_size n : keeps P W (psp_extra_size n).
Proof. keep_in psp_extra_size. Qed.
#[local] Hint Resolve keep_generate_dummy_data keep_generate_dummy_pkt_size keep_add_to_dummy_cache
  keep_psp_extra_size : keep.

Lemma keep_pad m : keeps P W (pad m).
Proof. unfold pad, packet_size_padding, default_psp_pad_algo, resetPacketTimer, resetSilenceTimer. keep. Qed.
Lemma keep_encrypt_srpp m : keeps P W (encrypt_srpp m).
Proof. keep_in encrypt_srpp. Qed.
Lemma keep_decrypt_srpp m : keeps P W (decrypt_srpp m).
Proof. keep_in decrypt_srpp. Qed.
#[local] Hint Resolve keep_pad keep_encrypt_srpp keep_decrypt_srpp : keep.

Lemma keep_rtp_to_srpp r d : keeps P W (rtp_to_srpp r d).
Proof. unfold rtp_to_srpp, protect. keep. Qed.
Lemma keep_forward_rtp m : keeps P W (forward_rtp m).
Proof. unfold forward_rtp, srpp_to_rtp, create_rtp_message, new_rtp_message. keep. Qed.
Lemma keep_srpp_to_srtp m n : keeps P W (srpp_to_srtp m n).
Proof. keep_in srpp_to_srtp. Qed.

(** ** Operations that send *)

Hypothesis Hsend : ∀ f status last buff n r,
  send_rtp_message status last buff n f = Some r → P f → P r.2.

Lemma keep_transmit out : keeps P W (transmit out).
Proof using Hsend.
  unfold transmit. apply agree_bind; [keep|]. intros _. apply agree_bind; [keep|]. intros status.
  apply agree_bind; [keep|]. intros ext. destruct (ext =? 1); [|keep].
  apply agree_bind; [keep|]. intros last. apply agree_gets_bind. intros w Hw.
  unfold mbind, M_bind, lift. destruct (send_rtp_message _ _ _ _ _) as [r|] eqn:Er; [|done].
  split; [done|]. simpl. by apply Hsend in Er.
Qed.
#[local] Hint Resolve keep_transmit : keep.

Lemma keep_send_message m : keeps P W (send_message m).
Proof using Hsend. keep_in send_message. Qed.
#[local] Hint Resolve keep_send_message : keep.

Lemma keep_cbp_loop n : keeps P W (cbp_loop n).
Proof using Hsend. induction n; cbn [cbp_loop]; unfold resetPacketTimer, resetSilenceTimer; keep. Qed.
#[local] Hint Resolve keep_cbp_loop : keep.

Lemma keep_timer_fired : keeps P W timer_fired.
Proof using Hsend.
  unfold timer_fired, pkt_timer_fired, silence_timer_fired, current_burst_padding, default_cbp_pad_algo,
    extra_burst_padding, default_ebp_pad_algo, resetPacketTimer. keep.
Qed.

Lemma keep_signal_message k o : keeps P W (signal_message k o).
Proof. keep_in signal_message. Qed.
#[local] Hint Resolve keep_signal_message : keep.

Lemma keep_send_hellos n o : keeps P W (send_hellos n o).
Proof using Hsend. induction n; cbn [send_hellos]; keep. Qed.
#[local] Hint Resolve keep_send_hellos : keep.

(** ** Operations that receive *)

Context (recv recv' : receiver) (Hrecv : agree P W recv recv').
#[local] Hint Resolve Hrecv : keep.

Lemma keep_wait_loop c n : agree P W (wait_loop c recv n) (wait_loop c recv' n).
Proof using Hrecv. induction n; cbn [wait_loop]; keep. Qed.
#[local] Hint Resolve keep_wait_loop : keep.

Lemma keep_sendHello : agree P W (sendHelloMessage recv) (sendHelloMessage recv').
Proof using Hsend Hrecv. unfold sendHelloMessage, setKey. keep. Qed.
Lemma keep_sendHelloAck : agree P W (sendHelloAckMessage recv) (sendHelloAckMessage recv').
Proof using Hsend Hrecv. keep_in sendHelloAckMessage. Qed.
Lemma keep_sendByeAck : keeps P W sendByeAckMessage.
Proof using Hsend. keep_in sendByeAckMessage. Qed.
Lemma keep_sendBye : agree P W (sendByeMessage recv) (sendByeMessage recv').
Proof using Hsend Hrecv. keep_in sendByeMessage. Qed.
#[local] Hint Resolve keep_sendHello keep_sendHelloAck keep_sendByeAck keep_sendBye : keep.

Lemma keep_stop_session : agree P W (stop_session recv) (stop_session recv').
Proof using Hsend Hrecv. unfold stop_session, session_stop. keep. Qed.
Lemma keep_start_session : agree P W (start_session recv) (start_session recv').
Proof using Hsend Hrecv. unfold start_session, signaling, session_start. keep. Qed.
#[local] Hint Resolve keep_stop_session : keep.

Lemma keep_verifySignalling b : agree P W (verifySignalling recv b) (verifySignalling recv' b).
Proof using Hsend Hrecv. keep_in verifySignalling. Qed.

Lemma keep_handle_signal m : agree P W (handle_signal recv m) (handle_signal recv' m).
Proof using Hsend Hrecv.
  unfold handle_signal, setKey, adopt_max, receivedHelloMessage, receivedHelloAckMessage,
    receivedByeMessage, receivedByeAckMessage. keep.
Qed.
#[local] Hint Resolve keep_verifySignalling keep_handle_signal : keep.

Lemma keep_processReceivedData b n :
  agree P W (processReceivedData recv b n) (processReceivedData recv' b n).
Proof using Hsend Hrecv. keep_in processReceivedData. Qed.

End Library.
