(* ===== verification/Sip.v ===== *)
(** * The packet filter: SIP messages and firewall rules

    Models the part of [src/sqrkal_discovery/sqrkal_discovery.cpp] that follows a
    call: [parse_sip] with the searches it does in the text of a message, the
    rules it adds to the firewall and removes, and [stop_discovering].

    The text of a message is the list of its octets.  [std::string::find] and its
    like return a [size_t], which the code puts into an [unsigned int]: the width
    of [size_t] is the parameter [size_bits], so that the comparisons with
    [string::npos] are those of a 32-bit and of a 64-bit host.  A local variable
    that was not assigned is [None].  [substr] behind the end of a string throws,
    and nobody catches: a [Fault].

    The name service, the conversion of addresses, the interfaces of the host and
    the status of a command are the class [Net]. *)

From Stdlib Require Import String Ascii.
From S2P Require Import Prelude SrppMessage Discovery FilterState Srpp Signaling.

Class Net := {
  size_bits : Z;                              (** width of [size_t] *)
  inet_addr : list Z → Z;
  inet_pton : list Z → bool;                  (** is it an address? *)
  gethostbyname : nat → list Z → option Z;    (** the first address *)
  interfaces : nat → list Z;                  (** [SIOCGIFCONF] *)
  system_status : nat → Z;
  rand_value : nat → Z;
  ipq_handle : nat → bool;                    (** [ipq_create_handle] and [ipq_set_mode] *)
  raw_socket : nat → Z;                       (** [socket] *)
  setsockopt_status : nat → Z }.

(** ** [std::string] *)

(** the octets begin with those of the pattern *)
Fixpoint starts (pat s : list Z) : bool :=
  match pat, s with
  | [], _ => true
  | p :: pat, c :: s => (p =? c) && starts pat s
  | _ :: _, [] => false
  end.

(** the first index at which a test of the rest of the string holds *)
Fixpoint search (test : list Z → bool) (s : list Z) : option nat :=
  if test s then Some O else
  match s with
  | [] => None
  | _ :: s => option_map S (search test s)
  end.

(** the next octet is one of a set *)
Definition head_in (set s : list Z) : bool :=
  match s with c :: _ => bool_decide (c ∈ set) | [] => false end.

Section Strings.
Context {N : Net}.

Definition npos : Z := 2 ^ size_bits - 1.

Definition search_from (test : list Z → bool) (s : list Z) (pos : Z) : Z :=
  if Z.of_nat (length s) <? pos then npos else
  match search test (drop (Z.to_nat pos) s) with
  | Some i => pos + Z.of_nat i
  | None => npos
  end.

Definition find (s : list Z) (pat : string) (pos : Z) : Z := search_from (starts (octets pat)) s pos.
Definition find_one_of (s : list Z) (set : list Z) (pos : Z) : Z := search_from (head_in set) s pos.

(** [s.find(pat) != string::npos] *)
Definition has (s : list Z) (pat : string) : bool := negb (find s pat 0 =? npos).
Definition has_from (s : list Z) (pat : string) (pos : Z) : bool := negb (find s pat pos =? npos).

Definition substr (s : list Z) (pos n : Z) : option (list Z) :=
  if Z.of_nat (length s) <? pos then None else
  Some (take (Z.to_nat (Z.min n (Z.of_nat (length s)))) (drop (Z.to_nat pos) s)).

(** [atoi] of a number that is an [int] *)
Definition atoi_int (s : list Z) : option Z :=
  let n := atoi s in if (- 2 ^ 31 <=? n) && (n <? 2 ^ 31) then Some n else None.

End Strings.

(** ** Reading and writing the filter's globals *)

Definition fget {A} (g : filter → A) : M A := gets (λ w, g (host w)).
Definition fset (g : filter → filter) : M unit := modify (λ w, set_host (g (host w)) w).

Definition space : Z := 32.
Definition newline : Z := 10.
Definition colon : Z := 58.

Section Sip.
Context {E : Env} {N : Net}.

(** ** Firewall *)

Definition add_firewall_rule (rule : list Z) : M Z :=
  fset (on_rules (λ r, put_commands (commands r ++ [octets "iptables " ++ rule]) r));;
  tick system_status.

Definition proto (is_udp : bool) : list Z := if is_udp then octets "udp" else octets "tcp".
Definition operation (is_adding : bool) : list Z := if is_adding then octets "-A" else octets "-D".

(** the text of a rule: a chain, a protocol, a test of the ports *)
Definition rule (is_adding : bool) (chain : string) (is_udp : bool) (test : string) (port ttl : list Z)
  : list Z :=
  operation is_adding ++ space :: octets chain ++ octets " -p " ++ proto is_udp ++ octets test ++ port ++
  octets " -m ttl ! --ttl-eq " ++ ttl ++ octets " -j QUEUE".

Definition sip_rule (is_adding : bool) (chain : string) (is_udp : bool) (ttl : list Z) : list Z :=
  rule is_adding chain is_udp " --destination-port " (octets "5060") ttl.

(** two rules, the first of which is taken back when the second fails *)
Definition add_pair (is_adding : bool) (first second undo : list Z) (done : M Z) : M Z :=
  s ← add_firewall_rule first;
  if negb (s =? 0) && is_adding then mret (-1) else
  s ← add_firewall_rule second;
  if negb (s =? 0) && is_adding then add_firewall_rule undo;; mret (-1) else
  done.

Definition add_all_rules (is_adding is_udp : bool) : M Z :=
  r ← fget rules;
  if is_adding && ((negb (udp_added r =? 0) && is_udp) || (negb (tcp_added r =? 0) && negb is_udp))
  then mret 0 else
  (if is_adding then add_firewall_rule (octets " -F");; mret tt else mret tt);;
  ttl ← fget (λ f, srpp_ttl_s (route f));
  add_pair is_adding (sip_rule is_adding "INPUT" is_udp ttl) (sip_rule is_adding "OUTPUT" is_udp ttl)
    (sip_rule false "INPUT" is_udp ttl)
    (let added := if is_adding then 1 else 0 in
     fset (on_rules (if is_udp then put_udp_added added else put_tcp_added added));; mret 0).

(** [rtpport] has seven octets *)
Definition add_all_rtp_rules (is_adding is_udp : bool) : M Z :=
  r ← fget rules;
  if is_adding && negb (rtp_added r =? 0) then mret 0 else
  port ← fget (λ f, print_int (inport (call f)));
  lift (if (length port <? 7)%nat then Some tt else None);;
  fset (on_route (λ r, put_srpp_ttl_s (print_int (srpp_ttl r)) r));;
  ttl ← fget (λ f, srpp_ttl_s (route f));
  add_pair is_adding (rule is_adding "INPUT" is_udp " --destination-port " port ttl)
    (rule is_adding "OUTPUT" is_udp " --source-port " port ttl)
    (rule false "INPUT" is_udp " --destination-port " port ttl)
    (fset (on_rules (put_rtp_added (if is_adding then 1 else 0)));; mret 0).

(** ** Addresses *)

(** 1: one of the host's addresses *)
Definition isLocalIP (IP : list Z) : M Z :=
  addrs ← tick interfaces;
  mret (if bool_decide (inet_addr (c_str IP) ∈ addrs) then 1 else 0).

Definition isValidIpAddress (ipAddress : list Z) : bool := inet_pton (c_str ipAddress).

Definition set_dest (addr : Z) : filter → filter :=
  on_route (λ r, put_out_addr (put_sin_addr addr (out_addr r)) r).

(** the address stays as it is when the name is not known *)
Definition resolve_and_set (hostname : list Z) : M unit :=
  he ← tick (λ n, gethostbyname n (c_str hostname));
  match he with Some a => fset (set_dest a) | None => mret tt end.

(** port 5060 of a host given by its address or its name *)
Definition set_destination (hostname : list Z) : M unit :=
  (if isValidIpAddress hostname then fset (set_dest (inet_addr (c_str hostname)))
   else resolve_and_set hostname);;
  fset (on_route (λ r, put_out_addr (mk_sockaddr AF_INET (bswap16 5060) (sin_addr (out_addr r))) r)).

(** [last_out_dest = out_addr.sin_addr.s_addr] and back *)
Definition keep_dest : M unit := fset (on_route (λ r, put_last_out_dest (sin_addr (out_addr r)) r)).
Definition last_dest : M unit := fset (λ f, set_dest (last_out_dest (route f)) f).

(** ** The end *)

Definition stop_discovering (recv : receiver) : M unit :=
  a ← fget (λ f, apply_srpp (media f));
  (if a =? 1 then stop_session recv;; mret tt else mret tt);;
  fset (put_is_discovering 0);;
  fset (put_socket_open false);;
  add_all_rules false true;;
  mret tt.

(** ** Session description *)

(** the port after [m=audio]; the value of [m] *)
Definition sdp_port (message : list Z) (direction : Z) : M (option Z) :=
  let l := u32 (find message "m=audio " 0) in
  if l =? npos then mret None else
  let m := u32 (find_one_of message [space] (u32 (l + 8))) in
  s ← lift (substr message (u32 (l + 8)) (u32 (m - l - 8)));
  port ← lift (atoi_int s);
  fset (on_call (if direction =? 0 then put_outport port else put_inport port));;
  mret (Some m).

(** SRTP, RTP or SRPP; true: the application speaks SRPP itself, discovery stops *)
Definition sdp_profile (recv : receiver) (message : list Z) (m : option Z) (direction : Z) : M bool :=
  m ← lift m;
  if has_from message "RTP/SAVP " m || has_from message "zrtp" m then
    fset (on_call (put_is_srtp 1));; mret false
  else if has_from message "RTP/AVP " m then fset (on_call (put_is_srtp 0));; mret false
  else if has_from message "SRPP:" m then
    if direction =? 1 then stop_discovering recv;; mret true
    else fset (on_call (put_is_srpp 1));; mret false
  else mret false.

(** the address after [c=IN IP4] *)
Definition sdp_address (message : list Z) (direction : Z) : M unit :=
  let l := u32 (find message "c=IN IP4 " 0) in
  if l =? npos then mret tt else
  let m := u32 (find_one_of message [space; newline] (u32 (l + 9))) in
  s ← lift (substr message (u32 (l + 9)) (u32 (m - l - 9)));
  let a := inet_addr (c_str s) in
  fset (on_route (if direction =? 0 then put_rtp_dest a else put_rtp_src a)).

(** ** Messages *)

(** the pairs of sizes go to a file *)
Definition write_sizes : M unit :=
  m ← fget media;
  lift (if (length (output_packet_sizes m) <? length (input_packet_sizes m))%nat then None else Some tt);;
  fset (on_media (λ m, put_output_packet_sizes [] (put_input_packet_sizes []
    (put_sizes_txt (zip (input_packet_sizes m) (output_packet_sizes m)) m)))).

Definition parse_bye (recv : receiver) : M Z :=
  b ← fget (λ f, saw_bye_already (call f));
  if b =? 1 then mret (-1) else
  fset (on_call (put_saw_bye_already 1));;
  write_sizes;;
  fset (on_call (put_is_session_on 0));;
  a ← fget (λ f, apply_srpp (media f));
  (if a =? 1 then stop_session recv;; mret tt else mret tt);;
  add_all_rtp_rules false true;;
  fset (on_media (λ m, put_recv_count 0 (put_sent_count 0 m)));;
  fset (on_call (λ c, put_saw_bye_already 0 (put_saw_invite_already 0 c)));;
  last_dest;;
  mret 0.

(** 200 OK counts for a call of our own, ACK for a call with an INVITE *)
Definition note_reply (message : list Z) (direction : Z) (c : Call) : Call :=
  if has message "200 OK" then
    if (sent_invite c =? 1) && (direction =? 0) then put_saw_200ok 1 c else c
  else
    if (saw_invite_already c =? 1) && has message "Route:" then put_saw_ack 1 c else c.

Definition push_ports (c : Call) : Call := put_rtp_ports (rtp_ports c ++ [inport c; outport c]) c.

(** INVITE, 200 OK and ACK sent and received *)
Definition established (c : Call) : bool :=
  ((sent_invite c =? 0) && (saw_ack c =? 1)) ||
  ((sent_invite c =? 1) && (saw_200ok c =? 1) && (saw_ack c =? 1)).

Definition start_call (c : Call) : Call :=
  put_is_session_on 1 (put_saw_invite_already 0 (put_saw_200ok 0 (put_saw_ack 0 (put_sent_invite 0 c)))).

Definition parse_reply (recv : receiver) (message : list Z) (direction : Z) : M Z :=
  fset (on_call (note_reply message direction));;
  stop ← (if has message "Content-Type: application/sdp" then
            m ← sdp_port message direction; sdp_profile recv message m direction
          else mret false);
  if stop : bool then mret 0 else
  c ← fget call;
  if (inport c =? 0) || (outport c =? 0) then mret 0 else
  (if (is_session_on c =? 0) && negb (saw_invite_already c =? 0) then
     (if saw_ack c =? 0 then sdp_address message direction else mret tt);;
     fset (on_call push_ports);;
     (if established c then add_all_rtp_rules true true;; fset (on_call start_call) else mret tt)
   else mret tt);;
  last_dest;;
  mret 0.

Definition sip_host (host : list Z) : list Z := octets "sip." ++ host.

Definition parse_invite (recv : receiver) (message : list Z) (direction : Z) : M Z :=
  fset (on_call (put_saw_invite_already 1));;
  m ← sdp_port message direction;
  stop ← sdp_profile recv message m direction;
  if stop : bool then mret 0 else
  sdp_address message direction;;
  if direction =? 0 then mret 0 else
  fset (on_call (put_sent_invite 1));;
  let l := u32 (find message "INVITE sip:" 0) in
  let m := u32 (find message "@" (u32 (l + 11))) in
  let l := u32 (find message " " m) in
  s ← lift (substr message (u32 (m + 1)) (u32 (l - m - 1)));
  set_destination (sip_host s);;
  keep_dest;;
  mret 0.

(** the length is computed with the width of [size_t] *)
Definition parse_register (message : list Z) (direction : Z) : M Z :=
  let l := u32 (find message "REGISTER sip:" 0) in
  s ← lift (substr message (u32 (l + 13)) (wrap size_bits (find message " " (u32 (l + 13)) - l - 13)));
  set_destination (sip_host s);;
  (if direction =? 1 then keep_dest else mret tt);;
  mret 0.

Definition parse_subscribe (message : list Z) (direction : Z) : M Z :=
  let l := u32 (if has message "SUBSCRIBE sip:" then find message "SUBSCRIBE sip:" 0
                else find message "PUBLISH sip:" 0) in
  let m := u32 (find message "@" (u32 (l + 14))) in
  let l := u32 (find_one_of message [space; colon] m) in
  hostname ← lift (substr message (u32 (m + 1)) (u32 (l - m - 1)));
  (if direction =? 1 then isLocalIP hostname;; mret tt else mret tt);;
  set_destination hostname;;
  (if direction =? 1 then keep_dest else mret tt);;
  mret 0.

(** what a message is taken for, by the texts it contains *)
Inductive sip_kind := BYE | ERROR400 | REPLY | INVITE | REGISTER | SUBSCRIBE | OTHER.

Definition sip_kind_of (message : list Z) : sip_kind :=
  if has message "BYE " then BYE
  else if has message "SIP/2.0 4" then ERROR400
  else if has message "200 OK" || has message "ACK " then REPLY
  else if has message "INVITE sip:" && has message "Content-Type: application/sdp" then INVITE
  else if has message "REGISTER sip:" then REGISTER
  else if has message "SUBSCRIBE sip:" || has message "PUBLISH sip:" then SUBSCRIBE
  else OTHER.

(** the call is noted in [parsed] *)
Definition parse_sip (recv : receiver) (message : list Z) (direction : Z) : M Z :=
  fset (λ f, put_parsed (parsed f ++ [(message, direction)]) f);;
  match sip_kind_of message with
  | BYE => parse_bye recv
  | ERROR400 => last_dest;; mret 0
  | REPLY => parse_reply recv message direction
  | INVITE => parse_invite recv message direction
  | REGISTER => parse_register message direction
  | SUBSCRIBE => parse_subscribe message direction
  | OTHER => last_dest;; mret 0
  end.

End Sip.

(** steps of a run, with the filter's globals *)
Ltac fstep :=
  first [ mstep
        | lazymatch goal with
          | |- runs (fset _) _ _ => apply run_modify
          | |- runs (fget _) _ _ => apply run_gets
          | |- runs (tick _) _ _ => apply tick_runs
          | |- runs keep_dest _ _ => apply run_modify
          | |- runs last_dest _ _ => apply run_modify
          end ].

(** ** Searching *)

(** [size_t] has 32 or 64 bits *)
Definition net_ok (N : Net) : Prop := size_bits = 32 ∨ size_bits = 64.

Lemma starts_spec pat s : starts pat s = true ↔ ∃ r, s = pat ++ r.
Proof.
  revert s. induction pat as [|p pat IH]; intros s; simpl.
  - split; [|done]. intros _. by exists s.
  - destruct s as [|c s]; [split; [done|by intros [r Hr]]|].
    rewrite andb_true_iff, Z.eqb_eq, IH. split.
    + intros [-> [r ->]]. by exists r.
    + intros [r [= -> ->]]. split; [done|]. by exists r.
Qed.

(** the result of a search: the test holds there, and nowhere before *)
Lemma search_Some test s i :
  search test s = Some i ↔
  (i <= length s)%nat ∧ test (drop i s) = true ∧ ∀ j, (j < i)%nat → test (drop j s) = false.
Proof.
  revert i. induction s as [|c s IH]; intros i; cbn [search].
  - destruct (test []) eqn:Et; [|split; [done|]].
    + split; [intros [= <-]; split_and!; [done|done|lia]|].
      intros (H1 & _). simpl in H1. by assert (i = O) as -> by lia.
    + intros (H1 & H2 & _). simpl in H1. assert (i = O) as -> by lia. simpl in H2. congruence.
  - destruct (test (c :: s)) eqn:Et.
    + split; [intros [= <-]; split_and!; [simpl; lia|done|lia]|].
      intros (_ & _ & H3). destruct i as [|i]; [done|]. specialize (H3 O ltac:(lia)). simpl in H3. congruence.
    + destruct (search test s) as [k|] eqn:Es; simpl.
      * destruct (proj1 (IH k) eq_refl) as (J1 & J2 & J3). split.
        -- intros [= <-]. split_and!; [simpl; lia|done|]. intros [|j] Hj; [done|]. apply J3. lia.
        -- intros (H1 & H2 & H3). destruct i as [|i]; [simpl in H2; congruence|].
           f_equal. f_equal. simpl in H1, H2.
           destruct (Nat.lt_trichotomy k i) as [Hl|[->|Hl]]; [|done|].
           ++ specialize (H3 (S k) ltac:(lia)). simpl in H3. congruence.
           ++ specialize (J3 i Hl). congruence.
      * split; [done|]. intros (H1 & H2 & H3). destruct i as [|i]; [simpl in H2; congruence|].
        assert (search test s = Some i) as Hc; [|rewrite Es in Hc; done].
        rewrite Es. apply IH. split_and!; [simpl in H1; lia|done|]. intros j Hj. apply (H3 (S j)). lia.
Qed.

(** the first octet of a set *)
Lemma search_head set l x r :
  Forall (λ c, c ∉ set) l → x ∈ set → search (head_in set) (l ++ x :: r) = Some (length l).
Proof.
  intros Hl Hx. induction Hl as [|c l Hc _ IH]; cbn [search app head_in].
  - by rewrite bool_decide_true.
  - rewrite bool_decide_false, IH by done. done.
Qed.

Section Found.
Context {N : Net} (HN : net_ok N).

Lemma npos_value : npos = 2 ^ 32 - 1 ∨ npos = 2 ^ 64 - 1.
Proof using HN. unfold npos. destruct HN as [-> | ->]; auto. Qed.

Lemma find_found s pat i :
  search (starts (octets pat)) s = Some i → find s pat 0 = Z.of_nat i.
Proof using.
  intros Hs. unfold find, search_from. rewrite (proj2 (Z.ltb_ge _ 0)) by lia.
  change (Z.to_nat 0) with 0%nat. by rewrite drop_0, Hs.
Qed.

(** text at an index *)
Lemma find_at s pat i r :
  drop i s = octets pat ++ r → (i <= length s)%nat →
  has_from s pat (Z.of_nat i) = true ∨ Z.of_nat (length s) >= npos.
Proof using.
  intros Hd Hi. destruct (Z.lt_ge_cases (Z.of_nat (length s)) npos) as [Hl|]; [left|right; lia].
  unfold has_from, find, search_from. rewrite (proj2 (Z.ltb_ge _ (Z.of_nat i))) by lia.
  rewrite Nat2Z.id, Hd.
  assert (search (starts (octets pat)) (octets pat ++ r) = Some 0%nat) as ->.
  { apply search_Some. split_and!; [lia| |lia]. rewrite drop_0. apply starts_spec. by exists r. }
  apply negb_true_iff, Z.eqb_neq. lia.
Qed.

Lemma search_bound pat s i : search (starts pat) s = Some i → (i + length pat <= length s)%nat.
Proof using.
  intros (Hi & Ht & _)%search_Some. apply starts_spec in Ht as [r Hr].
  apply (f_equal length) in Hr. rewrite length_app, length_drop in Hr. lia.
Qed.

Lemma find_one_of_at s set i l x r :
  drop i s = l ++ x :: r → (i <= length s)%nat → Forall (λ c, c ∉ set) l → x ∈ set →
  find_one_of s set (Z.of_nat i) = Z.of_nat (i + length l).
Proof using.
  intros Hd Hi Hl Hx. unfold find_one_of, search_from. rewrite (proj2 (Z.ltb_ge _ (Z.of_nat i))) by lia.
  rewrite Nat2Z.id, Hd, search_head by done. lia.
Qed.

Lemma substr_at s i l r :
  drop i s = l ++ r → (i <= length s)%nat →
  substr s (Z.of_nat i) (Z.of_nat (length l)) = Some l.
Proof using.
  intros Hd Hi. unfold substr. rewrite (proj2 (Z.ltb_ge _ (Z.of_nat i))) by lia.
  pose proof (f_equal length Hd) as Hlen. rewrite length_app, length_drop in Hlen.
  rewrite Z.min_l, !Nat2Z.id, Hd by lia. by rewrite take_app_length.
Qed.

End Found.

Lemma u32_nat i : Z.of_nat i < 2 ^ 32 → u32 (Z.of_nat i) = Z.of_nat i.
Proof. intros. apply wrap_small. unfold is_word. lia. Qed.

(** ** Session descriptions *)

Section Offers.
Context {E : Env} {N : Net} (HN : net_ok N).

(** the first [m=audio] line has this port and one of the two profiles, the
    first [c=IN IP4] line this address *)
Definition offers (s : list Z) (port : Z) (addr : list Z) (srtp : Z) : Prop :=
  ∃ i j rest rest', Z.of_nat (length s) < 2 ^ 31 ∧
    search (starts (octets "m=audio ")) s = Some i ∧
    drop (i + 8) s = print_int port ++ space :: rest ∧
    (starts (octets "RTP/AVP ") rest = true ∨ starts (octets "RTP/SAVP ") rest = true) ∧
    srtp = (let m := Z.of_nat (i + 8 + length (print_int port)) in
            if has_from s "RTP/SAVP " m || has_from s "zrtp" m then 1 else 0) ∧
    search (starts (octets "c=IN IP4 ")) s = Some j ∧
    drop (j + 9) s = addr ++ newline :: rest' ∧ Forall (λ c, c ∉ [space; newline]) addr.

Lemma print_int_digits p : 0 <= p → Forall (λ c, c ∉ [space]) (print_int p).
Proof using.
  intros Hp. unfold print_int. rewrite (proj2 (Z.ltb_ge p 0)) by lia.
  eapply Forall_impl; [|by apply digits_range]. intros c Hc. unfold is_digit in Hc.
  rewrite list_elem_of_singleton. unfold space. lia.
Qed.

Lemma atoi_int_print p : 0 <= p < 2 ^ 31 → atoi_int (print_int p) = Some p.
Proof using.
  intros Hp. unfold atoi_int. rewrite <-(app_nil_r (print_int p)), atoi_print by (done || lia).
  cbv zeta. rewrite (proj2 (Z.leb_le (- 2 ^ 31) p)), (proj2 (Z.ltb_lt p (2 ^ 31))) by lia. done.
Qed.

Lemma sdp_port_runs s p a srtp d w (Q : option Z → world → Prop) :
  offers s p a srtp → 0 <= p < 65536 →
  (∀ m, (∀ recv w (Q : bool → world → Prop),
           Q false (set_host (on_call (put_is_srtp srtp) (host w)) w) →
           runs (sdp_profile recv s m d) w Q) →
    Q m (set_host (on_call (if d =? 0 then put_outport p else put_inport p) (host w)) w)) →
  runs (sdp_port s d) w Q.
Proof using HN.
  intros (i & j & rest & rest' & Hlen & Hi & Hp & Hprof & Hsrtp & _) Hport HQ.
  pose proof (search_bound _ _ _ Hi) as Hib. change (length (octets "m=audio ")) with 8%nat in Hib.
  pose proof (npos_value HN) as Hnp. unfold sdp_port.
  rewrite (find_found s "m=audio " i Hi), u32_nat by lia.
  rewrite (proj2 (Z.eqb_neq (Z.of_nat i) npos)) by lia.
  replace (Z.of_nat i + 8) with (Z.of_nat (i + 8)) by lia. rewrite (u32_nat (i + 8)) by lia.
  pose proof (f_equal length Hp) as Hl. rewrite length_app, length_drop in Hl. simpl length in Hl.
  rewrite (find_one_of_at s [space] (i + 8) (print_int p) space rest);
    [|done|lia|apply print_int_digits; lia|by constructor].
  set (m := (i + 8 + length (print_int p))%nat). assert (m < length s)%nat as Hm by (unfold m; lia).
  rewrite (u32_nat m) by lia.
  replace (Z.of_nat m - Z.of_nat i - 8) with (Z.of_nat (length (print_int p))) by (unfold m; lia).
  rewrite (u32_nat (length _)) by (unfold m in Hm; lia).
  fstep. eapply run_lift; [by apply (substr_at s (i + 8) (print_int p) (space :: rest)); [|lia]|].
  fstep. eapply run_lift; [apply atoi_int_print; lia|]. fstep. fstep. fstep.
  apply HQ. clear Q HQ. intros recv v Q HQ. unfold sdp_profile. fstep. eapply run_lift; [done|].
  fold m in Hsrtp. cbv zeta in Hsrtp.
  destruct (has_from s "RTP/SAVP " (Z.of_nat m) || has_from s "zrtp" (Z.of_nat m)) eqn:Esrtp.
  { rewrite Hsrtp in HQ. fstep. fstep. fstep. exact HQ. }
  assert (∀ pat, starts (octets pat) rest = true → has_from s pat (Z.of_nat m) = true) as Hfrom.
  { intros pat [r Hr]%starts_spec. unfold has_from, find, search_from.
    rewrite (proj2 (Z.ltb_ge _ (Z.of_nat m))) by lia. rewrite Nat2Z.id.
    assert (drop m s = space :: rest) as Hdm.
    { unfold m. rewrite <-drop_drop, Hp. by rewrite drop_app_length. }
    destruct (search (starts (octets pat)) (drop m s)) as [k|] eqn:Ek.
    - pose proof (proj1 (proj1 (search_Some _ _ _) Ek)) as Hk. rewrite length_drop in Hk.
      apply negb_true_iff, Z.eqb_neq. lia.
    - exfalso. rewrite Hdm in Ek. cbn [search] in Ek. destruct (starts _ (space :: rest)); [done|].
      destruct (search (starts (octets pat)) rest) eqn:Er; [done|].
      assert (search (starts (octets pat)) rest = Some 0%nat) as Hc; [|rewrite Er in Hc; done].
      apply search_Some. split_and!; [lia| |lia]. rewrite drop_0. apply starts_spec. by exists r. }
  destruct Hprof as [Hav|Hsav]; [|by rewrite (Hfrom _ Hsav) in Esrtp].
  rewrite (Hfrom _ Hav). rewrite Hsrtp in HQ. fstep. fstep. fstep. exact HQ.
Qed.

Lemma sdp_address_runs s p a srtp d w (Q : unit → world → Prop) :
  offers s p a srtp →
  Q tt (set_host (on_route (if d =? 0 then put_rtp_dest (inet_addr (c_str a))
                            else put_rtp_src (inet_addr (c_str a))) (host w)) w) →
  runs (sdp_address s d) w Q.
Proof using HN.
  intros (i & j & rest & rest' & Hlen & _ & _ & _ & _ & Hj & Ha & Hf) HQ.
  pose proof (search_bound _ _ _ Hj) as Hjb. change (length (octets "c=IN IP4 ")) with 9%nat in Hjb.
  pose proof (npos_value HN) as Hnp. unfold sdp_address.
  rewrite (find_found s "c=IN IP4 " j Hj), u32_nat by lia.
  rewrite (proj2 (Z.eqb_neq (Z.of_nat j) npos)) by lia.
  replace (Z.of_nat j + 9) with (Z.of_nat (j + 9)) by lia. rewrite (u32_nat (j + 9)) by lia.
  pose proof (f_equal length Ha) as Hl. rewrite length_app, length_drop in Hl. simpl length in Hl.
  rewrite (find_one_of_at s [space; newline] (j + 9) a newline rest');
    [|done|lia|done|do 2 constructor].
  rewrite (u32_nat (j + 9 + length a)) by lia.
  replace (Z.of_nat (j + 9 + length a) - Z.of_nat j - 9) with (Z.of_nat (length a)) by lia.
  rewrite (u32_nat (length a)) by lia.
  fstep. eapply run_lift; [by apply (substr_at s (j + 9) a (newline :: rest')); [|lia]|].
  fstep. exact HQ.
Qed.

End Offers.

(** ** Calls *)

Section Calls.
Context {E : Env} {N : Net} (HN : net_ok N).

(** what a call is about: all but the addresses SIP messages go to *)
Definition view (f : filter) : Call * Rules * Media * (Z * Z * Z) :=
  (call f, rules f, media f, (rtp_dest (route f), rtp_src (route f), srpp_ttl (route f))).

Lemma search_from_range test s pos :
  0 <= pos → test [] = false → search_from test s pos = npos ∨ 0 <= search_from test s pos < Z.of_nat (length s).
Proof using.
  intros Hp He. unfold search_from. destruct (Z.ltb_spec (Z.of_nat (length s)) pos); [by left|].
  destruct (search test (drop (Z.to_nat pos) s)) as [i|] eqn:Es; [|by left]. right.
  apply search_Some in Es as (H1 & H2 & _). rewrite length_drop in H1.
  enough (Z.to_nat pos + i ≠ length s)%nat by lia. intros Hl. rewrite drop_drop, drop_ge in H2 by lia. congruence.
Qed.

(** the text behind a place that was looked for *)
Lemma substr_behind s test pos k :
  Z.of_nat (length s) < 2 ^ 31 → 0 <= pos → test [] = false →
  ∃ t, substr s (u32 (u32 (search_from test s pos) + 1)) k = Some t.
Proof using HN.
  intros Hl Hp He. unfold substr.
  assert (u32 (u32 (search_from test s pos) + 1) <= Z.of_nat (length s)) as Hb.
  { destruct (search_from_range test s pos Hp He) as [->|Hr].
    - destruct (npos_value HN) as [->| ->]; (replace (u32 (u32 _ + 1)) with 0 by reflexivity); lia.
    - rewrite (wrap_small 32 (search_from _ _ _)) by (unfold is_word; lia).
      rewrite wrap_small by (unfold is_word; lia). lia. }
  rewrite (proj2 (Z.ltb_ge _ _)) by exact Hb. by eexists.
Qed.

Lemma set_destination_runs h w (Q : unit → world → Prop) :
  (∀ w', view (host w') = view (host w) → Q tt w') → runs (set_destination h) w Q.
Proof using.
  intros HQ. unfold set_destination, resolve_and_set. fstep.
  destruct (isValidIpAddress h); [do 2 fstep; by apply HQ|].
  fstep. fstep. destruct (gethostbyname _ _); do 2 fstep; by apply HQ.
Qed.

Lemma parse_invite_runs recv s p a srtp d w :
  sip_kind_of s = INVITE → offers s p a srtp → 0 <= p < 65536 →
  runs (parse_sip recv s d) w (λ r w', r = 0 ∧ view (host w') =
    (let f := host w in let c := put_saw_invite_already 1 (call f) in
     if d =? 0 then (put_is_srtp srtp (put_outport p c), rules f, media f,
                     (inet_addr (c_str a), rtp_src (route f), srpp_ttl (route f)))
     else (put_sent_invite 1 (put_is_srtp srtp (put_inport p c)), rules f, media f,
           (rtp_dest (route f), inet_addr (c_str a), srpp_ttl (route f))))).
Proof using HN.
  intros Hk Ho Hp. unfold parse_sip. rewrite Hk. fstep. fstep. unfold parse_invite. fstep. fstep. fstep.
  apply (sdp_port_runs HN s p a srtp d); [done|done|]. intros m Hm. fstep. apply Hm. clear m Hm.
  fstep. apply (sdp_address_runs HN s p a srtp d); [done|].
  destruct (d =? 0); [fstep; by split|]. fstep. fstep. cbv zeta.
  set (pos := u32 (u32 (find s "INVITE sip:" 0) + 11)).
  destruct (substr_behind s (starts (octets "@")) pos
    (u32 (u32 (find s " " (u32 (find s "@" pos))) - u32 (find s "@" pos) - 1))) as [t Ht];
    [by destruct Ho as (? & ? & ? & ? & ? & _)|unfold pos, wrap; apply Z.mod_pos_bound; lia|done|].
  fstep. eapply run_lift; [exact Ht|]. fstep. apply set_destination_runs. intros w' Hw'.
  fstep. fstep. fstep. split; [done|]. revert Hw'. unfold view. simpl. by intros [= -> -> -> -> -> ->].
Qed.

(** a 200 OK with a description, before the ACK *)
Lemma parse_200ok_runs recv s p a srtp d w :
  sip_kind_of s = REPLY → has s "200 OK" = true → has s "Content-Type: application/sdp" = true →
  offers s p a srtp → 0 < p < 65536 →
  (let c := call (host w) in (if d =? 0 then inport c else outport c) ≠ 0 ∧ is_session_on c = 0 ∧
   saw_invite_already c = 1 ∧ saw_ack c = 0) →
  runs (parse_sip recv s d) w (λ r w', r = 0 ∧ view (host w') =
    (let f := host w in let c := call f in
     let c := if (sent_invite c =? 1) && (d =? 0) then put_saw_200ok 1 c else c in
     if d =? 0 then (push_ports (put_is_srtp srtp (put_outport p c)), rules f, media f,
                     (inet_addr (c_str a), rtp_src (route f), srpp_ttl (route f)))
     else (push_ports (put_is_srtp srtp (put_inport p c)), rules f, media f,
           (rtp_dest (route f), inet_addr (c_str a), srpp_ttl (route f))))).
Proof using HN.
  intros Hk Hok Hsdp Ho Hp (Hport & Hon & Hinv & Hack). unfold parse_sip. rewrite Hk. fstep. fstep.
  unfold parse_reply. fstep. fstep. rewrite Hsdp. fstep. fstep.
  apply (sdp_port_runs HN s p a srtp d); [done|lia|]. intros m Hm. apply Hm. clear m Hm.
  unfold note_reply. rewrite Hok. set (c := call (host w)) in *.
  assert (∃ c1, (if (sent_invite c =? 1) && (d =? 0) then put_saw_200ok 1 c else c) = c1 ∧
    is_session_on c1 = 0 ∧ saw_invite_already c1 = 1 ∧ saw_ack c1 = 0 ∧ inport c1 = inport c ∧
    outport c1 = outport c) as (c1 & Ec & C1 & C2 & C3 & C4 & C5)
    by (eexists; split; [reflexivity|]; by destruct (_ && _)).
  fstep. fstep. cbn [host set_host call on_call put_call put_parsed] in *. fold c. rewrite Ec.
  destruct (d =? 0) eqn:Ed; simpl; rewrite ?C1, ?C2, ?C3, ?C4, ?C5, ?(proj2 (Z.eqb_neq p 0)) by lia;
    rewrite (proj2 (Z.eqb_neq _ 0) Hport); simpl.
  all: fstep; fstep; apply (sdp_address_runs HN s p a srtp); [done|]; fstep; fstep.
  all: unfold established; simpl; rewrite ?C3; simpl; rewrite ?andb_false_r; simpl.
  all: do 4 fstep; split; [done|]; unfold view; simpl; fold c; by rewrite Ed, <-Ec.
Qed.

(** the ACK: rules for the media are added, the session is on *)
Lemma parse_ack_runs recv s d w :
  sip_kind_of s = REPLY → has s "200 OK" = false → has s "Route:" = true →
  has s "Content-Type: application/sdp" = false → (∀ n, system_status n = 0) →
  (let c := call (host w) in inport c ≠ 0 ∧ outport c ≠ 0 ∧ 0 <= inport c < 65536 ∧ is_session_on c = 0 ∧
   saw_invite_already c = 1 ∧ (sent_invite c = 0 ∨ sent_invite c = 1 ∧ saw_200ok c = 1)) →
  rtp_added (rules (host w)) = 0 →
  runs (parse_sip recv s d) w (λ r w', r = 0 ∧ view (host w') =
    (let f := host w in
     let ttl := print_int (srpp_ttl (route f)) in let port := print_int (inport (call f)) in
     (start_call (push_ports (put_saw_ack 1 (call f))),
      put_rtp_added 1 (put_commands (commands (rules f) ++
        [octets "iptables " ++ rule true "INPUT" true " --destination-port " port ttl;
         octets "iptables " ++ rule true "OUTPUT" true " --source-port " port ttl]) (rules f)),
      media f, (rtp_dest (route f), rtp_src (route f), srpp_ttl (route f))))).
Proof using HN.
  intros Hk Hok Hroute Hsdp Hsys (Hi & Ho & Hip & Hon & Hinv & Hsent) Hadd. unfold parse_sip. rewrite Hk.
  fstep. fstep. unfold parse_reply. fstep. fstep. rewrite Hsdp.
  set (w1 := set_host (on_call _ _) _).
  assert (call (host w1) = put_saw_ack 1 (call (host w)) ∧ rules (host w1) = rules (host w) ∧
    media (host w1) = media (host w) ∧ route (host w1) = route (host w)) as (C1 & C2 & C3 & C4).
  { split_and!; try done. unfold w1. cbn [host set_host call on_call put_call put_parsed].
    unfold note_reply. rewrite Hok, Hroute, Hinv. done. }
  clearbody w1. fstep. fstep. fstep. fstep.
  rewrite C1. cbn [put_saw_ack inport outport is_session_on saw_invite_already saw_ack].
  rewrite (proj2 (Z.eqb_neq _ 0) Hi), (proj2 (Z.eqb_neq _ 0) Ho), Hon, Hinv.
  change (0 =? 0) with true. change (1 =? 0) with false. cbn [orb andb negb].
  assert (established (put_saw_ack 1 (call (host w))) = true) as He.
  { unfold established. simpl. destruct Hsent as [->|[-> ->]]; done. }
  do 5 fstep. rewrite He. fstep.
  unfold add_all_rtp_rules. fstep. fstep. cbn [host set_host on_call put_call rules]. rewrite C2, Hadd.
  change (negb (0 =? 0)) with false. cbn [andb]. do 3 fstep. eapply run_lift.
  { rewrite (proj2 (Nat.ltb_lt _ 7)); [done|]. simpl. rewrite C1. simpl. unfold print_int.
    rewrite (proj2 (Z.ltb_ge _ 0)) by lia.
    pose proof (length_digits 10 (inport (call (host w))) 5 ltac:(lia) ltac:(lia)). lia. }
  do 4 fstep. unfold add_pair, add_firewall_rule.
  do 4 fstep. rewrite Hsys. change (negb (0 =? 0) && true) with false. cbv iota.
  do 4 fstep. rewrite Hsys. change (negb (0 =? 0) && true) with false. cbv iota.
  do 7 fstep. split; [done|]. clear - C1 C2 C3 C4. unfold view.
  cbn [host set_host set_clock on_call put_call on_rules put_rules on_route put_route call rules media route
    set_dest put_out_addr put_srpp_ttl_s put_rtp_added put_commands commands rtp_dest rtp_src srpp_ttl
    srpp_ttl_s push_ports put_rtp_ports].
  rewrite C1, C2, C3, C4. cbv zeta. by rewrite <-app_assoc.
Qed.

End Calls.

(** ** Properties *)

(** no call yet *)
Definition no_call (f : filter) : Prop :=
  is_session_on (call f) = 0 ∧ sent_invite (call f) = 0 ∧ saw_ack (call f) = 0 ∧ saw_200ok (call f) = 0 ∧
  rtp_added (rules f) = 0 ∧ Nat.Odd (length (rtp_ports (call f))).

(** media between port [p] of this host, with address [a], and port [q] of the
    peer, with address [b], is diverted to the filter; the flags that follow the
    messages of a call are as before its INVITE *)
Definition media_on {N : Net} (p q : Z) (a b : list Z) (srtp : Z) (ttl : Z) (f : filter) : Prop :=
  is_session_on (call f) = 1 ∧ inport (call f) = p ∧ outport (call f) = q ∧ is_srtp (call f) = srtp ∧
  rtp_src (route f) = inet_addr (c_str a) ∧ rtp_dest (route f) = inet_addr (c_str b) ∧
  (∃ old, commands (rules f) = old ++
     [octets "iptables " ++ rule true "INPUT" true " --destination-port " (print_int p) (print_int ttl);
      octets "iptables " ++ rule true "OUTPUT" true " --source-port " (print_int p) (print_int ttl)]) ∧
  rtp_added (rules f) = 1 ∧
  (saw_invite_already (call f) = 0 ∧ sent_invite (call f) = 0 ∧ saw_200ok (call f) = 0 ∧
   saw_ack (call f) = 0) ∧
  ∀ local remote, local = q ∨ remote = q → is_port (rtp_ports (call f)) local remote = true.

Lemma odd_ports_found ports a b local remote :
  Nat.Odd (length ports) → local = b ∨ remote = b → is_port (ports ++ [a; b]) local remote = true.
Proof.
  intros [k Hk] Hb. apply (match_port_spec _ 0); [lia|]. exists (S k), b. split; [|done].
  rewrite lookup_app_r by lia. by replace (0 + 2 * S k - length ports)%nat with 1%nat by lia.
Qed.

(** what the messages of a call say *)
Definition is_sdp_reply {N : Net} (s : list Z) : Prop :=
  sip_kind_of s = REPLY ∧ has s "200 OK" = true ∧ has s "Content-Type: application/sdp" = true.
Definition is_plain_ack {N : Net} (s : list Z) : Prop :=
  sip_kind_of s = REPLY ∧ has s "200 OK" = false ∧ has s "Route:" = true ∧
  has s "Content-Type: application/sdp" = false.

(** C5: a call is set up, whoever makes it: after an INVITE with a session
    description in one direction, the 200 OK with a description in the other and
    the ACK, the session is on with both ports and addresses as described, the
    firewall was given the two rules for the media, packets from or to the
    peer's port are recognised as media, and the flags of the INVITE, the 200 OK and
    the ACK are reset for the next call.  The ACK must have a [Route:] field (the
    filter counts no other) and no description, and the firewall commands must
    succeed.  This holds whether [size_t] has 32 or 64 bits. *)
Theorem call_established {E : Env} {N : Net} recv d invite ok ack p q a b srtp srtp' w :
  net_ok N → (∀ n, system_status n = 0) → no_call (host w) → (d = 0 ∨ d = 1) →
  sip_kind_of invite = INVITE →
  (if d =? 0 then offers invite q b srtp else offers invite p a srtp) →
  is_sdp_reply ok → (if d =? 0 then offers ok p a srtp' else offers ok q b srtp') →
  is_plain_ack ack → 0 < p < 65536 → 0 < q < 65536 →
  runs (parse_sip recv invite d;; parse_sip recv ok (1 - d);; parse_sip recv ack d) w
    (λ r w', r = 0 ∧ media_on p q a b srtp' (srpp_ttl (route (host w))) (host w')).
Proof.
  intros HN Hsys (N1 & N2 & N3 & N4 & N5 & N6) Hd Hi Oi (K1 & K2 & K3) Oo (A1 & A2 & A3 & A4) Hp Hq.
  destruct Hd as [-> | ->]; simpl in Oi, Oo.
  all: fstep; eapply runs_mono; [eapply (parse_invite_runs HN); [done|exact Oi|lia]|].
  all: cbv beta; intros r1 w1 (_ & V1); revert V1; unfold view; simpl; intros [= C1 R1 M1 D1 S1 T1].
  all: fstep; eapply runs_mono; [eapply (parse_200ok_runs HN); [done..|exact Oo|done|]|].
  1, 3: rewrite C1; simpl; split_and!; try done; lia.
  all: cbv beta; intros r2 w2 (_ & V2); revert V2; unfold view; simpl; rewrite C1; simpl; rewrite ?N2; simpl;
    intros [= C2 R2 M2 D2 S2 T2].
  all: eapply runs_mono; [eapply (parse_ack_runs HN); [done..| |by rewrite R2, R1]|].
  1, 3: rewrite C2; simpl; split_and!; try done; try lia; auto.
  all: cbv beta; intros r3 w3 (-> & V3); revert V3; unfold view; cbv zeta; rewrite C2.
  all: intros [= C3 R3 M3 D3 S3 T3]; split; [done|]; unfold media_on; rewrite C3, R3, D3, S3.
  all: simpl; split_and!; try done; try congruence.
  1, 3: rewrite T2, T1; eexists; reflexivity.
  all: intros local remote Hl; apply odd_ports_found; [|done].
  all: rewrite length_app; simpl; destruct N6 as [k ->]; exists (S k); lia.
Qed.

(** a host with one interface, 10.0.0.1; addresses are read as four numbers *)
Fixpoint sample_fields (cur : list Z) (s : list Z) : list Z :=
  match s with
  | [] => [atoi cur]
  | c :: s => if c =? 46 then atoi cur :: sample_fields [] s else sample_fields (cur ++ [c]) s
  end.

Definition sample_net : Net := {|
  size_bits := 64;
  inet_addr s := le_val (sample_fields [] s);
  inet_pton s := forallb (λ c, is_digit c || (c =? 46)) s;
  gethostbyname _ _ := Some (le_val [192; 168; 0; 9]);
  interfaces _ := [le_val [127; 0; 0; 1]; le_val [10; 0; 0; 1]];
  system_status _ := 0;
  rand_value n := Z.of_nat n;
  ipq_handle _ := true;
  raw_socket _ := 3;
  setsockopt_status _ := 0 |}.

Lemma sample_net_ok : net_ok sample_net.
Proof. by right. Qed.

Definition sample_sdp (addr port profile : string) : list Z :=
  octets "Content-Type: application/sdp" ++ [10; 10] ++ octets "c=IN IP4 " ++ octets addr ++ [10] ++
  octets "m=audio " ++ octets port ++ [32] ++ octets profile ++ [32; 48; 10].

Definition sample_invite : list Z :=
  octets "INVITE sip:bob@example.org SIP/2.0" ++ [10] ++ sample_sdp "10.0.0.1" "4000" "RTP/AVP".
Definition sample_200ok : list Z :=
  octets "SIP/2.0 200 OK" ++ [10] ++ sample_sdp "10.0.0.2" "6000" "RTP/SAVP".
Definition sample_ack : list Z :=
  octets "ACK sip:bob@example.org SIP/2.0" ++ [10] ++ octets "Route: <sip:p>" ++ [10].

Lemma sample_invite_offers : @offers sample_net sample_invite 4000 (octets "10.0.0.1") 0.
Proof.
  exists 84%nat, 66%nat, (octets "RTP/AVP 0" ++ [10]), (octets "m=audio 4000 RTP/AVP 0" ++ [10]).
  split_and!; try (vm_compute; reflexivity); [left; vm_compute; reflexivity|eval_dec].
Qed.

Lemma sample_200ok_offers : @offers sample_net sample_200ok 6000 (octets "10.0.0.2") 1.
Proof.
  exists 64%nat, 46%nat, (octets "RTP/SAVP 0" ++ [10]), (octets "m=audio 6000 RTP/SAVP 0" ++ [10]).
  split_and!; try (vm_compute; reflexivity); [right; vm_compute; reflexivity|eval_dec].
Qed.

Lemma sample_reply : @is_sdp_reply sample_net sample_200ok.
Proof. unfold is_sdp_reply. split_and!; vm_compute; reflexivity. Qed.

Lemma sample_plain_ack : @is_plain_ack sample_net sample_ack.
Proof. unfold is_plain_ack. split_and!; vm_compute; reflexivity. Qed.

Definition filter_world (f : filter) : world := set_host f (sample_world 0 0 1655).

Lemma initial_no_call m : no_call (initial m).
Proof. unfold no_call. split_and!; try done. by exists O. Qed.

Lemma call_established_witness :
  let w := filter_world (initial sample_dummy) in
  runs (@parse_sip sample_env sample_net (mret None) sample_invite 1;;
        @parse_sip sample_env sample_net (mret None) sample_200ok 0;;
        @parse_sip sample_env sample_net (mret None) sample_ack 1) w
    (λ r w', r = 0 ∧ @media_on sample_net 4000 6000 (octets "10.0.0.1") (octets "10.0.0.2") 1 65 (host w')).
Proof.
  apply (@call_established sample_env sample_net (mret None) 1 sample_invite sample_200ok sample_ack
    4000 6000 (octets "10.0.0.1") (octets "10.0.0.2") 0 1 (filter_world (initial sample_dummy))).
  - apply sample_net_ok.
  - reflexivity.
  - apply initial_no_call.
  - right; reflexivity.
  - vm_compute. reflexivity.
  - apply sample_invite_offers.
  - apply sample_reply.
  - apply sample_200ok_offers.
  - apply sample_plain_ack.
  - lia.
  - lia.
Defined.

(** the commands [add_all_rtp_rules] gives, and its result, from the status of
    the first two *)
Definition rtp_rules_commands (port ttl : list Z) (s1 s2 : Z) : list (list Z) :=
  let in_rule op := octets "iptables " ++ rule op "INPUT" true " --destination-port " port ttl in
  let out_rule := octets "iptables " ++ rule true "OUTPUT" true " --source-port " port ttl in
  if negb (s1 =? 0) then [in_rule true]
  else if negb (s2 =? 0) then [in_rule true; out_rule; in_rule false]
  else [in_rule true; out_rule].

(** C38: adding the rules for media is all or nothing: if the first command fails
    nothing else is done, if the second fails the first rule is deleted again;
    in both cases the result is -1 and the rules do not count as added, so that
    the next attempt starts over. *)
Theorem rtp_rules_atomic {N : Net} w :
  rtp_added (rules (host w)) = 0 → 0 <= inport (call (host w)) < 65536 →
  let s1 := system_status (clock w) in let s2 := system_status (S (clock w)) in
  let ok := (s1 =? 0) && (s2 =? 0) in
  runs (add_all_rtp_rules true true) w (λ r w',
    r = (if ok then 0 else -1) ∧ rtp_added (rules (host w')) = (if ok then 1 else 0) ∧
    commands (rules (host w')) = commands (rules (host w)) ++
      rtp_rules_commands (print_int (inport (call (host w)))) (print_int (srpp_ttl (route (host w)))) s1 s2).
Proof.
  intros Ha Hp s1 s2 ok. unfold add_all_rtp_rules. fstep. fstep. rewrite Ha.
  change (negb (0 =? 0)) with false. cbn [andb]. fstep. fstep. fstep. eapply run_lift.
  { rewrite (proj2 (Nat.ltb_lt _ 7)); [done|]. unfold print_int. rewrite (proj2 (Z.ltb_ge _ 0)) by lia.
    pose proof (length_digits 10 (inport (call (host w))) 5 ltac:(lia) ltac:(lia)). lia. }
  fstep. fstep. fstep. fstep. unfold add_pair, add_firewall_rule, rtp_rules_commands.
  do 4 fstep. cbn [clock set_host]. fold s1. rewrite andb_true_r. subst ok.
  destruct (s1 =? 0); cbn [negb andb]; [|fstep; by split_and!].
  do 4 fstep. cbn [clock set_host set_clock]. fold s2. rewrite andb_true_r.
  destruct (s2 =? 0); cbn [negb].
  - do 3 fstep. split_and!; [done..|]. simpl. by rewrite <-app_assoc.
  - do 5 fstep. split_and!; [done..|]. cbn. by rewrite <-!app_assoc.
Qed.

(** a host whose second command fails *)
Definition failing_net : Net := {|
  size_bits := 64; inet_addr _ := 0; inet_pton _ := false; gethostbyname _ _ := None; interfaces _ := [];
  system_status n := if (n =? 1)%nat then 256 else 0; rand_value _ := 0; ipq_handle _ := true;
  raw_socket _ := 3; setsockopt_status _ := 0 |}.

Lemma rtp_rules_atomic_witness :
  let w := filter_world (initial sample_dummy) in
  runs (@add_all_rtp_rules failing_net true true) w (λ r w',
    r = -1 ∧ rtp_added (rules (host w')) = 0 ∧
    commands (rules (host w')) = [] ++ rtp_rules_commands (print_int 0) (print_int 65) 0 256).
Proof.
  apply (@rtp_rules_atomic failing_net (filter_world (initial sample_dummy))); [reflexivity|].
  simpl; lia.
Defined.

(** on a host whose [size_t] has 64 bits, the test for a missing audio line
    never fails ([unsigned int] against [string::npos]): a 200 OK from outside
    whose description has no audio (for a second stream, say) sets the peer's port
    to zero, and the media of the call is not forwarded any more. *)
Theorem audio_missing_port_lost {N : Net} s rest w :
  size_bits = 64 → s = octets "SIP/2.0 200 OK" ++ rest → Z.of_nat (length s) < 2 ^ 31 →
  search (starts (octets "m=audio ")) s = None →
  runs (sdp_port s 0) w (λ _ w', outport (call (host w')) = 0 ∧ inport (call (host w')) = inport (call (host w))).
Proof.
  intros H64 Hs Hl Hno. unfold sdp_port.
  assert (npos = 2 ^ 64 - 1) as Hn by (unfold npos; by rewrite H64).
  assert (find s "m=audio " 0 = npos) as ->.
  { unfold find, search_from. rewrite (proj2 (Z.ltb_ge _ 0)) by lia. change (Z.to_nat 0) with 0%nat.
    by rewrite drop_0, Hno. }
  rewrite Hn. change (u32 (2 ^ 64 - 1) =? 2 ^ 64 - 1) with false. cbv iota.
  change (u32 (u32 (2 ^ 64 - 1) + 8)) with (Z.of_nat 7).
  assert (drop 7 s = [] ++ space :: octets "200 OK" ++ rest) as Hd by by rewrite Hs.
  assert (7 <= length s)%nat as H7 by (rewrite Hs, length_app; simpl; lia).
  rewrite (find_one_of_at s [space] 7 [] space _ Hd H7 (Forall_nil_2 _) ltac:(by constructor)).
  change (u32 (u32 (Z.of_nat (7 + length [])) - u32 (2 ^ 64 - 1) - 8)) with (Z.of_nat (length (@nil Z))).
  fstep. eapply run_lift; [by apply (substr_at s 7 [] (space :: octets "200 OK" ++ rest))|].
  fstep. eapply run_lift; [reflexivity|]. do 3 fstep. done.
Qed.

Definition sample_video_ok : list Z := octets "m=video 7000 RTP/AVP 31".

Lemma audio_missing_port_lost_witness :
  let w := filter_world (on_call (λ c, put_outport 6000 (put_inport 4000 c)) (initial sample_dummy)) in
  runs (@sdp_port sample_net (octets "SIP/2.0 200 OK" ++ sample_video_ok) 0) w
    (λ _ w', outport (call (host w')) = 0 ∧ inport (call (host w')) = 4000).
Proof.
  apply (@audio_missing_port_lost sample_net _ sample_video_ok); vm_compute; reflexivity.
Defined.

(** a call that is given up before it is answered keeps the next one from being
    protected: the flag of our own INVITE is not reset by the BYE, so that after
    an INVITE from outside, our 200 OK and the ACK the session is not on. *)
Theorem aborted_call_blocks_next :
  ∃ w', (@parse_sip sample_env sample_net (mret None) sample_invite 1;;
         @parse_sip sample_env sample_net (mret None) (octets "BYE sip:bob@example.org") 1;;
         @parse_sip sample_env sample_net (mret None) sample_invite 0;;
         @parse_sip sample_env sample_net (mret None) sample_200ok 1;;
         @parse_sip sample_env sample_net (mret None) sample_ack 0) (filter_world (initial sample_dummy)) =
        Done 0 w' ∧
    is_session_on (call (host w')) = 0 ∧ saw_ack (call (host w')) = 1 ∧
    inport (call (host w')) = 6000 ∧ outport (call (host w')) = 4000.
Proof. eexists. split; [vm_compute; reflexivity|]. by split_and!. Qed.
