(* ===== verification/Filter.v ===== *)
(** * The packet filter: packets

    Models the rest of [src/sqrkal_discovery/sqrkal_discovery.cpp]:
    [process_packet], which takes a packet from the queue of the firewall,
    recognises it, converts media between RTP or SRTP and SRPP, and sends it on;
    [receive_rtp_message], the receive functor of the SRPP library; the start of
    a session; and the main loop.

    A packet is in a buffer that is longer than the packet: [buff] is the memory
    from the packet to the end of the buffer.  [process_packet] and
    [receive_rtp_message] call each other through the SRPP library: as in
    [Signaling], each takes the receive to use, and [receive_rtp_message] closes
    the recursion with one unit of fuel for each call.  The result of
    [process_packet] is [None] where the function ends without a [return]. *)

From Stdlib Require Import String Ascii.
From S2P Require Import Prelude SrppMessage Discovery FilterState Srpp Signaling Sip.

(** an [RTP_Header] at the start of a buffer *)
Definition sizeof_RTP_Header : Z := 72.

Definition rtp_of_image (image : list Z) : RTP_Header :=
  let b0 := nth 0 image 0 in let b1 := nth 1 image 0 in
  mk_rtp (b0 >> 6) ((b0 >> 5) & 1) ((b0 >> 4) & 1) (b0 & 15) (b1 >> 7) (b1 & 127)
    (le_val (take 2 (drop 2 image))) (le_val (take 4 (drop 4 image))) (le_val (take 4 (drop 8 image)))
    (le_words 15 (drop 12 image)).

(** [memcpy(rtp_header, buff, n); rtp_hdset = set] *)
Definition store_header (buff : list Z) (n set : Z) : M unit :=
  header ← lift (read_at buff 0 n);
  h ← fget (λ f, saved_header (media f));
  h ← lift (write_at h 0 header);
  fset (on_media (λ m, put_rtp_hdset set (put_saved_header h m))).

Section Filter.
Context {E : Env} {N : Net}.

(** ** Sending on *)

Definition send_raw (buff : list Z) (length : Z) : M unit :=
  status ← tick send_status;
  f ← gets host;
  r ← lift (send_raw_message status buff length f);
  modify (set_host r.2).

(** in fragments when the packet is larger than the MTU; the buffer is changed *)
Definition send_packet (buff : list Z) (bytes_read : Z) : M (list Z) :=
  if IP_MTU <? bytes_read then
    id ← fget (λ f, frag_id (route f));
    r ← lift (send_fragmented_message buff bytes_read id);
    let '(first, second, id) := r in
    fset (on_route (put_frag_id id));;
    send_raw first IP_MTU;;
    send_raw second (bytes_read - IP_MTU + 20);;
    mret (first ++ drop (Z.to_nat IP_MTU) buff)
  else
    buff ← lift (form_checksums buff);
    send_raw buff bytes_read;;
    mret buff.

Definition localhost : Z := inet_addr (octets "127.0.0.1").

Definition set_ttl (buff : list Z) : M (list Z) :=
  ttl ← fget (λ f, srpp_ttl (route f)); lift (aset buff 8 (u8 ttl)).

(** ** SIP *)

(** the packet goes to [out_addr]; one that came in, to this host *)
Definition forward_sip (buff : list Z) (bytes_read offset direction : Z) : M (list Z) :=
  (if direction =? 0 then fset (set_dest localhost) else mret tt);;
  o ← fget (λ f, out_addr (route f));
  buff ← lift (put16 buff offset (bswap16 5060));
  buff ← lift (put16 buff (offset + 2) (sin_port o));
  buff ← lift (put32 buff 16 (sin_addr o));
  buff ← set_ttl buff;
  buff ← send_packet buff bytes_read;
  (if direction =? 0 then saddr ← lift (get32 buff 12); fset (set_dest saddr) else mret tt);;
  mret buff.

(** the buffer and [offset], which is at the UDP header again only when the packet
    was sent on *)
Definition process_sip (recv : receiver) (buff : list Z) (bytes_read offset direction : Z)
  : M (list Z * Z) :=
  let offset := offset + 8 in
  str ← lift (read_at buff offset (bytes_read - offset));
  parseresult ← parse_sip recv str direction;
  port ← fget (λ f, sin_port (out_addr (route f)));
  bo ← (if negb (port =? 0) && (0 <=? parseresult) then
          let offset := offset - 8 in
          buff ← forward_sip buff bytes_read offset direction; mret (buff, offset)
        else mret (buff, offset));
  set ← fget (λ f, rtp_hdset (media f));
  (if set =? 0 then store_header bo.1 28 1 else mret tt);;
  mret bo.

(** ** The SRPP session *)

Definition getKey : M Z := gets (λ w, s32 (encryption_key w)).
Definition disable_srpp : M unit := modify (set_enabled 0).
Definition enable_srpp : M unit := modify (set_enabled 1).
Definition set_starting_sequenceno (seq_no : Z) : M unit := modify (set_seq seq_no).

(** [SRPPSession()] and [SRPPTimer()]; the timers do not run yet *)
Definition create_session : M unit :=
  modify (set_key 1655);;
  modify (set_session_max MAXPAYLOADSIZE);;
  timer_op (setPacketTimer 300);;
  timer_op (setSilenceTimer 400).

Definition init_SRPP : M Z := PaddingFunctions;; mret 0.
Definition setSendFunctor : M unit := modify (set_external 1).

Definition initialize_srpp : M unit := init_SRPP;; create_session;; setSendFunctor.

Definition start_SRPP (recv : receiver) : M Z :=
  start_session recv;;
  complete ← flag signaling_complete;
  if complete =? 0 then
    disable_srpp;;
    stop_session recv;;
    mret (-1)
  else
    enable_srpp;;
    header ← fget (λ f, saved_header (media f));
    seq ← lift (get16 header 30);
    set_starting_sequenceno (bswap16 seq);;
    mret 0.

Definition try_start (recv : receiver) : M unit :=
  status ← start_SRPP recv;
  if 0 <=? status then fset (on_media (put_apply_srpp 1)) else mret tt.

(** ** Media *)

(** [rtp_header[29] & 0x80 != 0x80] is [rtp_header[29] & 0] *)
Definition save_header (buff : list Z) : M unit :=
  m ← fget media;
  b ← lift (aget (saved_header m) 29);
  if (rtp_hdset m =? 0) || (rtp_hdset m =? 1) || negb (b & 0 =? 0) then store_header buff 40 2
  else mret tt.

(** the message a packet holds becomes [srpp_msg] *)
Definition read_srpp (buff : list Z) (new_size : Z) : M Z :=
  m0 ← fget (λ f, srpp_msg (media f));
  key ← getKey;
  sm ← lift (network_to_srpp m0 (drop 28 buff) new_size key);
  fset (on_media (put_srpp_msg sm.2));;
  mret sm.1.

(** new data behind the headers: the buffer and the new length of the packet *)
Definition replace_data (buff data : list Z) : M (list Z * Z) :=
  buff ← lift (write_at buff 28 data);
  mret (buff, Z.of_nat (length data) + 28).

(** SRPP to RTP, or to SRTP: a dummy, and what is not SRPP, stays as it is *)
Definition unwrap (buff : list Z) (bytes_read : Z) : M (list Z * Z) :=
  srtp ← fget (λ f, is_srtp (call f));
  status ← read_srpp buff (bytes_read - 28);
  if status <? 0 then mret (buff, bytes_read) else
  m ← fget (λ f, srpp_msg (media f));
  if srtp =? 0 then
    r ← forward_rtp m;
    fset (on_media (put_srpp_msg r.2));;
    replace_data buff r.1
  else
    r ← srpp_to_srtp m (Z.of_nat (length (original_payload (encrypted_part m))));
    fset (on_media (put_srpp_msg r.2));;
    match r.1 with
    | Some data => replace_data buff data
    | None => mret (buff, bytes_read)
    end.

(** RTP or SRTP to SRPP: of SRTP the whole packet is the payload *)
Definition wrap_media (buff : list Z) (bytes_read : Z) : M (list Z * Z) :=
  srtp ← fget (λ f, is_srtp (call f));
  image ← lift (read_at buff 28 sizeof_RTP_Header);
  let hdr := rtp_of_image image in
  fset (on_media (λ m, if ssrc_value m =? 0 then put_ssrc_value (r_ssrc hdr) m else m));;
  let off := if srtp =? 0 then 40 else 28 in
  data ← lift (read_at buff off (bytes_read - off));
  m ← rtp_to_srpp hdr data;
  fset (on_media (put_srpp_msg m));;
  let new_size := 80 + Z.of_nat (length (original_payload (encrypted_part m))) +
                  Z.of_nat (length (srpp_padding (encrypted_part m))) + 12 in
  mem ← tick memory;
  key ← getKey;
  out ← lift (srpp_to_network m (map mem (seqZ 0 (new_size + 10))) key (csrc_rand m));
  data ← lift (read_at out 0 new_size);
  replace_data buff data.

(** the headers of a media packet that is sent on *)
Definition media_headers (buff : list Z) (bytes_read offset port daddr : Z) : M (list Z) :=
  buff ← lift (put16 buff (offset + 2) (bswap16 (u16 port)));
  buff ← lift (put32 buff 16 daddr);
  buff ← lift (put16 buff (offset + 4) (bswap16 (u16 (bytes_read - 20))));
  buff ← lift (put16 buff 2 (bswap16 (u16 bytes_read)));
  set_ttl buff.

Definition bump_recv (m : Media) : Media := put_recv_count (recv_count m + 1) m.
Definition bump_sent (m : Media) : Media := put_sent_count (sent_count m + 1) m.

(** a different port, or the first packet *)
Definition in_starts (saddr : Z) (f : filter) : bool :=
  (negb (outport (call f) =? saddr) && (apply_srpp (media f) =? 0)) ||
  ((recv_count (media f) =? 1) && (sent_count (media f) <? 5)).

Definition process_rtp_in (recv : receiver) (buff : list Z) (bytes_read offset saddr : Z) : M (option Z) :=
  src ← lift (get32 buff 12);
  fset (on_route (put_rtp_dest src));;
  fset (on_media bump_recv);;
  signal ← lift (isSignalingMessage_buff (drop 28 buff));
  (if signal =? 1 then processReceivedData recv (drop 28 buff) (bytes_read - 28);; mret tt else mret tt);;
  save_header buff;;
  starts ← fget (in_starts saddr);
  (if starts : bool then try_start recv else mret tt);;
  apply ← fget (λ f, apply_srpp (media f));
  bn ← (if apply =? 1 then unwrap buff bytes_read else mret (buff, bytes_read));
  port ← fget (λ f, inport (call f));
  src ← fget (λ f, rtp_src (route f));
  let daddr := if src =? 0 then localhost else src in
  buff ← media_headers bn.1 bn.2 offset port daddr;
  fset (set_out_addr daddr (bswap16 (u16 port)));;
  send_packet buff bn.2;;
  mret None.

Definition out_starts (f : filter) : bool :=
  (apply_srpp (media f) =? 0) && (sent_count (media f) =? 1) && (0 <? rtp_hdset (media f)).

Definition note_input (bytes_read : Z) (m : Media) : Media :=
  put_input_packet_sizes (input_packet_sizes m ++ [bytes_read]) m.
Definition note_output (bytes_read : Z) (m : Media) : Media :=
  put_output_packet_sizes (output_packet_sizes m ++ [bytes_read]) m.

Definition process_rtp_out (recv : receiver) (buff : list Z) (bytes_read offset : Z) : M (option Z) :=
  src ← lift (get32 buff 12);
  fset (on_route (put_rtp_src src));;
  unknown ← fget (λ f, (outport (call f) =? 0) || (rtp_dest (route f) =? 0));
  if unknown : bool then mret (Some 0) else
  fset (on_media bump_sent);;
  starts ← fget out_starts;
  (if starts : bool then try_start recv else mret tt);;
  apply ← fget (λ f, apply_srpp (media f));
  bn ← (if apply =? 1 then fset (on_media (note_input bytes_read));; wrap_media buff bytes_read
        else mret (buff, bytes_read));
  fset (on_media (note_output bn.2));;
  port ← fget (λ f, outport (call f));
  daddr ← fget (λ f, rtp_dest (route f));
  buff ← media_headers bn.1 bn.2 offset port daddr;
  save_header buff;;
  fset (set_out_addr daddr (bswap16 (u16 port)));;
  send_packet buff bn.2;;
  mret None.

(** ** Packets

    [is_rtp] is a global, and is read again after a SIP message was handled: when
    parsing the message received packets (a BYE stops the session, which waits for
    the answer) and the last of them was media, the SIP message is handled as
    media too. *)

Definition process_packet (recv : receiver) (buff : list Z) (bytes_read : Z) : M (option Z) :=
  if bytes_read <? 28 then mret (Some (-1)) else
  n ← lift (ihl buff);
  let offset := 4 * n in
  protocol ← lift (aget buff 9);
  if negb (protocol =? UDP_PROTOCOL) && negb (protocol =? TCP_PROTOCOL) then mret (Some 0) else
  src ← lift (get16 buff offset);
  dst ← lift (get16 buff (offset + 2));
  fset (put_is_udp (if protocol =? UDP_PROTOCOL then 1 else 0));;
  addr ← lift (get32 buff 12);
  addrs ← tick interfaces;
  let direction := get_direction addrs addr in
  ports ← fget (λ f, rtp_ports (call f));
  let v := classify_ports ports direction (bswap16 src) (bswap16 dst) in
  fset (λ f, put_is_rtp (if decide (v = Rtp) then 1 else 0)
               (put_is_sip (if decide (v = Sip) then 1 else 0) f));;
  if decide (v = NotOurs) then mret (Some 0) else
  bo ← (if decide (v = Sip) then process_sip recv buff bytes_read offset direction
        else mret (buff, offset));
  rtp ← fget is_rtp;
  if rtp =? 1 then
    if direction =? 0 then process_rtp_in recv bo.1 bytes_read bo.2 (bswap16 src)
    else process_rtp_out recv bo.1 bytes_read bo.2
  else mret None.

(** ** The receive functor *)

Definition next_message : M ipq_read := λ w,
  match queue (host w) with
  | [] => Wait w
  | x :: rest => Done x (set_host (put_queue rest (host w)) w)
  end.

(** a signalling message of the SRPP library, or a packet *)
Definition receive_packet (recv : receiver) (dummy : SRPPMessage) (payload : list Z) (data_len : Z)
  : M (option SRPPMessage) :=
  signal ← lift (isSignalingMessage_buff (drop 28 payload));
  if signal =? 1 then processReceivedData recv (drop 28 payload) (data_len - 28)
  else process_packet recv payload data_len;; mret (Some dummy).

Fixpoint receive_rtp_message (fuel : nat) : receiver :=
  match fuel with
  | O => λ _, Fault
  | S fuel =>
      dummy ← new_message;
      x ← next_message;
      if x.1 <? 0 then mret (Some dummy) else
      match x.2 with
      | IPQM_PACKET payload data_len verdict_status =>
          if (data_len <=? 0) || (verdict_status <? 0) then mret (Some dummy)
          else receive_packet (receive_rtp_message fuel) dummy payload data_len
      | _ => mret (Some dummy)
      end
  end.

(** ** The main loop *)

Definition create_sockets : M Z :=
  handle ← tick ipq_handle;
  if negb handle then mret (-2) else
  sip_socket ← tick raw_socket;
  if sip_socket <? 0 then mret (-3) else
  fset (put_socket_open true);;
  status ← tick setsockopt_status;
  mret (if status =? -1 then -4 else 0).

(** [65 + rand()%25 + rand()%5] *)
Definition choose_ttl : M unit :=
  a ← tick rand_value;
  b ← tick rand_value;
  let ttl := 65 + Z.rem a 25 + Z.rem b 5 in
  fset (on_route (λ r, put_srpp_ttl_s (print_int ttl) (put_srpp_ttl ttl r))).

Definition discover_init : M unit :=
  choose_ttl;;
  create_sockets;;
  add_all_rules true true;;
  initialize_srpp;;
  fset (put_is_discovering 1).

(** the body of the loop: a failed read is reported, the buffer is looked at all
    the same *)
Definition discover_step (recv : receiver) : M unit :=
  x ← next_message;
  match x.2 with
  | IPQM_PACKET payload data_len verdict_status =>
      if (data_len <=? 0) || (verdict_status <? 0) then mret tt
      else process_packet recv payload data_len;; mret tt
  | _ => mret tt
  end.

(** [n] turns of the loop *)
Fixpoint discover_loop (fuel : nat) (n : nat) : M unit :=
  match n with
  | O => mret tt
  | S n =>
      d ← fget is_discovering;
      if d =? 1 then discover_step (receive_rtp_message fuel);; discover_loop fuel n else mret tt
  end.

Definition discover_sessions (fuel n : nat) : M unit := discover_init;; discover_loop fuel n.

End Filter.
