(* ===== verification/FilterInv.v ===== *)
(** * Invariants of the packet filter

    The globals of the filter stay consistent with the SIP messages it has seen,
    whatever packets arrive and whatever the environment answers, also through
    the recursion by which the SRPP library, waiting for an answer, has the
    filter process packets; and that recursion ends: each call takes a message
    from the queue, so a receive with more fuel than there are messages does what
    a receive with any more fuel does. *)

From Stdlib Require Import String Ascii.
From S2P Require Import Prelude SrppMessage Discovery FilterState Srpp Signaling Keep Sip Filter.

Section History.
Context {N : Net}.

(** ** What the messages say *)

Definition entry : Type := list Z * Z.

Definition is_invite (x : entry) : Prop := sip_kind_of x.1 = INVITE.
Definition is_ack (x : entry) : Prop :=
  sip_kind_of x.1 = REPLY ∧ has x.1 "200 OK" = false ∧ has x.1 "Route:" = true.
Definition is_200ok (x : entry) : Prop := sip_kind_of x.1 = REPLY ∧ has x.1 "200 OK" = true.

(** an INVITE; an INVITE of our own *)
Definition invited (h : list entry) : Prop := ∃ x, x ∈ h ∧ is_invite x.
Definition called (h : list entry) : Prop := ∃ x, x ∈ h ∧ is_invite x ∧ x.2 ≠ 0.

(** an ACK after an INVITE; a 200 OK from outside after an INVITE of our own *)
Definition acked (h : list entry) : Prop := ∃ h1 x h2, h = h1 ++ x :: h2 ∧ invited h1 ∧ is_ack x.
Definition answered (h : list entry) : Prop :=
  ∃ h1 x h2, h = h1 ++ x :: h2 ∧ called h1 ∧ is_200ok x ∧ x.2 = 0.

Lemma invited_prefix h h' : h `prefix_of` h' → invited h → invited h'.
Proof. intros [t ->] (x & Hx & Hi). exists x. split; [apply elem_of_app; by left|done]. Qed.
Lemma called_prefix h h' : h `prefix_of` h' → called h → called h'.
Proof. intros [t ->] (x & Hx & Hi). exists x. split; [apply elem_of_app; by left|done]. Qed.
Lemma acked_prefix h h' : h `prefix_of` h' → acked h → acked h'.
Proof. intros [t ->] (h1 & x & h2 & -> & Hx). exists h1, x, (h2 ++ t). by rewrite <-app_assoc. Qed.
Lemma answered_prefix h h' : h `prefix_of` h' → answered h → answered h'.
Proof. intros [t ->] (h1 & x & h2 & -> & Hx). exists h1, x, (h2 ++ t). by rewrite <-app_assoc. Qed.

Lemma acked_snoc h x : invited h → is_ack x → acked (h ++ [x]).
Proof. intros. by exists h, x, []. Qed.
Lemma answered_snoc h x : called h → is_200ok x → x.2 = 0 → answered (h ++ [x]).
Proof. intros. by exists h, x, []. Qed.

(** ** The invariant *)

(** the flags of the call say no more than the messages, an odd number of ports
    is known, each size of an incoming packet has one of an outgoing packet *)
Record consistent (f : filter) : Prop := mk_consistent {
  ok_invite : saw_invite_already (call f) ≠ 0 → invited (parsed f);
  ok_sent : sent_invite (call f) ≠ 0 → called (parsed f);
  ok_200 : saw_200ok (call f) ≠ 0 → answered (parsed f);
  ok_ack : saw_ack (call f) ≠ 0 → acked (parsed f);
  ok_on : is_session_on (call f) ≠ 0 → acked (parsed f);
  ok_rules : rtp_added (rules f) ≠ 0 → acked (parsed f);
  ok_ports : Nat.Odd (length (rtp_ports (call f)));
  ok_sizes : (length (input_packet_sizes (media f)) <= length (output_packet_sizes (media f)))%nat;
  ok_header : length (saved_header (media f)) = 40%nat }.

(** with at most [n] messages in the queue, and the messages [h] seen *)
Definition state (n : nat) (h : list entry) (f : filter) : Prop :=
  consistent f ∧ (length (queue f) <= n)%nat ∧ h `prefix_of` parsed f.

(** what the invariant reads *)
Definition relevant (f : filter) :=
  (call f, rtp_added (rules f), parsed f, queue f,
   (input_packet_sizes (media f), output_packet_sizes (media f), length (saved_header (media f)))).

Lemma state_relevant n h f f' : relevant f' = relevant f → state n h f → state n h f'.
Proof.
  intros [= H1 H2 H3 H4 H5 H6 H7] ([] & Hq & Hh). split_and!; [|by rewrite H4|by rewrite H3].
  constructor; rewrite ?H1, ?H2, ?H3, ?H5, ?H6, ?H7; done.
Qed.

Lemma state_here n h f : state n h f → state n (parsed f) f.
Proof. intros (H1 & H2 & _). by split_and!. Qed.

Lemma state_weaken n n' h h' f : (n <= n')%nat → h' `prefix_of` h → state n h f → state n' h' f.
Proof. intros Hn Hh (H1 & H2 & H3). split_and!; [done|lia|by etrans]. Qed.

Lemma ends_weaken {A} (P Q W : filter → Prop) (r : run A) :
  (∀ f, P f → Q f) → ends P W r → ends Q W r.
Proof. destruct r; simpl; auto. Qed.

Lemma agree_fset P W g : (∀ f, P f → P (g f)) → keeps P W (fset g).
Proof. intros Hg. apply agree_modify. intros w. apply Hg. Qed.

Lemma agree_fget {A} P W (g : filter → A) : keeps P W (fget g).
Proof. apply agree_gets. Qed.

Lemma agree_fset_relevant n h W g : (∀ f, relevant (g f) = relevant f) → keeps (state n h) W (fset g).
Proof. intros Hg. apply agree_fset. intros f. by apply state_relevant. Qed.

(** what is read is known to the rest *)
Lemma agree_fget_bind {A B} n h W (g : filter → A) (k k' : A → M B) :
  (∀ f, state n h f → agree (state n (parsed f)) W (k (g f)) (k' (g f))) →
  agree (state n h) W (fget g ≫= k) (fget g ≫= k').
Proof.
  intros Hk. apply agree_gets_bind. intros w Hw.
  destruct (Hk _ Hw w (state_here _ _ _ Hw)) as [H1 H2]. split; [done|].
  eapply ends_weaken; [|exact H2]. intros f. eapply state_weaken; [done|apply Hw].
Qed.

Lemma send_rtp_relevant f status last buff n r :
  send_rtp_message status last buff n f = Some r → relevant r.2 = relevant f.
Proof.
  unfold send_rtp_message. destruct (n <=? 0); [by intros [= <-]|].
  destruct (rtp_hdset _ =? 0); [done|].
  destruct (read_at buff 0 n) as [d|]; [|done]. rewrite Some_bind.
  destruct (rtp_packet f d n) as [p|]; [|done]. rewrite Some_bind.
  destruct (rtp_cover f buff p) as [p1|]; [|done]. rewrite Some_bind.
  destruct (next_header _ _ _) as [h|] eqn:Eh; [|done]. rewrite Some_bind.
  destruct (form_checksums p1) as [p2|]; [|done]. rewrite Some_bind.
  destruct (read_at p2 0 _) as [o|]; [|done]. rewrite Some_bind. intros [= <-].
  apply next_header_length in Eh. unfold raw_sendto, relevant. simpl.
  destruct (socket_open f); simpl; by rewrite Eh.
Qed.

Lemma send_rtp_state n h f status last buff len r :
  send_rtp_message status last buff len f = Some r → state n h f → state n h r.2.
Proof. intros Hr%send_rtp_relevant. by apply state_relevant. Qed.

End History.

#[export] Hint Resolve agree_fget : keep.
#[export] Hint Extern 2 (agree _ _ (fset _) (fset _)) => apply agree_fset_relevant; reflexivity : keep.

(** ** Operations *)

Section Preserved.
Context {E : Env} {N : Net} (W : filter → Prop).

#[local] Hint Resolve keep_new_message keep_PaddingFunctions keep_rtp_to_srpp keep_forward_rtp
  keep_srpp_to_srtp : keep.

Lemma keep_add_firewall_rule n h r : keeps (state n h) W (add_firewall_rule r).
Proof. keep_in add_firewall_rule. Qed.
#[local] Hint Resolve keep_add_firewall_rule : keep.

Lemma keep_add_pair P a r1 r2 r3 d :
  (∀ r, keeps P W (add_firewall_rule r)) → keeps P W d → keeps P W (add_pair a r1 r2 r3 d).
Proof. intros. keep_in add_pair. Qed.

Lemma keep_add_all_rules n h a u : keeps (state n h) W (add_all_rules a u).
Proof.
  unfold add_all_rules. apply agree_bind; [keep|]. intros r.
  destruct (a && _); [keep|]. apply agree_bind; [keep|]. intros _.
  apply agree_bind; [keep|]. intros ttl. apply keep_add_pair; [keep|]. destruct u; keep.
Qed.

(** rules for media are added when the call is acknowledged only *)
Lemma keep_add_all_rtp_rules n h a u :
  (a = true → acked h) → keeps (state n h) W (add_all_rtp_rules a u).
Proof.
  intros Ha. unfold add_all_rtp_rules. apply agree_bind; [keep|]. intros r.
  destruct (a && _); [keep|]. apply agree_bind; [keep|]. intros port.
  apply agree_bind; [keep|]. intros _. apply agree_bind; [keep|]. intros _.
  apply agree_bind; [keep|]. intros ttl. apply keep_add_pair; [keep|].
  apply agree_bind; [|keep]. apply agree_fset. intros f ([] & Hq & Hh). split_and!; [|done..].
  constructor; try done. simpl. destruct a; [|done]. intros _. eapply acked_prefix; eauto.
Qed.

Lemma keep_set_destination n h s : keeps (state n h) W (set_destination s).
Proof. unfold set_destination, resolve_and_set. keep. Qed.
Lemma keep_isLocalIP n h s : keeps (state n h) W (isLocalIP s).
Proof. keep_in isLocalIP. Qed.
Lemma keep_keep_dest n h : keeps (state n h) W keep_dest.
Proof. keep_in keep_dest. Qed.
Lemma keep_last_dest n h : keeps (state n h) W last_dest.
Proof. keep_in last_dest. Qed.
#[local] Hint Resolve keep_add_all_rules keep_set_destination keep_isLocalIP keep_keep_dest
  keep_last_dest : keep.

(** a change of the call that keeps its flags and ports *)
Definition same_flags (c c' : Call) : Prop :=
  saw_invite_already c' = saw_invite_already c ∧ sent_invite c' = sent_invite c ∧
  saw_200ok c' = saw_200ok c ∧ saw_ack c' = saw_ack c ∧ is_session_on c' = is_session_on c ∧
  rtp_ports c' = rtp_ports c.

Lemma agree_call n h g : (∀ c, same_flags c (g c)) → keeps (state n h) W (fset (on_call g)).
Proof.
  intros Hg. apply agree_fset. intros f ([] & Hq & Hh). split_and!; [|done..].
  destruct (Hg (call f)) as (H1 & H2 & H3 & H4 & H5 & H6).
  constructor; simpl; rewrite ?H1, ?H2, ?H3, ?H4, ?H5, ?H6; done.
Qed.
#[local] Hint Extern 3 (agree _ _ (fset (on_call _)) _) => apply agree_call; done : keep.

Lemma keep_sdp_port n h s d : keeps (state n h) W (sdp_port s d).
Proof. unfold sdp_port. destruct (d =? 0); keep. Qed.
Lemma keep_sdp_address n h s d : keeps (state n h) W (sdp_address s d).
Proof. unfold sdp_address. destruct (d =? 0); keep. Qed.
#[local] Hint Resolve keep_sdp_port keep_sdp_address : keep.

Lemma keep_write_sizes n h : keeps (state n h) W write_sizes.
Proof.
  unfold write_sizes. apply agree_bind; [keep|]. intros m. apply agree_bind; [keep|]. intros _.
  apply agree_fset. intros f ([] & Hq & Hh). split_and!; [|done..]. by constructor.
Qed.
#[local] Hint Resolve keep_write_sizes : keep.

Lemma keep_parse_register n h s d : keeps (state n h) W (parse_register s d).
Proof. keep_in parse_register. Qed.
Lemma keep_parse_subscribe n h s d : keeps (state n h) W (parse_subscribe s d).
Proof. keep_in parse_subscribe. Qed.
#[local] Hint Resolve keep_parse_register keep_parse_subscribe : keep.

(** the buffer is sent on *)
Lemma keep_send_raw n h b l : keeps (state n h) W (send_raw b l).
Proof.
  unfold send_raw. apply agree_bind; [keep|]. intros st. apply agree_gets_bind. intros w Hw.
  unfold mbind, M_bind, lift. destruct (send_raw_message _ _ _ _) as [r|] eqn:Er; [|done].
  split; [done|]. simpl. revert Er. unfold send_raw_message, raw_sendto.
  destruct (_ =? 0); [by intros [= <-]|]. destruct (l <=? 0); [by intros [= <-]|].
  destruct (read_at b 0 l); [|done]. rewrite Some_bind. intros [= <-].
  destruct (socket_open _); [|done]. by apply (state_relevant _ _ (host w)).
Qed.
#[local] Hint Resolve keep_send_raw : keep.

Lemma keep_send_packet n h b l : keeps (state n h) W (send_packet b l).
Proof. keep_in send_packet. Qed.
#[local] Hint Resolve keep_send_packet : keep.

Lemma keep_forward_sip n h b l o d : keeps (state n h) W (forward_sip b l o d).
Proof. unfold forward_sip, set_ttl. keep. Qed.

Lemma keep_store_header n h b l s : keeps (state n h) W (store_header b l s).
Proof.
  unfold store_header. apply agree_bind; [keep|]. intros hd. apply agree_fget_bind. intros f Hf.
  unfold agree. intros w Hw. unfold mbind, M_bind, lift.
  destruct (write_at _ _ _) as [hd'|] eqn:Ew; [|done]. split; [done|]. simpl.
  destruct Hw as ([] & Hq & Hh). split_and!; [|done..]. constructor; try done. simpl.
  rewrite (length_write_at _ _ _ _ Ew). apply Hf.
Qed.
#[local] Hint Resolve keep_forward_sip keep_store_header : keep.

Lemma keep_save_header n h b : keeps (state n h) W (save_header b).
Proof. keep_in save_header. Qed.

Lemma keep_unwrap n h b l : keeps (state n h) W (unwrap b l).
Proof. unfold unwrap, read_srpp, getKey, replace_data. keep. Qed.

Lemma keep_media_headers n h b l o p a : keeps (state n h) W (media_headers b l o p a).
Proof. unfold media_headers, set_ttl. keep. Qed.
#[local] Hint Resolve keep_save_header keep_unwrap keep_media_headers : keep.

(** an operation that touches nothing the invariant reads keeps more *)
Definition stable (P : filter → Prop) : Prop := ∀ f f', relevant f' = relevant f → P f → P f'.

Lemma keep_wrap_media P b l : stable P → keeps P W (wrap_media b l).
Proof.
  intros HP. assert (∀ g, (∀ f, relevant (g f) = relevant f) → keeps P W (fset g)) as Hset.
  { intros g Hg. apply agree_fset. intros f. by apply HP. }
  unfold wrap_media, getKey, replace_data. apply agree_bind; [keep|]. intros srtp.
  apply agree_bind; [keep|]. intros image. cbv zeta. apply agree_bind.
  { apply Hset. intros f. unfold relevant. simpl. by destruct (ssrc_value _ =? 0). }
  intros _. apply agree_bind; [keep|]. intros d. apply agree_bind; [keep|]. intros m.
  apply agree_bind; [by apply Hset|]. keep.
Qed.

(** between the two lists of sizes *)
Definition half (n : nat) (h : list entry) (f : filter) : Prop := state n h (on_media (note_output 0) f).

Lemma half_stable n h : stable (half n h).
Proof.
  intros f f' Hr. apply state_relevant. revert Hr. unfold relevant. simpl.
  intros [= -> -> -> -> -> -> ->]. done.
Qed.

Lemma half_of_state n h f : state n h f → half n h f.
Proof.
  intros ([] & Hq & Hh). split_and!; [|done..]. constructor; try done. simpl. rewrite length_app. lia.
Qed.

Lemma half_input n h k f : state n h f → half n h (on_media (note_input k) f).
Proof.
  intros ([] & Hq & Hh). split_and!; [|done..]. constructor; try done. simpl. rewrite !length_app. simpl. lia.
Qed.

Lemma state_output n h k f : half n h f → state n h (on_media (note_output k) f).
Proof.
  intros ([] & Hq & Hh). split_and!; [|done..]. constructor; try done. simpl in *.
  rewrite length_app in *. simpl in *. lia.
Qed.

End Preserved.

(** a step through states with another predicate *)
Lemma agree_bind_via {A B} P Q W (m : M A) (f f' : A → M B) :
  (∀ w, P (host w) → ends Q (λ _, False) (m w)) →
  (∀ a w, Q (host w) → f a w = f' a w ∧ ends P W (f a w)) →
  agree P W (m ≫= f) (m ≫= f').
Proof.
  intros Hm Hf w Hw. specialize (Hm w Hw). unfold mbind, M_bind.
  destruct (m w) as [a w'|w'|]; [by apply Hf|done|done].
Qed.

(** ** Operations that receive *)

Section Receiving.
Context {E : Env} {N : Net} (n : nat) (W : filter → Prop) (recv recv' : receiver).
Hypothesis Hrecv : ∀ h, agree (state n h) W recv recv'.

#[local] Hint Resolve keep_add_firewall_rule keep_add_all_rules keep_set_destination keep_isLocalIP
  keep_keep_dest keep_last_dest keep_sdp_port keep_sdp_address keep_write_sizes keep_parse_register
  keep_parse_subscribe keep_send_raw keep_send_packet keep_forward_sip keep_store_header
  keep_save_header keep_unwrap keep_media_headers keep_new_message : keep.
#[local] Hint Extern 3 (agree _ _ (fset (on_call _)) _) => apply agree_call; done : keep.

Lemma keep_stop h : agree (state n h) W (stop_session recv) (stop_session recv').
Proof using Hrecv. apply keep_stop_session; [apply send_rtp_state|done]. Qed.
Lemma keep_received h b l :
  agree (state n h) W (processReceivedData recv b l) (processReceivedData recv' b l).
Proof using Hrecv. apply keep_processReceivedData; [apply send_rtp_state|done]. Qed.
#[local] Hint Resolve keep_stop keep_received : keep.

Lemma keep_stop_discovering h : agree (state n h) W (stop_discovering recv) (stop_discovering recv').
Proof using Hrecv. keep_in stop_discovering. Qed.
#[local] Hint Resolve keep_stop_discovering : keep.

Lemma keep_sdp_profile h s m d :
  agree (state n h) W (sdp_profile recv s m d) (sdp_profile recv' s m d).
Proof using Hrecv. keep_in sdp_profile. Qed.
#[local] Hint Resolve keep_sdp_profile : keep.

(** the end of a call *)
Lemma keep_parse_bye h : agree (state n h) W (parse_bye recv) (parse_bye recv').
Proof using Hrecv.
  assert (∀ g, (∀ c, saw_invite_already (g c) = 0 ∨ saw_invite_already (g c) = saw_invite_already c) →
    (∀ c, is_session_on (g c) = 0 ∨ is_session_on (g c) = is_session_on c) →
    (∀ c, same_flags c (put_is_session_on (is_session_on c)
       (put_saw_invite_already (saw_invite_already c) (g c)))) →
    keeps (state n h) W (fset (on_call g))) as Hset.
  { intros g H1 H2 H3. apply agree_fset. intros f ([] & Hq & Hh). split_and!; [|done..].
    destruct (H3 (call f)) as (_ & J2 & J3 & J4 & _ & J6). simpl in J2, J3, J4, J6.
    constructor; simpl; rewrite ?J2, ?J3, ?J4, ?J6; try done.
    - by destruct (H1 (call f)) as [->| ->].
    - by destruct (H2 (call f)) as [->| ->]. }
  unfold parse_bye. apply agree_bind; [keep|]. intros b. destruct (b =? 1); [keep|].
  apply agree_bind; [keep|]. intros _. apply agree_bind; [keep|]. intros _.
  apply agree_bind; [apply Hset; intros; simpl; auto; done|]. intros _.
  apply agree_bind; [keep|]. intros a. apply agree_bind; [keep|]. intros _.
  apply agree_bind; [by apply keep_add_all_rtp_rules|]. intros _. apply agree_bind; [keep|]. intros _.
  apply agree_bind; [apply Hset; intros; simpl; auto; done|]. keep.
Qed.

(** the message is noted, and its flag set *)
Lemma noted_reply h s d f :
  sip_kind_of s = REPLY → state n h f →
  state n h (on_call (note_reply s d) (put_parsed (parsed f ++ [(s, d)]) f)).
Proof using.
  intros Hk ([] & Hq & Hh).
  assert (parsed f `prefix_of` parsed f ++ [(s, d)]) as Hp by by eexists.
  split_and!; [|done|simpl; by etrans].
  unfold note_reply. constructor; simpl; repeat case_match; simpl; try done;
    eauto using invited_prefix, called_prefix, acked_prefix, answered_prefix.
  - intros _. apply answered_snoc; [apply ok_sent0; lia|by split|simpl; lia].
  - intros _. apply acked_snoc; [apply ok_invite0; lia|]. split_and!; [done|done|]. simpl.
    by destruct (has s "Route:"); [|lia].
Qed.

Lemma started_call h f g :
  established (call f) = true → state n h f → state n (parsed f) g →
  state n (parsed f) (on_call start_call g).
Proof using.
  intros He ([] & _) ([] & Hq & Hh). unfold established in He.
  split_and!; [|done..]. constructor; simpl; try done. intros _.
  eapply acked_prefix; [exact Hh|]. apply ok_ack0. lia.
Qed.

(** two writes in a row; the messages seen after them are known to the rest *)
Lemma agree_fset2 {A} h g1 g2 (k k' : M A) :
  (∀ f, state n h f → state n h (g2 (g1 f))) →
  (∀ f, state n h f → agree (state n (parsed (g2 (g1 f)))) W k k') →
  agree (state n h) W (fset g1;; fset g2;; k) (fset g1;; fset g2;; k').
Proof using.
  intros Hg Hk w Hw. pose proof (Hg _ Hw) as Hw'.
  destruct (Hk _ Hw (set_host (g2 (g1 (host w))) (set_host (g1 (host w)) w)) (state_here _ _ _ Hw'))
    as [H1 H2].
  split; [exact H1|]. eapply ends_weaken; [|exact H2]. intros f. eapply state_weaken; [done|apply Hw'].
Qed.

Lemma keep_parse_reply h s d :
  sip_kind_of s = REPLY →
  agree (state n h) W (fset (λ f, put_parsed (parsed f ++ [(s, d)]) f);; parse_reply recv s d)
    (fset (λ f, put_parsed (parsed f ++ [(s, d)]) f);; parse_reply recv' s d).
Proof using Hrecv.
  intros Hk. unfold parse_reply. apply agree_fset2; [by intros; apply noted_reply|].
  intros f _. apply agree_bind; [keep|]. intros stop. destruct stop; [keep|].
  apply agree_fget_bind. intros f' Hf'. destruct (_ || _); [keep|].
  apply agree_bind; [|keep]. destruct (_ && _); [|keep]. apply agree_bind; [keep|]. intros _.
  apply agree_bind.
  - apply agree_fset. intros g ([] & Hq & Hh). split_and!; [|done..]. constructor; simpl; try done.
    rewrite length_app. simpl. destruct ok_ports0 as [k ->]. exists (S k). lia.
  - intros _. destruct (established _) eqn:He; [|keep]. apply agree_bind.
    + apply keep_add_all_rtp_rules. intros _. apply Hf'. unfold established in He. lia.
    + intros _. apply agree_fset. intros g. by eapply (started_call _ f').
Qed.

Lemma keep_parse_invite h s d :
  sip_kind_of s = INVITE →
  agree (state n h) W (fset (λ f, put_parsed (parsed f ++ [(s, d)]) f);; parse_invite recv s d)
    (fset (λ f, put_parsed (parsed f ++ [(s, d)]) f);; parse_invite recv' s d).
Proof using Hrecv.
  intros Hk. unfold parse_invite. apply agree_fset2.
  - intros f ([] & Hq & Hh). assert (parsed f `prefix_of` parsed f ++ [(s, d)]) as Hp by by eexists.
    split_and!; [|done|simpl; by etrans].
    constructor; simpl; try done; eauto using called_prefix, acked_prefix, answered_prefix.
    intros _. exists (s, d). split; [apply elem_of_app; right; by constructor|done].
  - intros f _. apply agree_bind; [keep|]. intros m. apply agree_bind; [keep|]. intros stop.
    destruct stop; [keep|]. apply agree_bind; [keep|]. intros _. destruct (Z.eqb_spec d 0); [keep|].
    apply agree_bind; [|keep]. apply agree_fset. intros g ([] & Hq & Hh).
    split_and!; [|done..]. constructor; simpl; try done. intros _.
    eapply called_prefix; [exact Hh|]. exists (s, d). simpl.
    split; [apply elem_of_app; right; by constructor|done].
Qed.

Lemma noted_other h s d f : state n h f → state n h (put_parsed (parsed f ++ [(s, d)]) f).
Proof using.
  intros ([] & Hq & Hh). assert (parsed f `prefix_of` parsed f ++ [(s, d)]) as Hp by by eexists.
  split_and!; [|done|simpl; by etrans].
  constructor; simpl; eauto using invited_prefix, called_prefix, acked_prefix, answered_prefix.
Qed.

Lemma keep_parse_sip h s d : agree (state n h) W (parse_sip recv s d) (parse_sip recv' s d).
Proof using Hrecv.
  unfold parse_sip. destruct (sip_kind_of s) eqn:Hk;
    try (by apply keep_parse_reply); try (by apply keep_parse_invite);
    (apply agree_bind; [apply agree_fset; by intros; apply noted_other|]; intros _);
    [apply keep_parse_bye|keep..].
Qed.
#[local] Hint Resolve keep_parse_sip : keep.

Lemma keep_process_sip h b l o d :
  agree (state n h) W (process_sip recv b l o d) (process_sip recv' b l o d).
Proof using Hrecv. keep_in process_sip. Qed.

Lemma keep_start_SRPP h : agree (state n h) W (start_SRPP recv) (start_SRPP recv').
Proof using Hrecv.
  unfold start_SRPP, disable_srpp, enable_srpp, set_starting_sequenceno. apply agree_bind; [|keep].
  apply keep_start_session; [apply send_rtp_state|done].
Qed.
#[local] Hint Resolve keep_process_sip keep_start_SRPP : keep.

Lemma keep_try_start h : agree (state n h) W (try_start recv) (try_start recv').
Proof using Hrecv. keep_in try_start. Qed.
#[local] Hint Resolve keep_try_start : keep.

Lemma keep_process_rtp_in h b l o s :
  agree (state n h) W (process_rtp_in recv b l o s) (process_rtp_in recv' b l o s).
Proof using Hrecv. keep_in process_rtp_in. Qed.

Lemma keep_process_rtp_out h b l o :
  agree (state n h) W (process_rtp_out recv b l o) (process_rtp_out recv' b l o).
Proof using Hrecv.
  unfold process_rtp_out. apply agree_bind; [keep|]. intros src. apply agree_bind; [keep|]. intros _.
  apply agree_bind; [keep|]. intros u. destruct u; [keep|]. apply agree_bind; [keep|]. intros _.
  apply agree_bind; [keep|]. intros st. apply agree_bind; [keep|]. intros _.
  apply agree_bind; [keep|]. intros apply.
  apply (agree_bind_via _ (half n h)).
  - intros w Hw. destruct (apply =? 1); [|by apply half_of_state].
    exact (proj2 (keep_wrap_media _ (half n h) b l (half_stable n h)
      (set_host (on_media (note_input l) (host w)) w) (half_input n h l _ Hw))).
  - intros bn w Hw.
    assert (∀ k k' : M (option Z), agree (state n h) W k k' →
      (fset (on_media (note_output bn.2));; k) w = (fset (on_media (note_output bn.2));; k') w ∧
      ends (state n h) W ((fset (on_media (note_output bn.2));; k) w)) as Hout.
    { intros k k' Hk. exact (Hk (set_host _ w) (state_output n h bn.2 _ Hw)). }
    apply Hout. keep.
Qed.
#[local] Hint Resolve keep_process_rtp_in keep_process_rtp_out : keep.

Lemma keep_process_packet h b l :
  agree (state n h) W (process_packet recv b l) (process_packet recv' b l).
Proof using Hrecv.
  unfold process_packet. destruct (l <? 28); [keep|]. apply agree_bind; [keep|]. intros i. cbv zeta.
  apply agree_bind; [keep|]. intros p. destruct (_ && _); [keep|].
  do 7 (apply agree_bind; [keep|]; intros ?). keep.
Qed.

Lemma keep_receive_packet h m b l :
  agree (state n h) W (receive_packet recv m b l) (receive_packet recv' m b l).
Proof using Hrecv.
  unfold receive_packet. apply agree_bind; [keep|]. intros g. destruct (g =? 1); [keep|].
  apply agree_bind; [apply keep_process_packet|keep].
Qed.

End Receiving.

(** ** The receive functor *)

Section Functor.
Context {E : Env} {N : Net}.

(** a message is taken from the queue *)
Lemma next_message_spec n h w :
  state n h (host w) →
  match next_message w with
  | Done _ w' => ∃ k, n = S k ∧ state k h (host w')
  | Wait w' => state n h (host w')
  | Fault => False
  end.
Proof.
  intros ([] & Hq & Hh). unfold next_message. destruct (queue (host w)) as [|x q] eqn:Eq.
  - split_and!; [done| |done]. by rewrite Eq.
  - simpl in Hq. destruct n as [|k]; [lia|]. exists k. split; [done|].
    split_and!; [|simpl; lia|done]. by constructor.
Qed.

(** from a state with at most [n] messages *)
Lemma receive_agree n fuel fuel' h :
  (n < fuel)%nat → (n < fuel')%nat →
  agree (state n h) (state n []) (receive_rtp_message fuel) (receive_rtp_message fuel').
Proof.
  revert fuel fuel' h. induction n as [n IH] using lt_wf_ind. intros [|fuel] [|fuel'] h Hf Hf'; [lia..|].
  cbn [receive_rtp_message]. apply agree_bind; [apply keep_new_message|]. intros dummy w Hw.
  pose proof (next_message_spec n h w Hw) as Hn. unfold mbind, M_bind.
  destruct (next_message w) as [x w'|w'|]; [|split; [done|]; by eapply state_weaken;
    [reflexivity|apply prefix_nil|]|done].
  destruct Hn as (k & -> & Hk).
  assert (∀ m m' : M (option SRPPMessage), agree (state k h) (state k []) m m' →
    m w' = m' w' ∧ ends (state (S k) h) (state (S k) []) (m w')) as Hlift.
  { intros m m' Hm. destruct (Hm w' Hk) as [H1 H2]. split; [done|].
    destruct (m w'); simpl in *; eauto using state_weaken. }
  destruct (x.1 <? 0); [by apply Hlift|]. destruct x.2 as [payload len v| |]; [|by apply Hlift..].
  destruct (_ || _); [by apply Hlift|].
  apply Hlift, keep_receive_packet. intros h'. apply IH; lia.
Qed.

Lemma receive_consistent n fuel h :
  (n < fuel)%nat → keeps (state n h) (state n []) (receive_rtp_message fuel).
Proof. intros. by apply receive_agree. Qed.

Lemma keep_discover_step n h recv :
  (∀ h, keeps (state n h) (state n []) recv) →
  keeps (state n h) (state n []) (discover_step recv).
Proof.
  intros Hrecv w Hw. split; [done|]. unfold discover_step, mbind at 1, M_bind at 1.
  pose proof (next_message_spec n h w Hw) as Hn.
  destruct (next_message w) as [x w'|w'|]; [|by eapply state_weaken; [reflexivity|apply prefix_nil|]|done].
  destruct Hn as (k & -> & Hk). assert (state (S k) h (host w')) as Hk'
    by (eapply state_weaken; [|done|done]; lia).
  destruct x.2 as [payload len v| |]; [|done..]. destruct (_ || _); [done|].
  refine (proj2 (agree_bind _ _ _ _ _ _ _ _ w' Hk')).
  - by apply keep_process_packet.
  - intros ?. apply agree_ret.
Qed.

Lemma keep_discover_init n h W : keeps (state n h) W discover_init.
Proof.
  unfold discover_init, choose_ttl, create_sockets, initialize_srpp, init_SRPP, create_session,
    setSendFunctor.
  pose proof (keep_add_all_rules W n h true true). pose proof (keep_PaddingFunctions (state n h) W). keep.
Qed.

(** ** Reachable states *)

(** the program starts, is initialised, a message arrives, a turn of the main
    loop is done, the timer fires, the user interrupts the program *)
Inductive reachable : world → Prop :=
  | r_start w m : host w = initial m → reachable w
  | r_init w w' : reachable w → discover_init w = Done tt w' → reachable w'
  | r_arrive w x : reachable w →
      reachable (set_host (put_queue (queue (host w) ++ [x]) (host w)) w)
  | r_turn w w' fuel : reachable w → (length (queue (host w)) < fuel)%nat →
      discover_step (receive_rtp_message fuel) w = Done tt w' → reachable w'
  | r_timer w w' : reachable w → timer_fired w = Done tt w' → reachable w'
  | r_interrupt w w' fuel : reachable w → (length (queue (host w)) < fuel)%nat →
      stop_discovering (receive_rtp_message fuel) w = Done tt w' → reachable w'.

Lemma initial_consistent m : consistent (initial m).
Proof. constructor; simpl; try done. by exists O. Qed.

Lemma keeps_Done {A} P W (m : M A) w a w' : keeps P W m → P (host w) → m w = Done a w' → P (host w').
Proof. intros Hm Hw Hr. destruct (Hm w Hw) as [_ H]. by rewrite Hr in H. Qed.

Lemma consistent_state f : consistent f ↔ state (length (queue f)) [] f.
Proof. split; [|by intros (? & _)]. intros H. split_and!; [done|done|apply prefix_nil]. Qed.

Lemma reachable_consistent w : reachable w → consistent (host w).
Proof.
  induction 1 as [w m Hm|w w' _ IH Hr|w x _ IH|w w' fuel _ IH Hf Hr|w w' _ IH Hr|w w' fuel _ IH Hf Hr].
  - rewrite Hm. apply initial_consistent.
  - apply consistent_state in IH.
    exact (proj1 (keeps_Done _ (λ _, True) _ _ _ _ (keep_discover_init _ _ _) IH Hr)).
  - destruct IH. by constructor.
  - apply consistent_state in IH.
    refine (proj1 (keeps_Done _ _ _ _ _ _ (keep_discover_step _ _ _ _) IH Hr)).
    intros h. by apply receive_consistent.
  - apply consistent_state in IH.
    refine (proj1 (keeps_Done _ (λ _, True) _ _ _ _ (keep_timer_fired _ _ _) IH Hr)).
    apply send_rtp_state.
  - apply consistent_state in IH.
    refine (proj1 (keeps_Done _ _ _ _ _ _ (keep_stop_discovering _ _ _ _ _ _) IH Hr)).
    intros h. by apply receive_consistent.
Qed.

End Functor.

(** ** Properties *)

(** C6: whatever packets arrive and whatever the environment answers, the globals
    of the filter are consistent with the SIP messages it has seen: media is
    diverted (a session on, firewall rules for media) only after an INVITE and
    a later ACK; the number of known RTP ports is odd, so that the next pair
    put there has the peer's port at an even index, where it is looked up; no
    size is written to the file without its partner; the saved header has its 40
    octets. *)
Theorem filter_consistent {E : Env} {N : Net} w :
  reachable w →
  (is_session_on (call (host w)) ≠ 0 ∨ rtp_added (rules (host w)) ≠ 0 → acked (parsed (host w))) ∧
  Nat.Odd (length (rtp_ports (call (host w)))) ∧
  (length (input_packet_sizes (media (host w))) <= length (output_packet_sizes (media (host w))))%nat ∧
  length (saved_header (media (host w))) = 40%nat.
Proof.
  intros [H1 H2 H3 H4 H5 H6 H7 H8 H9]%reachable_consistent. split_and!; [tauto|done..].
Qed.

(** C11: the recursion between the filter and the SRPP library ends: with one unit
    of fuel more than there are messages in the queue, the receive functor does
    what it does with any more fuel, and leaves the queue no longer. *)
Theorem receive_fuel_enough {E : Env} {N : Net} w fuel fuel' :
  consistent (host w) → (length (queue (host w)) < fuel)%nat → (fuel <= fuel')%nat →
  receive_rtp_message fuel w = receive_rtp_message fuel' w ∧
  ends (λ f, (length (queue f) <= length (queue (host w)))%nat)
       (λ f, (length (queue f) <= length (queue (host w)))%nat) (receive_rtp_message fuel w).
Proof.
  intros Hc Hf Hf'. apply consistent_state in Hc.
  destruct (receive_agree (length (queue (host w))) fuel fuel' [] ltac:(done) ltac:(lia) w Hc) as [H1 H2].
  split; [done|]. destruct (receive_rtp_message fuel w); simpl in *; [apply H2|apply H2|done].
Qed.

(** ** A concrete call *)

(** an IP and a UDP header, data, and the rest of the buffer *)
Definition sample_packet (src dst : list Z) (sport dport : Z) (data : list Z) : list Z :=
  [0x45; 0; 0; 0; 0; 0; 0; 0; 64; 17; 0; 0] ++ src ++ dst ++
  be_bytes 2 sport ++ be_bytes 2 dport ++ [0; 0; 0; 0] ++ data ++ replicate 1600 7.

Definition addr_a : list Z := [10; 0; 0; 1].
Definition addr_b : list Z := [10; 0; 0; 2].

Definition sip_arrival (src dst data : list Z) : ipq_read :=
  (1, IPQM_PACKET (sample_packet src dst 5060 5060 data) (28 + Z.of_nat (length data)) 0).

(** packets that arrive one by one, with a turn of the main loop for each *)
Fixpoint serve {E : Env} {N : Net} (xs : list ipq_read) (w : world) : option world :=
  match xs with
  | [] => Some w
  | x :: xs =>
      let w := set_host (put_queue (queue (host w) ++ [x]) (host w)) w in
      match discover_step (receive_rtp_message (S (length (queue (host w))))) w with
      | Done _ w => serve xs w
      | _ => None
      end
  end.

Lemma serve_reachable {E : Env} {N : Net} xs w w' : reachable w → serve xs w = Some w' → reachable w'.
Proof.
  revert w. induction xs as [|x xs IH]; intros w Hw; cbn [serve]; [by intros [= <-]|].
  destruct (discover_step _ _) as [[] w1|w1|] eqn:Er; [|done..].
  apply IH. refine (r_turn _ _ _ (r_arrive _ x Hw) _ Er). lia.
Qed.

Definition sample_call : list ipq_read :=
  [sip_arrival addr_a addr_b sample_invite; sip_arrival addr_b addr_a sample_200ok;
   sip_arrival addr_a addr_b sample_ack].

Lemma filter_consistent_witness :
  ∃ w, @serve sample_env sample_net sample_call (filter_world (initial sample_dummy)) = Some w ∧
    is_session_on (call (host w)) = 1 ∧ @acked sample_net (parsed (host w)) ∧
    Nat.Odd (length (rtp_ports (call (host w)))).
Proof.
  assert (option_map (λ w, is_session_on (call (host w)))
    (@serve sample_env sample_net sample_call (filter_world (initial sample_dummy))) = Some 1) as Hon
    by (vm_compute; reflexivity).
  destruct (@serve _ _ _ _) as [w|] eqn:Ew; [|done]. injection Hon as Hon. exists w.
  destruct (@filter_consistent sample_env sample_net w) as (H1 & H2 & _).
  - exact (@serve_reachable sample_env sample_net sample_call _ w
      (@r_start sample_env sample_net (filter_world _) sample_dummy eq_refl) Ew).
  - split_and!; [reflexivity|exact Hon| |exact H2]. apply H1. left. rewrite Hon. discriminate.
Defined.

Lemma receive_fuel_enough_witness :
  let w := filter_world (put_queue [sip_arrival addr_a addr_b sample_invite] (initial sample_dummy)) in
  @receive_rtp_message sample_env sample_net 2 w = @receive_rtp_message sample_env sample_net 100 w.
Proof.
  apply (@receive_fuel_enough sample_env sample_net); [|simpl; lia|lia].
  destruct (@initial_consistent sample_net sample_dummy). by constructor.
Defined.
