(* ===== verification/FilterMedia.v ===== *)
(** * What the packet filter forwards

    SIP messages are forwarded with their text unchanged; the media of an SRTP
    call goes through two filters, one at each end, and comes out as it was. *)

From Stdlib Require Import String Ascii.
From S2P Require Import Prelude SrppMessage Discovery FilterState Srpp Signaling Sip Filter FilterInv.

(** ** Packets *)

(** an IP packet without options, in its buffer *)
Definition packet_ok (b : list Z) : Prop :=
  (28 <= length b)%nat ∧ is_bytes b ∧ ∃ x, b !! 0%nat = Some x ∧ x & 15 = 5.

Lemma packet_ok_write b off bs b' :
  packet_ok b → write_at b off bs = Some b' → 1 <= off → is_bytes bs → packet_ok b'.
Proof.
  intros (Hl & Hb & x & Hx & H5) Hw Ho Hbs. pose proof (length_write_at _ _ _ _ Hw) as Hlen.
  apply write_at_cut in Hw as (a & y & r & -> & -> & -> & Hy). split_and!; [lia| |].
  - rewrite !is_bytes_app in *. tauto.
  - exists x. split; [|done]. destruct a as [|c a]; [simpl in Ho; lia|done].
Qed.

Lemma le_bytes_bytes n x : is_bytes (le_bytes n x).
Proof. apply is_bytes_rev, be_bytes_range. Qed.

Lemma packet_ihl b : packet_ok b → ihl b = Some 5.
Proof. intros (_ & _ & x & Hx & H5). unfold ihl. rewrite aget_lookup by lia.
  change (Z.to_nat 0) with 0%nat. by rewrite Hx, Some_bind, H5. Qed.

(** the places the checksums are at: octets 10, 11, 26 and 27 *)
Definition beside_checksums (o n : Z) : Prop := o + n <= 10 ∨ 12 <= o ∧ (o + n <= 26 ∨ 28 <= o).

Lemma checksummed b :
  packet_ok b → ∃ b', form_checksums b = Some b' ∧ packet_ok b' ∧ length b' = length b ∧
    in_cksum b' 20 = Some 0 ∧ ∀ o n, beside_checksums o n → read_at b' o n = read_at b o n.
Proof.
  intros Hok. pose proof Hok as (Hl & Hb & x & Hx & H5).
  assert (good_header (take 20 b)) as Hg.
  { split_and!; [rewrite length_take; lia|by apply Forall_take|]. exists x. split; [|done].
    by rewrite lookup_take_lt by lia. }
  destruct (form_checksums_header (take 20 b) (drop 20 b) Hg) as (h' & E1 & (Hl' & _) & E2);
    [rewrite length_drop; lia|]. rewrite take_drop in E1. exists (h' ++ zero67 (drop 20 b)).
  assert (in_cksum (h' ++ zero67 (drop 20 b)) 20 = Some 0) as Hck.
  { unfold in_cksum. rewrite read_at_before by lia.
    assert (read_at h' 0 20 = Some h') as ->
      by (rewrite <-(app_nil_r h') at 1; apply (read_mid [] h' []); [done|lia]).
    by rewrite Some_bind, E2. }
  revert E1 Hck. generalize (h' ++ zero67 (drop 20 b)). intros b' E1 Hck. pose proof E1 as E1'.
  unfold form_checksums in E1'. rewrite packet_ihl, Some_bind in E1' by done.
  unfold put16 in E1'. destruct (write_at b 10 _) as [b1|] eqn:W1; [|done]. rewrite Some_bind in E1'.
  destruct (in_cksum b1 20) as [c|]; [|done]. rewrite Some_bind in E1'.
  destruct (write_at b1 10 _) as [b2|] eqn:W2; [|done]. rewrite Some_bind in E1'.
  change (4 * 5 + 6) with 26 in E1'.
  pose proof (packet_ok_write _ _ _ _ Hok W1 ltac:(lia) (le_bytes_bytes _ _)) as K1.
  pose proof (packet_ok_write _ _ _ _ K1 W2 ltac:(lia) (le_bytes_bytes _ _)) as K2.
  pose proof (packet_ok_write _ _ _ _ K2 E1' ltac:(lia) (le_bytes_bytes _ _)) as K3.
  split_and!; try done.
  - by rewrite (length_write_at _ _ _ _ E1'), (length_write_at _ _ _ _ W2), (length_write_at _ _ _ _ W1).
  - intros o n Ho. unfold beside_checksums in Ho.
    rewrite (read_other _ _ _ _ o n E1'), (read_other _ _ _ _ o n W2), (read_other _ _ _ _ o n W1);
      rewrite ?length_le_bytes; done || lia.
Qed.

(** the octets of a packet in its buffer *)
Lemma read_prefix b l o n p :
  read_at b 0 l = Some p → o + n <= l → read_at p o n = read_at b o n.
Proof.
  unfold read_at at 1. destruct (_ && _) eqn:Ec; [|done]. intros [= <-] Ho. rewrite drop_0.
  rewrite <-(take_drop (Z.to_nat l) b) at 2. symmetry. apply read_at_before. rewrite length_take. lia.
Qed.

Lemma read_all b l : 0 <= l <= Z.of_nat (length b) → ∃ p, read_at b 0 l = Some p ∧ Z.of_nat (length p) = l.
Proof.
  intros Hl. unfold read_at. rewrite (proj2 (Z.leb_le 0 l)), (proj2 (Z.leb_le (0 + l) _)) by lia.
  eexists. split; [done|]. rewrite length_take, length_drop. lia.
Qed.

Lemma read_tail p o t : read_at p o (Z.of_nat (length p) - o) = Some t → drop (Z.to_nat o) p = t.
Proof.
  unfold read_at. destruct (_ && _) eqn:Ec; [|done]. intros [= <-].
  rewrite take_ge; [done|]. rewrite length_drop. lia.
Qed.

Section Sending.
Context {E : Env} {N : Net}.

(** the packet the buffer holds, with a checksum that verifies *)
Definition sealed (b : list Z) (l : Z) (p : list Z) : Prop :=
  Z.of_nat (length p) = l ∧ in_cksum p 20 = Some 0 ∧ is_bytes p ∧
  ∀ o n, beside_checksums o n → o + n <= l → read_at p o n = read_at b o n.

Lemma send_packet_runs b l w (Q : list Z → world → Prop) :
  packet_ok b → 28 <= l <= 1500 → l <= Z.of_nat (length b) →
  socket_open (host w) = true → sin_port (out_addr (route (host w))) ≠ 0 →
  (∀ b' p n, sealed b l p → packet_ok b' → (∀ o k, beside_checksums o k → read_at b' o k = read_at b o k) →
    Q b' (set_host (put_raw_sent (raw_sent (host w) ++ [(out_addr (route (host w)), p)]) (host w))
            (set_clock n w))) →
  runs (send_packet b l) w Q.
Proof using.
  intros Hok Hl Hlen Hs Hp HQ. unfold send_packet, IP_MTU. rewrite (proj2 (Z.ltb_ge 1500 l)) by lia.
  destruct (checksummed b Hok) as (b' & Eb & Hok' & Hl' & Hck & Hr).
  fstep. eapply run_lift; [exact Eb|]. fstep. unfold send_raw. fstep. fstep. fstep. fstep. fstep.
  destruct (read_all b' l) as (p & Hp1 & Hp2); [lia|].
  eapply (run_lift _ (raw_sendto (send_status (clock w)) p (host w))).
  { unfold send_raw_message. cbn [host set_clock]. rewrite (proj2 (Z.eqb_neq _ 0) Hp).
    rewrite (proj2 (Z.leb_gt l 0)) by lia. by rewrite Hp1. }
  fstep. fstep. unfold raw_sendto. rewrite Hs. simpl. apply HQ; [|done|done].
  split_and!; [done| | |].
  - unfold in_cksum in *. by rewrite (read_prefix b' l 0 20 p Hp1) by lia.
  - revert Hp1. unfold read_at. destruct (_ && _); [|done]. intros [= <-].
    apply Forall_take, Forall_drop. apply Hok'.
  - intros o n Ho Hn. by rewrite (read_prefix b' l o n p Hp1), Hr.
Qed.

End Sending.

(** ** SIP messages *)

(** a field that was written and then left alone *)
Lemma get16_of b off x : read_at b off 2 = Some (le_bytes 2 x) → get16 b off = Some (u16 x).
Proof. intros H. unfold get16. rewrite H, Some_bind. f_equal. by rewrite le_val_le_bytes. Qed.
Lemma get32_of b off x : read_at b off 4 = Some (le_bytes 4 x) → get32 b off = Some (u32 x).
Proof. intros H. unfold get32. rewrite H, Some_bind. f_equal. by rewrite le_val_le_bytes. Qed.

(** the next write of a chain: it succeeds, the packet stays a packet *)
Ltac write b' W K L :=
  lazymatch goal with
  | |- context [write_at ?b ?off ?bs] =>
      destruct (write_at_ok b off bs) as [b' W];
      [lia|rewrite ?length_le_bytes; simpl length; lia|];
      assert (packet_ok b') as K
        by (eapply packet_ok_write; [eassumption|exact W|lia|first [apply le_bytes_bytes|eassumption]]);
      pose proof (length_write_at _ _ _ _ W) as L;
      eapply run_lift; [exact W|]
  end.

(** reads through a chain of writes *)
Ltac through W := rewrite (read_other _ _ _ _ _ _ W) by (rewrite ?length_le_bytes; simpl length; lia).

Lemma read_4 b o : packet_ok b → 0 <= o <= 24 → ∃ x, get32 b o = Some x.
Proof.
  intros (Hl & _ & _) Ho. unfold get32, read_at.
  rewrite (proj2 (Z.leb_le 0 o)), (proj2 (Z.leb_le (o + 4) _)) by lia. simpl. by eexists.
Qed.

Section SipForward.
Context {E : Env} {N : Net}.

(** what arrives of a message, wherever it goes *)
Definition sip_packet (buff : list Z) (l : Z) (o : sockaddr) (ttl : Z) (t p : list Z) : Prop :=
  Z.of_nat (length p) = l ∧ in_cksum p 20 = Some 0 ∧ drop 28 p = t ∧
  read_at p 12 4 = read_at buff 12 4 ∧ get32 p 16 = Some (u32 (sin_addr o)) ∧
  get16 p 20 = Some (bswap16 5060) ∧ get16 p 22 = Some (u16 (sin_port o)) ∧
  read_at p 8 1 = Some [u8 ttl].

(** where it goes: a message that came in goes to this host *)
Definition sip_target (d : Z) (f : filter) : sockaddr :=
  if d =? 0 then put_sin_addr localhost (out_addr (route f)) else out_addr (route f).

Lemma forward_sip_runs buff l d w t (Q : list Z → world → Prop) :
  packet_ok buff → 28 <= l <= 1500 → l <= Z.of_nat (length buff) →
  read_at buff 28 (l - 28) = Some t →
  socket_open (host w) = true → sin_port (out_addr (route (host w))) ≠ 0 →
  (∀ b' w' p, sip_packet buff l (sip_target d (host w)) (srpp_ttl (route (host w))) t p → packet_ok b' →
    raw_sent (host w') = raw_sent (host w) ++ [(sip_target d (host w), p)] →
    media (host w') = media (host w) → is_rtp (host w') = is_rtp (host w) → Q b' w') →
  runs (forward_sip buff l 20 d) w Q.
Proof using.
  intros Hok Hl Hlen Ht Hs Hp HQ. unfold forward_sip. fstep.
  set (o := sip_target d (host w)) in *. pose proof Hok as (Hb28 & _ & _).
  assert (∃ w1, (if d =? 0 then fset (set_dest localhost) else mret tt) w = Done tt w1 ∧
    out_addr (route (host w1)) = o ∧ raw_sent (host w1) = raw_sent (host w) ∧
    media (host w1) = media (host w) ∧ socket_open (host w1) = socket_open (host w) ∧
    srpp_ttl (route (host w1)) = srpp_ttl (route (host w)) ∧ is_rtp (host w1) = is_rtp (host w))
    as (w1 & Ew & O1 & O2 & O3 & O4 & O5 & O6).
  { unfold o, sip_target. destruct (d =? 0); eexists; by split_and!. }
  eapply runs_of_Done; [exact Ew|]. clear Ew. fstep. fstep. rewrite O1.
  unfold put16, put32, set_ttl. change (20 + 2) with 22.
  assert (sin_port o ≠ 0) as Hpo by (unfold o, sip_target; by destruct (d =? 0)).
  fstep. write b1 W1 K1 L1. fstep. write b2 W2 K2 L2. fstep. write b3 W3 K3 L3.
  fstep. fstep. fstep. rewrite aset_write, O5.
  assert (is_bytes [u8 (srpp_ttl (route (host w)))]) as Hb1
    by (constructor; [apply wrap_range; lia|constructor]).
  write b4 W4 K4 L4. fstep. apply send_packet_runs; [done|lia|lia|congruence|congruence|].
  intros b' p n (S1 & S2 & S3 & S4) Hb' Hrd. rewrite O1, O2.
  destruct (read_4 b' 12 Hb') as [saddr Hsa]; [lia|].
  set (w2 := set_host _ _).
  assert (sip_packet buff l o (srpp_ttl (route (host w))) t p) as Hpkt.
  { unfold beside_checksums in S4. split_and!; [done|done| | | | | |].
    - apply (read_tail p 28). rewrite S1, S4 by lia. through W4. through W3. through W2. by through W1.
    - rewrite S4 by lia. through W4. through W3. through W2. by through W1.
    - apply get32_of. rewrite S4 by lia. through W4. by apply (read_same _ _ _ _ _ W3).
    - apply (get16_of p 20 (bswap16 5060)). rewrite S4 by lia. through W4. through W3. through W2.
      by apply (read_same _ _ _ _ _ W1).
    - apply get16_of. rewrite S4 by lia. through W4. through W3. by apply (read_same _ _ _ _ _ W2).
    - rewrite S4 by lia. by apply (read_same _ _ _ _ _ W4). }
  fstep. destruct (d =? 0).
  - fstep. eapply run_lift; [exact Hsa|]. fstep. fstep. by apply (HQ b' _ p).
  - fstep. fstep. by apply (HQ b' _ p).
Qed.

(** a SIP message that [parse_sip] accepts and that can be sent on *)
Lemma process_sip_runs recv buff l d w t r w1 (Q : list Z * Z → world → Prop) :
  packet_ok buff → 28 <= l <= 1500 → l <= Z.of_nat (length buff) →
  read_at buff 28 (l - 28) = Some t → parse_sip recv t d w = Done r w1 → 0 <= r →
  socket_open (host w1) = true → sin_port (out_addr (route (host w1))) ≠ 0 →
  length (saved_header (media (host w1))) = 40%nat →
  (∀ b' w' p, sip_packet buff l (sip_target d (host w1)) (srpp_ttl (route (host w1))) t p →
    raw_sent (host w') = raw_sent (host w1) ++ [(sip_target d (host w1), p)] →
    is_rtp (host w') = is_rtp (host w1) → Q (b', 20) w') →
  runs (process_sip recv buff l 20 d) w Q.
Proof using.
  intros Hok Hl Hlen Ht Hparse Hr Hs Hp H40 HQ. unfold process_sip. change (20 + 8) with 28. cbv zeta.
  fstep. eapply run_lift; [exact Ht|]. fstep. eapply runs_of_Done; [exact Hparse|]. fstep. fstep.
  rewrite (proj2 (Z.eqb_neq _ 0) Hp), (proj2 (Z.leb_le 0 r) Hr). cbn [negb andb].
  change (28 - 8) with 20. fstep. fstep.
  eapply forward_sip_runs; [done..|]. intros b' w' p Hpkt Hb' Hraw Hmedia Hrtp. fstep.
  fstep. fstep. rewrite Hmedia. cbn [fst]. fstep. destruct (rtp_hdset _ =? 0); [|do 2 fstep; by apply (HQ b' w' p)].
  unfold store_header. fstep. destruct (read_all b' 28) as (hd & Ehd & Lhd);
    [destruct Hb' as (? & _); lia|]. eapply run_lift; [exact Ehd|]. fstep. fstep. rewrite Hmedia.
  destruct (write_at_ok (saved_header (media (host w1))) 0 hd) as [hd' Ew]; [lia|lia|].
  fstep. eapply run_lift; [exact Ew|]. do 2 fstep. by apply (HQ b' _ p).
Qed.

(** a UDP packet that is taken for [v] *)
Definition ports_are (v : verdict) (b : list Z) (direction : Z) (n : nat) (f : filter) : Prop :=
  aget b 9 = Some UDP_PROTOCOL ∧ ∃ saddr src dst,
    get32 b 12 = Some saddr ∧ get16 b 20 = Some src ∧ get16 b 22 = Some dst ∧
    get_direction (interfaces n) saddr = direction ∧
    classify_ports (rtp_ports (call f)) direction (bswap16 src) (bswap16 dst) = v.

(** the state in which such a packet is handled *)
Definition entered (v : verdict) (w : world) : world :=
  set_host (put_is_rtp (if decide (v = Rtp) then 1 else 0)
    (put_is_sip (if decide (v = Sip) then 1 else 0) (put_is_udp 1 (host w)))) (set_clock (S (clock w)) w).

Lemma process_packet_enters v recv b l d w (Q : option Z → world → Prop) :
  packet_ok b → 28 <= l → ports_are v b d (clock w) (host w) → v ≠ NotOurs →
  (∀ sport, runs (bo ← (if decide (v = Sip) then process_sip recv b l 20 d else mret (b, 20));
     rtp ← fget is_rtp;
     if rtp =? 1 then
       if d =? 0 then process_rtp_in recv bo.1 l bo.2 sport else process_rtp_out recv bo.1 l bo.2
     else mret None) (entered v w) Q) →
  runs (process_packet recv b l) w Q.
Proof using.
  intros Hok Hl (H9 & saddr & src & dst & E1 & E2 & E3 & E4 & E5) Hv HQ. unfold process_packet.
  rewrite (proj2 (Z.ltb_ge l 28)) by lia. fstep. eapply run_lift; [by apply packet_ihl|]. cbv zeta.
  fstep. eapply run_lift; [exact H9|]. change (negb (UDP_PROTOCOL =? UDP_PROTOCOL)) with false. cbn [andb].
  change (4 * 5) with 20. change (20 + 2) with 22.
  fstep. eapply run_lift; [exact E2|]. fstep. eapply run_lift; [exact E3|]. fstep. fstep.
  fstep. eapply run_lift; [exact E1|]. fstep. fstep. fstep. fstep. cbn [clock set_host]. rewrite E4.
  cbn [call host set_clock set_host put_is_udp]. rewrite E5. fstep. fstep.
  rewrite (decide_False (P := v = NotOurs)) by done. apply (HQ (bswap16 src)).
Qed.

End SipForward.

(** C12: a SIP message is forwarded as it is.  For a UDP packet from or to port 5060
    of at most 1500 octets without IP options, whose text [parse_sip] accepts: when
    the socket is then open, a destination is known and no media was received while
    the message was parsed, [process_packet] sends exactly one packet, to the
    destination (to this host, when the message came in), with the same text, the
    source address of the original, source port 5060, the destination's address and
    port, the filter's time to live and a header checksum that verifies. *)
Theorem sip_forwarded {E : Env} {N : Net} recv buff l d w t r w1 :
  packet_ok buff → 28 <= l <= 1500 → l <= Z.of_nat (length buff) →
  ports_are Sip buff d (clock w) (host w) →
  read_at buff 28 (l - 28) = Some t → parse_sip recv t d (entered Sip w) = Done r w1 → 0 <= r →
  socket_open (host w1) = true → sin_port (out_addr (route (host w1))) ≠ 0 →
  length (saved_header (media (host w1))) = 40%nat → is_rtp (host w1) ≠ 1 →
  runs (process_packet recv buff l) w (λ res w', res = None ∧ ∃ p,
    raw_sent (host w') = raw_sent (host w1) ++ [(sip_target d (host w1), p)] ∧
    sip_packet buff l (sip_target d (host w1)) (srpp_ttl (route (host w1))) t p).
Proof.
  intros Hok Hl Hlen Hports Ht Hparse Hr Hs Hp H40 Hrtp.
  apply (process_packet_enters Sip recv buff l d); [done|lia|done|done|]. intros sport.
  rewrite decide_True by done. fstep. eapply process_sip_runs; [done..|].
  intros b' w' p Hpkt Hraw Hk. fstep. fstep. rewrite Hk, (proj2 (Z.eqb_neq _ 1) Hrtp). fstep.
  split; [done|]. by exists p.
Qed.

(** ** An SRPP message in a longer buffer *)






(** ** Media *)




Section Carried.
Context {E : Env} (Henv : env_ok E).






End Carried.

(** ** Media packets *)





Section Media.
Context {E : Env} {N : Net} (Henv : env_ok E).















End Media.

(** ** Properties *)


(** ** Concrete packets *)

(** two hosts, told apart by the time they run at *)
Definition two_hosts : Net := {|
  size_bits := 64;
  inet_addr s := le_val (sample_fields [] s);
  inet_pton s := forallb (λ c, is_digit c || (c =? 46)) s;
  gethostbyname _ _ := Some (le_val [192; 168; 0; 9]);
  interfaces n := if (n <? 500)%nat then [le_val addr_a] else [le_val addr_b];
  system_status _ := 0;
  rand_value n := Z.of_nat n;
  ipq_handle _ := true;
  raw_socket _ := 3;
  setsockopt_status _ := 0 |}.

Definition sample_datagram (sport dport : Z) (data : list Z) : list Z :=
  sample_packet addr_a addr_b sport dport data.

Definition sample_srtp : list Z :=
  [0x80; 96; 0; 1; 0; 0; 0; 160; 1; 2; 3; 4; 201; 202; 203; 204; 205].

Definition call_filter (inp outp : Z) (ports : list Z) (recvd : Z) : filter :=
  mk_filter 1 0 0 0 (mk_rules 1 0 1 []) (mk_call 1 0 1 inp outp 0 0 0 0 0 ports)
    (mk_media 1 recvd 0 (replicate 40 0) 2 0 [] [] sample_dummy [])
    (mk_route (mk_sockaddr 0 0 0) 0 (le_val addr_b) 0 0 70 []) true [] [] [].

Definition world_a : world := filter_world (call_filter 4000 6000 [5000; 4000; 6000] 0).



(** a SIP message in a packet of its own, and the world it is processed in *)
Definition sip_world : world :=
  filter_world (put_socket_open true (on_media (put_saved_header (replicate 40 0)) (initial sample_dummy))).

Lemma sip_forwarded_witness :
  ∃ w1, @parse_sip sample_env two_hosts (mret None) sample_invite 1 (entered Sip sip_world) = Done 0 w1 ∧
  runs (@process_packet sample_env two_hosts (mret None) (sample_datagram 5060 5060 sample_invite)
      (28 + Z.of_nat (length sample_invite))) sip_world (λ res w', res = None ∧ ∃ p,
    raw_sent (host w') = raw_sent (host w1) ++ [(@sip_target two_hosts 1 (host w1), p)] ∧
    sip_packet (sample_datagram 5060 5060 sample_invite) (28 + Z.of_nat (length sample_invite))
      (@sip_target two_hosts 1 (host w1)) (srpp_ttl (route (host w1))) sample_invite p).
Proof.
  eexists. split; [vm_compute; reflexivity|].
  apply (@sip_forwarded sample_env two_hosts (mret None) (sample_datagram 5060 5060 sample_invite)
    (28 + Z.of_nat (length sample_invite)) 1 sip_world sample_invite 0 _).
  - split_and!; [apply Nat.leb_le; vm_compute; reflexivity|eval_dec|by exists 0x45].
  - vm_compute. split; discriminate.
  - vm_compute. discriminate.
  - split; [vm_compute; reflexivity|].
    exists (le_val addr_a), (bswap16 5060), (bswap16 5060). split_and!; vm_compute; reflexivity.
  - vm_compute. reflexivity.
  - vm_compute. reflexivity.
  - lia.
  - reflexivity.
  - discriminate.
  - reflexivity.
  - discriminate.
Defined.

(** ** A message that is lost *)

Definition srpp_offer : list Z :=
  octets "INVITE sip:bob@example.org SIP/2.0" ++ [10] ++ sample_sdp "10.0.0.1" "4000" "SRPP:1".

(** an application that speaks SRPP itself offers it: the filter stops, its
    socket is closed before the packet, which the firewall was told to drop, is
    sent on: the INVITE is lost. *)
Example srpp_offer_lost :
  ∃ w', @process_packet sample_env two_hosts (mret None) (sample_datagram 5060 5060 srpp_offer)
      (28 + Z.of_nat (length srpp_offer)) sip_world = Done None w' ∧
    raw_sent (host w') = [] ∧ is_discovering (host w') = 0 ∧ socket_open (host w') = false.
Proof. eexists. split; [vm_compute; reflexivity|]. by split_and!. Qed.

(** ** A BYE that is handled as media *)

Definition sip_bye : list Z := octets "BYE sip:bob@example.org SIP/2.0" ++ [newline].

(** a call whose BYE is sent while a media packet is in the queue; an earlier call
    left [session_complete] set *)
Definition bye_world : world :=
  set_signaling (with_session_complete 1 (signaling_functions world_a))
    (set_host (put_queue [(1, IPQM_PACKET (sample_datagram 4000 6000 sample_srtp) 45 0)] (host world_a)) world_a).

(** stopping the session receives the media packet, which sets [is_rtp]: the BYE is
    parsed, and then taken for an RTP packet, with the two contributing sources its
    first letter says, and written beyond the array of sources. *)
Example bye_taken_for_media :
  let recv := @receive_rtp_message sample_env two_hosts 3 in
  (∃ w1, @parse_sip sample_env two_hosts recv sip_bye 1 (entered Sip bye_world) = Done 0 w1 ∧
     is_rtp (host w1) = 1) ∧
  @process_packet sample_env two_hosts recv (sample_datagram 5060 5060 sip_bye)
    (28 + Z.of_nat (length sip_bye)) bye_world = Fault.
Proof. split; [eexists; split|]; vm_compute; reflexivity. Qed.
