(* ===== verification/Sqrkal.v ===== *)
(** * The program

    Models [main] of [SQRKal.cpp]: the options of the command line, the object
    [sqrkald] whose constructor runs the packet filter until it is told to stop,
    and its destructor.  What follows the first [return 0] of [main] (the
    functions of [src/SQRKal_functions.cpp]) is never reached.

    The whole program, from its start on, is the relation [running]: turns of the
    main loop, messages that arrive, the timer and interrupts in any order.  Its
    invariant, [intact], is shown for every operation of the program by the
    lemmas of the hint database [safe]. *)

From Stdlib Require Import String Ascii.
From S2P Require Import Prelude SrppMessage Discovery FilterState Srpp Signaling Keep Sip Filter FilterInv.

(** ** Options *)

Definition set_padding_options (i : Z) : M unit :=
  modify (λ w, set_padding (set_options i (padding w)) w).

Definition set_full_bandwidth : M unit := set_padding_options 1.
Definition set_burst_padding : M unit := set_padding_options 2.
Definition set_gradual_ascent : M unit := set_padding_options 3.
Definition set_min_prob_bin : M unit := set_padding_options 5.
Definition set_small_perturbation : M unit := set_padding_options 5.

(** [arg == long || arg == short] *)
Definition is_option (arg : list Z) (long short : string) : bool :=
  bool_decide (arg = octets long) || bool_decide (arg = octets short).

(** the part of [main] before the filter starts: [Some status] when it returns *)
Definition main_options (argv : list (list Z)) : M (option Z) :=
  if (length argv =? 2)%nat then
    arg1 ← lift (argv !! 1%nat);
    (if is_option arg1 "--full-bandwidth" "-fb" then set_full_bandwidth else mret tt);;
    (if is_option arg1 "--burst-padding" "-bp" then set_burst_padding else mret tt);;
    (if is_option arg1 "--gradual-ascent" "-ga" then set_gradual_ascent else mret tt);;
    (if is_option arg1 "--min-prob-bin" "-mpb" then set_min_prob_bin else mret tt);;
    (if is_option arg1 "--small-perturbation" "-sp" then set_small_perturbation else mret tt);;
    mret (if bool_decide (arg1 = octets "--usage") then Some 1 else None)
  else mret None.

Section Program.
Context {E : Env} {N : Net}.

(** the main loop is not at its end *)
Definition still_discovering : M unit := λ w, Wait w.

(** [sqrkal_discovery()]: returns when the main loop ends; a run that is still in
    its loop after [n] turns waits *)
Definition sqrkal_discovery (fuel n : nat) : M unit :=
  discover_sessions fuel n;;
  d ← fget is_discovering;
  (if d =? 1 then still_discovering else mret tt).

(** [~sqrkal_discovery()] *)
Definition destroy_discovery (fuel : nat) : M unit := stop_discovering (receive_rtp_message fuel).

Definition main (fuel n : nat) (argv : list (list Z)) : M Z :=
  r ← main_options argv;
  match r with
  | Some status => mret status
  | None => sqrkal_discovery fuel n;; destroy_discovery fuel;; mret 0
  end.

End Program.

(** ** The invariant *)

(** the options of the padding algorithms *)
Record options := mk_options { full : Z; burst : Z; gradual : Z; min_bin : Z; small : Z }.

Definition options_of (p : Padding) : options :=
  mk_options (is_full_bandwidth p) (is_burst_padding p) (gradual_ascent_bandwidth p)
    (is_min_bin_padding p) (is_small_perturbation p).

(** the options are [o], no dummy is empty, the bandwidth the dummies are drawn
    from is the initial one unless it ascends *)
Record intact (o : options) (w : world) : Prop := mk_intact {
  in_options : options_of (padding w) = o;
  in_cache : cache_ok w;
  in_ssrc : is_word 32 (srppssrc w);
  in_last : gradual o = 0 → lastmaxbandwidth (padding w) = 100 }.

Definition leaves {A} (P : world → Prop) (r : run A) : Prop :=
  match r with Done _ w => P w | Wait w => P w | Fault => True end.

Definition safe {A} (P : world → Prop) (m : M A) : Prop := ∀ w, P w → leaves P (m w).

(** properties that do not depend on the filter and on the clock *)
Class LibraryOnly (P : world → Prop) : Prop := {
  free_host : ∀ f w, P w → P (set_host f w);
  free_clock : ∀ n w, P w → P (set_clock n w) }.

#[global] Instance intact_library o : LibraryOnly (intact o).
Proof. split; intros ? w []; by constructor. Qed.

Create HintDb safe.

Section Logic.
Context (P : world → Prop).

Lemma safe_bind {A B} (m : M A) (f : A → M B) : safe P m → (∀ a, safe P (f a)) → safe P (m ≫= f).
Proof.
  intros Hm Hf w Hw. specialize (Hm w Hw). unfold mbind, M_bind.
  destruct (m w) as [a w'|w'|]; [by apply Hf|done..].
Qed.

(** what was read of the state is known to the rest *)
Lemma safe_gets_bind {A B} (g : world → A) (f : A → M B) :
  (∀ w, P w → leaves P (f (g w) w)) → safe P (gets g ≫= f).
Proof. intros Hf w Hw. exact (Hf w Hw). Qed.

Lemma safe_ret {A} (a : A) : safe P (mret a).
Proof. by intros w. Qed.
Lemma safe_gets {A} (g : world → A) : safe P (gets g).
Proof. by intros w. Qed.
Lemma safe_fget {A} (g : filter → A) : safe P (fget g).
Proof. by intros w. Qed.
Lemma safe_flag f : safe P (flag f).
Proof. by intros w. Qed.
Lemma safe_lift {A} (x : option A) : safe P (lift x).
Proof. intros w Hw. unfold lift. by destruct x. Qed.
Lemma safe_fault {A} : safe P ((λ _, Fault) : M A).
Proof. by intros w. Qed.
Lemma safe_wait {A} : safe P ((λ w, Wait w) : M A).
Proof. by intros w. Qed.
Lemma safe_modify f : (∀ w, P w → P (f w)) → safe P (modify f).
Proof. intros Hf w Hw. by apply Hf. Qed.

Lemma safe_for {A} n j (f : Z → A → M A) a : (∀ i b, safe P (f i b)) → safe P (m_for n j f a).
Proof.
  intros Hf. revert j a. induction n as [|n IH]; intros j a; cbn [m_for]; [apply safe_ret|].
  by apply safe_bind.
Qed.

(** a run that is known to end *)
Lemma safe_of_runs {A} (m : M A) : (∀ w, P w → runs m w (λ _ w', P w')) → safe P m.
Proof. intros Hm w Hw. specialize (Hm w Hw). unfold runs in Hm. by destruct (m w). Qed.

Context `{!LibraryOnly P}.

Lemma safe_fset g : safe P (fset g).
Proof. intros w Hw. by apply free_host. Qed.
Lemma safe_tick {E : Env} {A} (f : nat → A) : safe P (tick f).
Proof. intros w Hw. by apply free_clock. Qed.

End Logic.

(** writes that leave the padding alone *)
Lemma intact_modify o f :
  (∀ w, padding (f w) = padding w) → (∀ w, srppssrc (f w) = srppssrc w) → safe (intact o) (modify f).
Proof.
  intros Hp Hs w [H1 H2 H3 H4]. simpl.
  constructor; unfold cache_ok in *; by rewrite ?Hp, ?Hs.
Qed.

Lemma safe_timer o f : safe (intact o) (timer_op f).
Proof. by apply intact_modify. Qed.
Lemma safe_signal o f : safe (intact o) (signal_op f).
Proof. by apply intact_modify. Qed.

#[export] Hint Resolve safe_ret safe_gets safe_fget safe_flag safe_lift safe_fault safe_wait safe_fset
  safe_timer safe_signal safe_tick : safe.
#[export] Hint Extern 0 (LibraryOnly _) => typeclasses eauto : safe.
#[export] Hint Extern 2 (safe _ (modify _)) => apply intact_modify; reflexivity : safe.

(** binds, conditionals and loops, down to operations of the hint database; an
    operation that is not there is unfolded *)
Ltac head_of t := lazymatch t with ?f _ => head_of f | _ => t end.

Ltac sweep :=
  intros; cbv zeta;
  lazymatch goal with
  | |- safe _ (mbind _ _) => first [solve [eauto 2 with safe] | apply safe_bind; sweep]
  | |- safe _ (if ?b then _ else _) => destruct b; sweep
  | |- safe _ (match ?x with _ => _ end) => destruct x; sweep
  | |- safe _ (m_for _ _ _ _) => apply safe_for; sweep
  | |- safe _ ?m =>
      first [solve [eauto 2 with safe] | let h := head_of m in progress unfold h; sweep]
  | |- _ => idtac
  end.

(** the settings are those of the invariant *)
Lemma intact_same o w w' :
  intact o w → same_settings w w' → cache_ok w' → intact o w'.
Proof.
  intros [H1 H2 H3 H4] [] Hc. constructor; [|done|congruence|].
  - rewrite <-H1. unfold options_of. congruence.
  - intros Hg. rewrite same_last. by apply H4.
Qed.

Section Library.
Context {E : Env} (Henv : env_ok E) (o : options).

(** ** Operations of the SRPP library *)

Lemma safe_srpp_rand a b : safe (intact o) (srpp_rand a b).
Proof using. sweep. Qed.
#[local] Hint Resolve safe_srpp_rand : safe.

Lemma safe_new_message : safe (intact o) new_message.
Proof using. sweep. Qed.
#[local] Hint Resolve safe_new_message : safe.

Lemma safe_add_to_dummy_cache m : safe (intact o) (add_to_dummy_cache m).
Proof using Henv.
  apply safe_of_runs. intros w Hw.
  eapply runs_mono; [apply (add_to_dummy_cache_runs Henv), Hw|].
  intros _ w' (Hs & Hc & _). by eapply intact_same.
Qed.
#[local] Hint Resolve safe_add_to_dummy_cache : safe.

Lemma safe_dummy_data_loop fuel i n s : safe (intact o) (dummy_data_loop fuel i n s).
Proof using. revert s. induction fuel; intros s; cbn [dummy_data_loop]; sweep. Qed.
#[local] Hint Resolve safe_dummy_data_loop : safe.

(** the bandwidth is changed only when it ascends *)
Lemma safe_psp_extra_size n : safe (intact o) (psp_extra_size n).
Proof using.
  unfold psp_extra_size. apply safe_gets_bind. intros w Hw. generalize (in_options _ _ Hw).
  generalize (padding w). intros p Hp. generalize w Hw. clear w Hw.
  refine (safe_bind _ _ _ _ _); [sweep|]. intros extra. apply safe_bind; [|sweep].
  destruct (Z.eqb_spec (gradual_ascent_bandwidth p) 1) as [Hg|Hg]; [|sweep].
  apply safe_bind; [|sweep]. destruct (lastmaxbandwidth p <? n); [|sweep].
  do 2 (apply safe_bind; [sweep|intros ?]). apply safe_bind; [sweep|]. intros k w [H1 H2 H3 H4].
  constructor; [done|done|done|]. rewrite <-Hp. simpl. congruence.
Qed.
#[local] Hint Resolve safe_psp_extra_size : safe.

Lemma safe_pad m : safe (intact o) (pad m).
Proof using Henv. sweep. Qed.
Lemma safe_encrypt_srpp m : safe (intact o) (encrypt_srpp m).
Proof using. sweep. Qed.
#[local] Hint Resolve safe_pad safe_encrypt_srpp : safe.

Lemma safe_send_message m : safe (intact o) (send_message m).
Proof using. sweep. Qed.
#[local] Hint Resolve safe_send_message : safe.

(** a dummy of 100 octets and more *)
Lemma safe_dummy_pkt {A} (k : SRPPMessage → M A) :
  (∀ m, safe (intact o) (k m)) →
  safe (intact o) (size ← srpp_rand 100 100; m ← generate_dummy_pkt_size size; k m).
Proof using Henv.
  intros Hk w Hw.
  assert (runs (size ← srpp_rand 100 100; generate_dummy_pkt_size size) w (λ _ w', intact o w')) as Hr.
  { mstep. mcall (srpp_rand_runs Henv 100 100 w) as size w1 (Hc1 & _ & Hs).
    assert (intact o w1) as Hw1.
    { destruct Hc1 as [j ->]. destruct Hw. by constructor. }
    mcall (generate_dummy_pkt_size_runs Henv size w1 (in_cache _ _ Hw1) ltac:(lia)) as m w2 (Hs2 & Hc2 & _).
    by eapply intact_same. }
  apply runs_Done in Hr as (m & w' & Hr & Hw').
  unfold mbind, M_bind in *. destruct (srpp_rand 100 100 w) as [size w1|w1|]; [|done..].
  rewrite Hr. by apply Hk.
Qed.

(** dummies are sent with burst padding only, and then the bandwidth does not
    ascend *)
Hypothesis Hone : burst o ≠ 0 → gradual o = 0.

Lemma safe_cbp_loop n : burst o ≠ 0 → safe (intact o) (cbp_loop n).
Proof using Henv Hone.
  intros Hb. induction n as [|n IH]; cbn [cbp_loop]; [sweep|].
  apply safe_gets_bind. intros w Hw. rewrite (in_last _ _ Hw (Hone Hb)).
  generalize w Hw. apply safe_dummy_pkt. sweep.
Qed.

(** the test of the option before dummies are sent *)
Lemma safe_if_burst (m : Padding → M unit) :
  (burst o ≠ 0 → ∀ w, intact o w → leaves (intact o) (m (padding w) w)) →
  safe (intact o) (p ← gets padding; if is_burst_padding p =? 0 then mret tt else m p).
Proof using.
  intros Hm. apply safe_gets_bind. intros w Hw.
  destruct (Z.eqb_spec (is_burst_padding (padding w)) 0) as [|Hb]; [done|].
  apply Hm; [|done]. by rewrite <-(in_options _ _ Hw).
Qed.

Lemma safe_current_burst : safe (intact o) current_burst_padding.
Proof using Henv Hone.
  unfold current_burst_padding, default_cbp_pad_algo. apply safe_if_burst. intros Hb.
  pose proof (λ n, safe_cbp_loop n Hb) as Hl.
  change (safe (intact o) (c ← srpp_rand 0 3; cbp_loop (Z.to_nat c);; resetPacketTimer)).
  apply safe_bind; [sweep|]. intros c. apply safe_bind; [apply Hl|sweep].
Qed.

Lemma safe_extra_burst : safe (intact o) extra_burst_padding.
Proof using Henv Hone.
  unfold extra_burst_padding, default_ebp_pad_algo. apply safe_if_burst. intros Hb w Hw.
  rewrite (in_last _ _ Hw (Hone Hb)). generalize w Hw. apply safe_dummy_pkt. sweep.
Qed.
#[local] Hint Resolve safe_current_burst safe_extra_burst : safe.

Lemma safe_timer_fired : safe (intact o) timer_fired.
Proof using Henv Hone. sweep. Qed.

(** ** Operations that receive *)

Context (recv : receiver) (Hrecv : safe (intact o) recv).
#[local] Hint Resolve Hrecv : safe.

Lemma safe_wait_loop c n : safe (intact o) (wait_loop c recv n).
Proof using Hrecv. induction n; cbn [wait_loop]; sweep. Qed.
Lemma safe_send_hellos n opts : safe (intact o) (send_hellos n opts).
Proof using. induction n; cbn [send_hellos]; sweep. Qed.
#[local] Hint Resolve safe_wait_loop safe_send_hellos : safe.

Lemma safe_stop_session : safe (intact o) (stop_session recv).
Proof using Hrecv. sweep. Qed.
Lemma safe_start_session : safe (intact o) (start_session recv).
Proof using Hrecv. sweep. Qed.
#[local] Hint Resolve safe_stop_session safe_start_session : safe.

Lemma safe_processReceivedData b n : safe (intact o) (processReceivedData recv b n).
Proof using Hrecv. sweep. Qed.

End Library.

(** ** Operations that concern the filter alone *)

Section Host.
Context {E : Env} {N : Net} (P : world → Prop) `{!LibraryOnly P}.

Lemma safe_add_all_rules a u : safe P (add_all_rules a u).
Proof. sweep. Qed.
Lemma safe_choose_ttl : safe P choose_ttl.
Proof. sweep. Qed.
Lemma safe_create_sockets : safe P create_sockets.
Proof. sweep. Qed.

End Host.

Section Filter.
Context {E : Env} {N : Net} (Henv : env_ok E) (o : options).

(** ** Operations of the packet filter *)

#[local] Hint Resolve safe_new_message safe_send_message : safe.
#[local] Hint Extern 1 (safe _ (pad _)) => apply (safe_pad Henv) : safe.

Lemma safe_add_all_rtp_rules a u : safe (intact o) (add_all_rtp_rules a u).
Proof. sweep. Qed.
#[local] Hint Resolve safe_add_all_rules safe_add_all_rtp_rules : safe.

Lemma safe_send_packet b n : safe (intact o) (send_packet b n).
Proof. sweep. Qed.
#[local] Hint Resolve safe_send_packet : safe.

Lemma safe_wrap_media b n : safe (intact o) (wrap_media b n).
Proof. sweep. Qed.
Lemma safe_unwrap b n : safe (intact o) (unwrap b n).
Proof. sweep. Qed.
#[local] Hint Resolve safe_wrap_media safe_unwrap : safe.

Context (recv : receiver) (Hrecv : safe (intact o) recv).
#[local] Hint Extern 1 (safe _ (stop_session _)) => apply safe_stop_session; exact Hrecv : safe.
#[local] Hint Extern 1 (safe _ (start_session _)) => apply safe_start_session; exact Hrecv : safe.
#[local] Hint Extern 1 (safe _ (processReceivedData _ _ _)) =>
  apply safe_processReceivedData; exact Hrecv : safe.

Lemma safe_stop_discovering : safe (intact o) (stop_discovering recv).
Proof. sweep. Qed.
#[local] Hint Resolve safe_stop_discovering : safe.

Lemma safe_parse_sip s d : safe (intact o) (parse_sip recv s d).
Proof. sweep. Qed.
#[local] Hint Resolve safe_parse_sip : safe.

Lemma safe_try_start : safe (intact o) (try_start recv).
Proof. sweep. Qed.
#[local] Hint Resolve safe_try_start : safe.

Lemma safe_process_packet b n : safe (intact o) (process_packet recv b n).
Proof. sweep. Qed.
#[local] Hint Resolve safe_process_packet : safe.

Lemma safe_next_message : safe (intact o) next_message.
Proof using. intros w []. unfold next_message. destruct (queue (host w)); by constructor. Qed.
#[local] Hint Resolve safe_next_message : safe.

Lemma safe_receive_packet m b n : safe (intact o) (receive_packet recv m b n).
Proof. sweep. Qed.

Lemma safe_discover_step : safe (intact o) (discover_step recv).
Proof. sweep. Qed.

End Filter.

Lemma safe_receive {E : Env} {N : Net} (Henv : env_ok E) o fuel : safe (intact o) (receive_rtp_message fuel).
Proof.
  induction fuel as [|fuel IH]; cbn [receive_rtp_message]; [apply safe_fault|].
  pose proof (safe_receive_packet Henv o _ IH). pose proof (safe_new_message o).
  pose proof (safe_next_message o). sweep.
Qed.

(** ** The start *)

(** the globals when [main] starts: the initialisers of the source; the dummies,
    the source identifier and the messages the kernel has for the filter are
    arbitrary *)
Record at_start (w : world) : Prop := {
  st_options : options_of (padding w) = mk_options 0 0 0 0 0;
  st_last : lastmaxbandwidth (padding w) = 100;
  st_cache : length (dummy_cache (padding w)) = 100%nat;
  st_max : maxpacketsize w = MAXPAYLOADSIZE;
  st_ssrc : is_word 32 (srppssrc w);
  st_host : ∃ m q, host w = put_queue q (initial m) }.

(** the option a command line asks for, by the name it has in the usage text *)
Definition documented (argv : list (list Z)) : options :=
  match argv with
  | [_; a] =>
      if is_option a "--full-bandwidth" "-fb" then mk_options 1 0 0 0 0
      else if is_option a "--burst-padding" "-bp" then mk_options 0 1 0 0 0
      else if is_option a "--gradual-ascent" "-ga" then mk_options 0 0 1 0 0
      else if is_option a "--min-prob-bin" "-mpb" then mk_options 0 0 0 1 0
      else if is_option a "--small-perturbation" "-sp" then mk_options 0 0 0 0 1
      else mk_options 0 0 0 0 0
  | _ => mk_options 0 0 0 0 0
  end.

(** min bin padding was asked for: [set_min_prob_bin] sets small perturbation *)
Definition asks_min_bin (argv : list (list Z)) : bool := min_bin (documented argv) =? 1.

(** what the program does about it *)
Definition effective (argv : list (list Z)) : options :=
  if asks_min_bin argv then mk_options 0 0 0 0 1 else documented argv.

(** no option, or one *)
Lemma documented_cases argv :
  documented argv ∈ [mk_options 0 0 0 0 0; mk_options 1 0 0 0 0; mk_options 0 1 0 0 0;
                     mk_options 0 0 1 0 0; mk_options 0 0 0 1 0; mk_options 0 0 0 0 1].
Proof.
  unfold documented. destruct argv as [|x [|a [|]]]; try (by constructor).
  repeat case_match; repeat constructor.
Qed.

Lemma effective_one argv : burst (effective argv) ≠ 0 → gradual (effective argv) = 0.
Proof.
  unfold effective, asks_min_bin. pose proof (documented_cases argv) as H.
  by repeat (apply elem_of_cons in H as [->|H]); [..|apply elem_of_nil in H].
Qed.

Lemma is_option_cases a long short :
  is_option a long short = true → a = octets long ∨ a = octets short.
Proof. unfold is_option. rewrite orb_true_iff, !bool_decide_eq_true. done. Qed.

(** before the filter is initialised *)
Record prepared (o : options) (w : world) : Prop := {
  pr_options : options_of (padding w) = o;
  pr_last : lastmaxbandwidth (padding w) = 100;
  pr_cache : length (dummy_cache (padding w)) = 100%nat;
  pr_max : 0 < maxpacketsize w;
  pr_ssrc : is_word 32 (srppssrc w) }.

#[global] Instance prepared_library o : LibraryOnly (prepared o).
Proof. split; intros ? w []; by constructor. Qed.

Definition is_usage (argv : list (list Z)) : bool :=
  match argv with [_; a] => bool_decide (a = octets "--usage") | _ => false end.

(** options are different from each other *)
Ltac decide_options :=
  repeat match goal with
  | |- context [is_option (octets ?a) ?l ?s] =>
      let b := eval vm_compute in (is_option (octets a) l s) in
      change (is_option (octets a) l s) with b
  | |- context [bool_decide (octets ?a = octets ?b)] =>
      let v := eval vm_compute in (bool_decide (octets a = octets b)) in
      change (bool_decide (octets a = octets b)) with v
  end; cbv iota.

(** the option is set, or the usage is printed *)
Lemma main_options_spec argv w :
  at_start w →
  runs (main_options argv) w (λ r w', prepared (effective argv) w' ∧ host w' = host w ∧
    r = if is_usage argv then Some 1 else None).
Proof.
  intros [H1 H2 H3 H4 H5 _]. unfold main_options, effective, asks_min_bin, documented, is_usage.
  assert (0 < maxpacketsize w) as Hmax by (rewrite H4; done).
  destruct argv as [|x [|a [|y argv]]]; try (refine (conj _ (conj _ _)); [by constructor|done|done]).
  cbn [length Nat.eqb]. apply run_bind. eapply run_lift; [reflexivity|].
  assert (∀ n o, options_of (set_options n (padding w)) = o →
    prepared o (set_padding (set_options n (padding w)) w)) as Hset by (intros n o <-; by constructor).
  unfold options_of in H1. injection H1 as F1 F2 F3 F4 F5.
  repeat (match goal with
  | |- context [is_option a ?l ?s] =>
      let Eq := fresh "Eq" in destruct (is_option a l s) eqn:Eq;
      [apply is_option_cases in Eq as [-> | ->];
         (decide_options; refine (conj _ (conj _ _));
          [apply Hset; unfold options_of, set_options; simpl; congruence|done|done])|]
  end).
  refine (conj _ (conj _ _)); [constructor; [|done..]|done|done]. unfold options_of. simpl. congruence.
Qed.

(** ** Initialisation *)

Lemma initialize_srpp_leaves {E : Env} (Henv : env_ok E) o w :
  prepared o w → leaves (intact o) (initialize_srpp w).
Proof.
  intros [H1 H2 H3 H4 H5].
  destruct (runs_Done _ _ _ (PaddingFunctions_runs Henv w H3 H4 H5)) as (? & w' & Hr & Hc & Hs).
  assert (intact o w') as Hw'.
  { destruct Hs. constructor; [|done|congruence|congruence]. rewrite <-H1. unfold options_of. congruence. }
  unfold initialize_srpp, init_SRPP, mbind, M_bind. rewrite Hr. cbn [mret M_ret].
  revert w' Hw' Hr Hc Hs. intros w' Hw' _ _ _.
  change (leaves (intact o) ((create_session;; setSendFunctor) w')).
  revert w' Hw'. change (safe (intact o) (create_session;; setSendFunctor)). sweep.
Qed.

Lemma discover_init_leaves {E : Env} {N : Net} (Henv : env_ok E) o w w' :
  prepared o w → discover_init w = Done tt w' → intact o w'.
Proof.
  intros Hw Hr.
  assert (leaves (prepared o) ((choose_ttl;; create_sockets;; add_all_rules true true) w)) as Hl.
  { revert w Hw Hr. intros w Hw _. revert w Hw. change (safe (prepared o) (choose_ttl;; create_sockets;; add_all_rules true true)).
    pose proof (safe_choose_ttl (prepared o)). pose proof (safe_create_sockets (prepared o)).
    pose proof (λ a b, safe_add_all_rules (prepared o) a b). sweep. }
  unfold discover_init in Hr. unfold mbind, M_bind in *.
  destruct (choose_ttl w) as [? w1|w1|]; [|done..].
  destruct (create_sockets w1) as [? w2|w2|]; [|done..].
  destruct (add_all_rules true true w2) as [? w3|w3|]; [|done..]. simpl in Hl.
  pose proof (initialize_srpp_leaves Henv o w3 Hl) as Hi.
  destruct (initialize_srpp w3) as [? w4|w4|]; [|done..]. simpl in Hi, Hr.
  injection Hr as <-. by apply free_host.
Qed.

(** ** The running program *)

Section Running.
Context {E : Env} {N : Net} (argv : list (list Z)).

(** the filter is initialised after the options; then messages arrive, turns of
    the main loop are done, the timer fires, discovery is stopped (by the user or by the
    destructor) *)
Inductive running : world → Prop :=
  | p_start w0 w1 w : at_start w0 → main_options argv w0 = Done None w1 →
      discover_init w1 = Done tt w → running w
  | p_arrive w x : running w →
      running (set_host (put_queue (queue (host w) ++ [x]) (host w)) w)
  | p_turn w w' fuel : running w →
      discover_step (receive_rtp_message fuel) w = Done tt w' → running w'
  | p_timer w w' : running w → timer_fired w = Done tt w' → running w'
  | p_stop w w' fuel : running w → destroy_discovery fuel w = Done tt w' → running w'.

Lemma leaves_Done {A} P (m : M A) w a w' : safe P m → P w → m w = Done a w' → P w'.
Proof using. intros Hm Hw Hr. specialize (Hm w Hw). by rewrite Hr in Hm. Qed.

Lemma running_intact (Henv : env_ok E) w : running w → intact (effective argv) w.
Proof.
  induction 1 as [w0 w1 w Hs Ho Hi|w x _ IH|w w' fuel _ IH Hr|w w' _ IH Hr|w w' fuel _ IH Hr].
  - destruct (runs_Done _ _ _ (main_options_spec argv w0 Hs)) as (r & w1' & Ho' & Hp & _).
    rewrite Ho in Ho'. injection Ho' as _ <-. by eapply discover_init_leaves.
  - by apply free_host.
  - eapply leaves_Done; [|exact IH|exact Hr]. by apply safe_discover_step, safe_receive.
  - eapply leaves_Done; [|exact IH|exact Hr]. apply safe_timer_fired; [done|]. apply effective_one.
  - eapply leaves_Done; [|exact IH|exact Hr]. by apply safe_stop_discovering, safe_receive.
Qed.

End Running.

(** ** The end *)

Section End_.
Context {E : Env} {N : Net}.

(** the commands that take the rules for SIP away *)
Definition removal (ttl : list Z) : list (list Z) :=
  [octets "iptables " ++ sip_rule false "INPUT" true ttl;
   octets "iptables " ++ sip_rule false "OUTPUT" true ttl].

Lemma remove_rules_runs w :
  runs (add_all_rules false true) w (λ _ w',
    host w' = on_rules (λ r, put_udp_added 0 (put_commands
      (commands r ++ removal (srpp_ttl_s (route (host w)))) r)) (host w) ∧
    padding w' = padding w).
Proof.
  unfold add_all_rules, add_pair, add_firewall_rule. fstep. fstep. cbn [andb].
  repeat first [fstep | rewrite andb_false_r].
  split; [|done]. unfold removal. simpl. unfold on_rules. simpl. by rewrite <-app_assoc.
Qed.

Lemma stop_after recv w w' :
  stop_discovering recv w = Done tt w' →
  is_discovering (host w') = 0 ∧ socket_open (host w') = false ∧ udp_added (rules (host w')) = 0 ∧
  ∃ before ttl, commands (rules (host w')) = before ++ removal ttl.
Proof.
  unfold stop_discovering. intros Hr. cbn [mbind M_bind fget gets] in Hr.
  unfold mbind, M_bind in Hr. cbn [fget gets] in Hr.
  match type of Hr with context [match ?m with Done _ _ => _ | Wait _ => _ | Fault => _ end] =>
    destruct m as [? w1|w1|]; [|done..] end.
  cbn [fset modify] in Hr.
  match type of Hr with context [add_all_rules false true ?w2] =>
    destruct (runs_Done _ _ _ (remove_rules_runs w2)) as (? & w3 & E3 & Hh & _) end.
  rewrite E3 in Hr. injection Hr as <-. rewrite Hh. split_and!; [done..|]. by eexists _, _.
Qed.

(** without an SRPP session, stopping gives these two commands only: the rules
    for media stay *)
Lemma stop_keeps_media_rules recv w :
  apply_srpp (media (host w)) = 0 →
  runs (stop_discovering recv) w (λ _ w',
    commands (rules (host w')) = commands (rules (host w)) ++ removal (srpp_ttl_s (route (host w))) ∧
    rtp_added (rules (host w')) = rtp_added (rules (host w))).
Proof.
  intros Ha. unfold stop_discovering. fstep. fstep. rewrite Ha. change (0 =? 1) with false. cbv iota. repeat fstep.
  eapply runs_mono; [apply remove_rules_runs|]. intros ? w' [Hh _]. fstep. by rewrite Hh.
Qed.

End End_.

(** ** Properties *)

(** C10: the padding option of the command line is in force in every state of the
    running program, and no other one: whatever packets arrive, however often the
    timer fires, through handshakes, calls and their ends, nothing sets or
    resets an option.  The option is the one the usage text names, with one exception,
    which is an error of the code: [--min-prob-bin] puts small perturbation in force,
    and min bin padding never is. *)
Theorem options_in_force {E : Env} {N : Net} argv w :
  env_ok E → running argv w →
  options_of (padding w) = (if asks_min_bin argv then mk_options 0 0 0 0 1 else documented argv) ∧
  is_min_bin_padding (padding w) = 0.
Proof.
  intros Henv Hw. pose proof (in_options _ _ (running_intact argv Henv w Hw)) as Ho.
  split; [exact Ho|]. change (min_bin (options_of (padding w)) = 0). rewrite Ho.
  unfold effective, asks_min_bin. pose proof (documented_cases argv) as H.
  by repeat (apply elem_of_cons in H as [->|H]); [..|apply elem_of_nil in H].
Qed.

(** C7: what the program is for: in every state of the running program started
    with an option other than gradual ascent, the conversion of any RTP packet of
    fewer than 1366 octets without contributing sources returns; the message is the
    mask of one that has the payload and the fields of the packet, the next sequence number and
    padding as the option says: up to nine octets with burst padding or small
    perturbation, exactly to 1458 octets on the wire with full bandwidth, one
    octet or more up to that size without an option.  Against its name, [--min-prob-bin] pads like
    small perturbation. *)
Theorem program_pads {E : Env} {N : Net} argv w r data :
  env_ok E → running argv w → gradual (documented argv) = 0 →
  rtp_wf r → r_cc r = 0 → is_bytes data → Z.of_nat (length data) < 1366 →
  ∃ m s w', rtp_to_srpp r data w = Done (encrypt (encryption_key w) m) w' ∧
    srpp_of_packet r data s (u16 (lastSequenceNo w + 1)) m ∧
    let extra := Z.of_nat (length s) in
    let wire := sizeof_SRPPHeader + Z.of_nat (length data) + extra + 12 in
    let o := documented argv in
    if (burst o =? 1) || (small o =? 1) || asks_min_bin argv then 0 <= extra < 10
    else if full o =? 1 then wire = 1458 else 0 < extra ∧ wire <= 1458.
Proof.
  intros Henv Hw Hg Hr Hcc Hb Hn.
  destruct (running_intact argv Henv w Hw) as [Ho Hc Hs _].
  assert (gradual_ascent_bandwidth (padding w) = 0) as Hg'.
  { change (gradual (options_of (padding w)) = 0). rewrite Ho. unfold effective. by destruct (asks_min_bin argv). }
  destruct (runs_Done _ _ _ (rtp_to_srpp_runs Henv r data w Hc Hs Hg' Hr Hcc Hb Hn))
    as (m' & w' & Hrun & m & s & -> & Hm & Hx & _).
  exists m, s, w'. split_and!; [done|done|]. cbv zeta.
  assert (is_small_perturbation (padding w) = small (effective argv) ∧
    is_burst_padding (padding w) = burst (effective argv) ∧
    is_full_bandwidth (padding w) = full (effective argv)) as (E1 & E2 & E3) by (by rewrite <-Ho).
  unfold extra_size_ok in Hx. rewrite E1, E2, E3 in Hx. clear - Hx. unfold effective, asks_min_bin in *.
  unfold sizeof_SRPPHeader. pose proof (documented_cases argv) as H.
  repeat (apply elem_of_cons in H as [H|H]; [rewrite H in *; simpl in *; lia|]). by apply elem_of_nil in H.
Qed.

(** how the program ends: with [--usage] it returns 1 before the filter starts,
    no firewall rule is touched and nothing is sent; else, when it returns, the
    status is 0, discovery is off, the raw socket is closed, and the last commands
    to the firewall take both rules for SIP away. *)
Theorem main_exit {E : Env} {N : Net} fuel n argv w status w' :
  at_start w → main fuel n argv w = Done status w' →
  if is_usage argv then status = 1 ∧ host w' = host w
  else status = 0 ∧ is_discovering (host w') = 0 ∧ socket_open (host w') = false ∧
    udp_added (rules (host w')) = 0 ∧
    ∃ before ttl, commands (rules (host w')) = before ++ removal ttl.
Proof.
  intros Hs Hr. unfold main in Hr.
  destruct (runs_Done _ _ _ (main_options_spec argv w Hs)) as (r & w1 & Ho & _ & Hh & ->).
  unfold mbind, M_bind in Hr. rewrite Ho in Hr.
  destruct (is_usage argv); cbn [mret M_ret] in Hr; [by injection Hr as <- <-|].
  destruct (sqrkal_discovery fuel n w1) as [? w2|w2|]; [|done..].
  destruct (destroy_discovery fuel w2) as [[] w3|w3|] eqn:Ed; [|done..]. injection Hr as <- <-.
  split; [done|]. by eapply stop_after.
Qed.

(** ** A concrete start *)

(** a host on which [rand()] is zero: every dummy has one octet *)
Definition still_env : Env := {|
  gettimeofday n := (0, Z.of_nat n);
  rand_seeded _ := 0;
  memory _ _ := 7;
  send_status _ := 0 |}.

Lemma still_env_ok : env_ok still_env.
Proof. split; simpl; [lia|done]. Qed.

Lemma sample_at_start : at_start (sample_world 0 0 1655).
Proof. constructor; try done. by exists sample_dummy, []. Qed.

Definition command_line (opt : string) : list (list Z) := [octets "sqrkald"; octets opt].

(** a call is set up while the filter runs *)
Definition sample_run (opt : string) : option world :=
  match main_options (command_line opt) (sample_world 0 0 1655) with
  | Done None w =>
      match @discover_init still_env sample_net w with
      | Done _ w => @serve still_env sample_net sample_call w
      | _ => None
      end
  | _ => None
  end.

Lemma serve_running {E : Env} {N : Net} argv xs w w' :
  running argv w → serve xs w = Some w' → running argv w'.
Proof.
  revert w. induction xs as [|x xs IH]; intros w Hw; cbn [serve]; [by intros [= <-]|].
  destruct (discover_step _ _) as [[] w1|w1|] eqn:Er; [|done..].
  apply IH. exact (p_turn _ _ _ _ (p_arrive _ _ x Hw) Er).
Qed.

Lemma sample_run_running opt w :
  sample_run opt = Some w → @running still_env sample_net (command_line opt) w.
Proof.
  unfold sample_run. destruct (main_options _ _) as [[] ?| |] eqn:E1; try done.
  destruct (discover_init _) as [[] ?| |] eqn:E2; try done.
  apply serve_running. eapply p_start; [apply sample_at_start|exact E1|exact E2].
Qed.

Lemma options_in_force_witness :
  ∃ w, sample_run "--burst-padding" = Some w ∧ is_session_on (call (host w)) = 1 ∧
    options_of (padding w) = mk_options 0 1 0 0 0 ∧ is_min_bin_padding (padding w) = 0.
Proof.
  assert (option_map (λ w, is_session_on (call (host w))) (sample_run "--burst-padding") = Some 1) as Hon
    by (vm_compute; reflexivity).
  destruct (sample_run "--burst-padding") as [w|] eqn:Ew; [|done]. injection Hon as Hon.
  exists w. split; [done|]. split; [done|].
  exact (@options_in_force still_env sample_net (command_line "--burst-padding") w still_env_ok
    (sample_run_running _ w Ew)).
Defined.

Lemma program_pads_witness :
  ∃ w m (s : list Z) w', sample_run "-fb" = Some w ∧
    @rtp_to_srpp still_env sample_rtp [1; 2; 3] w = Done (encrypt (encryption_key w) m) w' ∧
    original_payload (encrypted_part m) = [1; 2; 3] ∧
    sizeof_SRPPHeader + 3 + Z.of_nat (length s) + 12 = 1458.
Proof.
  assert (option_map (λ w, is_session_on (call (host w))) (sample_run "-fb") = Some 1) as Hon
    by (vm_compute; reflexivity).
  destruct (sample_run "-fb") as [w|] eqn:Ew; [|done]. clear Hon.
  destruct (@program_pads still_env sample_net (command_line "-fb") w sample_rtp [1; 2; 3] still_env_ok
    (sample_run_running _ w Ew)) as (m & s & w' & Hr & Hm & Hx);
    [reflexivity|eval_dec|reflexivity|eval_dec|simpl; lia|].
  exists w, m, s, w'. split_and!; [done|exact Hr|apply Hm|exact Hx].
Defined.

(** an application that speaks SRPP itself sends an INVITE: discovery ends, and the
    program with it *)
Definition srpp_invite : list Z :=
  octets "INVITE sip:bob@example.org SIP/2.0" ++ [10] ++ sample_sdp "10.0.0.1" "4000" "SRPP:".

Definition stopping_world : world :=
  set_host (put_queue [sip_arrival addr_a addr_b srpp_invite] (initial sample_dummy)) (sample_world 0 0 1655).

Lemma stopping_at_start : at_start stopping_world.
Proof. constructor; try done. by eexists _, _. Qed.

Lemma main_exit_witness :
  ∃ w', @main still_env sample_net 2 5 (command_line "-fb") stopping_world = Done 0 w' ∧
    socket_open (host w') = false ∧
    ∃ before ttl, commands (rules (host w')) = before ++ removal ttl.
Proof.
  destruct (@main still_env sample_net 2 5 (command_line "-fb") stopping_world)
    as [status w'| |] eqn:Em; [|vm_compute in Em; discriminate..].
  destruct (@main_exit still_env sample_net 2 5 (command_line "-fb") stopping_world status w'
    stopping_at_start Em) as (-> & _ & Hs & _ & Hc).
  exact (ex_intro _ w' (conj eq_refl (conj Hs Hc))).
Defined.
